(* ===== verification/_CoqProject ===== *)
-Q . S2P
Prelude.v
Words.v
Bignum.v
BignumSpec.v
BignumHeap.v
BignumMod.v
BignumModSpec.v
BignumStr.v
Cpu.v
Arithm.v
ArithmSpec.v
Storage.v
Bitfield.v
Gdb.v
Mmu.v
GuestMem.v
Loader.v
Elf.v
Uboot.v
ElfSpec.v
Helpers.v
HelpersSpec.v
MemSpec.v
PushSpec.v
Keccak.v
KeccakSpec.v
Translate.v
Disas.v
TraceFilter.v
TraceFilterSpec.v
Trace.v
TranslateSpec.v
Typing.v
Bounds.v
Evm.v
EvmSpec.v
RunSpec.v
TbCache.v
TbCacheSpec.v
TbPages.v
TbInvalidate.v
Debug.v
GdbStub.v
GdbSpec.v
GdbFrame.v
Board.v
NumberTheorems.v
MachineTheorems.v
SystemTheorems.v
DebugTheorems.v
LoaderTheorems.v
