(* ===== verification/Prelude.v ===== *)
(** * The EVM emulator of gvmcore: models and proofs

    gvmcore runs Ethereum bytecode in QEMU.  The program's own code is the
    target [QEMU/qemu/target-ppdl]: a CPU whose instructions are EVM opcodes,
    whose registers are a stack of 256-bit words, a byte memory, a gas counter
    and the data of the block, and whose helpers compute on multi-precision
    integers; the board [hw/ppdl]; the tracer's options; and what was changed
    of QEMU to load a program text.  The rest of the repository is upstream
    QEMU, a C++ simulator and scripts.  This development models the system-mode
    build with [EVM] defined, without the TLM bridge, from the file given with
    [-kernel] to the output of the program, and the debugger that stops and
    steps it, and proves what they compute.

    ** The parts of the program and where they are modelled

    Paths are relative to [src/QEMU/qemu]; those without a directory are in
    [target-ppdl].

    - [Prelude]: C integers ([u8] to [u64], [i32]), outcomes of C code
      ([Ok], [Exit], [Raise], [Undef]) with the notation [let*], arrays with
      bounds, the tactics and hint databases.  [Words]: hexadecimal text as
      printed and parsed by the C library, byte order.
    - [Bignum] and [BignumSpec]: the digit routines of [v_bignum.c] and what
      they compute on [Z].  [BignumHeap]: the static digit heap with
      [bignum_alloc] and [bignum_free], [v_bignum_div] and [v_bignum_mod].
      [BignumMod] and [BignumModSpec]: Barrett reduction, squaring and modular
      powers.  [BignumStr]: numbers from and to text and registers
      ([v_bignum_reg_to_bignum], [v_bignum_bignum_to_reg]).
    - [Cpu]: [CPUPPDLState] of [translate_cpu.h] and the globals the helpers
      share, together the record [machine]; [RESET], [OPER] and [saveState] of
      [translate_cpu.c].
    - [Arithm] and [ArithmSpec]: [UseGas], [DoArithm] and [DoCompare] of
      [functions.c], with the results the EVM's document
      ([emulator/docs/evm.pdf]) asks for and when the code agrees with them.  [Storage]: [SaveToStorage], [LoadFromStorage],
      [finalize] and [result_message] of [functions.c].
    - [Helpers], [HelpersSpec], [MemSpec], [PushSpec]: [func_shared.c],
      [func_helper.c] and the opcode tables of [arglist_helper.c].
    - [Keccak] and [KeccakSpec]: [Keccak.c], [Rotation.h] and [SHA_Endian.h],
      with a reference definition of Keccak-256.
    - [Translate] and [TranslateSpec]: [genBlock_Main] of [translate_insn.h]
      and the block loop of [translate.c]; SHA3 ([KeccakAlg] of
      [functions.c]).  The TCG operations emitted for an instruction are
      modelled by the effect of running them.
    - [TbCache]: the CPU loop of [cpu-exec.c] with [tb_find_fast] and
      [tb_find_slow], and the blocks of [translate-all.c]: allocation, flushing,
      the hash table and the lists of blocks of a page, invalidation of a block
      and of a range of memory.  [TbCacheSpec]: the invariant of the hash table
      and the jump cache.  [TbPages]: the invariant of the lists of the pages.
      [TbInvalidate]: invalidation keeps both and leaves no stale block.
    - [Debug]: the debugger's access to the CPU, from [exec.c] (breakpoints,
      watchpoints, single stepping, [cpu_memory_rw_debug]), with the run states
      of [vl.c].  [GdbStub]: the stub of [gdbstub.c] (in [src/QEMU/qemu]): its
      receiver, its commands, its reports.  [GdbSpec]: the invariant of a
      session.  [GdbFrame]: packets, their numbers and data, and a single step.
    - [Loader]: the images of [hw/core/loader.c], from hexadecimal text to
      memory.  [Elf] and [ElfSpec]: ELF files of both classes
      ([include/hw/elf_ops.h]), their segments and symbols, and the search for
      a symbol ([disas.c]).  [Uboot]: U-Boot images.  [Board]: [ppdl_init] of [hw/ppdl/ppdl.c], the CPU's realisation
      and reset, and the start of [vl.c].
    - [Bitfield] ([bitfield.c]), [Gdb] ([target-ppdl/gdbstub.c], the registers
      as the debugger sees them), [Mmu] ([mmu.c],
      [mmu_helper.c]), [GuestMem] ([semihosting_helper.c]), [Disas]
      ([func_disas.c]), [TraceFilter] and [TraceFilterSpec] ([qemu-trace.c],
      [include/qemu/trace.h] and the trace options of [vl.c]), [Trace]
      ([compareState] and the tracer helper).
    - [Evm]: an abstract machine on 256-bit words, the specification.
      [EvmSpec]: the translated code of each instruction implements its step.
      [RunSpec]: whole programs from reset.  [Typing]: the declared types and
      sizes as an invariant of execution.  [Bounds]: how many registers the
      instructions load, and from it how long a run can be.
    - [NumberTheorems], [MachineTheorems], [SystemTheorems], [DebugTheorems]
      and [LoaderTheorems]: the properties, each stated once and followed by an instance at a concrete input.

    ** How the parts interact

    At start the board resets the CPU and hands the image to the loader, which
    turns its text into bytes and sets the end of the program; the system reset
    resets the CPU again and copies the images into memory.  The CPU loop finds
    the block at [pc], in the jump cache, in the hash table, or by translating
    it: [gen_intermediate_code] decodes it byte by byte with [disas_ppdl_insn]
    and emits the code of each instruction with [genBlock_Main], incrementing
    [pc] after every one except a PUSH, which sets [pc] itself.  Instructions
    call helpers, which work on [stack_arr] through [sp] (four cells per word;
    -1 when the stack is empty), on [data_bus] (1024 bytes of memory) and on
    the storage list.  Arithmetic and the charging of gas load registers into
    numbers allocated on the bignum heap and write the result back.  RETURN
    prints the result and exits.

    The debugger stub reads packets byte by byte while the machine is stopped;
    a byte received while it runs stops it.  Its commands read and write the
    registers and the memory, set breakpoints, step and continue.  Writing
    memory invalidates the blocks translated from it, setting a breakpoint
    those at its address, and switching single stepping on or off flushes all
    of them.  In single-step mode a block is one instruction, after which the
    debug exception stops the machine and the stub reports the trap.

    ** What the theorems show

    - The whole system: an image with a program without JUMP is loaded, run
      block by block through the cache, and ends as the abstract machine does,
      with the same exit code and output ([program_correct]).  Behind it are
      [instruction_step], [block_execution], [image_loaded] and
      [cache_transparent]; [lookup_finds_translation] and [block_invalidated]
      are the invariant of the cache, [images_intact] that of the images.
    - Every run: all fields of the CPU state keep their types and arrays their
      sizes ([types_preserved]), at most 32 registers are loaded
      ([registers_bounded]), and the run ends ([every_run_ends]), with JUMP too,
      whose effect is [jump_taken].
    - Translation: it always ends ([translation_terminates]), only PUSH and
      JUMP move [pc], and no instruction writes guest memory
      ([instruction_flow]).
    - Instructions: every arithmetic, comparison and bit opcode, with the
      conditions under which the result is that of the EVM's document and an
      instance of every departure from it ([arithmetic], [comparison]), gas ([gas_charge]), PUSH, DUP, SWAP, MSTORE and MLOAD, the
      storage as a finite map, SHA3, and the two ends of a run.
    - Numbers: exact arithmetic modulo the size of the digits (products within
      the local array of [v_bignum_mul]), exact quotients,
      comparisons, Barrett reduction, modular powers, and the round trip of
      registers.
    - Keccak: the unrolled permutation is Keccak-f[1600] and the digest is the
      sponge of the standard, for messages of every length.
    - Binary images: the segments of an ELF file are in memory when the machine
      starts and the CPU is at its entry point ([elf_image_loaded]; for U-Boot
      images [uimage_loaded]), and its functions are found by address
      ([symbol_found]).
    - Debugging: whatever the debugger sends, the translated code stays
      consistent with memory and mode, so that the run goes on as the program
      now in memory ([session_consistent]); a step command executes one step of
      the abstract machine and reports it ([debugger_step]); memory written is
      memory read back, and nothing else changes ([memory_written_read]); a
      text is handled if its checksum is right and refused otherwise
      ([packet_framing]).  [block_invalidated] is what they rest on.
    - Around the CPU: debugger registers, address translation with its rights
      and faults, guest memory, bit fields, the tracer and the exactness of its
      two filters (an address may be refused, as the bytes behind an
      unterminated copy in [addrmatch] decide).
    - Where the code departs from the EVM or from its own comments, lemmas say
      what it does: [arith_departures], [compare_departures],
      [start_text_too_large], [address_refused], [mod_top_bit_lost], [heap_exhausted], [address_folded],
      [jump_falls_through], [system_opcodes_ignored], [stop_outcome],
      [pow_mod_zero_exponent], [page_crossing_overwrites],
      [short_packet_writes_all], [monitor_output_cut].

    ** Bounds and parameters

    - Translation has 257 rounds: a round consumes at least one byte and the
      loop ends with the page of 256 bytes, so the bound is never reached when
      the page is in memory; [translation_terminates] proves it.
    - [clear_bus] has 1025 rounds for the 1024 bytes it clears, [print_bytes]
      one per byte of memory, [exp_loop] as many as the exponent,
      [keccakUpdate_loop] one per byte of the message, the searches through the
      lists of blocks one more than there are blocks, the list parsers one per
      character; the specifications prove that each of them returns.
      [rw_debug_loop] has one round per byte, [vcont_loop] one per character and
      [gdb_monitor_write] one per byte of output; they return
      ([rw_debug_returns], [vcont_returns], [monitor_write_returns]).
      [filter_loop] and [bsearch_loop] have one round more than there are
      symbols ([filter_loop_ok], [bsearch_loop_complete]).  [v_bignum_reduce]
      takes the fuel of its last loop as an argument; three rounds are enough
      ([barrett_reduction]).
    - [run n] and [cpu_exec n] execute [n] blocks; a program that halts in [n]
      steps needs at most [n] blocks, and [every_run_ends] bounds [n] for every
      program.
    - [room] says, for each block, whether the operation buffer of TCG has room
      after a number of instructions.  [tcg] holds what the cache uses of TCG
      and of the soft MMU: the sizes of the buffers, the size of the code
      emitted for a block, the address in RAM of code; [TcgLimits] states what
      is relied on (there is room for a block, and the code of a block fits
      into the reserve that QEMU keeps at the end of the buffer), and
      [FlatCode] that code at an address is at that address of the RAM, the one
      region of the board.  [other] says whether a page is already marked dirty
      for the display and for migration, [stack] is what the stub's
      uninitialised buffer holds and, in the trace filters, what follows an
      unterminated copy.  [flags] is the value that
      [cpu_get_tb_cpu_state] leaves unset, and [over] is what lies in memory
      after the lanes of the hash state, which [keccakDigest] reads without
      using it.  [host] holds what the loaders use of the
      host's libraries (whether an allocation succeeds, [qsort], zlib);
      [HostLaws] states that [qsort] sorts, and [small_host] is an instance.  The theorems hold for all of them.
    - [Undef] stands for accesses beyond an array, NULL dereferences, values of
      functions that return none, uninitialised values and [abort]; nothing is
      claimed of what follows.  The [int] products of two digits in
      [v_bignum_mul] and [v_bignum_square_half], which C leaves undefined above
      [INT_MAX], are taken to wrap around.
    - Images: a program text has at most 0x7ffff000 bytes, what one [read] can
      give; sizes of files are [int] values as in the code.  Messages hashed are
      below 2 GiB.

    ** What is not modelled

    - Chains of direct jumps between blocks: blocks of this target end with
      [exit_tb(0)], so none arises.  Interrupts, exit requests, the instruction
      counter, the option [-singlestep].
    - Breakpoints never stop the machine: [check_breakpoint] of [translate.c] is
      not called, and the model has no such exit either.  System calls through
      the debugger, coprocessor registers and XML descriptions of registers:
      this target uses none of them.
    - The user-mode and TLM builds, logging.
    - The a.out loader, firmware configuration files, [rom_copy]: the board uses
      none of them.
    - Migration, the interrupt controller (which the board does not create) and
      the rest of QEMU.

    ** Why the rest is left out

    What remains of the target is declarations: the migration format
    ([machine.c]), the registration of the CPU class, the empty interrupt
    handler, tables printed by the user-mode build.  Everything else in the
    repository is upstream QEMU for other targets and devices. *)

From stdpp Require Import base numbers list option strings.
From Stdlib Require Import ZArith Lia.
#[global] Open Scope Z_scope.

(** ** C integers

    A w-bit unsigned integer is a [Z] in [0, 2^w); every C conversion or
    arithmetic operation at width w is followed by the wrap-around below. *)

Definition u8 (z : Z) : Z := z mod 2 ^ 8.
Definition u16 (z : Z) : Z := z mod 2 ^ 16.
Definition u32 (z : Z) : Z := z mod 2 ^ 32.
Definition u64 (z : Z) : Z := z mod 2 ^ 64.

(** Conversion to [int32_t] / [int]: two's complement. *)
Definition i32 (z : Z) : Z := (z + 2 ^ 31) mod 2 ^ 32 - 2 ^ 31.

(** Conversion of a signed byte ([cpu_ldsb_*] sign-extend). *)
Definition i8 (z : Z) : Z := (z + 2 ^ 7) mod 2 ^ 8 - 2 ^ 7.

(** A C comparison used as a number. *)
Definition b2z (b : bool) : Z := if b then 1 else 0.

(** ** Outcomes of a piece of C code

    [Ok] is normal completion; [Exit code out] is a call of [exit], with what
    was printed by the program; [Raise excp] is a jump back to the CPU loop
    with an exception number ([cpu_loop_exit]); [Undef] is the point from which the C
    program has no defined behaviour (NULL dereference, array access out of
    range, use of the value of a function that returned none). *)

Inductive outcome (A : Type) : Type :=
| Ok (a : A)
| Exit (code : Z) (out : list Z)
| Raise (excp : Z)
| Undef.
Arguments Ok {A} a.
Arguments Exit {A} code out.
Arguments Raise {A} excp.
Arguments Undef {A}.

Definition obind {A B} (m : outcome A) (f : A -> outcome B) : outcome B :=
  match m with
  | Ok a => f a
  | Exit c o => Exit c o
  | Raise e => Raise e
  | Undef => Undef
  end.

Declare Scope c_scope.
Delimit Scope c_scope with c.
Notation "'let*' x := m 'in' k" := (obind m (fun x => k))
  (at level 10, x pattern, m at level 100, k at level 200) : c_scope.
#[global] Open Scope c_scope.

(** ** Arrays

    [a[i]] and [a[i] = v] on an array of known size, with the C index as a
    [Z]: out of range is [Undef]. *)

Definition aget (a : list Z) (i : Z) : outcome Z :=
  if (0 <=? i) && (i <? Z.of_nat (length a))
  then Ok (nth (Z.to_nat i) a 0)
  else Undef.

Definition aset (a : list Z) (i v : Z) : outcome (list Z) :=
  if (0 <=? i) && (i <? Z.of_nat (length a))
  then Ok (<[Z.to_nat i := v]> a)
  else Undef.

(** C strings: arrays of character codes. *)
Definition codes (s : string) : list Z :=
  map (fun a => Z.of_N (Ascii.N_of_ascii a)) (String.list_ascii_of_string s).

(** The character code of a lower-case, resp. upper-case, hexadecimal digit. *)
Definition hexdig (n : Z) : Z := if n <? 10 then n + 48 else n + 87.
Definition HEXDIG (n : Z) : Z := if n <? 10 then n + 48 else n + 55.

(** Values of one C type. *)
Definition is_u8 (z : Z) : Prop := 0 <= z < 2 ^ 8.
Definition is_u16 (z : Z) : Prop := 0 <= z < 2 ^ 16.
Definition is_u32 (z : Z) : Prop := 0 <= z < 2 ^ 32.
Definition is_u64 (z : Z) : Prop := 0 <= z < 2 ^ 64.

(** ** Tactics and lemmas *)

Create HintDb cint.
Create HintDb zbits.

Ltac dm := Z.div_mod_to_equations; nia.

Lemma u8_range z : is_u8 (u8 z).
Proof. apply Z.mod_pos_bound. lia. Qed.
Lemma u16_range z : is_u16 (u16 z).
Proof. apply Z.mod_pos_bound. lia. Qed.
Lemma u32_range z : is_u32 (u32 z).
Proof. apply Z.mod_pos_bound. lia. Qed.
Lemma u64_range z : is_u64 (u64 z).
Proof. apply Z.mod_pos_bound. lia. Qed.
#[export] Hint Resolve u8_range u16_range u32_range u64_range : cint.

Lemma u8_id z : is_u8 z -> u8 z = z.
Proof. apply Z.mod_small. Qed.
Lemma u16_id z : is_u16 z -> u16 z = z.
Proof. apply Z.mod_small. Qed.
Lemma u32_id z : is_u32 z -> u32 z = z.
Proof. apply Z.mod_small. Qed.
Lemma u64_id z : is_u64 z -> u64 z = z.
Proof. apply Z.mod_small. Qed.

Lemma i32_id z : - 2 ^ 31 <= z < 2 ^ 31 -> i32 z = z.
Proof. intros H. unfold i32. rewrite Z.mod_small; lia. Qed.

Lemma b2z_range b : 0 <= b2z b <= 1.
Proof. destruct b; simpl; lia. Qed.

(** Bitwise equality on [Z]: reduces to an equality of booleans per bit. *)
Lemma testbit_small a n i : 0 <= a < 2 ^ n -> n <= i -> Z.testbit a i = false.
Proof.
  intros Ha Hi.
  destruct (Z.eq_dec a 0) as [->|Hz]; [apply Z.bits_0|].
  assert (0 <= n) by (destruct (Z.lt_ge_cases n 0); [rewrite Z.pow_neg_r in Ha; lia|lia]).
  apply Z.bits_above_log2; [lia|].
  apply Z.log2_lt_pow2; [lia|].
  apply Z.lt_le_trans with (2 ^ n); [lia|]. apply Z.pow_le_mono_r; lia.
Qed.

Lemma testbit_mod_pow2 a n i :
  0 <= n -> Z.testbit (a mod 2 ^ n) i = (i <? n) && Z.testbit a i.
Proof.
  intros Hn. destruct (Z.ltb_spec i n); simpl.
  - destruct (Z.lt_ge_cases i 0).
    + rewrite !Z.testbit_neg_r by lia. done.
    + by apply Z.mod_pow2_bits_low.
  - apply Z.mod_pow2_bits_high. lia.
Qed.

Lemma lor_add a b n :
  0 <= n -> 0 <= a < 2 ^ n -> Z.lor a (b * 2 ^ n) = a + b * 2 ^ n.
Proof.
  intros Hn Ha. rewrite <- Z.lxor_lor, <- Z.add_nocarry_lxor; try done;
    apply Z.bits_inj'; intros i Hi; rewrite Z.land_spec, Z.bits_0;
    rewrite <- Z.shiftl_mul_pow2 by done; rewrite Z.shiftl_spec by done;
    (destruct (Z.lt_ge_cases i n);
      [rewrite (Z.testbit_neg_r b) by lia; apply andb_false_r
      |rewrite (testbit_small a n) by lia; done]).
Qed.

Lemma lor_range a b n :
  0 <= n -> 0 <= a < 2 ^ n -> 0 <= b < 2 ^ n -> 0 <= Z.lor a b < 2 ^ n.
Proof.
  intros Hn Ha Hb. split; [apply Z.lor_nonneg; lia|].
  assert (Z.lor a b = Z.lor a b mod 2 ^ n) as ->; [|apply Z.mod_pos_bound; lia].
  symmetry. apply Z.bits_inj'. intros i Hi.
  rewrite testbit_mod_pow2, !Z.lor_spec by done.
  destruct (Z.ltb_spec i n); [done|].
  rewrite (testbit_small a n), (testbit_small b n) by lia. done.
Qed.

Lemma land_range a b n :
  0 <= n -> 0 <= a < 2 ^ n -> 0 <= Z.land a b < 2 ^ n.
Proof.
  intros Hn Ha. split; [apply Z.land_nonneg; lia|].
  assert (Z.land a b = Z.land a b mod 2 ^ n) as ->; [|apply Z.mod_pos_bound; lia].
  symmetry. apply Z.bits_inj'. intros i Hi.
  rewrite testbit_mod_pow2, !Z.land_spec by done.
  destruct (Z.ltb_spec i n); [done|]. rewrite (testbit_small a n) by lia. done.
Qed.

Lemma lxor_range a b n :
  0 <= n -> 0 <= a < 2 ^ n -> 0 <= b < 2 ^ n -> 0 <= Z.lxor a b < 2 ^ n.
Proof.
  intros Hn Ha Hb. split; [apply Z.lxor_nonneg; lia|].
  assert (Z.lxor a b = Z.lxor a b mod 2 ^ n) as ->; [|apply Z.mod_pos_bound; lia].
  symmetry. apply Z.bits_inj'. intros i Hi.
  rewrite testbit_mod_pow2, !Z.lxor_spec by done.
  destruct (Z.ltb_spec i n); [done|].
  rewrite (testbit_small a n), (testbit_small b n) by lia. done.
Qed.

(** [x & (2^n - 1)] *)
Lemma land_mask a n m : 0 <= n -> m = Z.ones n -> Z.land a m = a mod 2 ^ n.
Proof. intros Hn ->. by apply Z.land_ones. Qed.

Lemma land_ff a : Z.land a 255 = a mod 2 ^ 8.
Proof. by apply (land_mask a 8). Qed.
Lemma land_ffff a : Z.land a 65535 = a mod 2 ^ 16.
Proof. by apply (land_mask a 16). Qed.

(** A computation that ended normally. *)
Lemma obind_ok {A B} (x : outcome A) (f : A -> outcome B) r :
  obind x f = Ok r -> exists a, x = Ok a /\ f a = Ok r.
Proof. destruct x; simpl; try discriminate. eauto. Qed.

(** Array access in range. *)
Lemma aget_ok a i :
  0 <= i < Z.of_nat (length a) -> aget a i = Ok (nth (Z.to_nat i) a 0).
Proof.
  intros H. unfold aget.
  rewrite (proj2 (Z.leb_le _ _)), (proj2 (Z.ltb_lt _ _)) by lia. done.
Qed.

Lemma aset_ok a i v :
  0 <= i < Z.of_nat (length a) -> aset a i v = Ok (<[Z.to_nat i := v]> a).
Proof.
  intros H. unfold aset.
  rewrite (proj2 (Z.leb_le _ _)), (proj2 (Z.ltb_lt _ _)) by lia. done.
Qed.

Lemma aget_oob a i : ~ 0 <= i < Z.of_nat (length a) -> aget a i = Undef.
Proof.
  intros H. unfold aget.
  destruct (Z.leb_spec 0 i), (Z.ltb_spec i (Z.of_nat (length a))); simpl; try done; lia.
Qed.

Lemma aset_oob a i v : ~ 0 <= i < Z.of_nat (length a) -> aset a i v = Undef.
Proof.
  intros H. unfold aset.
  destruct (Z.leb_spec 0 i), (Z.ltb_spec i (Z.of_nat (length a))); simpl; try done; lia.
Qed.

Lemma nth_insert (l : list Z) i j v d :
  (i < length l)%nat -> nth j (<[i := v]> l) d = if decide (i = j) then v else nth j l d.
Proof.
  intros Hi. rewrite !nth_lookup. case_decide as E.
  - subst. by rewrite list_lookup_insert_eq.
  - by rewrite list_lookup_insert_ne.
Qed.

Lemma lookup_app_plus {A} (l r : list A) k : (l ++ r) !! (length l + k)%nat = r !! k.
Proof. rewrite lookup_app_r by lia. f_equal. lia. Qed.

Lemma is_u64_0 : is_u64 0.
Proof. unfold is_u64. lia. Qed.
#[export] Hint Resolve is_u64_0 : cint.

(** Lists of values of one type. *)
Ltac all_u := repeat apply Forall_cons_2; auto using Forall_nil_2 with cint.

Lemma nth_map_seq_z (f : nat -> Z) n i : (i < n)%nat -> nth i (map f (seq 0 n)) 0 = f i.
Proof.
  intros Hi. rewrite nth_lookup, list_lookup_fmap, lookup_seq_lt by done. done.
Qed.

Lemma lor_lt_pow2 a b n : 0 <= n -> 0 <= a < 2 ^ n -> 0 <= b < 2 ^ n -> Z.lor a b < 2 ^ n.
Proof.
  intros Hn Ha Hb. assert (0 <= Z.lor a b) by (apply Z.lor_nonneg; lia).
  destruct (Z.eq_dec (Z.lor a b) 0) as [->|Hz]; [lia|].
  apply Z.log2_lt_pow2; [lia|]. rewrite Z.log2_lor by lia.
  apply Z.max_lub_lt.
  - destruct (Z.eq_dec a 0) as [->|]; [|apply Z.log2_lt_pow2; lia].
    destruct (Z.eq_dec n 0) as [->|]; [|simpl; lia]. change (2 ^ 0) with 1 in *. assert (b = 0) by lia. subst. done.
  - destruct (Z.eq_dec b 0) as [->|]; [|apply Z.log2_lt_pow2; lia].
    destruct (Z.eq_dec n 0) as [->|]; [|simpl; lia]. change (2 ^ 0) with 1 in *. assert (a = 0) by lia. subst. done.
Qed.
