(* ===== verification/Words.v ===== *)
(** * Bytes, 64-bit words and hexadecimal text

    What the sources use of the C library's text functions ([sprintf] with
    [%x] and [%d] conversions, [isxdigit], [tolower], [strtoull] in base 16), and the
    byte order arithmetic shared by the components. *)

From stdpp Require Import base numbers list option.
From Stdlib Require Import ZArith Lia.
From S2P Require Import Prelude.

(** ** Formatting *)

(** The digits of [n], at least one, most significant first. *)
Fixpoint hex_digits (fuel : nat) (dig : Z -> Z) (n : Z) : list Z :=
  match fuel with
  | O => [dig (n mod 16)]
  | S f => if n <? 16 then [dig n] else hex_digits f dig (n / 16) ++ [dig (n mod 16)]
  end.

(** [%0<w>x] for [dig = hexdig], [%0<w>X] for [HEXDIG], of a value of at most
    64 bits (16 digits). *)
Definition fmt_x (dig : Z -> Z) (w : nat) (n : Z) : list Z :=
  let s := hex_digits 16 dig n in
  replicate (w - length s) 48 ++ s.

(** Decimal digits. *)
Fixpoint dec_digits (fuel : nat) (n : Z) : list Z :=
  match fuel with
  | O => []
  | S f => (if n <? 10 then [] else dec_digits f (n / 10)) ++ [48 + n mod 10]
  end.

(** ["%0<w>d"] of an [int] *)
Definition fmt_d (w : nat) (v : Z) : list Z :=
  let s := dec_digits 20 (Z.abs v) in
  if v <? 0 then 45 :: replicate (w - 1 - length s) 48 ++ s else replicate (w - length s) 48 ++ s.

(** ** Reading *)

Definition isdigit (c : Z) : bool := (48 <=? c) && (c <=? 57).
Definition isxdigit (c : Z) : bool :=
  isdigit c || ((97 <=? c) && (c <=? 102)) || ((65 <=? c) && (c <=? 70)).
Definition tolower (c : Z) : Z := if (65 <=? c) && (c <=? 90) then c + 32 else c.

(** The value of a hexadecimal digit. *)
Definition xval (c : Z) : Z :=
  if isdigit c then c - 48 else tolower c - 87.

(** The longest prefix of digits; [ULLONG_MAX] on overflow. *)
Fixpoint strtoull16_loop (s : list Z) (acc : Z) : Z :=
  match s with
  | c :: s' => if isxdigit c then strtoull16_loop s' (16 * acc + xval c) else acc
  | [] => acc
  end.
Definition strtoull16 (s : list Z) : Z := Z.min (strtoull16_loop s 0) (2 ^ 64 - 1).

(** ** Byte lists *)

Fixpoint le_bytes (n : nat) (w : Z) : list Z :=
  match n with
  | O => []
  | S n' => w mod 2 ^ 8 :: le_bytes n' (w / 2 ^ 8)
  end.

Fixpoint le_val (l : list Z) : Z :=
  match l with
  | [] => 0
  | b :: l' => b + 2 ^ 8 * le_val l'
  end.

Definition bswap64 (w : Z) : Z := le_val (rev (le_bytes 8 w)).

(** ** Lemmas on formatting *)

(** The [w] hexadecimal digits of [n]. *)
Fixpoint fixed_hex (dig : Z -> Z) (w : nat) (n : Z) : list Z :=
  match w with
  | O => []
  | S w' => fixed_hex dig w' (n / 16) ++ [dig (n mod 16)]
  end.

Definition zero_dig (dig : Z -> Z) : Prop := dig 0 = 48.

Lemma fixed_hex_0 dig w : zero_dig dig -> fixed_hex dig w 0 = replicate w 48.
Proof.
  intros Hd. induction w as [|w IH]; [done|]. cbn [fixed_hex].
  change (0 / 16) with 0. change (0 mod 16) with 0. rewrite IH, Hd.
  change [48] with (replicate 1 48). by rewrite <- replicate_add, Nat.add_comm.
Qed.

Lemma length_fixed_hex dig w n : length (fixed_hex dig w n) = w.
Proof.
  revert n; induction w as [|w IH]; intros n; [done|]. cbn [fixed_hex].
  rewrite length_app, IH. simpl. lia.
Qed.

Lemma pad_hex dig w f n :
  zero_dig dig -> (w <= f)%nat -> 0 <= n < 16 ^ Z.of_nat w -> (0 < w)%nat ->
  let s := hex_digits f dig n in replicate (w - length s) 48 ++ s = fixed_hex dig w n.
Proof.
  intros Hd. revert w n; induction f as [|f IH]; intros w n Hw Hn Hw0; [lia|]. cbn zeta.
  destruct w as [|w]; [lia|]. cbn [hex_digits fixed_hex].
  rewrite Nat2Z.inj_succ, Z.pow_succ_r in Hn by lia.
  destruct (Z.ltb_spec n 16).
  - rewrite Z.div_small, Z.mod_small, fixed_hex_0 by (done || lia). simpl. by rewrite Nat.sub_0_r.
  - rewrite length_app. simpl. rewrite Nat.add_1_r, Nat.sub_succ, app_assoc. f_equal.
    apply IH; [lia| |].
    + split; [dm|]. apply Z.div_lt_upper_bound; lia.
    + destruct w; [|lia]. simpl in Hn. lia.
Qed.

Lemma fmt_x_fixed dig w n :
  zero_dig dig -> (0 < w <= 16)%nat -> 0 <= n < 16 ^ Z.of_nat w ->
  fmt_x dig w n = fixed_hex dig w n.
Proof. intros. unfold fmt_x. apply pad_hex; auto; lia. Qed.

(** ** Lemmas on reading back *)

(** [0..15] are the values of hexadecimal digits. *)
Definition good_dig (dig : Z -> Z) : Prop :=
  forall n, 0 <= n < 16 -> isxdigit (dig n) = true /\ xval (dig n) = n.

Lemma range16 (P : Z -> Prop) :
  (forall k, In k (map Z.of_nat (seq 0 16)) -> P k) -> forall n, 0 <= n < 16 -> P n.
Proof.
  intros H n Hn. apply H. rewrite <- (Z2Nat.id n) by lia. apply in_map, in_seq. lia.
Qed.

Lemma hexdig_good : good_dig hexdig.
Proof.
  refine (range16 (fun n => isxdigit (hexdig n) = true /\ xval (hexdig n) = n) _).
  intros k Hk. simpl in Hk. by repeat destruct Hk as [<-|Hk].
Qed.
Lemma HEXDIG_good : good_dig HEXDIG.
Proof.
  refine (range16 (fun n => isxdigit (HEXDIG n) = true /\ xval (HEXDIG n) = n) _).
  intros k Hk. simpl in Hk. by repeat destruct Hk as [<-|Hk].
Qed.
Lemma hexdig_zero : zero_dig hexdig.
Proof. done. Qed.
Lemma HEXDIG_zero : zero_dig HEXDIG.
Proof. done. Qed.
#[export] Hint Resolve hexdig_good HEXDIG_good hexdig_zero HEXDIG_zero : cint.

Lemma strtoull16_loop_app s t acc :
  Forall (fun c => isxdigit c = true) s ->
  strtoull16_loop (s ++ t) acc = strtoull16_loop t (strtoull16_loop s acc).
Proof.
  intros Hs. revert acc; induction Hs as [|c s Hc Hs IH]; intros acc; [done|].
  simpl. rewrite Hc. apply IH.
Qed.

Lemma fixed_hex_xdigit dig w n : good_dig dig -> Forall (fun c => isxdigit c = true) (fixed_hex dig w n).
Proof.
  intros Hd. revert n; induction w as [|w IH]; intros n; [constructor|]. cbn [fixed_hex].
  apply Forall_app_2; [done|]. constructor; [|constructor]. apply Hd. dm.
Qed.

Lemma strtoull16_loop_fixed dig w n acc :
  good_dig dig -> 0 <= n ->
  strtoull16_loop (fixed_hex dig w n) acc = 16 ^ Z.of_nat w * acc + n mod 16 ^ Z.of_nat w.
Proof.
  intros Hd. revert n acc; induction w as [|w IH]; intros n acc Hn.
  - cbn [fixed_hex strtoull16_loop Z.of_nat]. rewrite Z.pow_0_r, Z.mod_1_r. lia.
  - cbn [fixed_hex]. rewrite strtoull16_loop_app by (by apply fixed_hex_xdigit).
    rewrite IH by dm. cbn [strtoull16_loop].
    destruct (Hd (n mod 16)) as [-> ->]; [dm|].
    rewrite Nat2Z.inj_succ, Z.pow_succ_r by lia.
    rewrite (Z.rem_mul_r n 16) by lia. lia.
Qed.

(** ** Lemmas on bytes *)

Lemma length_le_bytes n w : length (le_bytes n w) = n.
Proof. revert w; induction n; intros; simpl; auto. Qed.

Lemma le_bytes_u8 n w : Forall is_u8 (le_bytes n w).
Proof. revert w; induction n; intros; constructor; auto. apply (u8_range w). Qed.

Lemma le_val_range l : Forall is_u8 l -> 0 <= le_val l < 2 ^ (8 * Z.of_nat (length l)).
Proof.
  induction 1 as [|b l Hb Hl IH]; [done|]. cbn [le_val length].
  rewrite Nat2Z.inj_succ. replace (8 * Z.succ _) with (8 + 8 * Z.of_nat (length l)) by lia.
  rewrite Z.pow_add_r by lia. unfold is_u8 in Hb. lia.
Qed.

Lemma le_val_bytes n w : 0 <= w -> le_val (le_bytes n w) = w mod 2 ^ (8 * Z.of_nat n).
Proof.
  revert w; induction n as [|n IH]; intros w Hw; cbn [le_bytes le_val].
  - by rewrite Z.mod_1_r.
  - rewrite IH by dm. rewrite Nat2Z.inj_succ.
    replace (8 * Z.succ (Z.of_nat n)) with (8 + 8 * Z.of_nat n) by lia.
    rewrite Z.pow_add_r by lia. rewrite Z.rem_mul_r by lia. done.
Qed.

Lemma le_bytes_val l : Forall is_u8 l -> le_bytes (length l) (le_val l) = l.
Proof.
  induction 1 as [|b l Hb Hl IH]; [done|]. cbn [length le_val le_bytes]. unfold is_u8 in Hb.
  f_equal; [dm|]. replace ((b + 2 ^ 8 * le_val l) / 2 ^ 8) with (le_val l) by dm. done.
Qed.

Lemma le_val_app l m : le_val (l ++ m) = le_val l + 2 ^ (8 * Z.of_nat (length l)) * le_val m.
Proof.
  induction l as [|b l IH]; cbn [app le_val length]; [rewrite Z.pow_0_r; lia|].
  rewrite IH, Nat2Z.inj_succ. replace (8 * Z.succ _) with (8 + 8 * Z.of_nat (length l)) by lia.
  rewrite Z.pow_add_r by lia. lia.
Qed.

Lemma bswap64_range w : is_u64 (bswap64 w).
Proof.
  unfold bswap64. pose proof (le_val_range (rev (le_bytes 8 w))) as H.
  rewrite length_rev, length_le_bytes in H. apply H. apply Forall_rev, le_bytes_u8.
Qed.
#[export] Hint Resolve bswap64_range : cint.

Lemma bswap64_invol w : is_u64 w -> bswap64 (bswap64 w) = w.
Proof.
  intros Hw. unfold bswap64 at 1. unfold bswap64.
  replace 8%nat with (length (rev (le_bytes 8 w))) at 1 by (by rewrite length_rev, length_le_bytes).
  rewrite le_bytes_val by (apply Forall_rev, le_bytes_u8).
  rewrite rev_involutive, le_val_bytes by apply Hw. by apply Z.mod_small.
Qed.

Lemma bswap64_inj v w : is_u64 v -> is_u64 w -> bswap64 v = bswap64 w -> v = w.
Proof. intros Hv Hw E. rewrite <- (bswap64_invol v), <- (bswap64_invol w) by done. by rewrite E. Qed.

Lemma bswap64_bytes w : is_u64 w -> le_bytes 8 (bswap64 w) = rev (le_bytes 8 w).
Proof.
  intros _. unfold bswap64.
  replace 8%nat with (length (rev (le_bytes 8 w))) at 1 by (by rewrite length_rev, length_le_bytes).
  apply le_bytes_val, Forall_rev, le_bytes_u8.
Qed.
