(* ===== verification/Bignum.v ===== *)
(** * Big integers: the digit routines of [target-ppdl/v_bignum.c]

    A [VBigDig] vector holds its length in element 0 and then its digits, low
    digit first.  The model is the list of digits; the length word is the
    list's length (only [VBIGNUM] and [bignum_alloc] write it).  A C routine
    that updates [x] in place is a function that returns the new digits.

    Digits are 16-bit, intermediate values are 32-bit ([unsigned int]); the
    products of two digits, computed at type [int] by C's promotions, are
    converted to [unsigned int], i.e. taken modulo 2^32. *)

From stdpp Require Import base numbers list option.
From Stdlib Require Import ZArith Lia.
From S2P Require Import Prelude.

Abbreviation bignum := (list Z) (only parsing).

Definition V_BIGBITS : Z := 16.
Definition MAX_DIG : Z := 2 ^ V_BIGBITS - 1.

(** ** Import and export of raw big-endian bytes *)

Fixpoint raw_import_loop (n : nat) (bytes : list Z) : outcome bignum :=
  match n with
  | O => Ok []
  | S i =>
      match bytes with
      | b1 :: b2 :: rest =>
          let* low := raw_import_loop i rest in
          Ok (low ++ [Z.lor (u16 (Z.shiftl b1 8)) b2])
      | _ => Undef
      end
  end.

Definition v_bignum_raw_import (x : bignum) (bits : list Z) : outcome bignum :=
  raw_import_loop (length x) bits.

Fixpoint raw_export_loop (n : nat) (x : bignum) : list Z :=
  match n with
  | O => []
  | S i => u8 (Z.shiftr (nth i x 0) 8) :: u8 (nth i x 0) :: raw_export_loop i x
  end.

Definition v_bignum_raw_export (x : bignum) : list Z :=
  raw_export_loop (length x) x.

(** ** Initializers *)

Definition v_bignum_set_zero (x : bignum) : bignum := map (fun _ => 0) x.

Definition v_bignum_set_one (x : bignum) : bignum :=
  match x with
  | [] => []
  | _ :: x' => 1 :: map (fun _ => 0) x'
  end.

Definition v_bignum_set_digit (x : bignum) (y : Z) : bignum :=
  <[0%nat := u16 y]> (v_bignum_set_zero x).

(** [x = y], truncating or zero-extending to the size of [x]. *)
Definition v_bignum_set_bignum (x y : bignum) : bignum :=
  let xs := length x in
  let ys := length y in
  if (xs =? ys)%nat then y
  else
    let s := if (xs <? ys)%nat then xs else ys in
    take s y ++ replicate (xs - s) 0.

(** ** Bitwise operations *)

(** The loop [for(i = 0; i < s; i++) x[i] = f(x[i], y[i])], [s] the smaller
    length: digits of [x] beyond the length of [y] are kept. *)
Fixpoint digitwise (f : Z -> Z -> Z) (x y : bignum) : bignum :=
  match x, y with
  | xi :: x', yi :: y' => u16 (f xi yi) :: digitwise f x' y'
  | _, _ => x
  end.

Definition v_bignum_and (x y : bignum) : bignum := digitwise Z.land x y.
Definition v_bignum_or (x y : bignum) : bignum := digitwise Z.lor x y.
Definition v_bignum_xor (x y : bignum) : bignum := digitwise Z.lxor x y.
Definition v_bignum_not (x : bignum) : bignum := map (fun xi => u16 (Z.lnot xi)) x.

Definition v_bignum_bit_test (x : bignum) (bit : Z) : bool :=
  let slot := bit / 16 in
  let m := Z.shiftl 1 (bit mod 16) in
  if slot <? Z.of_nat (length x)
  then negb (Z.land (nth (Z.to_nat slot) x 0) m =? 0)
  else false.

Definition v_bignum_bit_set (x : bignum) (bit : Z) : bignum :=
  if Z.of_nat (length x) * 16 <=? bit then x
  else
    let slot := Z.to_nat (bit / 16) in
    let m := Z.shiftl 1 (bit mod 16) in
    <[slot := u16 (Z.lor (nth slot x 0) m)]> x.

Definition v_bignum_bit_clear (x : bignum) (bit : Z) : bignum :=
  if Z.of_nat (length x) * 16 <=? bit then x
  else
    let slot := Z.to_nat (bit / 16) in
    let m := Z.shiftl 1 (bit mod 16) in
    <[slot := u16 (Z.land (nth slot x 0) (Z.lnot m))]> x.

(** The scan of one digit for its highest set bit, [mask] going down from
    bit [15]; [k] bits are left to look at. *)
Fixpoint msb_scan (k : nat) (d bit : Z) : option Z :=
  match k with
  | O => None
  | S k' =>
      let mask := Z.shiftl 1 (Z.of_nat k') in
      if negb (Z.land d mask =? 0) then Some bit else msb_scan k' d (bit - 1)
  end.

Fixpoint bit_msb_loop (i : nat) (x : bignum) : Z :=
  match i with
  | O => -1
  | S i' =>
      let d := nth i' x 0 in
      if d =? 0 then bit_msb_loop i' x
      else
        match msb_scan 16 d (Z.of_nat i * 16 - 1) with
        | Some bit => bit
        | None => bit_msb_loop i' x
        end
  end.

Definition v_bignum_bit_msb (x : bignum) : Z := bit_msb_loop (length x) x.

Definition v_bignum_bit_size (x : bignum) : Z := Z.of_nat (length x) * V_BIGBITS.

(** [x = y[msb : msb - bits]], right-adjusted.  [bit] is an [unsigned int]. *)
Fixpoint set_part_loop (n : nat) (i : Z) (x y : bignum) (msb bits : Z) : bignum :=
  match n with
  | O => x
  | S n' =>
      let bit := u32 (msb - (bits - 1) + i) in
      let x := if v_bignum_bit_test y bit then v_bignum_bit_set x i else x in
      set_part_loop n' (i + 1) x y msb bits
  end.

Definition v_bignum_set_bignum_part (x y : bignum) (msb bits : Z) : bignum :=
  let x := v_bignum_set_zero x in
  if Z.of_nat (length y) * 16 <? msb then x
  else set_part_loop (Z.to_nat bits) 0 x y msb bits.

(** ** Shifts *)

Fixpoint shl_bits (x : bignum) (count carry : Z) : bignum :=
  match x with
  | [] => []
  | xi :: x' =>
      let t := u32 (Z.lor (Z.shiftl xi count) carry) in
      u16 t :: shl_bits x' count (Z.shiftr t 16)
  end.

(** Whole digits: [x[i] = x[i - places]] from the top, then zeros. *)
Definition shl_digits (x : bignum) (places : nat) : bignum :=
  map (fun i => if (places <=? i)%nat then nth (i - places) x 0 else 0)
      (seq 0 (length x)).

Definition v_bignum_bit_shift_left (x : bignum) (count : Z) : bignum :=
  if 16 <=? count then
    let places := count / 16 in
    let x := shl_digits x (Z.to_nat places) in
    let count := count - places * 16 in
    if count =? 0 then x else shl_bits x count 0
  else shl_bits x count 0.

Definition v_bignum_bit_shift_left_1 (x : bignum) : bignum := shl_bits x 1 0.

(** The right shift runs from the high digit down; the digits are given
    high digit first. *)
Fixpoint shr_bits (hi : bignum) (count carry : Z) : bignum :=
  match hi with
  | [] => []
  | xi :: hi' =>
      let t := u32 (Z.shiftl xi 16) in
      let t := Z.shiftr t count in
      let t := Z.lor t carry in
      let carry := u32 (Z.shiftl (Z.land t MAX_DIG) 16) in
      u16 (Z.shiftr t 16) :: shr_bits hi' count carry
  end.

Definition shr_digits (x : bignum) (places : nat) : bignum :=
  map (fun i => if (i <? length x - places)%nat then nth (i + places) x 0 else 0)
      (seq 0 (length x)).

Definition v_bignum_bit_shift_right (x : bignum) (count : Z) : bignum :=
  if 16 <=? count then
    let places := count / 16 in
    if Z.of_nat (length x) <? places then v_bignum_set_zero x
    else
      let x := shr_digits x (Z.to_nat places) in
      let count := count - places * 16 in
      if count =? 0 then x else rev (shr_bits (rev x) count 0)
  else rev (shr_bits (rev x) count 0).

(** ** Comparators *)

Definition v_bignum_eq_zero (x : bignum) : bool := forallb (fun d => d =? 0) x.

Definition v_bignum_eq_one (x : bignum) : bool :=
  match x with
  | [] => false
  | d :: x' => (d =? 1) && forallb (fun d => d =? 0) x'
  end.

(** [memcmp(x, y, n * sizeof *x) == 0] *)
Fixpoint digits_eqb (n : nat) (x y : bignum) : bool :=
  match n, x, y with
  | O, _, _ => true
  | S n', xi :: x', yi :: y' => (xi =? yi) && digits_eqb n' x' y'
  | _, _, _ => false
  end.

(** With different lengths only the digits of the longer number at indexes
    greater than the common size are looked at ([for(; i > cs; i--)]).  The
    test [x == y] on the pointers gives the same answer as the digits. *)
Definition v_bignum_eq (x y : bignum) : bool :=
  let xs := length x in
  let ys := length y in
  if (xs =? ys)%nat then digits_eqb xs x y
  else
    let cs := if (xs <? ys)%nat then xs else ys in
    if digits_eqb cs x y then
      let l := if (cs =? xs)%nat then y else x in
      forallb (fun d => d =? 0) (drop (S cs) l)
    else false.

(** The index of the highest non-zero digit below [n], or -1. *)
Fixpoint highest_used (n : nat) (x : bignum) : Z :=
  match n with
  | O => -1
  | S i => if nth i x 0 =? 0 then highest_used i x else Z.of_nat i
  end.

(** The digit-by-digit comparison from index [n - 1] down; when every digit
    is equal the C code leaves its loop with [k == -1] and compares the words
    before the digits, which are the two lengths. *)
Fixpoint compare_digits (n : nat) (x y : bignum) (at_end : bool) : bool :=
  match n with
  | O => at_end
  | S k =>
      if nth k x 0 <? nth k y 0 then false
      else if nth k y 0 <? nth k x 0 then true
      else compare_digits k x y at_end
  end.

Definition v_bignum_gt (x y : bignum) : bool :=
  let i := highest_used (length x) x in
  let j := highest_used (length y) y in
  if (i <? 0) && (j <? 0) then false
  else if i <? j then false
  else if j <? i then true
  else compare_digits (Z.to_nat (i + 1)) x y (length y <? length x)%nat.

Definition v_bignum_gte (x y : bignum) : bool :=
  let i := highest_used (length x) x in
  let j := highest_used (length y) y in
  if (i <? 0) && (j <? 0) then true
  else if i <? j then false
  else if j <? i then true
  else compare_digits (Z.to_nat (i + 1)) x y (length y <=? length x)%nat.

(** ** Number and single digit *)

(** [for(i = 1; i < s; i++) if(++x[i]) break;] *)
Fixpoint incr_loop (x : bignum) : bignum :=
  match x with
  | [] => []
  | xi :: x' =>
      let d := u16 (xi + 1) in
      if d =? 0 then d :: incr_loop x' else d :: x'
  end.

Definition v_bignum_add_digit (x : bignum) (y : Z) : bignum :=
  match x with
  | [] => []
  | x0 :: x' =>
      let t := u32 (x0 + y) in
      u16 t :: (if MAX_DIG <? t then incr_loop x' else x')
  end.

(** [for(i = 1; i < s; i++) { x[i]--; if(x[i] < MAX_DIG) break; }] *)
Fixpoint decr_loop (x : bignum) : bignum :=
  match x with
  | [] => []
  | xi :: x' =>
      let d := u16 (xi - 1) in
      if d <? MAX_DIG then d :: x' else d :: decr_loop x'
  end.

Definition v_bignum_sub_digit (x : bignum) (y : Z) : bignum :=
  match x with
  | [] => []
  | x0 :: x' =>
      let t := u32 (x0 - y) in
      u16 t :: (if MAX_DIG <? t then decr_loop x' else x')
  end.

Fixpoint mul_digit_loop (x : bignum) (y carry : Z) : bignum :=
  match x with
  | [] => []
  | xi :: x' =>
      let t := u32 (xi * y + carry) in
      u16 t :: mul_digit_loop x' y (Z.shiftr t 16)
  end.

Definition v_bignum_mul_digit (x : bignum) (y : Z) : bignum := mul_digit_loop x y 0.

(** ** Addition and subtraction *)

(** The second loop, [for(; carry && i < xs; i++)]. *)
Fixpoint add_carry (x : bignum) (carry : Z) : bignum :=
  match x with
  | [] => []
  | xi :: x' =>
      if carry =? 0 then x
      else
        let t := u32 (xi + carry) in
        u16 t :: add_carry x' (b2z (MAX_DIG <? t))
  end.

Fixpoint add_loop (x y : bignum) (carry : Z) : bignum :=
  match x, y with
  | xi :: x', yi :: y' =>
      let t := u32 (xi + yi + carry) in
      u16 t :: add_loop x' y' (b2z (MAX_DIG <? t))
  | _, _ => add_carry x carry
  end.

Definition v_bignum_add (x y : bignum) : bignum := add_loop x y 0.

Fixpoint sub_carry (x : bignum) (carry : Z) : bignum :=
  match x with
  | [] => []
  | xi :: x' =>
      if carry =? 0 then x
      else
        let t := u32 (xi - carry) in
        u16 t :: sub_carry x' (b2z (MAX_DIG <? t))
  end.

Fixpoint sub_loop (x y : bignum) (carry : Z) : bignum :=
  match x, y with
  | xi :: x', yi :: y' =>
      let t := u32 (xi - yi - carry) in
      u16 t :: sub_loop x' y' (b2z (MAX_DIG <? t))
  | _, _ => sub_carry x carry
  end.

(** [if(x == y) set_zero] is the loop's own result when both are one vector. *)
Definition v_bignum_sub (x y : bignum) : bignum := sub_loop x y 0.

(** ** Multiplication *)

(** One row: [for(j = 0; j < n; j++)] over the accumulator [w], given from
    index [i] on; after the loop [w[i + n + 1]] is overwritten with the carry. *)
Fixpoint mul_row (x w : list Z) (yi c uv : Z) : list Z :=
  match x, w with
  | xj :: x', wj :: w' =>
      let uv := u32 (wj + u32 (xj * yi) + c) in
      Z.land uv 65535 :: mul_row x' w' yi (Z.shiftr uv 16) uv
  | _, _ => <[1%nat := Z.shiftr uv 16]> w
  end.

(** The rows [i = 0 .. t-1]; [w] is given from index [i] on, and its first
    cell is final once row [i] is done. *)
Fixpoint mul_rows (y x w : list Z) : list Z :=
  match y with
  | [] => w
  | yi :: y' =>
      match mul_row x w yi 0 0 with
      | [] => []
      | w0 :: w' => w0 :: mul_rows y' x w'
      end
  end.

(** The digits of the product.  [uv] keeps its value from one row to the next; a
    row starts with at least one digit, so the initial 0 is never used after the
    loop. *)
Definition mul_digits (x y : bignum) : bignum :=
  let w := replicate (length x + length y + 1) 0 in
  map u16 (take (length x) (mul_rows y x w)).

(** The local array [w] has 2048 cells, of which [n + t + 1] are used.  The
    product [x[1+j] * y[1+i]] of two [unsigned short] is an [int], which C leaves
    undefined beyond [INT_MAX]: it is taken to wrap around. *)
Definition v_bignum_mul (x y : bignum) : outcome bignum :=
  if (2048 <? length x + length y + 1)%nat then Undef else Ok (mul_digits x y).
