(* ===== verification/BignumSpec.v ===== *)
(** * What the digit routines compute

    [val x] is the number a digit list stands for and [wf x] says that every
    element is a 16-bit digit.  Each routine of [Bignum] is related to the
    operation on [Z] it implements, truncated to the size of its destination. *)

From stdpp Require Import base numbers list option.
From Stdlib Require Import ZArith Lia.
From S2P Require Import Prelude Bignum.

Fixpoint val (x : list Z) : Z :=
  match x with
  | [] => 0
  | d :: x' => d + 2 ^ 16 * val x'
  end.

Abbreviation wf := (Forall is_u16) (only parsing).

(** 65536^n: one more than the greatest n-digit number. *)
Definition weight (n : nat) : Z := 2 ^ (16 * Z.of_nat n).

(** ** Positional notation *)

Lemma weight_S n : weight (S n) = 2 ^ 16 * weight n.
Proof. unfold weight. rewrite <- Z.pow_add_r by lia. f_equal. lia. Qed.

Lemma weight_0 : weight 0 = 1.
Proof. done. Qed.

Lemma weight_add n m : weight (n + m) = weight n * weight m.
Proof. unfold weight. rewrite <- Z.pow_add_r by lia. f_equal. lia. Qed.

Lemma weight_pos n : 0 < weight n.
Proof. unfold weight. apply Z.pow_pos_nonneg; lia. Qed.
#[export] Hint Resolve weight_pos : cint.

Lemma val_range x : wf x -> 0 <= val x < weight (length x).
Proof.
  induction 1 as [|d x Hd Hx IH]; [done|].
  cbn [val length]. rewrite weight_S. unfold is_u16 in Hd. lia.
Qed.

Lemma val_app x y : val (x ++ y) = val x + weight (length x) * val y.
Proof.
  induction x as [|d x IH]; cbn [val app length]; [rewrite weight_0; lia|].
  rewrite IH, weight_S. lia.
Qed.

Lemma val_replicate_0 n : val (replicate n 0) = 0.
Proof. induction n; cbn [val replicate]; lia. Qed.

Lemma val_map_0 (x : list Z) : val (map (fun _ => 0) x) = 0.
Proof. induction x; cbn [val map]; lia. Qed.

Lemma wf_replicate_0 n : wf (replicate n 0).
Proof. apply Forall_replicate. unfold is_u16. lia. Qed.

Lemma wf_map_0 (x : list Z) : wf (map (fun _ => 0) x).
Proof. induction x; constructor; try done; unfold is_u16; lia. Qed.

Lemma wf_app (x y : list Z) : wf x -> wf y -> wf (x ++ y).
Proof. intros. by apply Forall_app_2. Qed.

Lemma wf_take n (x : list Z) : wf x -> wf (take n x).
Proof. apply Forall_take. Qed.

Lemma wf_drop n (x : list Z) : wf x -> wf (drop n x).
Proof. apply Forall_drop. Qed.

Lemma wf_insert i d (x : list Z) : wf x -> is_u16 d -> wf (<[i := d]> x).
Proof. intros. by apply Forall_insert. Qed.

Lemma is_u16_0 : is_u16 0.
Proof. unfold is_u16. lia. Qed.

Lemma wf_nth x i : wf x -> is_u16 (nth i x 0).
Proof.
  intros Hx. rewrite nth_lookup. destruct (x !! i) as [d|] eqn:E; simpl; [|apply is_u16_0].
  by eapply Forall_lookup_1.
Qed.

#[export] Hint Resolve wf_app wf_take wf_drop wf_insert wf_nth wf_replicate_0 wf_map_0
  is_u16_0 : cint.

(** [val] of the low digits. *)
Lemma val_take x n : wf x -> val (take n x) = val x mod weight n.
Proof.
  intros Hx. destruct (Nat.le_gt_cases (length x) n).
  - rewrite take_ge by done. rewrite Z.mod_small; [done|].
    pose proof (val_range x Hx). split; [lia|].
    apply Z.lt_le_trans with (weight (length x)); [lia|].
    unfold weight. apply Z.pow_le_mono_r; lia.
  - rewrite <- (take_drop n x) at 2. rewrite val_app, length_take_le by lia.
    rewrite (Z.mul_comm (weight n)), Z.mod_add by (pose proof (weight_pos n); lia).
    rewrite Z.mod_small; [done|].
    pose proof (val_range (take n x) (wf_take n x Hx)) as H1.
    by rewrite length_take_le in H1 by lia.
Qed.

Lemma val_drop x n : wf x -> (n <= length x)%nat -> val (drop n x) = val x / weight n.
Proof.
  intros Hx Hn. rewrite <- (take_drop n x) at 2.
  rewrite val_app, length_take_le by lia.
  rewrite (Z.mul_comm (weight n)), Z.div_add by (pose proof (weight_pos n); lia).
  rewrite Z.div_small; [lia|].
  pose proof (val_range (take n x) (wf_take n x Hx)) as H1.
  by rewrite length_take_le in H1 by lia.
Qed.

(** Equal length and value: equal digits. *)
Lemma val_inj x y :
  wf x -> wf y -> length x = length y -> val x = val y -> x = y.
Proof.
  intros Hx; revert y; induction Hx as [|d x Hd Hx IH]; intros y Hy Hl Hv;
    destruct y as [|e y]; try done.
  inversion Hy as [|? ? He Hy']; subst. cbn [val] in Hv. unfold is_u16 in *.
  assert (val x = val y) by lia. assert (d = e) by lia. subst. f_equal.
  apply IH; [done| simpl in Hl; lia | done].
Qed.

(** A bit of the number is a bit of one of its digits. *)
Lemma val_testbit x i :
  wf x -> 0 <= i -> Z.testbit (val x) i = Z.testbit (nth (Z.to_nat (i / 16)) x 0) (i mod 16).
Proof.
  intros Hx; revert i; induction Hx as [|d x Hd Hx IH]; intros i Hi.
  - simpl. destruct (Z.to_nat (i / 16)); by rewrite !Z.bits_0.
  - cbn [val]. unfold is_u16 in Hd.
    rewrite Z.mul_comm, <- lor_add, Z.lor_spec by lia.
    rewrite <- Z.shiftl_mul_pow2, Z.shiftl_spec by lia.
    destruct (Z.lt_ge_cases i 16).
    + rewrite Z.div_small, Z.mod_small by lia. cbn [nth Z.to_nat].
      rewrite (Z.testbit_neg_r (val x)) by lia. apply orb_false_r.
    + rewrite (testbit_small d 16) by lia. rewrite orb_false_l, IH by lia.
      replace ((i - 16) mod 16) with (i mod 16) by dm.
      replace (Z.to_nat (i / 16)) with (S (Z.to_nat ((i - 16) / 16))) by dm.
      done.
Qed.

(** The number determined by its bits. *)
Lemma val_bits_inj x y :
  wf x -> wf y -> length x = length y ->
  (forall i, 0 <= i < 16 * Z.of_nat (length x) -> Z.testbit (val x) i = Z.testbit (val y) i) ->
  x = y.
Proof.
  intros Hx Hy Hl Hb. apply val_inj; try done. apply Z.bits_inj'. intros i Hi.
  destruct (Z.lt_ge_cases i (16 * Z.of_nat (length x))) as [Hi'|Hi']; [by apply Hb|].
  pose proof (val_range x Hx). pose proof (val_range y Hy). unfold weight in *.
  rewrite (testbit_small (val x) (16 * Z.of_nat (length x))) by lia.
  rewrite (testbit_small (val y) (16 * Z.of_nat (length y))); [done|lia|lia].
Qed.

(** ** Addition and subtraction *)

Ltac digit := unfold u16, u32, MAX_DIG, V_BIGBITS, is_u16 in *.

Lemma add_digit_step a b c t :
  is_u16 a -> is_u16 b -> 0 <= c <= 1 -> t = u32 (a + b + c) ->
  u16 t + 2 ^ 16 * b2z (MAX_DIG <? t) = a + b + c.
Proof.
  digit. intros Ha Hb Hc ->. rewrite (Z.mod_small (a + b + c)) by lia.
  destruct (Z.ltb_spec (2 ^ 16 - 1) (a + b + c)); simpl; dm.
Qed.

Lemma sub_digit_step a b c t :
  is_u16 a -> is_u16 b -> 0 <= c <= 1 -> t = u32 (a - b - c) ->
  u16 t - 2 ^ 16 * b2z (MAX_DIG <? t) = a - b - c.
Proof.
  digit. intros Ha Hb Hc ->.
  destruct (Z.lt_ge_cases (a - b - c) 0).
  - replace ((a - b - c) mod 2 ^ 32) with (a - b - c + 2 ^ 32) by dm.
    rewrite (proj2 (Z.ltb_lt _ _)) by lia. simpl. dm.
  - rewrite (Z.mod_small (a - b - c)) by lia.
    rewrite (proj2 (Z.ltb_ge _ _)) by lia. simpl. dm.
Qed.

Lemma add_carry_spec x c :
  wf x -> 0 <= c <= 1 ->
  exists k, 0 <= k <= 1 /\ length (add_carry x c) = length x /\ wf (add_carry x c) /\
  val (add_carry x c) + weight (length x) * k = val x + c.
Proof.
  intros Hx; revert c; induction Hx as [|d x Hd Hx IH]; intros c Hc.
  - exists c. repeat split; try lia; try constructor. simpl. rewrite weight_0. lia.
  - cbn [add_carry]. destruct (Z.eqb_spec c 0) as [->|Hc0].
    + exists 0. repeat split; try lia; try (by constructor).
    + pose proof (b2z_range (MAX_DIG <? u32 (d + c))) as Hb.
      destruct (IH _ Hb) as (k & Hk & Hl & Hw & Hv).
      pose proof (add_digit_step d 0 c (u32 (d + c)) Hd is_u16_0 Hc) as E.
      rewrite Z.add_0_r in E. specialize (E eq_refl).
      exists k. repeat split; try lia; cbn [length val]; auto with cint; try lia.
      rewrite weight_S. nia.
Qed.

Lemma add_loop_spec x y c :
  wf x -> wf y -> 0 <= c <= 1 ->
  exists k, length (add_loop x y c) = length x /\ wf (add_loop x y c) /\
  val (add_loop x y c) + weight (length x) * k = val x + val y + c.
Proof.
  intros Hx; revert y c; induction Hx as [|d x Hd Hx IH]; intros y c Hy Hc.
  - exists (val y + c). repeat split; try done; try constructor. simpl. rewrite weight_0. lia.
  - destruct Hy as [|e y He Hy].
    + destruct (add_carry_spec (d :: x) c) as (k & Hk & Hl & Hw & Hv); auto.
      exists k. cbn [val] in *. repeat split; auto; cbn [val add_loop]; lia.
    + cbn [add_loop].
      pose proof (b2z_range (MAX_DIG <? u32 (d + e + c))) as Hb.
      destruct (IH y _ Hy Hb) as (k & Hl & Hw & Hv).
      pose proof (add_digit_step d e c _ Hd He Hc eq_refl) as E.
      exists k. repeat split; cbn [length val]; auto with cint.
      rewrite weight_S. nia.
Qed.

Lemma mod_of_eq a b m k : 0 <= a < m -> a + m * k = b -> a = b mod m.
Proof.
  intros Ha <-. rewrite Z.mul_comm, Z.mod_add by lia. symmetry. by apply Z.mod_small.
Qed.

Lemma length_add x y : wf x -> wf y -> length (v_bignum_add x y) = length x.
Proof. intros. by destruct (add_loop_spec x y 0) as (? & ? & ? & ?). Qed.

Lemma wf_add x y : wf x -> wf y -> wf (v_bignum_add x y).
Proof. intros. by destruct (add_loop_spec x y 0) as (? & ? & ? & ?). Qed.

Lemma val_add x y :
  wf x -> wf y -> val (v_bignum_add x y) = (val x + val y) mod weight (length x).
Proof.
  intros Hx Hy. destruct (add_loop_spec x y 0) as (k & Hl & Hw & Hv); auto; try lia.
  apply mod_of_eq with k; [|unfold v_bignum_add; lia].
  rewrite <- Hl. by apply val_range.
Qed.

Lemma sub_carry_spec x c :
  wf x -> 0 <= c <= 1 ->
  exists k, length (sub_carry x c) = length x /\ wf (sub_carry x c) /\
  val (sub_carry x c) + weight (length x) * k = val x - c.
Proof.
  intros Hx; revert c; induction Hx as [|d x Hd Hx IH]; intros c Hc.
  - exists (- c). repeat split; try constructor. simpl. rewrite weight_0. lia.
  - cbn [sub_carry]. destruct (Z.eqb_spec c 0) as [->|Hc0].
    + exists 0. repeat split; try lia; try (by constructor).
    + pose proof (b2z_range (MAX_DIG <? u32 (d - c))) as Hb.
      destruct (IH _ Hb) as (k & Hl & Hw & Hv).
      pose proof (sub_digit_step d 0 c (u32 (d - c)) Hd is_u16_0 Hc) as E.
      rewrite Z.sub_0_r in E. specialize (E eq_refl).
      exists k. repeat split; cbn [length val]; auto with cint; try lia.
      rewrite weight_S. nia.
Qed.

Lemma sub_loop_spec x y c :
  wf x -> wf y -> 0 <= c <= 1 ->
  exists k, length (sub_loop x y c) = length x /\ wf (sub_loop x y c) /\
  val (sub_loop x y c) + weight (length x) * k = val x - val y - c.
Proof.
  intros Hx; revert y c; induction Hx as [|d x Hd Hx IH]; intros y c Hy Hc.
  - exists (- val y - c). repeat split; try constructor. simpl. rewrite weight_0. lia.
  - destruct Hy as [|e y He Hy].
    + destruct (sub_carry_spec (d :: x) c) as (k & Hl & Hw & Hv); auto.
      exists k. cbn [val] in *. repeat split; auto; cbn [val sub_loop]; lia.
    + cbn [sub_loop].
      pose proof (b2z_range (MAX_DIG <? u32 (d - e - c))) as Hb.
      destruct (IH y _ Hy Hb) as (k & Hl & Hw & Hv).
      pose proof (sub_digit_step d e c _ Hd He Hc eq_refl) as E.
      exists k. repeat split; cbn [length val]; auto with cint.
      rewrite weight_S. nia.
Qed.

Lemma length_sub x y : wf x -> wf y -> length (v_bignum_sub x y) = length x.
Proof. intros. by destruct (sub_loop_spec x y 0) as (? & ? & ? & ?). Qed.

Lemma wf_sub x y : wf x -> wf y -> wf (v_bignum_sub x y).
Proof. intros. by destruct (sub_loop_spec x y 0) as (? & ? & ? & ?). Qed.

Lemma val_sub x y :
  wf x -> wf y -> val (v_bignum_sub x y) = (val x - val y) mod weight (length x).
Proof.
  intros Hx Hy. destruct (sub_loop_spec x y 0) as (k & Hl & Hw & Hv); auto; try lia.
  apply mod_of_eq with k; [|unfold v_bignum_sub; lia].
  rewrite <- Hl. by apply val_range.
Qed.
#[export] Hint Resolve wf_add wf_sub : cint.

(** ** Single-digit arithmetic *)

Lemma incr_loop_spec x :
  wf x -> exists k, length (incr_loop x) = length x /\ wf (incr_loop x) /\
  val (incr_loop x) + weight (length x) * k = val x + 1.
Proof.
  induction 1 as [|d x Hd Hx (k & Hl & Hw & Hv)].
  - exists 1. repeat split; try constructor. 
  - cbn [incr_loop]. destruct (Z.eqb_spec (u16 (d + 1)) 0) as [E|E].
    + exists k. repeat split; cbn [length val]; auto with cint.
      rewrite weight_S, E. digit. assert (d + 1 = 2 ^ 16) by dm. lia.
    + exists 0. repeat split; cbn [length val]; auto with cint.
      digit. rewrite Z.mod_small by (destruct (Z.eq_dec d 65535); [subst; done|lia]). lia.
Qed.

Lemma decr_loop_spec x :
  wf x -> exists k, length (decr_loop x) = length x /\ wf (decr_loop x) /\
  val (decr_loop x) + weight (length x) * k = val x - 1.
Proof.
  induction 1 as [|d x Hd Hx (k & Hl & Hw & Hv)].
  - exists (-1). repeat split; try constructor.
  - cbn [decr_loop]. destruct (Z.ltb_spec (u16 (d - 1)) MAX_DIG) as [E|E].
    + exists 0. repeat split; cbn [length val]; auto with cint.
      digit. assert ((d - 1) mod 2 ^ 16 = d - 1) as -> by dm. lia.
    + exists k. repeat split; cbn [length val]; auto with cint.
      rewrite weight_S. digit. assert ((d - 1) mod 2 ^ 16 = d - 1 + 2 ^ 16) as -> by dm. lia.
Qed.

Lemma add_digit_spec x y :
  wf x -> is_u16 y -> x <> [] ->
  exists k, length (v_bignum_add_digit x y) = length x /\ wf (v_bignum_add_digit x y) /\
  val (v_bignum_add_digit x y) + weight (length x) * k = val x + y.
Proof.
  intros Hx Hy Hn. destruct Hx as [|d x Hd Hx]; [done|].
  cbn [v_bignum_add_digit]. destruct (incr_loop_spec x Hx) as (k & Hl & Hw & Hv).
  pose proof (add_digit_step d y 0 (u32 (d + y)) Hd Hy) as E.
  rewrite Z.add_0_r in E. specialize (E ltac:(lia) eq_refl).
  destruct (MAX_DIG <? u32 (d + y)); simpl in E.
  - exists k. repeat split; cbn [length val]; auto with cint. rewrite weight_S. lia.
  - exists 0. repeat split; cbn [length val]; auto with cint. rewrite weight_S. lia.
Qed.

Lemma sub_digit_spec x y :
  wf x -> is_u16 y -> x <> [] ->
  exists k, length (v_bignum_sub_digit x y) = length x /\ wf (v_bignum_sub_digit x y) /\
  val (v_bignum_sub_digit x y) + weight (length x) * k = val x - y.
Proof.
  intros Hx Hy Hn. destruct Hx as [|d x Hd Hx]; [done|].
  cbn [v_bignum_sub_digit]. destruct (decr_loop_spec x Hx) as (k & Hl & Hw & Hv).
  pose proof (sub_digit_step d y 0 (u32 (d - y)) Hd Hy) as E.
  rewrite Z.sub_0_r in E. specialize (E ltac:(lia) eq_refl).
  destruct (MAX_DIG <? u32 (d - y)); simpl in E.
  - exists k. repeat split; cbn [length val]; auto with cint. rewrite weight_S. lia.
  - exists 0. repeat split; cbn [length val]; auto with cint. rewrite weight_S. lia.
Qed.

Lemma digit_product a b : is_u16 a -> is_u16 b -> 0 <= a * b <= (2 ^ 16 - 1) * (2 ^ 16 - 1).
Proof. digit. intros. split; [lia|]. apply Z.mul_le_mono_nonneg; lia. Qed.

Lemma mul_digit_loop_spec x y c :
  wf x -> is_u16 y -> is_u16 c ->
  exists k, length (mul_digit_loop x y c) = length x /\ wf (mul_digit_loop x y c) /\
  val (mul_digit_loop x y c) + weight (length x) * k = val x * y + c.
Proof.
  intros Hx Hy; revert c; induction Hx as [|d x Hd Hx IH]; intros c Hc.
  - exists c. repeat split; try constructor. simpl. rewrite weight_0. lia.
  - cbn [mul_digit_loop].
    assert (0 <= d * y + c < 2 ^ 32) as Hr by (pose proof (digit_product d y Hd Hy); digit; lia).
    assert (is_u16 (Z.shiftr (u32 (d * y + c)) 16)) as Hq.
    { rewrite Z.shiftr_div_pow2 by lia. digit. rewrite (Z.mod_small (d * y + c)) by lia. dm. }
    destruct (IH _ Hq) as (k & Hl & Hw & Hv).
    exists k. repeat split; cbn [length val]; auto with cint.
    rewrite weight_S. pose proof (Z.shiftr_div_pow2 (d * y + c) 16 ltac:(lia)).
    rewrite u32_id in * by done. unfold u16.
    pose proof (Z_div_mod_eq_full (d * y + c) (2 ^ 16)). nia.
Qed.

Lemma mul_digit_spec x y :
  wf x -> is_u16 y ->
  exists k, length (v_bignum_mul_digit x y) = length x /\ wf (v_bignum_mul_digit x y) /\
  val (v_bignum_mul_digit x y) + weight (length x) * k = val x * y.
Proof.
  intros Hx Hy. destruct (mul_digit_loop_spec x y 0 Hx Hy is_u16_0) as (k & Hl & Hw & Hv).
  exists k. repeat split; auto. unfold v_bignum_mul_digit. lia.
Qed.

(** ** Multiplication *)

Lemma mul_row_spec x w yi c uv :
  wf x -> wf w -> is_u16 yi -> is_u16 c -> Z.shiftr uv 16 = c ->
  (length x + 2 <= length w)%nat ->
  let w' := mul_row x w yi c uv in
  length w' = length w /\ wf w' /\
  exists k, val (take (length x) w') + weight (length x) * k
            = val (take (length x) w) + val x * yi + c.
Proof.
  intros Hx; revert w c uv; induction Hx as [|d x Hd Hx IH];
    intros w c uv Hw Hy Hc Huv Hl.
  - cbn [mul_row length take val]. rewrite length_insert, Huv. repeat split; auto with cint.
    exists c. rewrite weight_0, !take_0. simpl. lia.
  - destruct Hw as [|e w He Hw]; [simpl in Hl; lia|].
    cbn [mul_row length take val].
    pose proof (digit_product d yi Hd Hy) as Hp.
    assert (0 <= e + d * yi + c < 2 ^ 32) as Hr by (digit; lia).
    assert (u32 (e + u32 (d * yi) + c) = e + d * yi + c) as ->.
    { rewrite (u32_id (d * yi)) by (unfold is_u32; lia). by apply u32_id. }
    set (t := e + d * yi + c) in *.
    assert (is_u16 (Z.shiftr t 16)) as Hq.
    { rewrite Z.shiftr_div_pow2 by lia. digit. dm. }
    destruct (IH w _ t Hw Hy Hq eq_refl) as (Hl' & Hw' & k & Hv); [simpl in Hl; lia|].
    rewrite land_ffff. change (t mod 2 ^ 16) with (u16 t).
    repeat split; [simpl; lia|auto with cint|].
    exists k. rewrite weight_S. pose proof (Z.shiftr_div_pow2 t 16 ltac:(lia)).
    pose proof (Z_div_mod_eq_full t (2 ^ 16)). unfold u16. nia.
Qed.

Lemma take_cons_pred {A} (a : A) l n :
  (0 < n)%nat -> take n (a :: l) = a :: take (n - 1) l.
Proof. intros. destruct n; [lia|]. simpl. by rewrite Nat.sub_0_r. Qed.

Lemma take_take_le {A} (l : list A) n m : (n <= m)%nat -> take n (take m l) = take n l.
Proof. intros. rewrite take_take. f_equal. lia. Qed.

(** Reducing a congruence modulo [weight n] to fewer digits. *)
Lemma weight_divide n m : (n <= m)%nat -> (weight n | weight m).
Proof.
  intros H. replace m with (n + (m - n))%nat by lia. rewrite weight_add. apply Z.divide_factor_l.
Qed.

Lemma mul_rows_spec y x w :
  wf x -> wf y -> wf w -> (length x + length y + 1 <= length w)%nat -> (0 < length x)%nat ->
  let r := mul_rows y x w in
  length r = length w /\ wf r /\
  (weight (length x) | val (take (length x) r) - (val (take (length x) w) + val x * val y)).
Proof.
  intros Hx Hy; revert w; induction Hy as [|yi y Hyi Hy IH]; intros w Hw Hl Hn.
  - cbn [mul_rows val]. repeat split; auto.
    replace (_ - _) with 0 by lia. apply Z.divide_0_r.
  - cbn [mul_rows length val] in *.
    destruct (mul_row_spec x w yi 0 0 Hx Hw Hyi is_u16_0 eq_refl) as (Hl1 & Hw1 & k & Hv);
      [lia|].
    destruct (mul_row x w yi 0 0) as [|w0 w1] eqn:E; [simpl in Hl1; lia|].
    inversion Hw1 as [|? ? Hw0 Hw1']; subst.
    destruct (IH w1 Hw1') as (Hl2 & Hw2 & Hv2); [simpl in Hl1; lia|lia|].
    repeat split; [simpl in *; lia|by constructor|].
    set (n := length x) in *.
    rewrite take_cons_pred in Hv |- * by lia. cbn [val] in *.
    assert (weight n = 2 ^ 16 * weight (n - 1)) as Hwn.
    { rewrite <- weight_S. f_equal. lia. }
    assert (weight (n - 1) | val (take (n - 1) (mul_rows y x w1))
              - (val (take (n - 1) w1) + val x * val y)) as [q Hq].
    { destruct Hv2 as [q Hq].
      rewrite <- (take_take_le w1 (n - 1) n) by lia.
      rewrite <- (take_take_le (mul_rows y x w1) (n - 1) n) by lia.
      rewrite !(val_take (take n _)) by auto with cint.
      pose proof (weight_pos (n - 1)).
      pose proof (Z_div_mod_eq_full (val (take n (mul_rows y x w1))) (weight (n - 1))).
      pose proof (Z_div_mod_eq_full (val (take n w1)) (weight (n - 1))).
      set (r1 := val (take n (mul_rows y x w1))) in *. set (r2 := val (take n w1)) in *.
      exists (2 ^ 16 * q - r1 / weight (n - 1) + r2 / weight (n - 1)). nia. }
    exists (q - k). nia.
Qed.

Lemma length_mul x y : wf x -> wf y -> x <> [] -> length (mul_digits x y) = length x.
Proof.
  intros Hx Hy Hn. unfold mul_digits.
  destruct (mul_rows_spec y x (replicate (length x + length y + 1) 0)) as (Hl & _);
    auto with cint; rewrite ?length_replicate; [lia|destruct x; [done|simpl; lia]|].
  rewrite length_map, length_take, Hl, length_replicate. lia.
Qed.

Lemma map_u16_wf x : wf x -> map u16 x = x.
Proof. induction 1; simpl; [done|]. by rewrite u16_id, IHForall. Qed.

Lemma wf_mul x y : wf x -> wf y -> wf (mul_digits x y).
Proof.
  intros Hx Hy. unfold mul_digits. apply Forall_map, Forall_true. intros; apply u16_range.
Qed.

Lemma val_mul x y :
  wf x -> wf y -> x <> [] -> val (mul_digits x y) = (val x * val y) mod weight (length x).
Proof.
  intros Hx Hy Hn. pose proof (length_mul x y Hx Hy Hn) as Hlen.
  pose proof (val_range _ (wf_mul x y Hx Hy)) as Hr. rewrite Hlen in Hr.
  unfold mul_digits in *.
  destruct (mul_rows_spec y x (replicate (length x + length y + 1) 0)) as (Hl & Hw & Hd);
    auto with cint; rewrite ?length_replicate; [lia|destruct x; [done|simpl; lia]|].
  rewrite map_u16_wf in * by auto with cint.
  destruct Hd as [q Hq]. rewrite take_replicate, val_replicate_0 in Hq.
  apply mod_of_eq with (- q); [done|]. lia.
Qed.
#[export] Hint Resolve wf_mul : cint.

(** Within the local array the product is defined. *)
Lemma mul_ok x y : (length x + length y + 1 <= 2048)%nat -> v_bignum_mul x y = Ok (mul_digits x y).
Proof. intros H. unfold v_bignum_mul. by rewrite (proj2 (Nat.ltb_ge _ _) H). Qed.
Lemma mul_undef x y : (2048 < length x + length y + 1)%nat -> v_bignum_mul x y = Undef.
Proof. intros H. unfold v_bignum_mul. by rewrite (proj2 (Nat.ltb_lt _ _) H). Qed.

(** ** Assignment *)

Lemma length_set_zero x : length (v_bignum_set_zero x) = length x.
Proof. apply length_map. Qed.

Lemma val_set_zero x : val (v_bignum_set_zero x) = 0.
Proof. apply val_map_0. Qed.

Lemma wf_set_zero x : wf (v_bignum_set_zero x).
Proof. apply wf_map_0. Qed.

Lemma length_set_one x : length (v_bignum_set_one x) = length x.
Proof. destruct x; [done|]. simpl. by rewrite length_map. Qed.

Lemma wf_set_one x : wf (v_bignum_set_one x).
Proof. destruct x; [constructor|]. constructor; [unfold is_u16; lia|apply wf_map_0]. Qed.

Lemma val_set_one x : x <> [] -> val (v_bignum_set_one x) = 1.
Proof. destruct x; [done|]. intros _. cbn [v_bignum_set_one val]. rewrite val_map_0. lia. Qed.

Lemma length_set_bignum x y : length (v_bignum_set_bignum x y) = length x.
Proof.
  unfold v_bignum_set_bignum. destruct (Nat.eqb_spec (length x) (length y)); [done|].
  destruct (Nat.ltb_spec (length x) (length y)); rewrite length_app, length_take, length_replicate; lia.
Qed.

Lemma wf_set_bignum x y : wf y -> wf (v_bignum_set_bignum x y).
Proof.
  intros Hy. unfold v_bignum_set_bignum. destruct (_ =? _)%nat; [done|]. auto with cint.
Qed.

Lemma val_set_bignum x y : wf y -> val (v_bignum_set_bignum x y) = val y mod weight (length x).
Proof.
  intros Hy. unfold v_bignum_set_bignum. destruct (Nat.eqb_spec (length x) (length y)) as [E|E].
  - rewrite E, Z.mod_small; [done|]. by apply val_range.
  - destruct (Nat.ltb_spec (length x) (length y)) as [L|L].
    + rewrite Nat.sub_diag. simpl. rewrite app_nil_r. by apply val_take.
    + rewrite val_app, val_replicate_0, Z.mul_0_r, Z.add_0_r.
      rewrite take_ge, Z.mod_small; [done| |done].
      pose proof (val_range y Hy). split; [lia|].
      apply Z.lt_le_trans with (weight (length y)); [lia|].
      unfold weight. apply Z.pow_le_mono_r; lia.
Qed.
#[export] Hint Resolve wf_set_zero wf_set_one wf_set_bignum : cint.

(** ** Bits *)

Lemma land_pow2_nonzero d n :
  0 <= n -> negb (Z.land d (Z.shiftl 1 n) =? 0) = Z.testbit d n.
Proof.
  intros Hn. rewrite Z.shiftl_1_l.
  destruct (Z.testbit d n) eqn:E.
  - destruct (Z.eqb_spec (Z.land d (2 ^ n)) 0) as [H|H]; [|done].
    exfalso. assert (Z.testbit (Z.land d (2 ^ n)) n = true) as Hb.
    { rewrite Z.land_spec, E, Z.pow2_bits_true; auto. }
    rewrite H, Z.bits_0 in Hb. done.
  - replace (Z.land d (2 ^ n)) with 0; [done|]. symmetry.
    apply Z.bits_inj'. intros i Hi. rewrite Z.land_spec, Z.bits_0, Z.pow2_bits_eqb by lia.
    destruct (Z.eqb_spec n i); [subst; by rewrite E|apply andb_false_r].
Qed.

(** [v_bignum_bit_test] reads a bit of the number; bits beyond its size are 0. *)
Lemma bit_test_spec x bit :
  wf x -> 0 <= bit -> v_bignum_bit_test x bit = Z.testbit (val x) bit.
Proof.
  intros Hx Hb. unfold v_bignum_bit_test. rewrite val_testbit by done.
  rewrite land_pow2_nonzero by dm.
  destruct (Z.ltb_spec (bit / 16) (Z.of_nat (length x))); [done|].
  rewrite nth_overflow, Z.bits_0; [done|]. apply Nat2Z.inj_le. rewrite Z2Nat.id by dm. lia.
Qed.

Lemma nth_insert_z (x : list Z) slot v j :
  (slot < length x)%nat ->
  nth j (<[slot := v]> x) 0 = if (j =? slot)%nat then v else nth j x 0.
Proof.
  intros. rewrite nth_insert by done. case_decide; destruct (Nat.eqb_spec j slot); congruence.
Qed.

Lemma is_u16_lor a b : is_u16 a -> is_u16 b -> is_u16 (Z.lor a b).
Proof. apply lor_range. lia. Qed.
Lemma is_u16_pow2 n : 0 <= n < 16 -> is_u16 (Z.shiftl 1 n).
Proof.
  intros. rewrite Z.shiftl_1_l. split; [lia|]. apply Z.pow_lt_mono_r; lia.
Qed.

Lemma slot_lt (x : list Z) bit :
  0 <= bit -> bit < Z.of_nat (length x) * 16 -> (Z.to_nat (bit / 16) < length x)%nat.
Proof. intros. apply Nat2Z.inj_lt. rewrite Z2Nat.id by dm. dm. Qed.

Lemma slot_eqb i bit : 0 <= i -> 0 <= bit ->
  (i =? bit) = (Z.to_nat (i / 16) =? Z.to_nat (bit / 16))%nat && (i mod 16 =? bit mod 16).
Proof.
  intros. destruct (Z.eqb_spec i bit) as [->|Hne].
  - by rewrite Nat.eqb_refl, Z.eqb_refl.
  - destruct (Nat.eqb_spec (Z.to_nat (i / 16)) (Z.to_nat (bit / 16))) as [E|E]; [|done].
    destruct (Z.eqb_spec (i mod 16) (bit mod 16)); [|done].
    apply Z2Nat.inj in E; dm.
Qed.

Lemma length_bit_set x bit : length (v_bignum_bit_set x bit) = length x.
Proof. unfold v_bignum_bit_set. destruct (_ <=? _); [done|]. apply length_insert. Qed.

Lemma wf_bit_set x bit : wf x -> wf (v_bignum_bit_set x bit).
Proof. intros. unfold v_bignum_bit_set. destruct (_ <=? _); auto with cint. Qed.

Lemma bit_set_testbit x bit i :
  wf x -> 0 <= bit < Z.of_nat (length x) * 16 -> 0 <= i ->
  Z.testbit (val (v_bignum_bit_set x bit)) i = (i =? bit) || Z.testbit (val x) i.
Proof.
  intros Hx Hb Hi. rewrite !val_testbit by auto using wf_bit_set.
  unfold v_bignum_bit_set. rewrite (proj2 (Z.leb_gt _ _)) by lia.
  pose proof (slot_lt x bit ltac:(lia) ltac:(lia)) as Hs.
  rewrite nth_insert_z, slot_eqb by lia.
  destruct (Nat.eqb_spec (Z.to_nat (i / 16)) (Z.to_nat (bit / 16))) as [E|E]; [|done].
  rewrite E. rewrite u16_id by (apply is_u16_lor; auto with cint; apply is_u16_pow2; dm).
  rewrite Z.lor_spec, Z.shiftl_1_l, Z.pow2_bits_eqb by dm.
  rewrite (Z.eqb_sym (bit mod 16)). apply orb_comm.
Qed.

Lemma length_bit_clear x bit : length (v_bignum_bit_clear x bit) = length x.
Proof. unfold v_bignum_bit_clear. destruct (_ <=? _); [done|]. apply length_insert. Qed.

Lemma wf_bit_clear x bit : wf x -> wf (v_bignum_bit_clear x bit).
Proof. intros. unfold v_bignum_bit_clear. destruct (_ <=? _); auto with cint. Qed.

Lemma bit_clear_testbit x bit i :
  wf x -> 0 <= bit < Z.of_nat (length x) * 16 -> 0 <= i ->
  Z.testbit (val (v_bignum_bit_clear x bit)) i = negb (i =? bit) && Z.testbit (val x) i.
Proof.
  intros Hx Hb Hi. rewrite !val_testbit by auto using wf_bit_clear.
  unfold v_bignum_bit_clear. rewrite (proj2 (Z.leb_gt _ _)) by lia.
  pose proof (slot_lt x bit ltac:(lia) ltac:(lia)) as Hs.
  rewrite nth_insert_z, slot_eqb by lia.
  destruct (Nat.eqb_spec (Z.to_nat (i / 16)) (Z.to_nat (bit / 16))) as [E|E]; [|done].
  rewrite E. rewrite u16_id by (apply land_range; [lia|]; apply wf_nth; done).
  rewrite Z.land_spec, Z.lnot_spec, Z.shiftl_1_l, Z.pow2_bits_eqb by dm.
  rewrite (Z.eqb_sym (bit mod 16)). simpl. apply andb_comm.
Qed.
#[export] Hint Resolve wf_bit_set wf_bit_clear : cint.

(** ** Bitwise logic *)

Lemma length_digitwise f x y : length (digitwise f x y) = length x.
Proof. revert y; induction x; intros [|b y]; simpl; auto. Qed.

Lemma wf_digitwise f x y : wf x -> wf (digitwise f x y).
Proof.
  intros Hx; revert y; induction Hx; intros [|b y]; simpl; auto with cint.
Qed.

Lemma nth_digitwise f x y i :
  length x = length y -> (i < length x)%nat ->
  nth i (digitwise f x y) 0 = u16 (f (nth i x 0) (nth i y 0)).
Proof.
  revert y i; induction x as [|a x IH]; intros [|b y] i Hl Hi; simpl in *; try lia.
  destruct i; [done|]. apply IH; lia.
Qed.

(** A bitwise operator [f] that acts on each bit by [g], on numbers of one
    size. *)
Lemma digitwise_testbit f g x y i :
  (forall a b, is_u16 a -> is_u16 b -> is_u16 (f a b)) ->
  (forall a b j, Z.testbit (f a b) j = g (Z.testbit a j) (Z.testbit b j)) ->
  wf x -> wf y -> length x = length y -> 0 <= i < 16 * Z.of_nat (length x) ->
  Z.testbit (val (digitwise f x y)) i = g (Z.testbit (val x) i) (Z.testbit (val y) i).
Proof.
  intros Hf Hg Hx Hy Hl Hi. rewrite !val_testbit by (auto using wf_digitwise; lia).
  rewrite nth_digitwise; [|done|apply slot_lt; lia].
  rewrite u16_id by auto with cint. apply Hg.
Qed.

Lemma digitwise_val f g x y :
  (forall a b, is_u16 a -> is_u16 b -> is_u16 (f a b)) ->
  (forall a b j, Z.testbit (f a b) j = g (Z.testbit a j) (Z.testbit b j)) ->
  g false false = false ->
  wf x -> wf y -> length x = length y -> val (digitwise f x y) = f (val x) (val y).
Proof.
  intros Hf Hg Hg0 Hx Hy Hl. apply Z.bits_inj'. intros i Hi. rewrite Hg.
  destruct (Z.lt_ge_cases i (16 * Z.of_nat (length x))) as [L|L].
  - by apply digitwise_testbit.
  - pose proof (val_range x Hx). pose proof (val_range y Hy). rewrite <- Hl in *.
    pose proof (val_range _ (wf_digitwise f x y Hx)) as H1.
    rewrite length_digitwise in H1. unfold weight in *.
    rewrite !(testbit_small _ (16 * Z.of_nat (length x))) by lia. done.
Qed.

Lemma val_and x y :
  wf x -> wf y -> length x = length y -> val (v_bignum_and x y) = Z.land (val x) (val y).
Proof.
  intros. apply (digitwise_val Z.land andb); auto.
  - intros; by apply land_range.
  - intros; apply Z.land_spec.
Qed.

Lemma val_or x y :
  wf x -> wf y -> length x = length y -> val (v_bignum_or x y) = Z.lor (val x) (val y).
Proof.
  intros. apply (digitwise_val Z.lor orb); auto.
  - intros; by apply lor_range.
  - intros; apply Z.lor_spec.
Qed.

Lemma val_xor x y :
  wf x -> wf y -> length x = length y -> val (v_bignum_xor x y) = Z.lxor (val x) (val y).
Proof.
  intros. apply (digitwise_val Z.lxor xorb); auto.
  - intros; by apply lxor_range.
  - intros; apply Z.lxor_spec.
Qed.

Lemma length_not x : length (v_bignum_not x) = length x.
Proof. apply length_map. Qed.

Lemma wf_not x : wf (v_bignum_not x).
Proof. apply Forall_map, Forall_true. intros; apply u16_range. Qed.

(** [~x] is [2^(16n) - 1 - x]. *)
Lemma val_not x : wf x -> val (v_bignum_not x) = weight (length x) - 1 - val x.
Proof.
  induction 1 as [|d x Hd Hx IH]; [done|].
  cbn [v_bignum_not map val length]. fold (v_bignum_not x). rewrite IH, weight_S.
  assert (u16 (Z.lnot d) = 2 ^ 16 - 1 - d) as ->.
  { digit. pose proof (Z.add_lnot_diag d). replace (Z.lnot d) with (-1 - d) by lia. dm. }
  lia.
Qed.
#[export] Hint Resolve wf_digitwise wf_not : cint.

(** ** Shifts *)

Lemma shl_bits_spec x count carry :
  wf x -> 0 <= count < 16 -> 0 <= carry < 2 ^ count ->
  length (shl_bits x count carry) = length x /\ wf (shl_bits x count carry) /\
  exists k, val (shl_bits x count carry) + weight (length x) * k = val x * 2 ^ count + carry.
Proof.
  intros Hx Hc; revert carry; induction Hx as [|d x Hd Hx IH]; intros carry Hcarry.
  - repeat split; [constructor|]. exists carry. cbn [length val shl_bits]. rewrite weight_0. lia.
  - cbn [shl_bits]. set (t := u32 _).
    assert (2 ^ count < 2 ^ 16) as Hp by (apply Z.pow_lt_mono_r; lia).
    assert (t = d * 2 ^ count + carry) as Ht.
    { unfold t. rewrite Z.shiftl_mul_pow2, Z.lor_comm, lor_add by lia.
      rewrite u32_id; [lia|]. unfold is_u32. digit. nia. }
    assert (0 <= Z.shiftr t 16 < 2 ^ count) as Hs.
    { rewrite Z.shiftr_div_pow2, Ht by lia. digit. split; [apply Z.div_pos; nia|].
      apply Z.div_lt_upper_bound; nia. }
    destruct (IH _ Hs) as (Hl & Hw & k & Hv).
    repeat split; [simpl; lia|auto with cint|].
    exists k. cbn [val length]. rewrite weight_S.
    pose proof (Z.shiftr_div_pow2 t 16 ltac:(lia)). unfold u16.
    pose proof (Z_div_mod_eq_full t (2 ^ 16)). nia.
Qed.

Lemma nth_ext_z (x y : list Z) :
  length x = length y -> (forall i, (i < length x)%nat -> nth i x 0 = nth i y 0) -> x = y.
Proof. intros. by apply (nth_ext x y 0 0). Qed.

Lemma nth_map_seq (f : nat -> Z) n i : (i < n)%nat -> nth i (map f (seq 0 n)) 0 = f i.
Proof.
  intros Hi. rewrite (nth_indep _ 0 (f 0%nat)) by (rewrite length_map, length_seq; lia).
  rewrite map_nth, seq_nth by lia. done.
Qed.

Lemma shl_digits_eq x p : shl_digits x p = take (length x) (replicate p 0 ++ x).
Proof.
  unfold shl_digits. apply nth_ext_z.
  - rewrite length_map, length_seq, length_take, length_app, length_replicate. lia.
  - rewrite length_map, length_seq. intros i Hi. rewrite nth_map_seq by done.
    rewrite !nth_lookup, lookup_take_lt by done.
    destruct (Nat.leb_spec p i).
    + rewrite lookup_app_r by (rewrite length_replicate; lia).
      by rewrite length_replicate.
    + rewrite lookup_app_l by (rewrite length_replicate; lia).
      by rewrite lookup_replicate_2 by lia.
Qed.

Lemma shr_digits_eq x p :
  (p <= length x)%nat -> shr_digits x p = drop p x ++ replicate p 0.
Proof.
  intros Hp. unfold shr_digits. apply nth_ext_z.
  - rewrite length_map, length_seq, length_app, length_drop, length_replicate. lia.
  - rewrite length_map, length_seq. intros i Hi. rewrite nth_map_seq by done.
    rewrite !nth_lookup. destruct (Nat.ltb_spec i (length x - p)).
    + rewrite lookup_app_l, lookup_drop by (rewrite length_drop; lia).
      by rewrite Nat.add_comm.
    + rewrite lookup_app_r, length_drop by (rewrite length_drop; lia).
      by rewrite lookup_replicate_2 by lia.
Qed.

Lemma weight_split count :
  0 <= count -> 2 ^ count = weight (Z.to_nat (count / 16)) * 2 ^ (count - count / 16 * 16).
Proof.
  intros. unfold weight. rewrite <- Z.pow_add_r by dm. f_equal. rewrite Z2Nat.id by dm. lia.
Qed.

Lemma shift_left_spec x count :
  wf x -> 0 <= count ->
  length (v_bignum_bit_shift_left x count) = length x /\
  wf (v_bignum_bit_shift_left x count) /\
  val (v_bignum_bit_shift_left x count) = (val x * 2 ^ count) mod weight (length x).
Proof.
  intros Hx Hc.
  assert (forall y c, wf y -> 0 <= c < 16 ->
    val (shl_bits y c 0) = (val y * 2 ^ c) mod weight (length y)) as Hbits.
  { intros y c Hy Hc'. destruct (shl_bits_spec y c 0 Hy Hc') as (Hl & Hw & k & Hv); [lia|].
    apply mod_of_eq with k; [|lia]. rewrite <- Hl. by apply val_range. }
  unfold v_bignum_bit_shift_left. destruct (Z.leb_spec 16 count).
  - set (p := Z.to_nat (count / 16)). set (c := count - count / 16 * 16).
    assert (0 <= c < 16) by (unfold c; dm).
    assert (wf (shl_digits x p)) as Hw by (rewrite shl_digits_eq; auto with cint).
    assert (length (shl_digits x p) = length x) as Hl by (unfold shl_digits; by rewrite length_map, length_seq).
    assert (val (shl_digits x p) = (val x * weight p) mod weight (length x)) as Hv.
    { rewrite shl_digits_eq, val_take by auto with cint.
      rewrite val_app, val_replicate_0, length_replicate. f_equal. lia. }
    rewrite (weight_split count) by done. fold p c.
    destruct (Z.eqb_spec c 0) as [E|E].
    + rewrite E, Z.pow_0_r, Z.mul_1_r. done.
    + destruct (shl_bits_spec (shl_digits x p) c 0 Hw) as (Hl' & Hw' & _); [lia|lia|].
      repeat split; [congruence|done|].
      rewrite Hbits, Hv, Hl, Z.mul_mod_idemp_l by (auto; pose proof (weight_pos (length x)); lia).
      f_equal. lia.
  - destruct (shl_bits_spec x count 0 Hx) as (Hl & Hw & _); [lia|lia|]. auto with lia.
Qed.

Lemma shift_left_1_spec x :
  wf x ->
  length (v_bignum_bit_shift_left_1 x) = length x /\
  wf (v_bignum_bit_shift_left_1 x) /\
  val (v_bignum_bit_shift_left_1 x) = (2 * val x) mod weight (length x).
Proof.
  intros Hx. destruct (shift_left_spec x 1 Hx) as (Hl & Hw & Hv); [lia|].
  unfold v_bignum_bit_shift_left in *. simpl in Hl, Hw, Hv.
  repeat split; auto. unfold v_bignum_bit_shift_left_1. rewrite Hv. f_equal. lia.
Qed.

Lemma shr_digit_step d c count :
  is_u16 d -> 0 <= count < 16 -> 0 <= c < 2 ^ count ->
  let t := Z.lor (Z.shiftr (u32 (Z.shiftl d 16)) count) (c * 2 ^ (32 - count)) in
  Z.shiftr t 16 = (d + c * 2 ^ 16) / 2 ^ count /\
  u32 (Z.shiftl (Z.land t MAX_DIG) 16) = ((d + c * 2 ^ 16) mod 2 ^ count) * 2 ^ (32 - count).
Proof.
  intros Hd Hk Hc t.
  assert (0 < 2 ^ count) by (apply Z.pow_pos_nonneg; lia).
  assert (2 ^ 16 = 2 ^ (16 - count) * 2 ^ count) as E16
    by (rewrite <- Z.pow_add_r by lia; f_equal; lia).
  assert (2 ^ (32 - count) = 2 ^ (16 - count) * 2 ^ 16) as E32
    by (rewrite <- Z.pow_add_r by lia; f_equal; lia).
  set (p := 2 ^ (16 - count)) in *. assert (0 < p) by (apply Z.pow_pos_nonneg; lia).
  set (m := d + c * 2 ^ 16).
  assert (t = m * p) as Ht.
  { unfold t. rewrite Z.shiftl_mul_pow2 by lia.
    rewrite u32_id by (unfold is_u32; digit; lia).
    rewrite Z.shiftr_div_pow2 by lia.
    replace (d * 2 ^ 16) with ((d * p) * 2 ^ count) by (rewrite E16; ring).
    rewrite Z.div_mul by lia. rewrite lor_add; [unfold m; rewrite E32; ring|lia|].
    rewrite E32. digit. nia. }
  rewrite Ht. split.
  - rewrite Z.shiftr_div_pow2, E16, (Z.mul_comm p) by lia. apply Z.div_mul_cancel_r; lia.
  - unfold MAX_DIG, V_BIGBITS. change (2 ^ 16 - 1) with 65535. rewrite land_ffff.
    rewrite Z.shiftl_mul_pow2 by lia.
    rewrite E16 at 1. rewrite (Z.mul_comm p), Z.mul_mod_distr_r by lia.
    rewrite u32_id; [rewrite E32; ring|].
    pose proof (Z.mod_pos_bound m (2 ^ count) ltac:(lia)) as Hm. unfold is_u32.
    assert (0 <= m mod 2 ^ count * p < 2 ^ 16) by nia. lia.
Qed.

Lemma shr_bits_spec hi count c :
  wf hi -> 0 <= count < 16 -> 0 <= c < 2 ^ count ->
  let r := shr_bits hi count (c * 2 ^ (32 - count)) in
  length r = length hi /\ wf r /\
  val (rev r) = (val (rev hi) + weight (length hi) * c) / 2 ^ count.
Proof.
  intros Hh Hk; revert c; induction Hh as [|d hi Hd Hh IH]; intros c Hc.
  - repeat split; [constructor|]. cbn [rev val length]. rewrite weight_0.
    rewrite Z.div_small; [done|]. lia.
  - cbn [shr_bits]. destruct (shr_digit_step d c count Hd Hk Hc) as [E1 E2].
    rewrite E1, E2. set (m := d + c * 2 ^ 16) in *.
    assert (0 < 2 ^ count) by (apply Z.pow_pos_nonneg; lia).
    destruct (IH (m mod 2 ^ count)) as (Hl & Hw & Hv); [apply Z.mod_pos_bound; lia|].
    assert (0 <= m / 2 ^ count < 2 ^ 16) as Hq.
    { unfold m in *. digit. split; [apply Z.div_pos; nia|]. apply Z.div_lt_upper_bound; nia. }
    rewrite u16_id by done.
    repeat split; [simpl; lia|auto with cint|].
    cbn [rev length]. rewrite !val_app, !length_rev. cbn [val].
    rewrite Hl, Hv. rewrite weight_S.
    replace (val (rev hi) + weight (length hi) * (d + 2 ^ 16 * 0) + 2 ^ 16 * weight (length hi) * c)
      with (val (rev hi) + weight (length hi) * m) by (unfold m; ring).
    replace (val (rev hi) + weight (length hi) * m)
      with (val (rev hi) + weight (length hi) * (m mod 2 ^ count)
            + (weight (length hi) * (m / 2 ^ count)) * 2 ^ count)
      by (pose proof (Z_div_mod_eq_full m (2 ^ count)); nia).
    rewrite Z.div_add by lia. ring.
Qed.

Lemma wf_rev (x : list Z) : wf x -> wf (rev x).
Proof. intros. by apply Forall_rev. Qed.
#[export] Hint Resolve wf_rev : cint.

Lemma shift_right_spec x count :
  wf x -> 0 <= count ->
  length (v_bignum_bit_shift_right x count) = length x /\
  wf (v_bignum_bit_shift_right x count) /\
  val (v_bignum_bit_shift_right x count) = val x / 2 ^ count.
Proof.
  intros Hx Hc.
  assert (forall y c, wf y -> 0 <= c < 16 ->
    let r := rev (shr_bits (rev y) c 0) in
    length r = length y /\ wf r /\ val r = val y / 2 ^ c) as Hbits.
  { intros y c Hy Hc'. cbn zeta.
    destruct (shr_bits_spec (rev y) c 0) as (Hl & Hw & Hv); auto with cint; [lia|].
    rewrite Z.mul_0_l in *. rewrite length_rev, rev_involutive in *.
    rewrite Hl, Hv. repeat split; auto with cint. f_equal. lia. }
  unfold v_bignum_bit_shift_right. destruct (Z.leb_spec 16 count).
  - set (p := Z.to_nat (count / 16)). set (c := count - count / 16 * 16).
    assert (0 <= c < 16) by (unfold c; dm). assert (Z.of_nat p = count / 16) by (unfold p; dm).
    pose proof (val_range x Hx) as Hr. pose proof (weight_pos p).
    rewrite (weight_split count) by done. fold p c.
    assert (0 < 2 ^ c) by (apply Z.pow_pos_nonneg; lia).
    rewrite <- Z.div_div by lia.
    destruct (Z.ltb_spec (Z.of_nat (length x)) (count / 16)).
    + rewrite length_set_zero, val_set_zero. repeat split; auto with cint.
      rewrite (Z.div_small (val x)); [by rewrite Z.div_0_l by lia|].
      split; [lia|]. apply Z.lt_le_trans with (weight (length x)); [lia|].
      unfold weight. apply Z.pow_le_mono_r; lia.
    + assert (wf (shr_digits x p)) as Hw by (rewrite shr_digits_eq by lia; auto with cint).
      assert (length (shr_digits x p) = length x) as Hl by (unfold shr_digits; by rewrite length_map, length_seq).
      assert (val (shr_digits x p) = val x / weight p) as Hv.
      { rewrite shr_digits_eq, val_app, val_replicate_0, val_drop by (auto; lia). lia. }
      destruct (Z.eqb_spec c 0) as [E|E].
      * rewrite E, Z.pow_0_r, Z.div_1_r. auto.
      * destruct (Hbits (shr_digits x p) c Hw) as (Hl' & Hw' & Hv'); [lia|].
        rewrite Hl', Hv', Hv. auto.
  - destruct (Hbits x count Hx) as (Hl' & Hw' & Hv'); [lia|]. auto.
Qed.

(** ** Comparison *)

Lemma val_take_S x n :
  (n < length x)%nat -> val (take (S n) x) = val (take n x) + weight n * nth n x 0.
Proof.
  intros Hn. rewrite (take_S_r x n (nth n x 0)).
  - rewrite val_app, length_take_le by lia. cbn [val]. lia.
  - rewrite nth_lookup. destruct (lookup_lt_is_Some_2 x n Hn) as [d ->]. done.
Qed.

Lemma weight_le n m : (n <= m)%nat -> weight n <= weight m.
Proof. intros. unfold weight. apply Z.pow_le_mono_r; lia. Qed.

Lemma highest_used_bounds n x :
  wf x -> (n <= length x)%nat ->
  let i := highest_used n x in
  -1 <= i < Z.of_nat (S n) /\
  val (take n x) < weight (Z.to_nat (i + 1)) /\
  (0 <= i -> weight (Z.to_nat i) <= val (take n x) /\ (Z.to_nat i < n)%nat) /\
  (i = -1 -> val (take n x) = 0).
Proof.
  intros Hx; induction n as [|n IH]; intros Hn; cbn [highest_used].
  - rewrite take_0. change (Z.to_nat (-1 + 1)) with 0%nat. rewrite weight_0. cbn [val].
    repeat split; lia.
  - rewrite val_take_S by lia. pose proof (wf_nth x n Hx) as Hd. unfold is_u16 in Hd.
    pose proof (val_range (take n x) (wf_take n x Hx)) as Hr. rewrite length_take_le in Hr by lia.
    destruct (Z.eqb_spec (nth n x 0) 0) as [->|Hne].
    + rewrite Z.mul_0_r, Z.add_0_r. destruct IH as (H1 & H2 & H3 & H4); [lia|].
      repeat split; try lia; destruct (H3 ltac:(lia)); lia.
    + replace (Z.to_nat (Z.of_nat n + 1)) with (S n) by lia. rewrite Nat2Z.id, weight_S.
      repeat split; try lia; nia.
Qed.

Lemma val_take_all x n : wf x -> val x < weight n -> val (take n x) = val x.
Proof.
  intros Hx Hlt. rewrite val_take by done. apply Z.mod_small.
  pose proof (val_range x Hx). lia.
Qed.

Lemma compare_digits_spec n x y e :
  wf x -> wf y -> (n <= length x)%nat -> (n <= length y)%nat ->
  compare_digits n x y e =
  if val (take n x) =? val (take n y) then e else val (take n y) <? val (take n x).
Proof.
  intros Hx Hy; induction n as [|n IH]; intros Hn Hm; cbn [compare_digits].
  - by rewrite !take_0.
  - rewrite IH, !val_take_S by lia. clear IH.
    pose proof (wf_nth x n Hx). pose proof (wf_nth y n Hy).
    pose proof (val_range (take n x) (wf_take n x Hx)) as Hrx. rewrite length_take_le in Hrx by lia.
    pose proof (val_range (take n y) (wf_take n y Hy)) as Hry. rewrite length_take_le in Hry by lia.
    unfold is_u16 in *.
    set (a := nth n x 0) in *. set (b := nth n y 0) in *. set (w := weight n) in *.
    set (p := val (take n x)) in *. set (q := val (take n y)) in *.
    destruct (Z.ltb_spec a b); [|destruct (Z.ltb_spec b a)].
    + rewrite (proj2 (Z.eqb_neq _ _)), (proj2 (Z.ltb_ge _ _)) by nia. done.
    + rewrite (proj2 (Z.eqb_neq _ _)), (proj2 (Z.ltb_lt _ _)) by nia. done.
    + assert (a = b) as -> by lia.
      destruct (Z.eqb_spec p q), (Z.eqb_spec (p + w * b) (q + w * b)); try lia; try done.
Qed.

(** The common part of [v_bignum_gt] and [v_bignum_gte]. *)
Lemma compare_spec x y e z :
  wf x -> wf y ->
  (let i := highest_used (length x) x in
   let j := highest_used (length y) y in
   if (i <? 0) && (j <? 0) then z
   else if i <? j then false
   else if j <? i then true
   else compare_digits (Z.to_nat (i + 1)) x y e) =
  if val x =? val y then (if val x =? 0 then z else e) else val y <? val x.
Proof.
  intros Hx Hy. cbn zeta.
  destruct (highest_used_bounds (length x) x Hx) as (Hi1 & Hi2 & Hi3 & Hi4); [lia|].
  destruct (highest_used_bounds (length y) y Hy) as (Hj1 & Hj2 & Hj3 & Hj4); [lia|].
  rewrite !take_ge in * by lia.
  set (i := highest_used (length x) x) in *. set (j := highest_used (length y) y) in *.
  pose proof (val_range x Hx). pose proof (val_range y Hy).
  destruct (Z.ltb_spec i 0), (Z.ltb_spec j 0); cbn [andb].
  { by rewrite Hi4, Hj4 by lia. }
  1-3: destruct (Z.ltb_spec i j);
    [ assert (val x < val y) by (pose proof (weight_le (Z.to_nat (i + 1)) (Z.to_nat j) ltac:(lia)); lia);
      rewrite (proj2 (Z.eqb_neq _ _)), (proj2 (Z.ltb_ge _ _)) by lia; done |].
  1-3: destruct (Z.ltb_spec j i);
    [ assert (val y < val x) by (pose proof (weight_le (Z.to_nat (j + 1)) (Z.to_nat i) ltac:(lia)); lia);
      rewrite (proj2 (Z.eqb_neq _ _)), (proj2 (Z.ltb_lt _ _)) by lia; done |].
  all: assert (i = j) as Hij by lia; try lia.
  rewrite compare_digits_spec by (auto; lia).
  rewrite !val_take_all by (auto; rewrite ?Hij; auto).
  destruct (Z.eqb_spec (val x) 0) as [E|E]; [|done].
  exfalso. pose proof (weight_pos (Z.to_nat i)). lia.
Qed.

(** [v_bignum_gt] is [>] on the values; on equal non-zero values it answers
    whether [x] is the longer vector. *)
Lemma gt_spec x y :
  wf x -> wf y ->
  v_bignum_gt x y =
  if val x =? val y then negb (val x =? 0) && (length y <? length x)%nat else val y <? val x.
Proof.
  intros Hx Hy. unfold v_bignum_gt. rewrite compare_spec by done.
  destruct (val x =? val y); [|done]. by destruct (val x =? 0).
Qed.

Lemma gte_spec x y :
  wf x -> wf y ->
  v_bignum_gte x y =
  if val x =? val y then (val x =? 0) || (length y <=? length x)%nat else val y <? val x.
Proof.
  intros Hx Hy. unfold v_bignum_gte. rewrite compare_spec by done.
  destruct (val x =? val y); [|done]. by destruct (val x =? 0).
Qed.

(** Numbers of one size, or a second number that is the longer one. *)
Lemma gt_le_length x y :
  wf x -> wf y -> (length x <= length y)%nat -> v_bignum_gt x y = (val y <? val x).
Proof.
  intros Hx Hy Hl. rewrite gt_spec by done.
  destruct (Z.eqb_spec (val x) (val y)) as [->|]; [|done].
  rewrite (proj2 (Nat.ltb_ge _ _)), andb_false_r by lia. symmetry. apply Z.ltb_irrefl.
Qed.

Lemma gte_ge_length x y :
  wf x -> wf y -> (length y <= length x)%nat -> v_bignum_gte x y = (val y <=? val x).
Proof.
  intros Hx Hy Hl. rewrite gte_spec by done.
  destruct (Z.eqb_spec (val x) (val y)) as [->|].
  - rewrite (proj2 (Nat.leb_le _ _)), orb_true_r by lia. symmetry. apply Z.leb_refl.
  - destruct (Z.ltb_spec (val y) (val x)), (Z.leb_spec (val y) (val x)); lia || done.
Qed.

Lemma forallb_zero_val x : wf x -> forallb (fun d => d =? 0) x = (val x =? 0).
Proof.
  induction 1 as [|d x Hd Hx IH]; [done|]. cbn [forallb val]. rewrite IH.
  pose proof (val_range x Hx). unfold is_u16 in Hd.
  destruct (Z.eqb_spec d 0), (Z.eqb_spec (val x) 0), (Z.eqb_spec (d + 2 ^ 16 * val x) 0);
    simpl; lia || done.
Qed.

Lemma eq_zero_spec x : wf x -> v_bignum_eq_zero x = (val x =? 0).
Proof. apply forallb_zero_val. Qed.

Lemma eq_one_spec x : wf x -> v_bignum_eq_one x = (val x =? 1).
Proof.
  destruct 1 as [|d x Hd Hx]; [done|]. cbn [v_bignum_eq_one val].
  rewrite forallb_zero_val by done. pose proof (val_range x Hx). unfold is_u16 in Hd.
  destruct (Z.eqb_spec d 1), (Z.eqb_spec (val x) 0), (Z.eqb_spec (d + 2 ^ 16 * val x) 1);
    simpl; lia || done.
Qed.

Lemma digits_eqb_spec n x y :
  wf x -> wf y -> (n <= length x)%nat -> (n <= length y)%nat ->
  digits_eqb n x y = (val (take n x) =? val (take n y)).
Proof.
  intros Hx; revert n y; induction Hx as [|d x Hd Hx IH]; intros n y Hy Hn Hm;
    destruct n as [|n]; try (simpl in Hn; lia); [done|done|].
  destruct Hy as [|e y He Hy]; [simpl in Hm; lia|]. simpl in Hn, Hm.
  cbn [digits_eqb take val]. rewrite IH by (auto; lia).
  change (firstn n) with (@take Z n).
  set (p := val (take n x)). set (q := val (take n y)). unfold is_u16 in *.
  destruct (Z.eqb_spec d e), (Z.eqb_spec p q), (Z.eqb_spec (d + 2 ^ 16 * p) (e + 2 ^ 16 * q));
    simpl; lia || done.
Qed.

(** On numbers of one size [v_bignum_eq] is equality. *)
Lemma eq_same_length x y :
  wf x -> wf y -> length x = length y -> v_bignum_eq x y = (val x =? val y).
Proof.
  intros Hx Hy Hl. unfold v_bignum_eq. rewrite (proj2 (Nat.eqb_eq _ _)) by done.
  rewrite digits_eqb_spec, !take_ge by (auto; lia). done.
Qed.

(** ** The most significant bit *)

Lemma msb_scan_spec k d bit :
  0 < d < 2 ^ Z.of_nat k -> msb_scan k d bit = Some (bit - Z.of_nat k + 1 + Z.log2 d).
Proof.
  revert bit; induction k as [|k IH]; intros bit Hd; [simpl in Hd; lia|].
  cbn [msb_scan]. rewrite land_pow2_nonzero by lia.
  destruct (Z.lt_ge_cases d (2 ^ Z.of_nat k)) as [L|L].
  - rewrite (testbit_small d (Z.of_nat k)) by lia. rewrite IH by lia. f_equal. lia.
  - assert (Z.log2 d = Z.of_nat k) as E.
    { apply Z.log2_unique; [lia|]. rewrite Nat2Z.inj_succ in Hd. unfold Z.succ in Hd. lia. }
    rewrite <- E at 1. rewrite Z.bit_log2 by lia. f_equal. lia.
Qed.

Lemma bit_msb_loop_spec n x :
  wf x -> (n <= length x)%nat ->
  bit_msb_loop n x = if val (take n x) =? 0 then -1 else Z.log2 (val (take n x)).
Proof.
  intros Hx; induction n as [|n IH]; intros Hn; cbn [bit_msb_loop]; [by rewrite take_0|].
  rewrite val_take_S by lia. pose proof (wf_nth x n Hx) as Hd. unfold is_u16 in Hd.
  pose proof (val_range (take n x) (wf_take n x Hx)) as Hr. rewrite length_take_le in Hr by lia.
  destruct (Z.eqb_spec (nth n x 0) 0) as [->|Hne].
  - rewrite Z.mul_0_r, Z.add_0_r. apply IH. lia.
  - rewrite msb_scan_spec by (simpl Z.of_nat; lia).
    rewrite (proj2 (Z.eqb_neq _ _)) by (pose proof (weight_pos n); nia).
    set (d := nth n x 0) in *. symmetry.
    pose proof (Z.log2_spec d ltac:(lia)) as Hlog. pose proof (Z.log2_nonneg d).
    apply Z.log2_unique; [lia|]. unfold weight in *.
    replace (Z.of_nat (S n) * 16 - 1 - Z.of_nat 16 + 1 + Z.log2 d)
      with (16 * Z.of_nat n + Z.log2 d) by lia.
    rewrite <- Z.add_succ_r, !Z.pow_add_r by lia. nia.
Qed.

Lemma bit_msb_spec x :
  wf x -> v_bignum_bit_msb x = if val x =? 0 then -1 else Z.log2 (val x).
Proof.
  intros Hx. unfold v_bignum_bit_msb. rewrite bit_msb_loop_spec, take_ge by (auto; lia). done.
Qed.

(** ** Extraction of a bit range *)

Lemma length_set_part_loop n i x y msb bits :
  length (set_part_loop n i x y msb bits) = length x.
Proof.
  revert i x; induction n as [|n IH]; intros i x; [done|]. cbn [set_part_loop].
  rewrite IH. destruct (v_bignum_bit_test _ _); [apply length_bit_set|done].
Qed.

Lemma wf_set_part_loop n i x y msb bits :
  wf x -> wf (set_part_loop n i x y msb bits).
Proof.
  revert i x; induction n as [|n IH]; intros i x Hx; [done|]. cbn [set_part_loop].
  apply IH. destruct (v_bignum_bit_test _ _); auto with cint.
Qed.

Lemma set_part_loop_testbit n i x y msb bits j :
  wf x -> wf y -> 0 <= i -> bits = i + Z.of_nat n -> bits <= Z.of_nat (length x) * 16 ->
  0 <= msb - (bits - 1) -> msb < 2 ^ 32 -> 0 <= j ->
  Z.testbit (val (set_part_loop n i x y msb bits)) j =
  Z.testbit (val x) j ||
  ((i <=? j) && (j <? bits) && Z.testbit (val y) (msb - (bits - 1) + j)).
Proof.
  intros Hx Hy; revert i x Hx; induction n as [|n IH]; intros i x Hx Hi Hb Hl Hm Hm2 Hj.
  - cbn [set_part_loop]. replace ((i <=? j) && (j <? bits)) with false by lia.
    by rewrite orb_false_r.
  - cbn [set_part_loop].
    rewrite u32_id by (unfold is_u32; lia). rewrite bit_test_spec by (auto; lia).
    set (b := Z.testbit (val y) (msb - (bits - 1) + i)).
    assert (length (if b then v_bignum_bit_set x i else x) = length x) as Hlx
      by (destruct b; [apply length_bit_set|done]).
    assert (wf (if b then v_bignum_bit_set x i else x)) as Hwx
      by (destruct b; auto with cint).
    rewrite IH; rewrite ?Hlx; try lia; [|done]. unfold b.
    destruct (Z.testbit (val y) (msb - (bits - 1) + i)) eqn:E.
    + rewrite bit_set_testbit by (auto; lia).
      destruct (Z.eqb_spec j i) as [->|Hne].
      * rewrite E, Z.leb_refl, (proj2 (Z.ltb_lt i bits)) by lia. by rewrite !orb_true_r.
      * replace (i <=? j) with (i + 1 <=? j) by lia. done.
    + destruct (Z.eqb_spec j i) as [->|Hne].
      * rewrite E, !andb_false_r. done.
      * replace (i <=? j) with (i + 1 <=? j) by lia. done.
Qed.

Lemma set_bignum_part_spec x y msb bits :
  wf y -> 0 <= bits <= Z.of_nat (length x) * 16 -> 0 <= msb - (bits - 1) -> msb < 2 ^ 32 ->
  msb <= Z.of_nat (length y) * 16 ->
  let r := v_bignum_set_bignum_part x y msb bits in
  length r = length x /\ wf r /\ val r = (val y / 2 ^ (msb - bits + 1)) mod 2 ^ bits.
Proof.
  intros Hy Hb Hm Hm2 Hm3. cbn zeta. unfold v_bignum_set_bignum_part.
  rewrite (proj2 (Z.ltb_ge _ _)) by lia.
  rewrite length_set_part_loop, length_set_zero.
  repeat split; [apply wf_set_part_loop; auto with cint|].
  apply Z.bits_inj'. intros j Hj.
  rewrite set_part_loop_testbit; rewrite ?length_set_zero; auto with cint; try lia.
  rewrite val_set_zero, Z.bits_0, orb_false_l.
  rewrite testbit_mod_pow2, <- Z.shiftr_div_pow2, Z.shiftr_spec by lia.
  replace (0 <=? j) with true by lia. cbn [andb]. f_equal. f_equal. lia.
Qed.
