(* ===== verification/BignumHeap.v ===== *)
(** * The bignum scratch heap, division and remainder

    [v_bignum.c] keeps a static array [heap] of digits and a position
    [heap_pos], from which temporaries are allocated in a stack-like manner.
    The model threads this state; a bignum allocated there is a length cell
    followed by its digits.  A temporary that only one routine can reach is
    kept as a digit list while the routine runs and is written back to its
    cells when the routine releases it. *)

From stdpp Require Import base numbers list option.
From Stdlib Require Import ZArith Lia.
From S2P Require Import Prelude Bignum BignumSpec.

Definition HEAP_SIZE : Z := 2048 + 32.

Record heap := mkHeap {
  cells : list Z;       (* static VBigDig heap[2048 + 32] *)
  heap_pos : Z          (* static unsigned int heap_pos *)
}.

Definition heap_init : heap := mkHeap (replicate (Z.to_nat HEAP_SIZE) 0) 0.

(** [None] is the NULL returned after "Out of memory in bignum heap". The
    test is [heap_pos + n > size] although [n + 1] cells are taken. *)
Definition bignum_alloc (n : Z) (h : heap) : option (outcome (Z * heap)) :=
  if HEAP_SIZE <? u32 (heap_pos h + n) then None
  else
    let y := heap_pos h in
    Some (let* c := aset (cells h) y (u16 n) in
          Ok (y, mkHeap c (u32 (heap_pos h + (n + 1))))).

(** Every caller dereferences the pointer at once: NULL is [Undef]. *)
Definition alloc (n : Z) (h : heap) : outcome (Z * heap) :=
  match bignum_alloc n h with
  | Some r => r
  | None => Undef
  end.

(** The digits of the number at [p], and writing them. *)
Definition load (h : heap) (p : Z) : outcome (list Z) :=
  let* n := aget (cells h) p in
  if p + n <? Z.of_nat (length (cells h))
  then Ok (take (Z.to_nat n) (drop (Z.to_nat (p + 1)) (cells h)))
  else Undef.

Definition store (h : heap) (p : Z) (x : list Z) : outcome heap :=
  if p + Z.of_nat (length x) <? Z.of_nat (length (cells h))
  then Ok (mkHeap (take (Z.to_nat (p + 1)) (cells h) ++ x
                   ++ drop (Z.to_nat (p + 1) + length x) (cells h)) (heap_pos h))
  else Undef.

Definition bignum_free (p : Z) (h : heap) : outcome heap :=
  let* n := aget (cells h) p in
  Ok (mkHeap (cells h) (u32 (heap_pos h - (n + 1)))).

(** ** Division *)

(** [x[1] |= 1] *)
Definition or_one (x : list Z) : list Z := <[0%nat := u16 (Z.lor (nth 0 x 0) 1)]> x.

(** The loop [for(next = ...; next >= -1; next--)], [n] rounds left. *)
Fixpoint div_loop (n : nat) (next : Z) (x y q work : list Z) : list Z * list Z :=
  match n with
  | O => (q, work)
  | S n' =>
      let q := v_bignum_bit_shift_left_1 q in
      let '(q, work) :=
        if v_bignum_gte work y then (or_one q, v_bignum_sub work y) else (q, work) in
      let work := v_bignum_bit_shift_left_1 work in
      let work := if v_bignum_bit_test x (u32 next) then or_one work else work in
      div_loop n' (next - 1) x y q work
  end.

(** Returns the heap, the new digits of [x] and the new digits of the
    remainder ([None] for a NULL [remainder]). *)
Definition v_bignum_div (h : heap) (x y : list Z) (remainder : option (list Z))
  : outcome (heap * list Z * option (list Z)) :=
  let msbx := v_bignum_bit_msb x in
  let msby := v_bignum_bit_msb y in
  if msbx <? msby then
    Ok (h, v_bignum_set_zero x,
        option_map (fun r => v_bignum_set_bignum r x) remainder)
  else if msby <? 0 then Ok (h, v_bignum_set_zero x, remainder)
  else
    let* (pq, h) := alloc (Z.of_nat (length x)) h in
    let* q := load h pq in
    let q := v_bignum_set_zero q in
    let* h := store h pq q in
    let* (pw, h) := alloc (Z.of_nat (length x)) h in
    let* work := load h pw in
    let work := v_bignum_set_bignum_part work x msbx (msby + 1) in
    let next := msbx - (msby + 1) in
    let '(q, work) := div_loop (Z.to_nat (next + 2)) next x y q work in
    let work := v_bignum_bit_shift_right work 1 in
    let* h := store h pw work in
    let remainder := option_map (fun r => v_bignum_set_bignum r work) remainder in
    let* h := bignum_free pw h in
    let* h := store h pq q in
    let x := v_bignum_set_bignum x q in
    let* h := bignum_free pq h in
    Ok (h, x, remainder).

Definition v_bignum_mod (h : heap) (x y : list Z) : outcome (heap * list Z) :=
  let digs := if Z.of_nat (length y) <? Z.of_nat (length x)
              then Z.of_nat (length x) else Z.of_nat (length y) in
  let* (ptmp, h) := alloc digs h in
  let* tmp := load h ptmp in
  let* (h, x, tmp) := v_bignum_div h x y (Some tmp) in
  let tmp := default [] tmp in
  let* h := store h ptmp tmp in
  let x := v_bignum_set_bignum x tmp in
  let* h := bignum_free ptmp h in
  Ok (h, x).

(** ** The division loop *)

Lemma or_one_spec x :
  wf x -> x <> [] -> val x mod 2 = 0 ->
  length (or_one x) = length x /\ wf (or_one x) /\ val (or_one x) = val x + 1.
Proof.
  intros Hx Hn He. unfold or_one. destruct Hx as [|d x Hd Hx]; [done|]. cbn [nth].
  rewrite length_insert. split; [done|]. split; [auto with cint|].
  cbn [list_insert insert val] in *. 
  assert (d mod 2 = 0) as Hd2 by (cbn [val] in He; dm).
  assert (Z.lor d 1 = d + 1) as ->.
  { rewrite Z.lor_comm. replace d with ((d / 2) * 2 ^ 1) at 1 by dm. rewrite lor_add by lia. dm. }
  rewrite u16_id; [lia|]. unfold is_u16 in *. dm.
Qed.

Lemma double_plus_bit_mod2 w : (2 * w) mod 2 = 0.
Proof. dm. Qed.

Lemma even_weight n : (0 < n)%nat -> weight n = 2 * (weight n / 2).
Proof. intros. destruct n; [lia|]. rewrite weight_S. dm. Qed.

Lemma testbit_b2z a n : 0 <= a -> 0 <= n -> b2z (Z.testbit a n) = (a / 2 ^ n) mod 2.
Proof.
  intros Ha Hn. rewrite <- Z.testbit_spec' by done. by destruct (Z.testbit a n).
Qed.

(** What one round keeps: [work = x / 2^(next+1) - 2 * q * y < 2 * y]. *)
Definition div_inv (x y q work : list Z) (next : Z) : Prop :=
  wf q /\ wf work /\ length q = length x /\ length work = length x /\
  val work = val x / 2 ^ (next + 1) - 2 * val q * val y /\
  0 <= val work < 2 * val y.

Section DivStep.
Context (x y : list Z).
Hypothesis (Hx : wf x) (Hy : wf y) (Hn : x <> []).
Hypothesis (Hly : (length y <= length x)%nat) (Hy0 : 0 < val y).

Let W := weight (length x).

(** The compare-and-subtract half of a round. *)
Lemma div_sub_step q work next :
  div_inv x y q work next -> -1 <= next ->
  let q1 := v_bignum_bit_shift_left_1 q in
  let r := if v_bignum_gte work y then (or_one q1, v_bignum_sub work y) else (q1, work) in
  wf r.1 /\ wf r.2 /\ length r.1 = length x /\ length r.2 = length x /\
  val r.2 = val x / 2 ^ (next + 1) - val r.1 * val y /\ 0 <= val r.2 < val y.
Proof.
  intros (Hq & Hw & Hlq & Hlw & Hv & Hb) Hnext. cbn zeta.
  destruct (shift_left_1_spec q Hq) as (Hl1 & Hw1 & Hv1).
  pose proof (val_range x Hx) as Hrx. pose proof (val_range q Hq) as Hrq.
  assert (0 < 2 ^ (next + 1)) by (apply Z.pow_pos_nonneg; lia).
  assert (val x / 2 ^ (next + 1) <= val x) by (apply Z.div_le_upper_bound; nia).
  assert (2 * val q < W) by (unfold W; nia).
  rewrite Hlq, Z.mod_small in Hv1 by (fold W; lia).
  rewrite gte_ge_length by (auto; lia).
  destruct (Z.leb_spec (val y) (val work)); cbn [fst snd].
  - destruct (or_one_spec (v_bignum_bit_shift_left_1 q)) as (Hl2 & Hw2 & Hv2); auto.
    { intros E. rewrite E in Hl1. destruct x; [done|]. simpl in *. lia. }
    { rewrite Hv1. apply double_plus_bit_mod2. }
    rewrite Hl2, Hl1, length_sub, Hv2, val_sub, Hv1, Hlw by auto.
    rewrite Z.mod_small by (pose proof (val_range work Hw); rewrite Hlw in *; lia).
    repeat split; auto with cint; lia.
  - rewrite Hl1, Hv1. repeat split; auto; lia.
Qed.

Lemma div_round q work next :
  div_inv x y q work next -> 0 <= next < 2 ^ 32 -> 
  let q1 := v_bignum_bit_shift_left_1 q in
  let r := if v_bignum_gte work y then (or_one q1, v_bignum_sub work y) else (q1, work) in
  let work2 := v_bignum_bit_shift_left_1 r.2 in
  div_inv x y r.1 (if v_bignum_bit_test x (u32 next) then or_one work2 else work2) (next - 1).
Proof.
  intros Hinv Hnext. cbn zeta.
  destruct (div_sub_step q work next Hinv ltac:(lia)) as (H1 & H2 & H3 & H4 & H5 & H6).
  set (r := if v_bignum_gte work y then _ else _) in *. clearbody r. destruct r as [q2 w2].
  cbn [fst snd] in *.
  destruct (shift_left_1_spec w2 H2) as (Hl1 & Hw1 & Hv1).
  rewrite u32_id, bit_test_spec by (auto; unfold is_u32; lia).
  pose proof (val_range x Hx) as Hrx.
  pose proof (testbit_b2z (val x) next ltac:(lia) ltac:(lia)) as Hbit.
  assert (0 < 2 ^ next) by (apply Z.pow_pos_nonneg; lia).
  assert (val x / 2 ^ (next + 1) = val x / 2 ^ next / 2) as Hp.
  { rewrite Z.pow_add_r, Z.pow_1_r, Z.div_div by lia. done. }
  set (p := val x / 2 ^ next) in *.
  assert (p <= val x) by (apply Z.div_le_upper_bound; nia).
  pose proof (Z_div_mod_eq_full p 2) as Hp2.
  assert (0 <= val q2 * val y) by (pose proof (val_range q2 H1); nia).
  pose proof (b2z_range (Z.testbit (val x) next)) as Hb01.
  rewrite H4, Z.mod_small in Hv1 by (unfold W in *; lia).
  unfold div_inv. replace (next - 1 + 1) with next by lia. fold p.
  destruct (Z.testbit (val x) next); simpl in Hbit.
  - destruct (or_one_spec (v_bignum_bit_shift_left_1 w2)) as (Hl2 & Hw2 & Hv2); auto.
    { intros E. rewrite E in Hl1. destruct x; [done|]. simpl in *. lia. }
    { rewrite Hv1. apply double_plus_bit_mod2. }
    rewrite Hl2, Hl1, Hv2, Hv1. repeat split; auto; lia.
  - rewrite Hl1, Hv1. repeat split; auto; lia.
Qed.

(** All the rounds: quotient and twice the remainder, cut to the size. *)
Lemma div_loop_spec n q work next :
  div_inv x y q work next -> next = Z.of_nat n - 1 -> next < 2 ^ 32 ->
  16 * Z.of_nat (length x) < 2 ^ 32 ->
  let '(q', work') := div_loop (S n) next x y q work in
  wf q' /\ wf work' /\ length q' = length x /\ length work' = length x /\
  val q' = val x / val y /\ val work' = (2 * (val x mod val y)) mod W.
Proof.
  revert q work next; induction n as [|n IH]; intros q work next Hinv Hnext Hmax Hlen.
  - destruct (div_sub_step q work next Hinv ltac:(lia)) as (H1 & H2 & H3 & H4 & H5 & H6).
    cbn [div_loop]. set (r := if v_bignum_gte work y then _ else _) in *.
    clearbody r. destruct r as [q2 w2]. cbn [fst snd] in *.
    destruct (shift_left_1_spec w2 H2) as (Hl1 & Hw1 & Hv1).
    replace next with (-1) in * by lia. rewrite Z.div_1_r in H5.
    assert (v_bignum_bit_test x (u32 (-1)) = false) as ->.
    { rewrite bit_test_spec by (auto; vm_compute; discriminate).
      pose proof (val_range x Hx). apply (testbit_small _ (16 * Z.of_nat (length x))); [done|].
      change (u32 (-1)) with (2 ^ 32 - 1). lia. }
    assert (val q2 = val x / val y) by (apply Z.div_unique with (val w2); lia).
    assert (val w2 = val x mod val y) by (apply Z.mod_unique with (val q2); lia).
    repeat split; auto; try congruence. rewrite Hv1, H4. fold W. congruence.
  - pose proof (div_round q work next Hinv ltac:(lia)) as Hr. cbn zeta in Hr.
    cbn [div_loop]. cbn [div_loop] in IH.
    set (r := if v_bignum_gte work y then _ else _) in *. clearbody r.
    destruct r as [q2 w2]. cbn [fst snd] in *.
    apply (IH _ _ (next - 1) Hr); lia.
Qed.
End DivStep.

(** ** The heap discipline *)

Definition heap_wf (h : heap) : Prop :=
  Z.of_nat (length (cells h)) = HEAP_SIZE /\ wf (cells h) /\ 0 <= heap_pos h <= HEAP_SIZE.

(** [h'] agrees with [h] on the cells below [k] and on those from [m] on. *)
Definition frame (k m : Z) (h h' : heap) : Prop :=
  heap_wf h' /\ take (Z.to_nat k) (cells h') = take (Z.to_nat k) (cells h) /\
  drop (Z.to_nat m) (cells h') = drop (Z.to_nat m) (cells h).

(** The length cell at [p] holds [n] and the digits fit. *)
Definition block (h : heap) (p n : Z) : Prop :=
  0 <= p /\ 0 <= n < 2 ^ 16 /\ p + n < HEAP_SIZE /\ nth (Z.to_nat p) (cells h) 0 = n.

Lemma heap_wf_init : heap_wf heap_init.
Proof.
  unfold heap_wf, heap_init. cbn [cells heap_pos]. rewrite length_replicate.
  split; [done|]. split; [apply wf_replicate_0|]. vm_compute. split; discriminate.
Qed.

Lemma frame_refl k m h : heap_wf h -> frame k m h h.
Proof. done. Qed.

Lemma frame_trans k m h1 h2 h3 : frame k m h1 h2 -> frame k m h2 h3 -> frame k m h1 h3.
Proof. intros (_ & H1 & H1') (H & H2 & H2'). split_and!; congruence. Qed.

Lemma take_le_eq (j k : nat) (a b : list Z) : (j <= k)%nat -> take k a = take k b -> take j a = take j b.
Proof. intros Hjk H. rewrite <- (take_take_le a j k), <- (take_take_le b j k) by done. congruence. Qed.

Lemma drop_ge_eq (j k : nat) (a b : list Z) : (j <= k)%nat -> drop j a = drop j b -> drop k a = drop k b.
Proof.
  intros Hjk H. replace k with (j + (k - j))%nat by lia. rewrite <- !drop_drop. congruence.
Qed.

Lemma frame_mono j k m n h h' : j <= k -> m <= n -> frame k m h h' -> frame j n h h'.
Proof.
  intros Hjk Hmn (H & E & E'). split_and!; [done| |].
  - eapply take_le_eq; [|exact E]. lia.
  - eapply drop_ge_eq; [|exact E']. lia.
Qed.

Lemma frame_nth k m h h' p :
  frame k m h h' -> 0 <= p < k -> nth (Z.to_nat p) (cells h') 0 = nth (Z.to_nat p) (cells h) 0.
Proof.
  intros (_ & E & _) Hp. rewrite !nth_lookup.
  rewrite <- (lookup_take_lt (cells h') (Z.to_nat k)), <- (lookup_take_lt (cells h) (Z.to_nat k)) by lia.
  by rewrite E.
Qed.

Lemma block_frame k m h h' p n : frame k m h h' -> 0 <= p < k -> block h p n -> block h' p n.
Proof.
  intros Hb Hp (H1 & H2 & H3 & H4). repeat split; try lia. by rewrite (frame_nth k m h h' p Hb Hp).
Qed.

Lemma block_free h p n : heap_wf h -> block h p n -> heap_pos h = p + n + 1 ->
  bignum_free p h = Ok (mkHeap (cells h) p).
Proof.
  intros (Hl & _ & Hp) (H1 & H2 & H3 & H4) E. unfold bignum_free.
  rewrite aget_ok by lia. cbn [obind]. rewrite H4, E. do 2 f_equal.
  rewrite u32_id; [lia|]. unfold is_u32, HEAP_SIZE in *. lia.
Qed.

Lemma alloc_ok n h :
  heap_wf h -> 0 <= n < 2 ^ 16 -> heap_pos h + n + 1 <= HEAP_SIZE ->
  exists h1, alloc n h = Ok (heap_pos h, h1) /\ frame (heap_pos h) (heap_pos h + 1) h h1 /\
  heap_pos h1 = heap_pos h + n + 1 /\ block h1 (heap_pos h) n.
Proof.
  intros (Hl & Hw & Hp) Hn Hroom.
  exists (mkHeap (<[Z.to_nat (heap_pos h) := n]> (cells h)) (heap_pos h + n + 1)).
  assert (is_u32 (heap_pos h + n)) by (unfold is_u32, HEAP_SIZE in *; lia).
  assert (is_u32 (heap_pos h + (n + 1))) by (unfold is_u32, HEAP_SIZE in *; lia).
  unfold alloc, bignum_alloc. rewrite !u32_id, u16_id by done.
  destruct (Z.ltb_spec HEAP_SIZE (heap_pos h + n)); [lia|]. rewrite aset_ok by lia. cbn [obind].
  rewrite Z.add_assoc. split; [done|]. split; [|split; [done|]].
  - split; [|cbn [cells]; rewrite take_insert_ge, (drop_insert_lt (cells h)) by lia; done].
    split; [by cbn [cells]; rewrite length_insert|]. split; [by apply wf_insert|]. cbn [heap_pos]. lia.
  - repeat split; try lia. cbn [cells]. rewrite nth_insert_z by lia. by rewrite Nat.eqb_refl.
Qed.

Lemma load_ok h p n :
  heap_wf h -> block h p n -> exists x, load h p = Ok x /\ Z.of_nat (length x) = n /\ wf x.
Proof.
  intros (Hl & Hw & Hp) (H1 & H2 & H3 & H4). unfold load. rewrite aget_ok by lia. cbn [obind].
  rewrite H4. destruct (Z.ltb_spec (p + n) (Z.of_nat (length (cells h)))); [|lia].
  eexists; split; [done|]. rewrite length_take, length_drop. split; [lia|]. auto with cint.
Qed.

Lemma store_ok h p x :
  heap_wf h -> wf x -> 0 <= p -> p + Z.of_nat (length x) < HEAP_SIZE ->
  exists h1, store h p x = Ok h1 /\ frame (p + 1) (p + 1 + Z.of_nat (length x)) h h1 /\ heap_pos h1 = heap_pos h.
Proof.
  intros (Hl & Hw & Hp) Hx H0 Hr. unfold store.
  destruct (Z.ltb_spec (p + Z.of_nat (length x)) (Z.of_nat (length (cells h)))); [|lia].
  eexists; split; [done|]. split; [|done]. split.
  - split; [cbn [cells]; rewrite !length_app, length_take, length_drop; lia|].
    split; [cbn [cells]; auto 6 with cint|done].
  - cbn [cells]. assert (length (take (Z.to_nat (p + 1)) (cells h)) = Z.to_nat (p + 1)) as Hlt
      by (rewrite length_take; lia).
    rewrite take_app_le by lia. rewrite take_take_le by done. split; [done|].
    rewrite app_assoc, drop_app_length' by (rewrite length_app; lia). f_equal. lia.
Qed.

(** What was stored at a block is what is loaded from it. *)
Lemma load_store h p x h1 :
  heap_wf h -> block h p (Z.of_nat (length x)) -> store h p x = Ok h1 -> load h1 p = Ok x.
Proof.
  intros (Hl & Hw & Hp) (H1 & H2 & H3 & H4) E. unfold store in E.
  destruct (Z.ltb_spec (p + Z.of_nat (length x)) (Z.of_nat (length (cells h)))); [|lia].
  injection E as <-. unfold load. cbn [cells].
  assert (length (take (Z.to_nat (p + 1)) (cells h)) = Z.to_nat (p + 1)) as Hlt
    by (rewrite length_take; lia).
  rewrite aget_ok by (rewrite !length_app, Hlt, length_drop; lia). cbn [obind].
  rewrite nth_lookup, lookup_app_l, lookup_take_lt, <- nth_lookup, H4 by lia.
  rewrite !length_app, Hlt, length_drop, Nat2Z.id.
  destruct (Z.ltb_spec (p + Z.of_nat (length x))
    (Z.of_nat (Z.to_nat (p + 1) + (length x + (length (cells h) - (Z.to_nat (p + 1) + length x))))));
    [|lia].
  rewrite drop_app_length' by done. by rewrite take_app_length.
Qed.

Lemma set_bignum_same_length x y : length x = length y -> v_bignum_set_bignum x y = y.
Proof. intros E. unfold v_bignum_set_bignum. by rewrite E, Nat.eqb_refl. Qed.

Lemma msb_lt_spec x y :
  wf x -> wf y -> 0 < val y -> v_bignum_bit_msb x < v_bignum_bit_msb y -> val x < val y.
Proof.
  intros Hx Hy Hy0. rewrite !bit_msb_spec by done.
  destruct (Z.eqb_spec (val x) 0), (Z.eqb_spec (val y) 0); try lia.
  intros. apply Z.log2_lt_cancel. done.
Qed.

(** The dividend's top bits, as many as the divisor has. *)
Lemma div_start x y work :
  wf x -> wf y -> wf work -> 0 < val y -> length work = length x ->
  v_bignum_bit_msb y <= v_bignum_bit_msb x -> 16 * Z.of_nat (length x) < 2 ^ 32 ->
  let msbx := v_bignum_bit_msb x in
  let msby := v_bignum_bit_msb y in
  0 <= msby < 16 * Z.of_nat (length x) /\ msbx < 16 * Z.of_nat (length x) /\
  div_inv x y (v_bignum_set_zero work)
    (v_bignum_set_bignum_part work x msbx (msby + 1)) (msbx - (msby + 1)).
Proof.
  intros Hx Hy Hw Hy0 Hlw Hmsb Hlen. cbn zeta.
  pose proof (val_range x Hx) as Hrx. unfold weight in Hrx.
  rewrite !bit_msb_spec in * by done.
  rewrite (proj2 (Z.eqb_neq (val y) 0)) in * by lia.
  pose proof (Z.log2_nonneg (val y)) as Hly0.
  destruct (Z.eqb_spec (val x) 0) as [|Hx0]; [lia|].
  assert (Z.log2 (val x) < 16 * Z.of_nat (length x)) as Hmx by (apply Z.log2_lt_pow2; lia).
  split; [lia|]. split; [done|].
  destruct (set_bignum_part_spec work x (Z.log2 (val x)) (Z.log2 (val y) + 1)) as (H1 & H2 & H3);
    auto; try lia.
  pose proof (Z.log2_spec (val x) ltac:(lia)) as Sx. pose proof (Z.log2_spec (val y) Hy0) as Sy.
  split_and!; rewrite ?length_set_zero; auto with cint; try lia; rewrite H3;
    replace (Z.log2 (val x) - (Z.log2 (val y) + 1) + 1)
      with (Z.log2 (val x) - Z.log2 (val y)) by lia.
  - rewrite val_set_zero, Z.mod_small; [lia|]. split; [apply Z.div_pos; lia|].
    apply Z.div_lt_upper_bound; [lia|]. rewrite <- Z.pow_add_r by lia.
    eapply Z.lt_le_trans; [apply Sx|]. apply Z.pow_le_mono_r; lia.
  - apply Z.mod_pos_bound. lia.
  - eapply Z.lt_le_trans; [apply Z.mod_pos_bound; lia|]. rewrite Z.pow_add_r by lia. lia.
Qed.

(** ** Division and remainder *)

(** The state the loop ends in: quotient in full, remainder without its top
    bit ([work] is shifted left once too often and then right again). *)
Lemma div_loop_result x y work :
  wf x -> wf y -> wf work -> x <> [] -> (length y <= length x)%nat -> 0 < val y ->
  length work = length x -> v_bignum_bit_msb y <= v_bignum_bit_msb x ->
  16 * Z.of_nat (length x) < 2 ^ 32 ->
  let msbx := v_bignum_bit_msb x in
  let msby := v_bignum_bit_msb y in
  let next := msbx - (msby + 1) in
  let r := div_loop (Z.to_nat (next + 2)) next x y (v_bignum_set_zero work)
             (v_bignum_set_bignum_part work x msbx (msby + 1)) in
  let rem := v_bignum_bit_shift_right r.2 1 in
  wf r.1 /\ length r.1 = length x /\ val r.1 = val x / val y /\
  wf rem /\ length rem = length x /\
  val rem = (val x mod val y) mod (weight (length x) / 2).
Proof.
  intros Hx Hy Hw Hn Hly Hy0 Hlw Hmsb Hlen. cbn zeta.
  destruct (div_start x y work) as (H1 & H2 & Hinv); auto.
  set (msbx := v_bignum_bit_msb x) in *. set (msby := v_bignum_bit_msb y) in *.
  replace (Z.to_nat (msbx - (msby + 1) + 2)) with (S (Z.to_nat (msbx - (msby + 1) + 1))) by lia.
  pose proof (div_loop_spec x y Hx Hy Hn Hly Hy0 (Z.to_nat (msbx - (msby + 1) + 1)) _ _ _
    Hinv ltac:(lia) ltac:(lia) Hlen) as Hl.
  destruct (div_loop _ _ _ _ _ _) as [q' work'].
  destruct Hl as (Hq & Hw' & Hlq & Hlw' & Hvq & Hvw). cbn [fst snd].
  destruct (shift_right_spec work' 1) as (Hl2 & Hw2 & Hv2); auto; [lia|].
  split_and!; auto; [congruence|].
  rewrite Hv2, Hvw. assert (0 < length x)%nat as Hpos by (destruct x; [done|simpl; lia]).
  rewrite (even_weight (length x) Hpos) at 1.
  pose proof (weight_pos (length x)). pose proof (even_weight (length x) Hpos).
  rewrite Z.mul_mod_distr_l by lia. rewrite Z.pow_1_r, Z.mul_comm, Z.div_mul by lia. done.
Qed.

(** Taking a temporary, and giving it back. *)
Lemma acquire_ok n h :
  heap_wf h -> 0 <= n < 2 ^ 16 -> heap_pos h + n + 1 <= HEAP_SIZE ->
  exists h1 x0, alloc n h = Ok (heap_pos h, h1) /\ load h1 (heap_pos h) = Ok x0 /\
  Z.of_nat (length x0) = n /\ wf x0 /\
  frame (heap_pos h) (heap_pos h + n + 1) h h1 /\ heap_pos h1 = heap_pos h + n + 1 /\
  block h1 (heap_pos h) n.
Proof.
  intros Hh Hn Hr. destruct (alloc_ok n h Hh Hn Hr) as (h1 & E1 & Hb & Hp & Hk).
  destruct (load_ok h1 _ _ (proj1 Hb) Hk) as (x0 & E2 & Hl & Hw).
  exists h1, x0. split_and!; auto. eapply frame_mono, Hb; lia.
Qed.

Lemma release_ok h p n x k m :
  heap_wf h -> block h p n -> heap_pos h = p + n + 1 -> wf x -> Z.of_nat (length x) = n ->
  k <= p + 1 -> p + n + 1 <= m ->
  exists h1, store h p x = Ok h1 /\ bignum_free p h1 = Ok (mkHeap (cells h1) p) /\
  frame k m h (mkHeap (cells h1) p).
Proof.
  intros Hh Hk Hp Hx Hl Hkp Hm. pose proof Hk as (H0 & Hn & Hpn & _).
  destruct (store_ok h p x) as (h1 & E & Hb & Hp1); auto; [lia|].
  exists h1. split; [done|]. pose proof Hb as [(Hl1 & Hw1 & Hr1) _].
  split.
  - apply block_free with n; [apply Hb| |lia]. apply (block_frame _ _ _ _ _ _ Hb); auto; lia.
  - apply (frame_mono k (p + 1) (p + 1 + Z.of_nat (length x)) m) in Hb; [|lia|lia].
    destruct Hb as (_ & Ht). split; [|exact Ht]. split; [done|split; [done|simpl; lia]].
Qed.

Lemma weight_half x y :
  wf x -> wf y -> x <> [] -> (length y <= length x)%nat -> 0 < val y ->
  v_bignum_bit_msb x < v_bignum_bit_msb y -> val x < weight (length x) / 2.
Proof.
  intros Hx Hy Hn Hly Hy0 Hlt. rewrite !bit_msb_spec in Hlt by done.
  rewrite (proj2 (Z.eqb_neq (val y) 0)) in Hlt by lia.
  assert (0 < length x)%nat as Hpos by (destruct x; [done|simpl; lia]).
  destruct (Z.eqb_spec (val x) 0) as [->|].
  - pose proof (even_weight _ Hpos). pose proof (weight_pos (length x)). lia.
  - pose proof (val_range y Hy) as Hry. pose proof (val_range x Hx).
    assert (Z.log2 (val y) < 16 * Z.of_nat (length x)).
    { apply Z.log2_lt_pow2; [done|]. eapply Z.lt_le_trans; [apply Hry|]. by apply weight_le. }
    assert (weight (length x) / 2 = 2 ^ (16 * Z.of_nat (length x) - 1)) as ->.
    { unfold weight. rewrite <- (Z.pow_1_r 2) at 2. rewrite <- Z.pow_sub_r by lia. done. }
    apply Z.log2_lt_pow2; lia.
Qed.

(** What [v_bignum_div] leaves behind when [y] is not zero. *)
Definition div_post (h : heap) (x y : list Z) (rem : option (list Z))
    (r : outcome (heap * list Z * option (list Z))) : Prop :=
  exists h' x' w,
    r = Ok (h', x', option_map (fun r => v_bignum_set_bignum r w) rem) /\
    heap_pos h' = heap_pos h /\
    frame (heap_pos h) (heap_pos h + 2 * (Z.of_nat (length x) + 1)) h h' /\
    wf x' /\ length x' = length x /\ val x' = val x / val y /\
    wf w /\ length w = length x /\
    val w = (val x mod val y) mod (weight (length x) / 2).

Lemma div_quick h x y rem :
  heap_wf h -> wf x -> wf y -> x <> [] -> (length y <= length x)%nat -> 0 < val y ->
  v_bignum_bit_msb x < v_bignum_bit_msb y -> div_post h x y rem (v_bignum_div h x y rem).
Proof.
  intros Hh Hx Hy Hn Hly Hy0 Hlt. unfold v_bignum_div. rewrite (proj2 (Z.ltb_lt _ _) Hlt).
  pose proof (msb_lt_spec x y Hx Hy Hy0 Hlt) as Hv. pose proof (val_range x Hx) as Hrx.
  pose proof (weight_half x y Hx Hy Hn Hly Hy0 Hlt).
  exists h, (v_bignum_set_zero x), x. rewrite length_set_zero, val_set_zero.
  rewrite Z.div_small, (Z.mod_small (val x) (val y)), (Z.mod_small (val x)) by lia.
  split_and!; auto with cint. by apply frame_refl.
Qed.

Lemma div_long h x y rem :
  heap_wf h -> wf x -> wf y -> x <> [] -> (length y <= length x)%nat -> 0 < val y ->
  Z.of_nat (length x) < 2 ^ 16 ->
  heap_pos h + 2 * (Z.of_nat (length x) + 1) <= HEAP_SIZE ->
  v_bignum_bit_msb y <= v_bignum_bit_msb x -> div_post h x y rem (v_bignum_div h x y rem).
Proof.
  intros Hh Hx Hy Hn Hly Hy0 Hlen Hroom Hge. unfold v_bignum_div.
  rewrite (proj2 (Z.ltb_ge _ _) Hge), (proj2 (Z.ltb_ge (v_bignum_bit_msb y) 0)).
  2: { rewrite bit_msb_spec by done. rewrite (proj2 (Z.eqb_neq (val y) 0)) by lia. apply Z.log2_nonneg. }
  destruct (acquire_ok (Z.of_nat (length x)) h) as (h1 & q0 & -> & E & Hlq & Hwq & Hb1 & Hp1 & Hk1);
    try lia; [done|].
  cbn [obind]. rewrite E. clear E. cbn [obind].
  pose proof (proj2 (proj2 Hh)) as Hpos.
  destruct (store_ok h1 (heap_pos h) (v_bignum_set_zero q0)) as (h2 & -> & Hb2 & Hp2);
    rewrite ?length_set_zero in *; auto with cint; try lia; [apply Hb1|].
  cbn [obind].
  destruct (acquire_ok (Z.of_nat (length x)) h2) as (h3 & w0 & -> & E & Hlw & Hww & Hb3 & Hp3 & Hk3);
    try lia; [apply Hb2|].
  cbn [obind]. rewrite E. clear E. cbn [obind].
  assert (v_bignum_set_zero q0 = v_bignum_set_zero w0) as ->.
  { apply val_inj; auto using wf_set_zero; [rewrite !length_set_zero; lia|by rewrite !val_set_zero]. }
  pose proof (div_loop_result x y w0 Hx Hy Hww Hn Hly Hy0 ltac:(lia) Hge ltac:(lia)) as Hr.
  cbn zeta in Hr. destruct (div_loop _ _ _ _ _ _) as [q work]. cbn [fst snd] in Hr.
  destruct Hr as (Hq & Hlq' & Hvq & Hw & Hlw' & Hvw).
  set (work' := v_bignum_bit_shift_right work 1) in *.
  destruct (release_ok h3 (heap_pos h2) (Z.of_nat (length x)) work' (heap_pos h2) (heap_pos h3))
    as (h4 & -> & Ef & Hb4); auto; try lia; [apply Hb3|].
  cbn [obind]. rewrite Ef. clear Ef. cbn [obind].
  set (h5 := mkHeap (cells h4) (heap_pos h2)) in *.
  assert (frame (heap_pos h2) (heap_pos h3) h2 h5) as Hb5.
  { rewrite <- Hp3 in Hb3. eapply frame_trans; [exact Hb3|exact Hb4]. }
  assert (block h5 (heap_pos h) (Z.of_nat (length x))) as Hk5.
  { apply (block_frame _ _ _ _ _ _ Hb5); [lia|]. apply (block_frame _ _ _ _ _ _ Hb2); [lia|done]. }
  destruct (release_ok h5 (heap_pos h) (Z.of_nat (length x)) q (heap_pos h) (heap_pos h3))
    as (h6 & -> & Ef & Hb6); auto; try lia; [apply Hb5|cbn [heap_pos h5]; lia|].
  cbn [obind]. rewrite Ef. cbn [obind].
  exists (mkHeap (cells h6) (heap_pos h)), q, work'.
  rewrite set_bignum_same_length by lia. split_and!; auto.
  replace (heap_pos h + 2 * (Z.of_nat (length x) + 1)) with (heap_pos h3) by lia.
  eapply frame_trans; [eapply frame_mono, Hb1; lia|].
  eapply frame_trans; [eapply frame_mono, Hb2; lia|].
  eapply frame_trans; [eapply frame_mono, Hb5; lia|]. exact Hb6.
Qed.

(** Dividing by a non-zero number: with room for two temporaries of the size
    of [x] the routine returns, releases them and leaves the allocated part of
    the heap alone. *)
Lemma div_spec h x y rem :
  heap_wf h -> wf x -> wf y -> x <> [] -> (length y <= length x)%nat -> 0 < val y ->
  Z.of_nat (length x) < 2 ^ 16 ->
  heap_pos h + 2 * (Z.of_nat (length x) + 1) <= HEAP_SIZE ->
  div_post h x y rem (v_bignum_div h x y rem).
Proof.
  intros. destruct (Z.lt_ge_cases (v_bignum_bit_msb x) (v_bignum_bit_msb y));
    [by apply div_quick|by apply div_long].
Qed.

Lemma div_zero h x y rem :
  wf x -> wf y -> val y = 0 -> v_bignum_div h x y rem = Ok (h, v_bignum_set_zero x, rem).
Proof.
  intros Hx Hy Hy0. unfold v_bignum_div. rewrite (bit_msb_spec y) by done.
  rewrite Hy0. cbn [Z.eqb]. rewrite (proj2 (Z.ltb_ge _ _)).
  - done.
  - rewrite bit_msb_spec by done. destruct (_ =? 0); [lia|]. pose proof (Z.log2_nonneg (val x)). lia.
Qed.

(** The remainder by a non-zero number of the same size; the top bit of the
    size is lost. *)
Lemma mod_spec h x y :
  heap_wf h -> wf x -> wf y -> x <> [] -> length y = length x -> 0 < val y ->
  Z.of_nat (length x) < 2 ^ 16 ->
  heap_pos h + 3 * (Z.of_nat (length x) + 1) <= HEAP_SIZE ->
  exists h' x', v_bignum_mod h x y = Ok (h', x') /\
    heap_pos h' = heap_pos h /\
    frame (heap_pos h) (heap_pos h + 3 * (Z.of_nat (length x) + 1)) h h' /\
    wf x' /\ length x' = length x /\
    val x' = (val x mod val y) mod (weight (length x) / 2).
Proof.
  intros Hh Hx Hy Hn Hly Hy0 Hlen Hroom. unfold v_bignum_mod.
  rewrite Hly, (proj2 (Z.ltb_ge _ _)) by lia.
  pose proof (proj2 (proj2 Hh)) as Hpos.
  destruct (acquire_ok (Z.of_nat (length x)) h) as (h1 & t0 & -> & E & Hlt & Hwt & Hb1 & Hp1 & Hk1);
    try lia; [done|].
  cbn [obind]. rewrite E. clear E. cbn [obind].
  destruct (div_spec h1 x y (Some t0)) as (h2 & x' & w & -> & Hp2 & Hb2 & Hx' & Hlx' & _ & Hw & Hlw & Hv);
    auto; try lia; [apply Hb1|].
  cbn [obind option_map from_option id]. rewrite (set_bignum_same_length t0) by lia.
  destruct (release_ok h2 (heap_pos h) (Z.of_nat (length x)) w (heap_pos h)
      (heap_pos h + 3 * (Z.of_nat (length x) + 1)))
    as (h3 & -> & Ef & Hb3); auto; try lia; [apply Hb2| |].
  { apply (block_frame _ _ _ _ _ _ Hb2); [lia|done]. }
  cbn [obind]. rewrite set_bignum_same_length by lia. rewrite Ef. cbn [obind].
  eexists _, w. split_and!; auto.
  eapply frame_trans; [eapply frame_mono, Hb1; lia|].
  eapply frame_trans; [eapply frame_mono, Hb2; lia|]. exact Hb3.
Qed.

(** The remainder by zero is what the fresh temporary happens to hold. *)
Lemma mod_zero h x y :
  heap_wf h -> wf x -> wf y -> length y = length x -> val y = 0 ->
  Z.of_nat (length x) < 2 ^ 16 -> heap_pos h + Z.of_nat (length x) + 1 <= HEAP_SIZE ->
  exists h', v_bignum_mod h x y =
    Ok (h', take (length x) (drop (Z.to_nat (heap_pos h + 1)) (cells h))) /\
  heap_pos h' = heap_pos h /\ frame (heap_pos h) (heap_pos h + Z.of_nat (length x) + 1) h h'.
Proof.
  intros Hh Hx Hy Hly Hy0 Hlen Hroom. unfold v_bignum_mod.
  rewrite Hly, (proj2 (Z.ltb_ge _ _)) by lia.
  destruct (alloc_ok (Z.of_nat (length x)) h) as (h1 & -> & Hb1 & Hp1 & Hk1); try lia; [done|].
  cbn [obind]. destruct (load_ok h1 _ _ (proj1 Hb1) Hk1) as (t0 & E & Hlt & Hwt). rewrite E. cbn [obind].
  rewrite div_zero by auto. cbn [obind from_option id].
  destruct (release_ok h1 (heap_pos h) (Z.of_nat (length x)) t0 (heap_pos h)
      (heap_pos h + Z.of_nat (length x) + 1)) as (h2 & -> & Ef & Hb2); auto; try lia; [apply Hb1|].
  cbn [obind]. rewrite set_bignum_same_length by (rewrite length_set_zero; lia). rewrite Ef.
  cbn [obind]. exists (mkHeap (cells h2) (heap_pos h)). split; [|split; [done|]].
  - assert (t0 = take (length x) (drop (Z.to_nat (heap_pos h + 1)) (cells h))) as <-; [|reflexivity].
    destruct Hb1 as ((Hlc & _) & _ & <-). destruct Hk1 as (H0 & _ & H1 & H2).
    unfold load in E. rewrite aget_ok, H2 in E by lia. cbn [obind] in E.
    destruct (_ <? _); [|done]. rewrite Nat2Z.id in E. by injection E.
  - eapply frame_trans; [eapply frame_mono, Hb1; lia|exact Hb2].
Qed.
