(* ===== verification/BignumMod.v ===== *)
(** * Barrett reduction and modular powers

    The last part of [target-ppdl/v_bignum.c]: the helper value of Barrett's
    reduction, the reduction itself, the squaring of a half-size number and
    the modular power.  Temporaries come from the heap of [BignumHeap]; a
    temporary's digits are written back to it before it is freed.

    The routines are those of algorithms 14.42 and 14.16 of the Handbook of
    Applied Cryptography; the base is 65536. *)

From stdpp Require Import base numbers list option.
From Stdlib Require Import ZArith Lia.
From S2P Require Import Prelude Bignum BignumSpec BignumHeap.

(** ** The routines *)

(** [for(k = *m; m[k] == 0; k--)]: the number of digits up to the highest one
    that is not zero; [m[0]] is the size, so the loop stops there. *)
Fixpoint used (n : nat) (m : list Z) : nat :=
  match n with
  | O => O
  | S i => if nth i m 0 =? 0 then used i m else n
  end.
Definition used_digits (m : list Z) : Z := Z.of_nat (used (length m) m).

(** A temporary: its address, and the digits it happens to hold. *)
Definition acquire (n : Z) (h : heap) : outcome (Z * list Z * heap) :=
  let* (p, h) := alloc n h in
  let* x := load h p in
  Ok (p, x, h).

Definition release (p : Z) (x : list Z) (h : heap) : outcome heap :=
  let* h := store h p x in bignum_free p h.

(** The address and the digits of mu. *)
Definition v_bignum_reduce_begin (h : heap) (m : list Z) : outcome (Z * list Z * heap) :=
  let k := used_digits m in
  let* (p, mu, h) := acquire (2 * k + 1) h in
  let mu := v_bignum_set_zero mu in
  let mu := v_bignum_bit_set mu (V_BIGBITS * 2 * k) in
  let* h := store h p mu in
  let* (h, mu, _) := v_bignum_div h mu m None in
  let* h := store h p mu in
  Ok (p, mu, h).

Definition v_bignum_reduce_end (p : Z) (h : heap) : outcome heap := bignum_free p h.

(** [for(i = k + 1; i < *r; i++) r[i + 1] = 0;] *)
Definition clear_above (k : Z) (r : list Z) : list Z :=
  take (Z.to_nat (k + 1)) r ++ replicate (length r - Z.to_nat (k + 1)) 0.

(** Step 3: make sure [r] is positive. *)
Definition reduce_sign (k : Z) (r : list Z) (h : heap) : outcome (list Z * heap) :=
  if v_bignum_bit_test r (V_BIGBITS * Z.of_nat (length r) - 1) then
    let* (pt, term, h) := acquire (k + 1 * V_BIGBITS) h in
    let term := v_bignum_set_zero term in
    let term := v_bignum_bit_set term (V_BIGBITS * (k + 1)) in
    let r := v_bignum_add r term in
    let* h := release pt term h in
    Ok (r, h)
  else Ok (r, h).

(** Step 4. *)
Fixpoint reduce_loop (fuel : nat) (r m : list Z) : outcome (list Z) :=
  match fuel with
  | O => Undef
  | S f => if v_bignum_gte r m then reduce_loop f (v_bignum_sub r m) m else Ok r
  end.

(** [fuel] bounds the rounds of step 4, of which there are at most two when
    [x] is below the square of the base's power above [m]. *)
Definition v_bignum_reduce (fuel : nat) (h : heap) (x m mu : list Z) : outcome (heap * list Z) :=
  let k := used_digits m in
  let len l := Z.of_nat (length l) in
  let* (pq, q, h) := acquire (len x + len mu - (k - 1)) h in
  let q := v_bignum_set_bignum q x in
  let q := v_bignum_bit_shift_right q (u32 (V_BIGBITS * (k - 1))) in
  let* q := v_bignum_mul q mu in
  let q := v_bignum_bit_shift_right q (V_BIGBITS * (k + 1)) in
  let* h := store h pq q in
  let* (p1, r1, h) := acquire (len x) h in
  let* (p2, r2, h) := acquire (len x) h in
  let r1 := clear_above k (v_bignum_set_bignum r1 x) in
  let r2 := v_bignum_set_bignum r2 q in
  let* r2 := v_bignum_mul r2 m in
  let r2 := clear_above k r2 in
  let* h := store h p1 r1 in
  let* h := store h p2 r2 in
  let r := v_bignum_set_bignum x r1 in
  let r := v_bignum_sub r r2 in
  let* (r, h) := reduce_sign k r h in
  let* r := reduce_loop fuel r m in
  let* h := bignum_free p2 h in
  let* h := bignum_free p1 h in
  let* h := bignum_free pq h in
  Ok (h, r).

(** *** Squaring *)

(** The inner loop of row [i], over the digits above [x[i]] and the cells of
    [w] above [w[2i]]; the last cell is set to the carry, which is
    [(uv >> 16) | (high << 16)] at every point. *)
Fixpoint sq_inner (rest : list Z) (xi : Z) (w : list Z) (c : Z) : list Z :=
  match rest, w with
  | xj :: rest', wj :: w' =>
      let uv := u32 (xj * xi) in
      let high := negb (Z.land uv 0x80000000 =? 0) in
      let uv := u32 (uv * 2) in
      let ouv := uv in
      let uv := u32 (uv + u32 (wj + c)) in
      let high := high || (uv <? ouv) in
      Z.land uv 0xffff ::
        sq_inner rest' xi w' (Z.lor (Z.shiftr uv V_BIGBITS) (Z.shiftl (b2z high) V_BIGBITS))
  | _, _ :: w' => c :: w'
  | _, [] => []
  end.

(** The rows; the first two cells of the window are final after a row.  The
    product [x[1+i] * x[1+i]] of two [unsigned short] is an [int]: it is taken
    to wrap around. *)
Fixpoint sq_rows (xs w : list Z) : list Z :=
  match xs, w with
  | xi :: rest, w0 :: w' =>
      let uv := u32 (w0 + u32 (xi * xi)) in
      match sq_inner rest xi w' (Z.shiftr uv V_BIGBITS) with
      | w1 :: w'' => Z.land uv 0xffff :: w1 :: sq_rows rest w''
      | [] => [Z.land uv 0xffff]
      end
  | _, _ => w
  end.

(** The local array has 256 cells. *)
Definition v_bignum_square_half (x : list Z) : outcome (list Z) :=
  let t := (length x / 2)%nat in
  if (t =? 0)%nat then Ok x
  else
    let t := used t x in
    if (256 <? 2 * t)%nat then Undef
    else
      let w := sq_rows (take t x) (replicate (2 * t) 0) in
      Ok (map u16 w ++ replicate (length x - 2 * t) 0).

(** *** Powers *)

(** The loop over the bits [n - 1 .. 0] of [y]. *)
Fixpoint pow_loop (fuel n : nat) (h : heap) (tmp x y m mu : list Z) : outcome (heap * list Z) :=
  match n with
  | O => Ok (h, tmp)
  | S i =>
      let* tmp := v_bignum_square_half tmp in
      let* (h, tmp) := v_bignum_reduce fuel h tmp m mu in
      let* (h, tmp) :=
        if v_bignum_bit_test y (Z.of_nat i) then
          let* tmp := v_bignum_mul tmp x in
          v_bignum_reduce fuel h tmp m mu
        else Ok (h, tmp) in
      pow_loop fuel i h tmp x y m mu
  end.

Definition v_bignum_pow_mod (fuel : nat) (h : heap) (x y n : list Z) : outcome (heap * list Z) :=
  let* (pt, tmp, h) := acquire (2 * Z.of_nat (length x)) h in
  let tmp := v_bignum_set_bignum tmp x in
  let k := v_bignum_bit_msb y in
  let* h := store h pt tmp in
  let* (pmu, mu, h) := v_bignum_reduce_begin h n in
  let* (h, tmp) := pow_loop fuel (Z.to_nat k) h tmp x y n mu in
  let* h := store h pt tmp in
  let x := v_bignum_set_bignum x tmp in
  let* h := v_bignum_reduce_end pmu h in
  let* h := bignum_free pt h in
  Ok (h, x).
