(* ===== verification/BignumModSpec.v ===== *)
(** * Barrett reduction and modular powers compute what they should *)

From stdpp Require Import base numbers list option.
From Stdlib Require Import ZArith Lia.
From S2P Require Import Prelude Bignum BignumSpec BignumHeap BignumMod.

(** ** The arithmetic of Barrett's reduction *)

(** The estimated quotient is at most two below the true one. *)
Lemma barrett_estimate B C m x q1 mu q3 :
  0 < B <= m -> 0 < C -> 0 <= x < B * C ->
  q1 = x / B -> mu = B * C / m -> q3 = q1 * mu / C ->
  0 <= x - q3 * m < 3 * m.
Proof.
  intros HB HC Hx -> -> ->.
  pose proof (Z.div_mod x B ltac:(lia)) as E1. pose proof (Z.mod_pos_bound x B ltac:(lia)) as R1.
  pose proof (Z.div_mod (B * C) m ltac:(lia)) as E2. pose proof (Z.mod_pos_bound (B * C) m ltac:(lia)) as R2.
  set (q1 := x / B) in *. set (mu := B * C / m) in *. set (e1 := x mod B) in *. set (e2 := (B * C) mod m) in *.
  pose proof (Z.div_mod (q1 * mu) C ltac:(lia)) as E3. pose proof (Z.mod_pos_bound (q1 * mu) C ltac:(lia)) as R3.
  set (q3 := q1 * mu / C) in *. set (e3 := (q1 * mu) mod C) in *.
  assert (0 <= q1 <= C - 1) as Hq1.
  { unfold q1. split; [apply Z.div_pos; lia|]. apply Z.lt_succ_r. apply Z.div_lt_upper_bound; nia. }
  assert (C * (x - q3 * m) = q1 * e2 + m * e3 + e1 * C) as E.
  { assert (m * (C * q3) = m * (q1 * mu) - m * e3) by nia.
    assert (q1 * (m * mu) = q1 * (B * C) - q1 * e2) by nia. nia. }
  assert (0 <= q1 * e2 <= (C - 1) * (m - 1)) by nia.
  assert (0 <= m * e3 <= m * (C - 1)) by nia.
  assert (0 <= e1 * C <= (m - 1) * C) by nia.
  split; nia.
Qed.

(** ** Digits in use *)

Lemma used_le n m : (used n m <= n)%nat.
Proof. induction n as [|n IH]; cbn [used]; [lia|]. destruct (_ =? _); lia. Qed.

Lemma used_val n m : wf m -> (n <= length m)%nat -> val (take (used n m) m) = val (take n m).
Proof.
  intros Hm. induction n as [|n IH]; intros Hn; cbn [used]; [done|].
  destruct (Z.eqb_spec (nth n m 0) 0) as [E|]; [|done]. rewrite IH by lia.
  rewrite (val_take_S m n) by (done || lia). rewrite E. lia.
Qed.

Lemma used_low n m : wf m -> (n <= length m)%nat -> (0 < used n m)%nat ->
  weight (used n m - 1) <= val (take n m).
Proof.
  intros Hm. induction n as [|n IH]; intros Hn; cbn [used]; [lia|].
  destruct (Z.eqb_spec (nth n m 0) 0) as [E|E]; intros H.
  - rewrite (val_take_S m n), E by (done || lia). specialize (IH ltac:(lia) H). lia.
  - rewrite (val_take_S m n) by (done || lia). replace (S n - 1)%nat with n by lia.
    pose proof (val_range (take n m) (wf_take n m Hm)). pose proof (wf_nth m n Hm) as Hd. unfold is_u16 in Hd.
    pose proof (weight_pos n). assert (weight n * 1 <= weight n * nth n m 0) by (apply Z.mul_le_mono_nonneg_l; lia). lia.
Qed.

Lemma used_digits_spec m : wf m -> 0 < val m ->
  1 <= used_digits m <= Z.of_nat (length m) /\
  weight (Z.to_nat (used_digits m - 1)) <= val m < weight (Z.to_nat (used_digits m)).
Proof.
  intros Hm Hv. unfold used_digits. pose proof (used_le (length m) m) as Hle.
  pose proof (used_val (length m) m Hm ltac:(lia)) as E. rewrite (take_ge m (length m)) in E by lia.
  assert (0 < used (length m) m)%nat as Hp.
  { destruct (used (length m) m) eqn:Eu; [|lia]. rewrite take_0 in E. cbn [val] in E. lia. }
  split; [lia|]. rewrite Nat2Z.id. split.
  - pose proof (used_low (length m) m Hm ltac:(lia) Hp) as H. rewrite (take_ge m (length m)) in H by lia.
    by replace (Z.to_nat (Z.of_nat (used (length m) m) - 1)) with (used (length m) m - 1)%nat by lia.
  - rewrite <- E. pose proof (val_range (take (used (length m) m) m) (wf_take _ m Hm)) as R.
    rewrite length_take, Nat.min_l in R by lia. lia.
Qed.

(** ** Pieces of the reduction *)

Lemma val_bit_set_zero x n : 0 <= n < Z.of_nat (length x) * 16 ->
  val (v_bignum_bit_set (v_bignum_set_zero x) n) = 2 ^ n.
Proof.
  intros Hn. apply Z.bits_inj'. intros i Hi.
  rewrite bit_set_testbit, val_set_zero, Z.bits_0, orb_false_r, Z.pow2_bits_eqb
    by (rewrite ?length_set_zero; auto using wf_set_zero; lia). apply Z.eqb_sym.
Qed.

Lemma clear_above_spec k r : wf r -> 0 <= k ->
  wf (clear_above k r) /\ length (clear_above k r) = length r /\
  val (clear_above k r) = val r mod weight (Z.to_nat (k + 1)).
Proof.
  intros Hr Hk. unfold clear_above. split_and!; [auto with cint| |].
  - rewrite length_app, length_take, length_replicate. lia.
  - rewrite val_app, val_replicate_0, val_take by done. lia.
Qed.

Lemma weight_pow n : weight n = 2 ^ (16 * Z.of_nat n).
Proof. done. Qed.

Lemma top_bit v n : (0 < n)%nat -> 0 <= v < weight n ->
  Z.testbit v (16 * Z.of_nat n - 1) = (weight n / 2 <=? v).
Proof.
  intros Hn Hv. pose proof (even_weight n Hn) as E. set (t := 16 * Z.of_nat n - 1).
  assert (weight n / 2 = 2 ^ t) as Et.
  { unfold t, weight. rewrite <- (Z.pow_1_r 2) at 2. rewrite <- Z.pow_sub_r by lia. done. }
  rewrite Et in *. destruct (Z.leb_spec (2 ^ t) v).
  - apply Z.testbit_true; [lia|]. replace (v / 2 ^ t) with 1; [done|].
    apply Z.div_unique with (v - 2 ^ t); lia.
  - apply (testbit_small v t); lia.
Qed.

Lemma reduce_loop_spec n fuel r m : wf r -> wf m -> 0 < val m -> (length m <= length r)%nat ->
  val r < (Z.of_nat n + 1) * val m -> (n < fuel)%nat ->
  exists r', reduce_loop fuel r m = Ok r' /\ wf r' /\ length r' = length r /\ val r' = val r mod val m.
Proof.
  intros Hr Hm Hm0. revert n r Hr; induction fuel as [|f IH]; intros n r Hr Hl Hv Hn; [lia|]. cbn [reduce_loop].
  rewrite gte_ge_length by done. pose proof (val_range r Hr) as Rr. destruct (Z.leb_spec (val m) (val r)).
  - assert (val (v_bignum_sub r m) = val r - val m) as Es.
    { rewrite val_sub by done. apply Z.mod_small. lia. }
    destruct n as [|n]; [lia|].
    destruct (IH n (v_bignum_sub r m)) as (r' & -> & Hr' & Hl' & Hv'); rewrite ?length_sub in *; auto using wf_sub; try lia.
    exists r'. split_and!; try done. rewrite Hv', Es. replace (val r) with (val r - val m + 1 * val m) at 2 by lia.
    by rewrite Z.mod_add by lia.
  - exists r. split_and!; try done. symmetry. apply Z.mod_small. lia.
Qed.

(** ** Temporaries *)

Lemma acquire_spec n h : heap_wf h -> 0 <= n < 2 ^ 16 -> heap_pos h + n + 1 <= HEAP_SIZE ->
  exists h1 x0, acquire n h = Ok (heap_pos h, x0, h1) /\ Z.of_nat (length x0) = n /\ wf x0 /\
  frame (heap_pos h) (heap_pos h + n + 1) h h1 /\ heap_pos h1 = heap_pos h + n + 1 /\ block h1 (heap_pos h) n.
Proof.
  intros Hh Hn Hr. destruct (acquire_ok n h Hh Hn Hr) as (h1 & x0 & E & El & H). exists h1, x0.
  unfold acquire. rewrite E. cbn [obind]. rewrite El. done.
Qed.

(** Writing a temporary back keeps the blocks below it and itself. *)
Lemma store_frame h p n x : heap_wf h -> block h p n -> wf x -> Z.of_nat (length x) = n ->
  exists h1, store h p x = Ok h1 /\ frame (p + 1) (p + n + 1) h h1 /\ heap_pos h1 = heap_pos h.
Proof.
  intros Hh (H0 & Hn & Hp & _) Hx <-. destruct (store_ok h p x Hh Hx H0 Hp) as (h1 & E & F & P).
  exists h1. split_and!; try done. eapply frame_mono, F; lia.
Qed.

Lemma block_above k m h h' p n : frame k m h h' -> 0 <= m <= p -> block h p n -> block h' p n.
Proof.
  intros (_ & _ & F) Hm (? & ? & ? & E). split_and!; try done; try lia. rewrite <- E.
  apply (f_equal (fun l => nth (Z.to_nat p - Z.to_nat m) l 0)) in F. rewrite !nth_skipn in F.
  by replace (Z.to_nat m + (Z.to_nat p - Z.to_nat m))%nat with (Z.to_nat p) in F by lia.
Qed.

Lemma free_frame h p n : heap_wf h -> block h p n -> heap_pos h = p + n + 1 ->
  bignum_free p h = Ok (mkHeap (cells h) p) /\ forall k m, frame k m h (mkHeap (cells h) p).
Proof.
  intros Hh Hb Hp. split; [by apply (block_free h p n)|]. intros k m. destruct Hh as (? & ? & ?).
  destruct Hb as (? & ? & ? & _). split; [|done]. split; [done|]. split; [done|]. cbn [heap_pos]. lia.
Qed.

Lemma reduce_begin_spec h m : heap_wf h -> wf m -> 0 < val m ->
  let k := used_digits m in
  Z.of_nat (length m) <= 2 * k + 1 -> 2 * k + 1 < 2 ^ 16 ->
  heap_pos h + 3 * (2 * k + 2) <= HEAP_SIZE ->
  exists mu h', v_bignum_reduce_begin h m = Ok (heap_pos h, mu, h') /\
    wf mu /\ Z.of_nat (length mu) = 2 * k + 1 /\ val mu = weight (Z.to_nat (2 * k)) / val m /\
    heap_pos h' = heap_pos h + 2 * k + 2 /\ block h' (heap_pos h) (2 * k + 1) /\
    frame (heap_pos h) (heap_pos h + 3 * (2 * k + 2)) h h'.
Proof.
  intros Hh Hm Hm0 k Hl Hk Hroom. destruct (used_digits_spec m Hm Hm0) as [Hk1 _]. fold k in Hk1.
  pose proof Hh as (_ & _ & Hpos). unfold v_bignum_reduce_begin. fold k.
  destruct (acquire_spec (2 * k + 1) h Hh) as (h1 & mu0 & -> & Hl0 & Hw0 & F1 & P1 & B1); [lia|lia|]. cbn [obind].
  set (mu1 := v_bignum_bit_set _ _).
  assert (Z.of_nat (length mu1) = 2 * k + 1) as Hl1 by (unfold mu1; rewrite length_bit_set, length_set_zero; lia).
  assert (wf mu1) as Hw1 by (apply wf_bit_set, wf_set_zero).
  assert (val mu1 = weight (Z.to_nat (2 * k))) as Hv1.
  { unfold mu1, weight, V_BIGBITS. rewrite val_bit_set_zero by (unfold V_BIGBITS; lia). f_equal. lia. }
  destruct (store_frame h1 (heap_pos h) (2 * k + 1) mu1) as (h2 & -> & F2 & P2); try done; [apply F1|]. cbn [obind].
  destruct (div_spec h2 mu1 m None) as (h3 & mu & w & -> & P3 & F3 & Hw & Hlm & Hvm & _); try done; try lia.
  { apply F2. } { intros E. rewrite E in Hl1. cbn in Hl1. lia. }
  cbn [obind].
  assert (block h2 (heap_pos h) (2 * k + 1)) as B2 by (apply (block_frame _ _ _ _ _ _ F2); [lia|done]).
  assert (block h3 (heap_pos h) (2 * k + 1)) as B3 by (apply (block_frame _ _ _ _ _ _ F3); [lia|done]).
  destruct (store_frame h3 (heap_pos h) (2 * k + 1) mu) as (h4 & -> & F4 & P4); try done; [apply F3|lia|]. cbn [obind].
  exists mu, h4. split_and!; try done; try lia.
  - by rewrite Hvm, Hv1.
  - apply (block_frame _ _ _ _ _ _ F4); [lia|done].
  - eapply frame_trans; [eapply frame_mono, F1; lia|]. eapply frame_trans; [eapply frame_mono, F2; lia|].
    eapply frame_trans; [eapply frame_mono, F3; lia|]. eapply frame_mono, F4; lia.
Qed.

(** ** The reduction *)

(** Step 3 and 4 on values: the difference of the low parts, with the sign
    fixed, is the difference. *)
Lemma fix_sign n c x p : (0 < n)%nat -> 0 <= p <= x -> x < weight n -> x - p < weight c ->
  let W := weight n in let C := weight c in
  let r := (x mod C - p mod C) mod W in
  (if W / 2 <=? r then (r + C) mod W else r) = x - p.
Proof.
  intros Hn Hp Hx Hd W C r. pose proof (weight_pos n) as WP. pose proof (weight_pos c) as CP.
  fold W in WP, Hx. fold C in CP, Hd.
  destruct (Nat.le_gt_cases n c) as [Hle|Hgt].
  - pose proof (weight_le n c Hle) as HW. fold W C in HW.
    assert (r = x - p) as ->.
    { unfold r. rewrite (Z.mod_small x C), (Z.mod_small p C), Z.mod_small by lia. done. }
    destruct (weight_divide n c Hle) as [q Eq]. fold W C in Eq. rewrite Eq, Z.mod_add, Z.mod_small by lia.
    by destruct (_ <=? _).
  - assert (2 ^ 16 * C <= W) as HW.
    { unfold C. rewrite <- weight_S. apply weight_le. lia. }
    pose proof (even_weight n Hn) as Ev. fold W in Ev.
    pose proof (Z.mod_pos_bound x C CP) as Rx. pose proof (Z.mod_pos_bound p C CP) as Rp.
    pose proof (Z.div_mod x C ltac:(lia)) as Ex. pose proof (Z.div_mod p C ltac:(lia)) as Ep.
    assert (x mod C - p mod C = x - p \/ x mod C - p mod C = x - p - C) as [E|E].
    { assert (p / C <= x / C) by (apply Z.div_le_mono; lia).
      assert (x / C <= p / C + 1) by (rewrite <- Z.div_add by lia; apply Z.div_le_mono; lia).
      assert (x / C = p / C \/ x / C = p / C + 1) as [Eq|Eq] by lia; rewrite Eq in Ex; [left|right]; lia. }
    + unfold r. rewrite E, Z.mod_small by lia. destruct (Z.leb_spec (W / 2) (x - p)); [lia|done].
    + assert (r = W + (x - p - C)) as ->.
      { unfold r. rewrite E. symmetry. apply Z.mod_unique with (-1); lia. }
      destruct (Z.leb_spec (W / 2) (W + (x - p - C))); [|lia].
      replace (W + (x - p - C) + C) with (x - p + 1 * W) by lia. by rewrite Z.mod_add, Z.mod_small by lia.
Qed.

Section Reduce.
Context (x m mu : list Z).
Let k := used_digits m.
Let K := Z.to_nat k.
Let X := length x.
Let q3 := (val x / weight (K - 1)) * val mu / weight (K + 1).
Context (Hx : wf x) (Hm : wf m) (Hmu : wf mu) (Hm0 : 0 < val m) (Hml : (length m <= X)%nat).
Context (Hxk : val x < weight (2 * K)) (Hvmu : val mu = weight (2 * K) / val m).
Context (Hlmu : Z.of_nat (length mu) = 2 * k + 1) (Hbig : Z.of_nat X + 2 * k + 2 < 2 ^ 16).

Lemma k_range : 1 <= k <= Z.of_nat X /\ weight (K - 1) <= val m < weight K.
Proof.
  destruct (used_digits_spec m Hm Hm0) as [H1 H2]. fold k in H1, H2. split; [lia|].
  by replace (Z.to_nat (k - 1)) with (K - 1)%nat in H2 by (unfold K; lia).
Qed.

Lemma estimate : 0 <= val x - q3 * val m < 3 * val m.
Proof.
  destruct k_range as [Hk Hw]. pose proof (val_range x Hx).
  assert (weight (K - 1) * weight (K + 1) = weight (2 * K)) as E by (rewrite <- weight_add; f_equal; unfold K; lia).
  apply (barrett_estimate (weight (K - 1)) (weight (K + 1)) (val m) (val x) (val x / weight (K - 1)) (val mu)); try done.
  - pose proof (weight_pos (K - 1)). lia.
  - apply weight_pos.
  - lia.
  - by rewrite E.
Qed.

Lemma weight_k c : 0 <= c -> 2 ^ (V_BIGBITS * c) = weight (Z.to_nat c).
Proof. intros. unfold weight, V_BIGBITS. f_equal. lia. Qed.

Lemma shifted_length q0 c : wf q0 -> 0 <= c -> length (v_bignum_bit_shift_right (v_bignum_set_bignum q0 x) c) = length q0.
Proof.
  intros Hq Hc. destruct (shift_right_spec (v_bignum_set_bignum q0 x) c) as [-> _]; [by apply wf_set_bignum|done|].
  apply length_set_bignum.
Qed.

(** Step 1. *)
Lemma estimate_digits q0 : wf q0 -> Z.of_nat (length q0) = Z.of_nat X + Z.of_nat (length mu) - (k - 1) ->
  let q := v_bignum_bit_shift_right (mul_digits (v_bignum_bit_shift_right (v_bignum_set_bignum q0 x)
    (u32 (V_BIGBITS * (k - 1)))) mu) (V_BIGBITS * (k + 1)) in
  wf q /\ length q = length q0 /\ val q = q3.
Proof.
  intros Hq0 Hlq. destruct k_range as [Hk _]. pose proof (val_range x Hx) as Rx. pose proof (val_range mu Hmu) as Rmu.
  rewrite u32_id by (unfold is_u32, V_BIGBITS; lia).
  set (qa := v_bignum_set_bignum q0 x). cbn zeta.
  assert (length qa = length q0) as La by apply length_set_bignum.
  assert (wf qa) as Wa by (by apply wf_set_bignum).
  assert (val qa = val x) as Va.
  { unfold qa. rewrite val_set_bignum by done. apply Z.mod_small. split; [lia|].
    eapply Z.lt_le_trans; [apply Rx|]. apply weight_le. fold X. lia. }
  destruct (shift_right_spec qa (V_BIGBITS * (k - 1)) Wa) as (Lb & Wb & Vb); [unfold V_BIGBITS; lia|].
  set (qb := v_bignum_bit_shift_right qa _) in *.
  rewrite Va, weight_k in Vb by lia. replace (Z.to_nat (k - 1)) with (K - 1)%nat in Vb by (unfold K; lia).
  assert (qb <> []) as Nb by (intros E; rewrite E in Lb; cbn in Lb; lia).
  set (qc := mul_digits qb mu).
  assert (val qc = val qb * val mu) as Vc.
  { unfold qc. rewrite val_mul by done. apply Z.mod_small. rewrite Lb, La.
    replace (length q0) with ((X - (K - 1)) + length mu)%nat by (unfold K; lia). rewrite weight_add.
    pose proof (val_range qb Wb). split; [nia|].
    assert (val qb < weight (X - (K - 1))).
    { rewrite Vb. apply Z.div_lt_upper_bound; [apply weight_pos|]. rewrite <- weight_add.
      replace (K - 1 + (X - (K - 1)))%nat with X by (unfold K; lia). apply Rx. }
    nia. }
  destruct (shift_right_spec qc (V_BIGBITS * (k + 1))) as (Ld & Wd & Vd); [by apply wf_mul|unfold V_BIGBITS; lia|].
  split_and!; [done|unfold qc in *; rewrite Ld, length_mul by done; lia|].
  rewrite Vd, Vc, Vb, weight_k by lia. unfold q3. do 2 f_equal. unfold K. lia.
Qed.

(** Steps 2 and 3 up to the sign. *)
Lemma difference_digits q r10 r20 : wf q -> val q = q3 -> wf r10 -> wf r20 -> length r10 = X -> length r20 = X ->
  let r1 := clear_above k (v_bignum_set_bignum r10 x) in
  let r2 := clear_above k (mul_digits (v_bignum_set_bignum r20 q) m) in
  let r := v_bignum_sub (v_bignum_set_bignum x r1) r2 in
  (wf r1 /\ length r1 = X) /\ (wf r2 /\ length r2 = X) /\ wf r /\ length r = X /\
  val r = (val x mod weight (K + 1) - (q3 * val m) mod weight (K + 1)) mod weight X.
Proof.
  intros Wq Vq W1 W2 L1 L2 r1 r2 r. destruct k_range as [Hk _]. pose proof estimate as He.
  pose proof (val_range x Hx) as Rx. fold X in Rx.
  assert (Z.to_nat (k + 1) = K + 1)%nat as EK by (unfold K; lia).
  destruct (clear_above_spec k (v_bignum_set_bignum r10 x)) as (Wr1 & Lr1 & Vr1); [by apply wf_set_bignum|lia|].
  fold r1 in Wr1, Lr1, Vr1. rewrite length_set_bignum, L1 in Lr1.
  rewrite (set_bignum_same_length r10 x), EK in Vr1 by done.
  set (s := v_bignum_set_bignum r20 q) in *. assert (wf s) as Ws by (by apply wf_set_bignum).
  assert (length s = X) as Ls by (unfold s; by rewrite length_set_bignum).
  assert (0 <= q3) as Hq0 by (rewrite <- Vq; apply val_range, Wq).
  assert (val s = q3) as Vs.
  { unfold s. rewrite val_set_bignum, Vq, L2 by done. apply Z.mod_small. nia. }
  assert (s <> []) as Ns by (intros E; rewrite E in Ls; cbn in Ls; lia).
  assert (val (mul_digits s m) = q3 * val m) as Vm.
  { rewrite val_mul, Vs, Ls by done. apply Z.mod_small. nia. }
  destruct (clear_above_spec k (mul_digits s m)) as (Wr2 & Lr2 & Vr2); [by apply wf_mul|lia|].
  fold r2 in Wr2, Lr2, Vr2. rewrite length_mul, Ls in Lr2 by done. rewrite Vm, EK in Vr2.
  unfold r. rewrite (set_bignum_same_length x r1) by done.
  split_and!; try done; [by apply wf_sub|by rewrite length_sub|]. by rewrite val_sub, Vr1, Vr2, Lr1.
Qed.

(** The sign, with the heap. *)
Lemma sign_step h r : heap_wf h -> wf r -> length r = X ->
  val r = (val x mod weight (K + 1) - (q3 * val m) mod weight (K + 1)) mod weight X ->
  heap_pos h + k + 17 <= HEAP_SIZE ->
  exists r' h', reduce_sign k r h = Ok (r', h') /\
    wf r' /\ length r' = X /\ val r' = val x - q3 * val m /\
    heap_pos h' = heap_pos h /\ frame (heap_pos h) (heap_pos h + k + 17) h h'.
Proof.
  intros Hh Wr Lr Vr Hroom. destruct k_range as [Hk Hkw]. pose proof estimate as He.
  pose proof (val_range x Hx) as Rx. fold X in Rx. pose proof (val_range r Wr) as Rr. unfold reduce_sign. rewrite Lr in Rr |- *.
  assert (0 <= q3 * val m) as Hq by (unfold q3; apply Z.mul_nonneg_nonneg; [|lia];
    apply Z.div_pos; [|apply weight_pos]; apply Z.mul_nonneg_nonneg; [|apply val_range, Hmu];
    apply Z.div_pos; [lia|apply weight_pos]).
  assert (val x - q3 * val m < weight (K + 1)) as Hd.
  { rewrite Nat.add_1_r, weight_S. lia. }
  pose proof (fix_sign X (K + 1) (val x) (q3 * val m) ltac:(lia) ltac:(lia) ltac:(lia) Hd) as Hf.
  cbn zeta in Hf. rewrite <- Vr in Hf.
  rewrite bit_test_spec by (done || unfold V_BIGBITS; lia). unfold V_BIGBITS at 1. rewrite (top_bit (val r) X) by lia.
  destruct (weight X / 2 <=? val r).
  2:{ exists r, h. split_and!; done || by apply frame_refl. }
  pose proof Hh as (_ & _ & Hpos).
  destruct (acquire_spec (k + 1 * V_BIGBITS) h Hh) as (h1 & t0 & -> & Lt & Wt & F1 & P1 & B1);
    [unfold V_BIGBITS; lia|unfold V_BIGBITS; lia|]. cbn [obind].
  set (term := v_bignum_bit_set _ _).
  assert (wf term) as Wtm by (apply wf_bit_set, wf_set_zero).
  assert (Z.of_nat (length term) = k + 1 * V_BIGBITS) as Ltm by (unfold term; by rewrite length_bit_set, length_set_zero).
  assert (val term = weight (K + 1)) as Vtm.
  { unfold term. rewrite val_bit_set_zero by (unfold V_BIGBITS in *; lia). rewrite weight_k by lia.
    by replace (Z.to_nat (k + 1)) with (K + 1)%nat by (unfold K; lia). }
  destruct (release_ok h1 (heap_pos h) (k + 1 * V_BIGBITS) term (heap_pos h) (heap_pos h + k + 17))
    as (h2 & E2 & E3 & F2); try done; try (unfold V_BIGBITS in *; lia); [apply F1|].
  unfold release. rewrite E2. cbn [obind]. rewrite E3. cbn [obind].
  eexists _, _. split; [reflexivity|]. split_and!; [by apply wf_add|by rewrite length_add|by rewrite val_add, Lr, Vtm|done|].
  eapply frame_trans; [eapply frame_mono, F1; unfold V_BIGBITS; lia|done].
Qed.

Lemma reduce_spec fuel h : heap_wf h -> (3 <= fuel)%nat ->
  heap_pos h + 3 * Z.of_nat X + 2 * k + 22 <= HEAP_SIZE ->
  exists h' r, v_bignum_reduce fuel h x m mu = Ok (h', r) /\ wf r /\ length r = length x /\ val r = val x mod val m /\
    heap_pos h' = heap_pos h /\ frame (heap_pos h) (heap_pos h + 3 * Z.of_nat X + 2 * k + 22) h h'.
Proof.
  intros Hh Hfuel Hroom. destruct k_range as [Hk Hkw]. pose proof Hh as (_ & _ & Hpos). fold X in Hbig.
  unfold v_bignum_reduce. fold k X.
  destruct (acquire_spec (Z.of_nat X + Z.of_nat (length mu) - (k - 1)) h Hh)
    as (h1 & q0 & -> & Lq0 & Wq0 & F1 & P1 & B1); [lia|lia|]. cbn [obind].
  rewrite mul_ok by (rewrite shifted_length by (done || apply u32_range); unfold HEAP_SIZE in *; lia). cbn [obind].
  destruct (estimate_digits q0 Wq0 Lq0) as (Wq & Lq & Vq). set (q := v_bignum_bit_shift_right _ _) in *.
  destruct (store_frame h1 (heap_pos h) _ q (proj1 F1) B1 Wq) as (h2 & -> & F2 & P2); [lia|]. cbn [obind].
  destruct (acquire_spec (Z.of_nat X) h2) as (h3 & r10 & -> & L10 & W10 & F3 & P3 & B3); [apply F2|lia|lia|]. cbn [obind].
  destruct (acquire_spec (Z.of_nat X) h3) as (h4 & r20 & -> & L20 & W20 & F4 & P4 & B4); [apply F3|lia|lia|]. cbn [obind].
  rewrite mul_ok by (rewrite length_set_bignum; unfold HEAP_SIZE in *; lia). cbn [obind].
  destruct (difference_digits q r10 r20 Wq Vq W10 W20) as ((Wr1 & Lr1) & (Wr2 & Lr2) & Wr & Lr & Vr); [lia|lia|].
  set (r1 := clear_above k (v_bignum_set_bignum r10 x)) in *. set (r2 := clear_above k (mul_digits _ m)) in *.
  assert (block h4 (heap_pos h2) (Z.of_nat X)) as B34 by (apply (block_frame _ _ _ _ _ _ F4); [lia|done]).
  destruct (store_frame h4 (heap_pos h2) _ r1 (proj1 F4) B34 Wr1) as (h5 & -> & F5 & P5); [lia|]. cbn [obind].
  assert (block h5 (heap_pos h3) (Z.of_nat X)) as B45.
  { apply (block_above _ _ _ _ _ _ F5); [lia|done]. }
  destruct (store_frame h5 (heap_pos h3) _ r2 (proj1 F5) B45 Wr2) as (h6 & -> & F6 & P6); [lia|]. cbn [obind].
  destruct (sign_step h6 _ (proj1 F6) Wr Lr Vr) as (r' & h7 & -> & Wr' & Lr' & Vr' & P7 & F7); [lia|]. cbn [obind].
  pose proof estimate as He.
  destruct (reduce_loop_spec 2 fuel r' m Wr' Hm Hm0) as (r'' & -> & Wr'' & Lr'' & Vr''); [lia|lia|lia|]. cbn [obind].
  assert (block h7 (heap_pos h3) (Z.of_nat X)) as C3.
  { apply (block_frame _ _ _ _ _ _ F7); [lia|]. apply (block_frame _ _ _ _ _ _ F6); [lia|done]. }
  assert (block h7 (heap_pos h2) (Z.of_nat X)) as C2.
  { apply (block_frame _ _ _ _ _ _ F7); [lia|]. apply (block_frame _ _ _ _ _ _ F6); [lia|].
    apply (block_frame _ _ _ _ _ _ F5); [lia|done]. }
  assert (block h7 (heap_pos h) (Z.of_nat X + Z.of_nat (length mu) - (k - 1))) as C1.
  { apply (block_frame _ _ _ _ _ _ F7); [lia|]. apply (block_frame _ _ _ _ _ _ F6); [lia|].
    apply (block_frame _ _ _ _ _ _ F5); [lia|]. apply (block_frame _ _ _ _ _ _ F4); [lia|].
    apply (block_frame _ _ _ _ _ _ F3); [lia|]. apply (block_frame _ _ _ _ _ _ F2); [lia|done]. }
  destruct (free_frame h7 _ _ (proj1 F7) C3) as [-> G3]; [lia|]. cbn [obind].
  pose (h8 := mkHeap (cells h7) (heap_pos h3)). fold h8 in G3 |- *.
  destruct (free_frame h8 _ _ (proj1 (G3 0 0)) C2) as [-> G2]; [cbn; lia|]. cbn [obind].
  pose (h9 := mkHeap (cells h8) (heap_pos h2)). fold h9 in G2 |- *.
  destruct (free_frame h9 _ _ (proj1 (G2 0 0)) C1) as [-> G1]; [cbn; lia|]. cbn [obind].
  eexists _, r''. split; [reflexivity|]. split_and!; try done; [by rewrite Lr''| |].
  - rewrite Vr'', Vr'. replace (val x - q3 * val m) with (val x + - q3 * val m) by lia. by rewrite Z.mod_add by lia.
  - do 6 (eapply frame_trans; [eapply frame_mono; [| |eassumption]; lia|]).
    eapply frame_trans; [eapply frame_mono; [| |exact F7]; lia|].
    eapply frame_trans; [apply G3|]. eapply frame_trans; [apply G2|]. apply G1.
Qed.
End Reduce.

(** ** Squaring *)

Lemma land_high uv : is_u32 uv -> negb (Z.land uv 0x80000000 =? 0) = (2 ^ 31 <=? uv).
Proof.
  intros Hu. change 0x80000000 with (Z.shiftl 1 31). rewrite land_pow2_nonzero by lia.
  unfold is_u32 in Hu. destruct (Z.leb_spec (2 ^ 31) uv).
  - apply Z.testbit_true; [lia|]. replace (uv / 2 ^ 31) with 1; [done|]. apply Z.div_unique with (uv - 2 ^ 31); lia.
  - apply (testbit_small uv 31); lia.
Qed.

(** One step of the inner loop adds twice a product, a cell and the carry. *)
Lemma sq_step xj xi wj c : is_u16 xj -> is_u16 xi -> 0 <= wj -> 0 <= c -> wj + c < 2 ^ 32 ->
  let T := 2 * (xj * xi) + wj + c in T < 2 ^ 33 ->
  let uv0 := u32 (xj * xi) in
  let uv1 := u32 (uv0 * 2) in
  let uv2 := u32 (uv1 + u32 (wj + c)) in
  let high := negb (Z.land uv0 0x80000000 =? 0) || (uv2 <? uv1) in
  Z.land uv2 0xffff = T mod 2 ^ 16 /\
  Z.lor (Z.shiftr uv2 V_BIGBITS) (Z.shiftl (b2z high) V_BIGBITS) = T / 2 ^ 16.
Proof.
  intros Hj Hi Hw Hc Hs T HT uv0 uv1 uv2 high. pose proof (digit_product xj xi Hj Hi) as Hp.
  assert (uv0 = xj * xi) as E0 by (apply u32_id; unfold is_u32; lia).
  assert (u32 (wj + c) = wj + c) as Es by (apply u32_id; unfold is_u32; lia).
  assert (uv2 + 2 ^ 32 * b2z high = T) as E.
  { unfold high. rewrite land_high by apply u32_range. rewrite E0. unfold uv2, uv1. rewrite E0, Es. unfold T, u32 in *.
    destruct (Z.leb_spec (2 ^ 31) (xj * xi)) as [H|H]; cbn [orb].
    - rewrite <- (Z.mod_unique (xj * xi * 2) (2 ^ 32) 1 (xj * xi * 2 - 2 ^ 32)) by lia.
      rewrite Z.mod_small by lia. cbn [b2z]. lia.
    - rewrite (Z.mod_small (xj * xi * 2)) by lia.
      destruct (Z.lt_ge_cases (xj * xi * 2 + (wj + c)) (2 ^ 32)).
      + rewrite Z.mod_small by lia. rewrite (proj2 (Z.ltb_ge _ _)) by lia. cbn [b2z]. lia.
      + rewrite <- (Z.mod_unique (xj * xi * 2 + (wj + c)) (2 ^ 32) 1 (xj * xi * 2 + (wj + c) - 2 ^ 32)) by lia.
        rewrite (proj2 (Z.ltb_lt _ _)) by lia. cbn [b2z]. lia. }
  pose proof (u32_range (uv1 + u32 (wj + c))) as R. fold uv2 in R. unfold is_u32 in R.
  rewrite land_ffff, <- E. unfold V_BIGBITS. rewrite Z.shiftr_div_pow2, Z.shiftl_mul_pow2 by lia. split.
  - replace (2 ^ 32 * b2z high) with (b2z high * 2 ^ 16 * 2 ^ 16) by lia. by rewrite Z.mod_add by lia.
  - rewrite lor_add by dm. replace (2 ^ 32 * b2z high) with (b2z high * 2 ^ 16 * 2 ^ 16) by lia. by rewrite Z.div_add by lia.
Qed.

(** Cells of [w] between rows: digits, but the last may have one bit more. *)
Fixpoint row_ok (l : list Z) : Prop :=
  match l with
  | [] => True
  | [d] => 0 <= d <= 2 * 2 ^ 16 - 1
  | d :: l' => is_u16 d /\ row_ok l'
  end.

Lemma row_ok_snoc l d : Forall is_u16 l -> 0 <= d <= 2 * 2 ^ 16 - 1 -> row_ok (l ++ [d]).
Proof.
  intros Hl Hd. induction Hl as [|x l Hx Hl IH]; [done|]. cbn [app row_ok]. destruct (l ++ [d]) eqn:E.
  - by destruct l.
  - done.
Qed.

Lemma val_top (l : list Z) d : val (l ++ [d]) = val l + weight (length l) * d.
Proof. rewrite val_app. cbn [val]. lia. Qed.

Lemma sq_inner_spec rest xi o z : wf rest -> is_u16 xi -> forall wl c, length wl = length rest -> row_ok wl ->
  0 <= c <= 2 * 2 ^ 16 - 2 ->
  exists wl' top, sq_inner rest xi (wl ++ o :: z) c = wl' ++ top :: z /\ length wl' = length rest /\ wf wl' /\
    0 <= top <= 2 * 2 ^ 16 - 1 /\ val wl' + weight (length wl') * top = val wl + 2 * xi * val rest + c.
Proof.
  intros Hr Hi. induction Hr as [|xj rest Hj Hr IH]; intros wl c Hl Hw Hc.
  - destruct wl; [|done]. exists [], c. cbn. rewrite weight_0. split_and!; (done || lia || constructor).
  - destruct wl as [|wj wl]; [done|]. cbn [app sq_inner length] in *. pose proof (digit_product xj xi Hj Hi) as Hp.
    set (T := 2 * (xj * xi) + wj + c).
    assert (0 <= wj <= 2 * 2 ^ 16 - 1 /\ (rest <> [] -> is_u16 wj /\ row_ok wl)) as [Hwj Hwl].
    { destruct wl; cbn [row_ok] in Hw.
      - split; [done|]. intros []. by destruct rest.
      - destruct Hw as [Hw1 Hw2]. unfold is_u16 in *. split; [lia|done]. }
    destruct (sq_step xj xi wj c Hj Hi) as [-> ->]; [lia..|]. fold T.
    assert (T mod 2 ^ 16 + 2 ^ 16 * (T / 2 ^ 16) = T) as ET by (pose proof (Z.div_mod T (2 ^ 16)); lia).
    destruct (decide (rest = [])) as [->|Hne].
    + destruct wl; [|done]. exists [T mod 2 ^ 16], (T / 2 ^ 16). cbn [sq_inner app length val].
      change (weight 1) with (2 ^ 16). split_and!; [done|done|constructor; [apply u16_range|constructor]| | |lia]; unfold T; dm.
    + destruct (Hwl Hne) as [Hwj' Hwl']. unfold is_u16 in Hwj'.
      destruct (IH wl (T / 2 ^ 16)) as (wl' & top & -> & Hl' & Hw' & Ht & Hv); [lia|done|unfold T; dm|].
      exists (T mod 2 ^ 16 :: wl'), top. cbn [app length val]. rewrite weight_S.
      split_and!; [done|lia|constructor; [apply u16_range|done]|lia|lia|]. nia.
Qed.

Lemma row_ok_nonneg l : row_ok l -> 0 <= val l.
Proof.
  induction l as [|d l IH]; intros H; [done|]. cbn [val]. destruct l as [|e l]; cbn [row_ok] in H.
  - cbn [val]. lia.
  - destruct H as [H1 H2]. specialize (IH H2). unfold is_u16 in H1. lia.
Qed.

Lemma sq_rows_spec xs : wf xs -> forall wl, length wl = length xs -> row_ok wl ->
  val wl + val xs * val xs < weight (2 * length xs) ->
  wf (sq_rows xs (wl ++ replicate (length xs) 0)) /\
  length (sq_rows xs (wl ++ replicate (length xs) 0)) = (2 * length xs)%nat /\
  val (sq_rows xs (wl ++ replicate (length xs) 0)) = val wl + val xs * val xs.
Proof.
  induction 1 as [|xi rest Hi Hr IH]; intros wl Hl Hw Hs.
  { destruct wl; [|done]. cbn. split_and!; [constructor|done|done]. }
  destruct wl as [|w0 wl]; [done|]. cbn [length replicate app sq_rows val] in *.
  pose proof (digit_product xi xi Hi Hi) as Hp. pose proof (val_range rest Hr) as Rr.
  replace (2 * S (length rest))%nat with (S (S (2 * length rest)))%nat in Hs |- * by lia. rewrite !weight_S in Hs.
  assert (0 <= val wl) as Nw.
  { apply row_ok_nonneg. destruct wl; [done|]. apply Hw. }
  assert (0 <= w0 /\ w0 + xi * xi < 2 ^ 32 /\ (w0 + xi * xi) / 2 ^ 16 <= 2 ^ 16 - 1 /\ row_ok wl) as (W0 & Wu & Wc & Wl).
  { destruct wl as [|w1 wl]; cbn [row_ok] in Hw.
    - destruct rest; [|done]. cbn [val length weight] in *. change (2 ^ 16 * (2 ^ 16 * weight (2 * 0))) with (2 ^ 32) in Hs.
      assert (w0 + xi * xi < 2 ^ 32) by lia. split_and!; [lia|lia| |done]. dm.
    - destruct Hw as [H1 H2]. unfold is_u16 in H1. split_and!; [lia|lia| |done]. dm. }
  rewrite (u32_id (xi * xi)) by (unfold is_u32; lia). rewrite u32_id by (unfold is_u32; lia).
  set (u := w0 + xi * xi) in *. rewrite Z.shiftr_div_pow2 by (unfold V_BIGBITS; lia).
  change (2 ^ V_BIGBITS) with (2 ^ 16). rewrite land_ffff.
  destruct (sq_inner_spec rest xi 0 (replicate (length rest) 0) Hr Hi wl (u / 2 ^ 16)) as (wl' & top & -> & Ll' & Ww' & Ht & Hv);
    [lia|done|split; [unfold u; dm|lia]|].
  pose proof (Z.div_mod u (2 ^ 16) ltac:(lia)) as Eu.
  assert (is_u16 (u mod 2 ^ 16)) as Hu by apply u16_range.
  destruct wl' as [|w1 wl'].
  - destruct rest as [|? ?]; [|done]. cbn [app length replicate sq_rows val] in *. rewrite weight_0 in *.
    destruct wl; [|done]. cbn [val] in *. split_and!; [|done|lia].
    constructor; [done|]. constructor; [|constructor]. unfold is_u16. lia.
  - cbn [app length] in *. pose proof (Forall_inv Ww') as Hw1. apply Forall_inv_tail in Ww'.
    replace (wl' ++ top :: replicate (length rest) 0) with ((wl' ++ [top]) ++ replicate (length rest) 0)
      by (by rewrite <- app_assoc).
    assert (val wl' + weight (length wl') * top = val (wl' ++ [top])) as Et by (by rewrite val_top).
    cbn [val] in Hv. rewrite weight_S in Hv.
    assert (u mod 2 ^ 16 + 2 ^ 16 * w1 + 2 ^ 16 * (2 ^ 16 * (val (wl' ++ [top]) + val rest * val rest)) =
      w0 + 2 ^ 16 * val wl + (xi + 2 ^ 16 * val rest) * (xi + 2 ^ 16 * val rest)) as Etot.
    { rewrite <- Et. unfold u in *. nia. }
    destruct (IH (wl' ++ [top])) as (I1 & I2 & I3).
    + rewrite length_app. cbn [length]. lia.
    + by apply row_ok_snoc.
    + unfold is_u16 in *. nia.
    + cbn [val length]. rewrite I2, I3. split_and!; [constructor; [done|]; by constructor|done|]. lia.
Qed.

(** Squaring keeps the low half of the digits only; the result fits. *)
Lemma square_half_spec x : wf x -> (length x <= 256)%nat ->
  exists x', v_bignum_square_half x = Ok x' /\ wf x' /\ length x' = length x /\
    ((2 <= length x)%nat -> let half := val (take (length x / 2) x) in val x' = half * half).
Proof.
  intros Hx Hl. unfold v_bignum_square_half. destruct (Nat.eqb_spec (length x / 2) 0) as [E|E].
  { exists x. split_and!; try done. intros H. exfalso. assert (2 / 2 <= length x / 2)%nat by (by apply Nat.Div0.div_le_mono).
    cbn in *. lia. }
  pose proof (Nat.Div0.mul_div_le (length x) 2) as Hh. pose proof (used_le (length x / 2) x) as Hu.
  set (t := used (length x / 2) x) in *. rewrite (proj2 (Nat.ltb_ge _ _)) by lia.
  assert (length (take t x) = t) as Lt by (rewrite length_take; lia).
  pose proof (val_range (take t x) (wf_take t x Hx)) as Rt. rewrite Lt in Rt.
  destruct (sq_rows_spec (take t x) (wf_take t x Hx) (replicate t 0)) as (S1 & S2 & S3).
  - by rewrite length_replicate.
  - clear. induction t as [|t IH]; [done|]. destruct t; [done|]. split; [apply is_u16_0|done].
  - rewrite val_replicate_0, Lt. replace (2 * t)%nat with (t + t)%nat by lia. rewrite weight_add. nia.
  - rewrite Lt in S1, S2, S3. rewrite <- replicate_add in S1, S2, S3. replace (t + t)%nat with (2 * t)%nat in S1, S2, S3 by lia.
    eexists. split; [reflexivity|]. rewrite map_u16_wf by done. split_and!.
    + apply wf_app; [done|apply wf_replicate_0].
    + rewrite length_app, S2, length_replicate. lia.
    + intros _. cbn zeta. rewrite val_app, val_replicate_0, S3, val_replicate_0. unfold t. rewrite used_val by (done || lia). lia.
Qed.

(** ** Powers *)

Lemma pow_mod_square a e n : 0 < n -> 0 <= e -> ((a ^ e mod n) * (a ^ e mod n)) mod n = a ^ (2 * e) mod n.
Proof. intros Hn He. rewrite <- Z.mul_mod by lia. by rewrite <- Z.pow_add_r, <- Z.add_diag by lia. Qed.

Lemma pow_mod_times a e n : 0 < n -> 0 <= e -> ((a ^ e mod n) * a) mod n = a ^ (e + 1) mod n.
Proof. intros Hn He. rewrite Z.mul_mod_idemp_l by lia. by rewrite Z.pow_add_r, Z.pow_1_r by lia. Qed.

Lemma shift_bit y i : 0 <= y -> 0 <= i -> y / 2 ^ i = 2 * (y / 2 ^ (i + 1)) + b2z (Z.testbit y i).
Proof.
  intros Hy Hi. rewrite Z.pow_add_r, <- Z.div_div by lia. rewrite testbit_b2z by done. change (2 ^ 1) with 2.
  pose proof (Z.div_mod (y / 2 ^ i) 2). lia.
Qed.

Section Pow.
Context (x y n mu : list Z).
Let k := used_digits n.
Let X := Z.of_nat (length x).
Context (Hx : wf x) (Hy : wf y) (Hn : wf n) (Hmu : wf mu) (Hn0 : 0 < val n) (Hxn : val x < val n).
Context (Hnl : Z.of_nat (length n) <= 2 * X) (HkX : k <= X) (HX : X <= 128).
Context (Hvmu : val mu = weight (2 * Z.to_nat k) / val n) (Hlmu : Z.of_nat (length mu) = 2 * k + 1).

Lemma pow_k : 1 <= k /\ val n < weight (Z.to_nat k) /\ val n <= weight (length x).
Proof.
  destruct (used_digits_spec n Hn Hn0) as [H1 H2]. fold k in H1, H2. split_and!; [lia|lia|].
  apply Z.lt_le_incl. eapply Z.lt_le_trans; [apply H2|]. apply weight_le. unfold X in *. lia.
Qed.

(** A product of two residues reduced. *)
Lemma reduce_product fuel h t a b : heap_wf h -> (3 <= fuel)%nat -> heap_pos h + 6 * X + 2 * k + 22 <= HEAP_SIZE ->
  wf t -> Z.of_nat (length t) = 2 * X -> val t = a * b -> 0 <= a < val n -> 0 <= b < val n ->
  exists h' r, v_bignum_reduce fuel h t n mu = Ok (h', r) /\ wf r /\ Z.of_nat (length r) = 2 * X /\
    val r = (a * b) mod val n /\ heap_pos h' = heap_pos h /\
    frame (heap_pos h) (heap_pos h + 6 * X + 2 * k + 22) h h'.
Proof.
  intros Hh Hf Hroom Ht Hl Hv Ha Hb. destruct pow_k as (K1 & K2 & _).
  destruct (reduce_spec t n mu Ht Hn Hmu Hn0) with (fuel := fuel) (h := h) as (h' & r & E & Wr & Lr & Vr & P & F); try done.
  - lia.
  - fold k. rewrite Hv. replace (2 * Z.to_nat k)%nat with (Z.to_nat k + Z.to_nat k)%nat by lia. rewrite weight_add. nia.
  - fold k. lia.
  - fold k. lia.
  - exists h', r. split_and!; try done; [lia|by rewrite Vr, Hv|]. fold k in F. eapply frame_mono, F; lia.
Qed.

Lemma pow_loop_spec fuel i h t : heap_wf h -> (3 <= fuel)%nat -> heap_pos h + 6 * X + 2 * k + 22 <= HEAP_SIZE ->
  wf t -> Z.of_nat (length t) = 2 * X -> val t = val x ^ (val y / 2 ^ Z.of_nat i) mod val n ->
  exists h' r, pow_loop fuel i h t x y n mu = Ok (h', r) /\ wf r /\ Z.of_nat (length r) = 2 * X /\
    val r = val x ^ val y mod val n /\ heap_pos h' = heap_pos h /\
    frame (heap_pos h) (heap_pos h + 6 * X + 2 * k + 22) h h'.
Proof.
  intros Hh Hf Hroom. revert h t Hh Hroom; induction i as [|i IH]; intros h t Hh Hroom Ht Hl Hv; cbn [pow_loop].
  { change (2 ^ Z.of_nat 0) with 1 in Hv. rewrite Z.div_1_r in Hv. exists h, t. split_and!; done || by apply frame_refl. }
  destruct pow_k as (K1 & K2 & K3). pose proof (val_range y Hy) as Ry. pose proof (val_range x Hx) as Rx.
  pose proof (Z.mod_pos_bound (val x ^ (val y / 2 ^ Z.of_nat (S i))) (val n) Hn0) as Rt. rewrite <- Hv in Rt.
  destruct (square_half_spec t Ht) as (t1 & -> & W1 & L1 & V1); [lia|]. cbn [obind].
  specialize (V1 ltac:(lia)). cbn zeta in V1.
  assert (val (take (length t / 2) t) = val t) as Eh.
  { rewrite val_take by done. apply Z.mod_small. replace (length t / 2)%nat with (length x); [lia|].
    apply Nat.div_unique with 0%nat; unfold X in *; lia. }
  rewrite Eh in V1.
  destruct (reduce_product fuel h t1 (val t) (val t)) as (h1 & r1 & -> & Wr1 & Lr1 & Vr1 & P1 & F1); try done; [lia|].
  cbn [obind].
  assert (0 <= val y / 2 ^ Z.of_nat (S i)) as Hq by (apply Z.div_pos; [lia|apply Z.pow_pos_nonneg; lia]).
  rewrite Hv, pow_mod_square in Vr1 by done.
  pose proof (shift_bit (val y) (Z.of_nat i) ltac:(lia) ltac:(lia)) as Eb.
  replace (Z.of_nat i + 1) with (Z.of_nat (S i)) in Eb by lia.
  rewrite bit_test_spec by (done || lia). destruct (Z.testbit (val y) (Z.of_nat i)); cbn [b2z] in Eb.
  - pose proof (Z.mod_pos_bound (val x ^ (2 * (val y / 2 ^ Z.of_nat (S i)))) (val n) Hn0) as R1. rewrite <- Vr1 in R1.
    assert (r1 <> []) as N1 by (intros E; rewrite E in Lr1; cbn in Lr1; unfold X in *; lia).
    assert (val (mul_digits r1 x) = val r1 * val x) as Vm.
    { rewrite val_mul by done. apply Z.mod_small. replace (length r1) with (length x + length x)%nat by (unfold X in *; lia).
      rewrite weight_add. nia. }
    rewrite mul_ok by (unfold X in *; lia). cbn [obind].
    destruct (reduce_product fuel h1 (mul_digits r1 x) (val r1) (val x)) as (h2 & r2 & -> & Wr2 & Lr2 & Vr2 & P2 & F2);
      try done; try lia; [apply F1|by apply wf_mul|by rewrite length_mul|]. cbn [obind].
    destruct (IH h2 r2) as (h3 & r3 & -> & Wr3 & Lr3 & Vr3 & P3 & F3); try done; try lia; [apply F2| |].
    { rewrite Vr2, Vr1, pow_mod_times, Eb by (done || lia). done. }
    exists h3, r3. split_and!; try done; try lia.
    eapply frame_trans; [exact F1|]. eapply frame_trans; [eapply frame_mono, F2; lia|]. eapply frame_mono, F3; lia.
  - cbn [obind]. destruct (IH h1 r1) as (h3 & r3 & -> & Wr3 & Lr3 & Vr3 & P3 & F3); try done; try lia; [apply F1| |].
    { rewrite Vr1, Eb. do 2 f_equal. lia. }
    exists h3, r3. split_and!; try done; try lia.
    eapply frame_trans; [exact F1|]. eapply frame_mono, F3; lia.
Qed.
End Pow.

(** The modular power of a residue, with an exponent other than zero. *)
Lemma pow_mod_spec fuel h x y n :
  heap_wf h -> (3 <= fuel)%nat -> wf x -> wf y -> wf n -> 0 <= val x < val n -> 0 < val y ->
  let X := Z.of_nat (length x) in let k := used_digits n in
  Z.of_nat (length n) <= 2 * X -> Z.of_nat (length n) <= 2 * k + 1 -> k <= X -> X <= 128 ->
  heap_pos h + 8 * X + 6 * k + 30 <= HEAP_SIZE ->
  exists h' r, v_bignum_pow_mod fuel h x y n = Ok (h', r) /\ wf r /\ length r = length x /\
    val r = val x ^ val y mod val n /\ heap_pos h' = heap_pos h /\
    frame (heap_pos h) (heap_pos h + 8 * X + 6 * k + 30) h h'.
Proof.
  intros Hh Hf Hx Hy Hn Hxn Hy0 X k Hnl Hnk HkX HX Hroom.
  destruct (used_digits_spec n Hn ltac:(lia)) as [Hk1 Hk2]. fold k in Hk1, Hk2.
  pose proof Hh as (_ & _ & Hpos). unfold v_bignum_pow_mod. fold X.
  destruct (acquire_spec (2 * X) h Hh) as (h1 & t0 & -> & Lt0 & Wt0 & F1 & P1 & B1); [lia|lia|]. cbn [obind].
  set (t := v_bignum_set_bignum t0 x). assert (wf t) as Wt by (by apply wf_set_bignum).
  assert (Z.of_nat (length t) = 2 * X) as Lt by (unfold t; by rewrite length_set_bignum).
  assert (val t = val x) as Vt.
  { unfold t. rewrite val_set_bignum by done. apply Z.mod_small. split; [lia|].
    eapply Z.lt_le_trans; [apply val_range, Hx|]. apply weight_le. unfold X in *. lia. }
  destruct (store_frame h1 (heap_pos h) (2 * X) t (proj1 F1) B1 Wt Lt) as (h2 & -> & F2 & P2). cbn [obind].
  destruct (reduce_begin_spec h2 n (proj1 F2) Hn) as (mu & h3 & -> & Wmu & Lmu & Vmu & P3 & B3 & F3); try (fold k; lia).
  fold k in Lmu, Vmu, P3, B3, F3. cbn [obind].
  replace (Z.to_nat (2 * k)) with (2 * Z.to_nat k)%nat in Vmu by lia.
  rewrite bit_msb_spec, (proj2 (Z.eqb_neq (val y) 0)) by (done || lia).
  destruct (pow_loop_spec x y n mu Hx Hy Hn Wmu ltac:(lia) ltac:(lia) ltac:(fold X; lia) ltac:(fold k X; lia)
    ltac:(fold X; lia) Vmu Lmu fuel (Z.to_nat (Z.log2 (val y))) h3 t) as (h4 & r & -> & Wr & Lr & Vr & P4 & F4); try done.
  { apply F3. } { fold X k. lia. }
  { rewrite Vt, Z2Nat.id by apply Z.log2_nonneg. pose proof (Z.log2_spec (val y) Hy0).
    replace (val y / 2 ^ Z.log2 (val y)) with 1; [by rewrite Z.pow_1_r, Z.mod_small by lia|].
    apply Z.div_unique with (val y - 2 ^ Z.log2 (val y)); rewrite ?Z.pow_succ_r in * by apply Z.log2_nonneg; lia. }
  fold X k in F4. cbn [obind].
  assert (block h4 (heap_pos h2) (2 * k + 1)) as C3 by (apply (block_frame _ _ _ _ _ _ F4); [lia|done]).
  assert (block h4 (heap_pos h) (2 * X)) as C1.
  { apply (block_frame _ _ _ _ _ _ F4); [lia|]. apply (block_frame _ _ _ _ _ _ F3); [lia|].
    apply (block_frame _ _ _ _ _ _ F2); [lia|done]. }
  destruct (store_frame h4 (heap_pos h) (2 * X) r (proj1 F4) C1 Wr Lr) as (h5 & -> & F5 & P5). cbn [obind].
  assert (block h5 (heap_pos h2) (2 * k + 1)) as D3 by (apply (block_above _ _ _ _ _ _ F5); [lia|done]).
  assert (block h5 (heap_pos h) (2 * X)) as D1 by (apply (block_frame _ _ _ _ _ _ F5); [lia|done]).
  unfold v_bignum_reduce_end. destruct (free_frame h5 _ _ (proj1 F5) D3) as [-> G3]; [lia|]. cbn [obind].
  pose (h6 := mkHeap (cells h5) (heap_pos h2)). fold h6 in G3 |- *.
  destruct (free_frame h6 _ _ (proj1 (G3 0 0)) D1) as [-> G1]; [cbn; lia|]. cbn [obind].
  eexists _, _. split; [reflexivity|]. split_and!; [by apply wf_set_bignum|by rewrite length_set_bignum| |done|].
  - rewrite val_set_bignum, Vr by done. apply Z.mod_small.
    pose proof (Z.mod_pos_bound (val x ^ val y) (val n) ltac:(lia)). split; [lia|].
    eapply Z.lt_le_trans with (weight (Z.to_nat k)); [lia|]. apply weight_le. unfold X in *. lia.
  - eapply frame_trans; [eapply frame_mono, F1; lia|]. eapply frame_trans; [eapply frame_mono, F2; lia|].
    eapply frame_trans; [eapply frame_mono, F3; lia|]. eapply frame_trans; [eapply frame_mono, F4; lia|].
    eapply frame_trans; [eapply frame_mono, F5; lia|]. eapply frame_trans; [apply G3|apply G1].
Qed.

(** With exponent zero the base comes back unchanged. *)
Lemma pow_mod_zero_exponent : exists h', v_bignum_pow_mod 3 heap_init [5] [0] [7] = Ok (h', [5]).
Proof. eexists. vm_compute. reflexivity. Qed.
