(* ===== verification/BignumStr.v ===== *)
(** * Big integers and text: registers as bignums and back

    [v_bignum.c] converts a 256-bit register (four 64-bit words, least
    significant word first, the bytes of each word most significant first)
    into a bignum by printing its bytes in hexadecimal and parsing the text,
    and a bignum into a register by printing it and cutting the text up. *)

From stdpp Require Import base numbers list option strings.
From Stdlib Require Import ZArith Lia.
From S2P Require Import Prelude Words Bignum BignumSpec BignumHeap.

Definition BLOCK_SIZE : nat := 4.

(** ** Decimal and hexadecimal input *)

Fixpoint set_string_loop (x : list Z) (s : list Z) : list Z :=
  match s with
  | [] => x
  | c :: s' =>
      if isdigit c then
        let x := v_bignum_mul_digit x 10 in
        let d := u32 (c - 48) in
        set_string_loop (v_bignum_add_digit x d) s'
      else x
  end.

Definition v_bignum_set_string (x : list Z) (s : list Z) : list Z :=
  set_string_loop (v_bignum_set_zero x) s.

(** [x[1] |= (d & 0xF)] *)
Definition or_nibble (x : list Z) (d : Z) : list Z :=
  <[0%nat := u16 (Z.lor (nth 0 x 0) (Z.land d 15))]> x.

Fixpoint set_string_hex_loop (x : list Z) (s : list Z) : list Z :=
  match s with
  | [] => x
  | c :: s' =>
      if isxdigit c then
        let x := v_bignum_bit_shift_left x 4 in
        let d := u32 (tolower c - 48) in
        let d := if 9 <? d then u32 (d - ((97 - 48) - 10)) else d in
        set_string_hex_loop (or_nibble x d) s'
      else x
  end.

Definition skip_0x (s : list Z) : list Z :=
  match s with
  | 48 :: c :: s' => if (c =? 120) || (c =? 88) then s' else s
  | _ => s
  end.

Definition v_bignum_set_string_hex (x : list Z) (s : list Z) : list Z :=
  let s := skip_0x s in
  set_string_hex_loop (v_bignum_set_zero x) s.

(** ** Hexadecimal output *)

(** What is appended to [string]. *)
Definition v_bignum_sprint_hex (x : list Z) : list Z :=
  flat_map (fun d => fmt_x hexdig 4 d) (rev x).

(** What is printed. *)
Definition v_bignum_print_hex (x : list Z) : list Z :=
  codes "0x" ++ flat_map (fun d => fmt_x HEXDIG 4 d) (rev x).

Definition v_bignum_print_hex_lf (x : list Z) : list Z := v_bignum_print_hex x ++ [10].

(** ** Registers *)

Definition block_string (w : Z) : list Z :=
  flat_map (fun j => fmt_x hexdig 2 (Z.land (Z.shiftr w (8 * Z.of_nat j)) 255)) (seq 0 8).

(** [digit_string] after the loop [for (i = BLOCK_SIZE-1; i >= 0; i--)]. *)
Definition reg_string (reg : list Z) : list Z := codes "0x" ++ flat_map block_string (rev reg).

(** The number is allocated on the heap and never released. *)
Definition v_bignum_reg_to_bignum (reg : list Z) (h : heap) : outcome (Z * heap) :=
  let* (p, h) := alloc 64 h in
  let* x := load h p in
  let* h := store h p (v_bignum_set_string_hex x (reg_string reg)) in
  Ok (p, h).

(** A C string in a buffer ends at the first NUL. *)
Fixpoint cstr (s : list Z) : list Z :=
  match s with
  | [] => []
  | c :: s' => if c =? 0 then [] else c :: cstr s'
  end.

(** The text of part [i]: two characters at a time, from the right. *)
Definition part_string (buf : list Z) (i : nat) : list Z :=
  flat_map (fun m => cstr (take 2 (drop (64 - 16 * i - 2 * m) buf))) (seq 0 8).

(** The text does not fit [char digit_string[67]] when [x] has more than 16
    digits. *)
Definition v_bignum_bignum_to_reg (x : list Z) : outcome (list Z) :=
  let text := codes "0x" ++ v_bignum_sprint_hex x in
  if (length text <? 67)%nat then
    let digit_string := text ++ replicate (67 - length text) 0 in
    Ok (map (fun i => strtoull16 (part_string digit_string i)) (seq 0 BLOCK_SIZE))
  else Undef.

(** ** What they compute *)

(** The 256-bit number a register holds, and the register of a number. *)
Fixpoint reg_val (reg : list Z) : Z :=
  match reg with
  | [] => 0
  | w :: reg' => bswap64 w + 2 ^ 64 * reg_val reg'
  end.

Definition reg_of (v : Z) : list Z :=
  map (fun i => bswap64 (v / 2 ^ (64 * Z.of_nat i))) (seq 0 4).

Definition reg_wf (reg : list Z) : Prop := length reg = 4%nat /\ Forall is_u64 reg.

(** ** Parsing *)

Lemma or_nibble_spec x d :
  wf x -> x <> [] -> val x mod 16 = 0 -> 0 <= d < 16 ->
  length (or_nibble x d) = length x /\ wf (or_nibble x d) /\ val (or_nibble x d) = val x + d.
Proof.
  intros Hx Hn He Hd. unfold or_nibble. destruct Hx as [|e x He16 Hx]; [done|]. cbn [nth].
  rewrite length_insert. split; [done|]. split; [auto with cint|].
  rewrite (land_mask d 4) by done. rewrite Z.mod_small by lia.
  cbn [list_insert insert val] in *. unfold is_u16 in He16.
  assert (e mod 16 = 0) by dm.
  assert (Z.lor e d = e + d) as ->.
  { rewrite Z.lor_comm. replace e with ((e / 16) * 2 ^ 4) at 1 by dm. rewrite lor_add by lia. dm. }
  rewrite u16_id; [lia|]. unfold is_u16. dm.
Qed.

(** The digit computed by [tolower], the subtraction and the adjustment. *)
Lemma hex_digit_value c :
  isxdigit c = true ->
  let d := u32 (tolower c - 48) in
  (if 9 <? d then u32 (d - ((97 - 48) - 10)) else d) = xval c /\ 0 <= xval c < 16.
Proof.
  intros H. cbn zeta. unfold isxdigit, isdigit in H. unfold xval, isdigit, tolower.
  assert (48 <= c <= 57 \/ 97 <= c <= 102 \/ 65 <= c <= 70) as [Hc|[Hc|Hc]] by lia;
    repeat case_match; unfold u32 in *; rewrite ?Z.mod_small in * by (rewrite ?Z.mod_small; lia);
    rewrite ?Z.mod_small by lia; try lia.
Qed.

Lemma strtoull16_loop_mod s a W :
  0 < W -> strtoull16_loop s (a mod W) mod W = strtoull16_loop s a mod W.
Proof.
  intros HW.
  assert (forall a b, a mod W = b mod W ->
    strtoull16_loop s a mod W = strtoull16_loop s b mod W) as H; [|apply H, Z.mod_mod; lia].
  clear a. induction s as [|c s IH]; intros a b E; [done|]. cbn [strtoull16_loop].
  destruct (isxdigit c); [|done]. apply IH.
  rewrite Z.add_mod, (Z.mul_mod 16 a), E by lia.
  by rewrite <- Z.mul_mod, <- Z.add_mod by lia.
Qed.

Lemma set_string_hex_loop_spec x s :
  wf x -> x <> [] ->
  let r := set_string_hex_loop x s in
  length r = length x /\ wf r /\ val r = strtoull16_loop s (val x) mod weight (length x).
Proof.
  cbn zeta. revert x; induction s as [|c s IH]; intros x Hx Hn; cbn [set_string_hex_loop strtoull16_loop].
  - rewrite Z.mod_small by (by apply val_range). done.
  - destruct (isxdigit c) eqn:Ec.
    2: { rewrite Z.mod_small by (by apply val_range). done. }
    destruct (hex_digit_value c Ec) as [-> Hd].
    destruct (shift_left_spec x 4) as (Hl1 & Hw1 & Hv1); auto; [lia|].
    assert (0 < length x)%nat as Hpos by (destruct x; [done|simpl; lia]).
    assert (v_bignum_bit_shift_left x 4 <> []) as Hn1.
    { intros E. rewrite E in Hl1. simpl in Hl1. lia. }
    assert (exists k, weight (length x) = 16 * k) as [k Hk].
    { destruct (length x) as [|n]; [lia|]. exists (2 ^ 12 * weight n). rewrite weight_S. lia. }
    pose proof (weight_pos (length x)) as HW.
    assert (val (v_bignum_bit_shift_left x 4) = 16 * (val x mod k)) as Hv2.
    { rewrite Hv1, Hk. change (2 ^ 4) with 16. rewrite Z.mul_comm. apply Z.mul_mod_distr_l; lia. }
    destruct (or_nibble_spec (v_bignum_bit_shift_left x 4) (xval c)) as (Hl2 & Hw2 & Hv3);
      auto; [rewrite Hv2; dm|].
    destruct (IH (or_nibble (v_bignum_bit_shift_left x 4) (xval c))) as (Hl & Hw & Hv); auto.
    { intros E. rewrite E in Hl2. simpl in Hl2. lia. }
    rewrite Hl, Hl2, Hl1. split_and!; auto. rewrite Hv, Hl2, Hl1, Hv3, Hv1.
    rewrite <- strtoull16_loop_mod, Z.add_mod_idemp_l, strtoull16_loop_mod by lia.
    do 2 f_equal. lia.
Qed.

(** The text of a list of bytes, two digits each. *)
Abbreviation hex2 := (fixed_hex hexdig 2).

Lemma strtoull16_loop_hex2 bs acc :
  Forall is_u8 bs ->
  strtoull16_loop (flat_map hex2 bs) acc = 2 ^ (8 * Z.of_nat (length bs)) * acc + le_val (rev bs).
Proof.
  intros Hb. revert acc; induction Hb as [|b bs Hb Hbs IH]; intros acc; cbn [flat_map rev length].
  - simpl. lia.
  - rewrite strtoull16_loop_app by (apply fixed_hex_xdigit; auto with cint).
    rewrite IH, strtoull16_loop_fixed by (auto with cint; apply Hb).
    unfold is_u8 in Hb. rewrite Z.mod_small by (simpl; lia).
    rewrite le_val_app, length_rev. cbn [le_val].
    replace (8 * Z.of_nat (S (length bs))) with (8 * Z.of_nat (length bs) + 8) by lia.
    rewrite Z.pow_add_r by lia. change (16 ^ Z.of_nat 2) with (2 ^ 8). lia.
Qed.

Lemma byte_of_word w j :
  is_u64 w -> Z.land (Z.shiftr w (8 * Z.of_nat j)) 255 = (w / 2 ^ (8 * Z.of_nat j)) mod 2 ^ 8.
Proof. intros _. by rewrite land_ff, Z.shiftr_div_pow2 by lia. Qed.

Lemma le_bytes_map n w :
  le_bytes n w = map (fun j => (w / 2 ^ (8 * Z.of_nat j)) mod 2 ^ 8) (seq 0 n).
Proof.
  revert w; induction n as [|n IH]; intros w; [done|]. cbn [le_bytes seq map].
  rewrite Z.mul_0_r, Z.pow_0_r, Z.div_1_r. f_equal.
  rewrite IH, <- seq_shift, map_map. apply map_ext. intros j.
  rewrite Z.div_div by lia. rewrite <- Z.pow_add_r by lia. do 3 f_equal. lia.
Qed.

Lemma block_string_bytes w : is_u64 w -> block_string w = flat_map hex2 (le_bytes 8 w).
Proof.
  intros Hw. unfold block_string. rewrite le_bytes_map, !flat_map_concat_map, map_map. f_equal.
  apply map_ext. intros j. rewrite byte_of_word by done. apply fmt_x_fixed; auto with cint; [lia|].
  apply Z.mod_pos_bound. lia.
Qed.

Lemma flat_map_flat_map {A B C} (f : A -> list B) (g : B -> list C) l :
  flat_map g (flat_map f l) = flat_map (fun a => flat_map g (f a)) l.
Proof. induction l as [|a l IH]; [done|]. simpl. by rewrite flat_map_app, IH. Qed.

Lemma rev_flat_map {A B} (f : A -> list B) l :
  rev (flat_map f (rev l)) = flat_map (fun a => rev (f a)) l.
Proof.
  induction l as [|a l IH]; [done|]. simpl.
  rewrite flat_map_app, rev_app_distr, IH. simpl. by rewrite app_nil_r.
Qed.

Lemma le_val_reg reg : le_val (flat_map (fun w => rev (le_bytes 8 w)) reg) = reg_val reg.
Proof.
  induction reg as [|w reg IH]; [done|]. cbn [flat_map reg_val].
  rewrite le_val_app, IH, length_rev, length_le_bytes. done.
Qed.

Lemma reg_string_value reg :
  Forall is_u64 reg -> strtoull16_loop (skip_0x (reg_string reg)) 0 = reg_val reg.
Proof.
  intros Hr. unfold reg_string. simpl skip_0x.
  assert (flat_map block_string (rev reg) = flat_map hex2 (flat_map (le_bytes 8) (rev reg))) as ->.
  { rewrite flat_map_flat_map. apply Forall_rev in Hr. induction Hr as [|w l Hw Hl IH]; [done|].
    simpl. by rewrite IH, block_string_bytes. }
  rewrite strtoull16_loop_hex2.
  - rewrite rev_flat_map, le_val_reg. lia.
  - apply Forall_flat_map. apply Forall_true. intros; apply le_bytes_u8.
Qed.

Lemma reg_val_range reg : 0 <= reg_val reg < 2 ^ (64 * Z.of_nat (length reg)).
Proof.
  induction reg as [|w reg IH]; [done|]. cbn [reg_val length].
  replace (64 * Z.of_nat (S (length reg))) with (64 + 64 * Z.of_nat (length reg)) by lia.
  rewrite Z.pow_add_r by lia. pose proof (bswap64_range w). unfold is_u64 in *. lia.
Qed.

Lemma reg_val_256 reg : reg_wf reg -> 0 <= reg_val reg < 2 ^ 256.
Proof. intros [Hl _]. pose proof (reg_val_range reg) as H. rewrite Hl in H. exact H. Qed.

(** Loading a register: with 65 cells left the number is built on the heap,
    which it never leaves. *)
Lemma reg_to_bignum_ok reg h :
  heap_wf h -> reg_wf reg -> heap_pos h + 65 <= HEAP_SIZE ->
  exists h' x, v_bignum_reg_to_bignum reg h = Ok (heap_pos h, h') /\
  load h' (heap_pos h) = Ok x /\ wf x /\ length x = 64%nat /\ val x = reg_val reg /\
  heap_pos h' = heap_pos h + 65 /\ frame (heap_pos h) (heap_pos h + 65) h h'.
Proof.
  intros Hh Hr Hroom. unfold v_bignum_reg_to_bignum.
  destruct (acquire_ok 64 h) as (h1 & x0 & -> & E & Hl0 & Hw0 & Hf1 & Hp1 & Hk1); try lia; [done|].
  cbn [obind]. rewrite E. cbn [obind].
  assert (x0 <> []) as Hn by (intros ->; done).
  destruct (set_string_hex_loop_spec (v_bignum_set_zero x0) (skip_0x (reg_string reg)))
    as (Hl & Hw & Hv); auto with cint.
  { destruct x0; [done|discriminate]. }
  fold (v_bignum_set_string_hex x0 (reg_string reg)) in Hl, Hw, Hv.
  set (x := v_bignum_set_string_hex x0 (reg_string reg)) in *.
  rewrite length_set_zero in Hl, Hv.
  rewrite val_set_zero, reg_string_value in Hv by apply Hr.
  pose proof (proj2 (proj2 Hh)) as Hpos.
  destruct (store_ok h1 (heap_pos h) x) as (h2 & Es & Hf2 & Hp2); auto; try lia; [apply Hf1|].
  rewrite Es. cbn [obind]. exists h2, x. split_and!; auto; try lia.
  - apply (load_store h1); auto; [apply Hf1|]. by rewrite Hl, Hl0.
  - rewrite Hv. apply Z.mod_small. pose proof (reg_val_256 reg Hr).
    replace (length x0) with 64%nat by lia. unfold weight. lia.
  - eapply frame_trans; [eapply frame_mono, Hf1; lia|]. eapply frame_mono, Hf2; lia.
Qed.

(** ** Printing *)

Lemma wf_bytes x :
  wf x -> le_bytes (2 * length x) (val x) = flat_map (fun d => [d mod 2 ^ 8; d / 2 ^ 8]) x.
Proof.
  induction 1 as [|d x Hd Hx IH]; [done|]. unfold is_u16 in Hd.
  replace (2 * length (d :: x))%nat with (S (S (2 * length x))) by (simpl; lia).
  cbn [le_bytes val flat_map app]. pose proof (val_range x Hx).
  rewrite <- IH. f_equal; [dm|]. f_equal; [dm|].
  by replace ((d + 2 ^ 16 * val x) / 2 ^ 8 / 2 ^ 8) with (val x) by dm.
Qed.

Lemma hex4_bytes d : is_u16 d -> fmt_x hexdig 4 d = flat_map hex2 [d / 2 ^ 8; d mod 2 ^ 8].
Proof.
  intros Hd. unfold is_u16 in Hd. rewrite fmt_x_fixed by (auto with cint; lia).
  cbn [fixed_hex flat_map app].
  replace ((d / 2 ^ 8) / 16 mod 16) with (d / 16 / 16 / 16 mod 16) by dm.
  replace ((d / 2 ^ 8) mod 16) with (d / 16 / 16 mod 16) by dm.
  replace (d mod 2 ^ 8 / 16 mod 16) with (d / 16 mod 16) by dm.
  by replace ((d mod 2 ^ 8) mod 16) with (d mod 16) by dm.
Qed.

Lemma sprint_hex_bytes x :
  wf x -> v_bignum_sprint_hex x = flat_map hex2 (rev (le_bytes (2 * length x) (val x))).
Proof.
  intros Hx. rewrite wf_bytes by done. unfold v_bignum_sprint_hex.
  induction Hx as [|d x Hd Hx IH]; [done|]. cbn [rev flat_map].
  rewrite flat_map_app, IH, rev_app_distr, flat_map_app. f_equal.
  cbn [flat_map]. rewrite app_nil_r, hex4_bytes by done. done.
Qed.

Lemma hex2_at bs k rest :
  (k < length bs)%nat -> take 2 (drop (2 * k) (flat_map hex2 bs ++ rest)) = hex2 (nth k bs 0).
Proof.
  revert k; induction bs as [|b bs IH]; intros k Hk; [simpl in Hk; lia|].
  destruct k as [|k]; [done|]. cbn [flat_map nth]. rewrite <- app_assoc.
  replace (2 * S k)%nat with (2 + 2 * k)%nat by lia. rewrite <- drop_drop.
  change 2%nat with (length (hex2 b)) at 3. rewrite drop_app_length. apply IH. simpl in Hk. lia.
Qed.

Lemma cstr_hex2 b : cstr (hex2 b) = hex2 b.
Proof.
  assert (forall n, (hexdig (n mod 16) =? 0) = false) as H.
  { intros n. unfold hexdig. destruct (_ <? 10); apply Z.eqb_neq; dm. }
  cbn [fixed_hex app cstr]. by rewrite !H.
Qed.

Lemma drop_0x l : drop 2 (codes "0x" ++ l) = l.
Proof. done. Qed.

Lemma part_string_spec bs i rest :
  length bs = 32%nat -> (i < 4)%nat ->
  part_string (codes "0x" ++ flat_map hex2 bs ++ rest) i
  = flat_map hex2 (map (fun m => nth (31 - 8 * i - m) bs 0) (seq 0 8)).
Proof.
  intros Hl Hi. unfold part_string. rewrite !flat_map_concat_map, map_map. f_equal.
  apply map_ext_in. intros m Hm. apply in_seq in Hm.
  replace (64 - 16 * i - 2 * m)%nat with (2 + 2 * (31 - 8 * i - m))%nat by lia.
  rewrite <- drop_drop, drop_0x, <- flat_map_concat_map, hex2_at by lia. apply cstr_hex2.
Qed.

Lemma le_bytes_32_part v i :
  0 <= v -> (i < 4)%nat ->
  map (fun m => nth (31 - 8 * i - m) (rev (le_bytes 32 v)) 0) (seq 0 8)
  = le_bytes 8 (v / 2 ^ (64 * Z.of_nat i)).
Proof.
  intros Hv Hi. rewrite (le_bytes_map 8). apply map_ext_in. intros m Hm. apply in_seq in Hm.
  rewrite rev_nth by (rewrite length_le_bytes; lia). rewrite length_le_bytes.
  replace (32 - S (31 - 8 * i - m))%nat with (8 * i + m)%nat by lia.
  rewrite le_bytes_map, nth_map_seq by lia.
  rewrite Z.div_div, <- Z.pow_add_r by lia. do 3 f_equal. lia.
Qed.

Lemma strtoull16_bytes8 bs :
  length bs = 8%nat -> Forall is_u8 bs -> strtoull16 (flat_map hex2 bs) = le_val (rev bs).
Proof.
  intros Hl Hb. unfold strtoull16. rewrite strtoull16_loop_hex2 by done.
  pose proof (le_val_range (rev bs) (Forall_rev Hb)) as H. rewrite length_rev, Hl in H.
  change (8 * Z.of_nat 8) with 64 in H. lia.
Qed.

(** Storing a 256-bit number into a register. *)
Lemma bignum_to_reg_ok x :
  wf x -> length x = 16%nat -> v_bignum_bignum_to_reg x = Ok (reg_of (val x)).
Proof.
  intros Hx Hl. unfold v_bignum_bignum_to_reg.
  rewrite sprint_hex_bytes, Hl by done. change (2 * 16)%nat with 32%nat.
  set (bs := rev (le_bytes 32 (val x))).
  assert (length bs = 32%nat) as Hlb by (unfold bs; by rewrite length_rev, length_le_bytes).
  assert (length (flat_map hex2 bs) = 64%nat) as Hlf.
  { rewrite (length_flat_map hex2), (map_ext _ (fun _ => 2%nat)) by (intros; apply length_fixed_hex).
    rewrite map_const, Hlb. done. }
  rewrite length_app, Hlf. change (length (codes "0x")) with 2%nat.
  cbn [Nat.ltb Nat.leb Nat.add]. f_equal. unfold reg_of, BLOCK_SIZE.
  apply map_ext_in. intros i Hi. apply in_seq in Hi. rewrite <- app_assoc.
  rewrite part_string_spec by (auto; lia). unfold bs.
  rewrite le_bytes_32_part by (try lia; by apply val_range).
  apply strtoull16_bytes8; [apply length_le_bytes|apply le_bytes_u8].
Qed.

(** ** Registers and numbers *)

Lemma length_reg_of v : length (reg_of v) = 4%nat.
Proof. done. Qed.

Lemma reg_of_wf v : reg_wf (reg_of v).
Proof. split; [done|]. repeat constructor; apply bswap64_range. Qed.

Lemma bswap64_mod v : 0 <= v -> bswap64 (bswap64 v) = v mod 2 ^ 64.
Proof.
  intros Hv. unfold bswap64 at 1.
  replace 8%nat with (length (rev (le_bytes 8 v))) by (by rewrite length_rev, length_le_bytes).
  unfold bswap64. rewrite le_bytes_val by (apply Forall_rev, le_bytes_u8).
  rewrite rev_involutive, le_val_bytes by done. done.
Qed.

Lemma reg_val_of v : 0 <= v < 2 ^ 256 -> reg_val (reg_of v) = v.
Proof.
  intros Hv. unfold reg_of. cbn [seq map reg_val].
  rewrite !bswap64_mod by (apply Z.div_pos; lia). cbn [Z.of_nat Pos.of_succ_nat Pos.succ Z.mul Pos.mul].
  dm.
Qed.

Lemma bswap64_u64 v w : 0 <= v -> is_u64 w -> v mod 2 ^ 64 = bswap64 w -> bswap64 v = w.
Proof.
  intros Hv Hw E. rewrite <- (bswap64_invol w) by done. rewrite <- E.
  rewrite <- (bswap64_mod v) by done. by rewrite bswap64_invol by apply bswap64_range.
Qed.

Lemma reg_of_val reg : reg_wf reg -> reg_of (reg_val reg) = reg.
Proof.
  intros [Hl Hw]. destruct reg as [|a [|b [|c [|d [|]]]]]; try done.
  rewrite !Forall_cons in Hw. destruct Hw as (Ha & Hb & Hc & Hd & _).
  pose proof (reg_val_range [a; b; c; d]) as Hr.
  pose proof (bswap64_range a) as Ra. pose proof (bswap64_range b) as Rb.
  pose proof (bswap64_range c) as Rc. pose proof (bswap64_range d) as Rd.
  unfold reg_of. cbn [seq map].
  rewrite (bswap64_u64 _ a), (bswap64_u64 _ b), (bswap64_u64 _ c), (bswap64_u64 _ d); auto;
    try (apply Z.div_pos; lia); cbn [reg_val Z.of_nat Pos.of_succ_nat Pos.succ Z.mul Pos.mul];
    unfold is_u64 in *; dm.
Qed.

Lemma reg_val_inj r s : reg_wf r -> reg_wf s -> reg_val r = reg_val s -> r = s.
Proof. intros Hr Hs E. by rewrite <- (reg_of_val r), <- (reg_of_val s), E. Qed.

(** ** Decimal text *)

(** The value of the leading decimal digits. *)
Fixpoint dec_val (s : list Z) (acc : Z) : Z :=
  match s with
  | c :: s' => if isdigit c then dec_val s' (10 * acc + (c - 48)) else acc
  | [] => acc
  end.

Lemma dec_val_mod s a b W : a mod W = b mod W -> 0 < W -> dec_val s a mod W = dec_val s b mod W.
Proof.
  intros E HW; revert a b E; induction s as [|c s IH]; intros a b E; [done|]. cbn [dec_val].
  destruct (isdigit c); [|done]. apply IH.
  rewrite Z.add_mod, (Z.mul_mod 10 a), E by lia. by rewrite <- Z.mul_mod, <- Z.add_mod by lia.
Qed.

Lemma set_string_loop_spec x s :
  wf x -> x <> [] ->
  let r := set_string_loop x s in
  length r = length x /\ wf r /\ val r = dec_val s (val x) mod weight (length x).
Proof.
  cbn zeta. revert x; induction s as [|c s IH]; intros x Hx Hn; cbn [set_string_loop dec_val].
  - rewrite Z.mod_small by (by apply val_range). done.
  - destruct (isdigit c) eqn:Ec; [|rewrite Z.mod_small by (by apply val_range); done].
    assert (0 <= c - 48 <= 9) as Hc by (unfold isdigit in Ec; lia).
    rewrite u32_id by (unfold is_u32; lia).
    destruct (mul_digit_spec x 10) as (k1 & Hl1 & Hw1 & Hv1); auto; [unfold is_u16; lia|].
    assert (v_bignum_mul_digit x 10 <> []) as Hn1.
    { intros E. rewrite E in Hl1. by destruct x. }
    destruct (add_digit_spec (v_bignum_mul_digit x 10) (c - 48)) as (k2 & Hl2 & Hw2 & Hv2);
      auto; [unfold is_u16; lia|].
    destruct (IH (v_bignum_add_digit (v_bignum_mul_digit x 10) (c - 48))) as (Hl & Hw & Hv); auto.
    { intros E. rewrite E in Hl2. by destruct (v_bignum_mul_digit x 10). }
    rewrite Hl, Hl2, Hl1. split_and!; auto. rewrite Hv, Hl2, Hl1 in *.
    apply dec_val_mod; [|apply weight_pos]. pose proof (weight_pos (length x)).
    replace (10 * val x + (c - 48))
      with (val (v_bignum_add_digit (v_bignum_mul_digit x 10) (c - 48)) + (k1 + k2) * weight (length x)) by lia.
    by rewrite Z.mod_add by lia.
Qed.
