(* ===== verification/Cpu.v ===== *)
(** * The CPU state and the machine around it

    [CPUPPDLState] of [target-ppdl/translate_cpu.h], the global variables the
    helpers share (the bignum heap, the contract storage, the saved state of
    the tracer, the standard output), reset and state saving
    ([target-ppdl/translate_cpu.c]) and the guarded shifts of
    [target-ppdl/cpu.c]. *)

From stdpp Require Import base numbers list option.
From Stdlib Require Import ZArith Lia.
From S2P Require Import Prelude Words Bignum BignumSpec BignumHeap BignumStr.

(** ** The CPU state

    Every register is a [uint64_t].  The timer, interrupt and floating point
    fields, which no PPDL code reads, are left out; the TLB is in [Mmu.v]. *)

Record CPUPPDLState := mkCPU {
  pc : Z (* uint32_t pc and its 4 bytes of padding: the 64-bit TCG global cpu_pc *);
  input_data : list Z (* uint64_t input_data[1024] *);
  caller_addr : Z;
  inp_data_size : Z;
  gas_price : Z;
  log_ptr : Z;
  cur_addr : Z;
  log_bus : list Z (* uint64_t log_bus[1024] *);
  origin_addr : Z;
  ext_code_size : Z;
  stack_arr : list Z (* uint64_t stack_arr[2048] *);
  counter : Z;
  mem_size : Z;
  sp : Z;
  GasLimit : Z;
  Number : Z;
  is_pc_const_changed : Z;
  Difficulty : Z;
  gas_available : list Z (* uint64_t gas_available[4] *);
  TimeStamp : Z;
  CoinBase : Z;
  data_bus : list Z (* uint64_t data_bus[1024] *);
  is_pc_within_inst : Z;
  elfSize : Z;
  sr : Z;
  eear : Z
}.

(** Assignments to one field. *)

Definition set_pc (v : Z) (c : CPUPPDLState) : CPUPPDLState :=
  mkCPU v (input_data c) (caller_addr c) (inp_data_size c) (gas_price c) (log_ptr c) (cur_addr
     c) (log_bus c) (origin_addr c) (ext_code_size c) (stack_arr c) (counter c) (mem_size c)
     (sp c) (GasLimit c) (Number c) (is_pc_const_changed c) (Difficulty c) (gas_available c)
     (TimeStamp c) (CoinBase c) (data_bus c) (is_pc_within_inst c) (elfSize c) (sr c) (eear
     c).

Definition set_input_data (v : list Z) (c : CPUPPDLState) : CPUPPDLState :=
  mkCPU (pc c) v (caller_addr c) (inp_data_size c) (gas_price c) (log_ptr c) (cur_addr c)
     (log_bus c) (origin_addr c) (ext_code_size c) (stack_arr c) (counter c) (mem_size c) (sp
     c) (GasLimit c) (Number c) (is_pc_const_changed c) (Difficulty c) (gas_available c)
     (TimeStamp c) (CoinBase c) (data_bus c) (is_pc_within_inst c) (elfSize c) (sr c) (eear
     c).

Definition set_caller_addr (v : Z) (c : CPUPPDLState) : CPUPPDLState :=
  mkCPU (pc c) (input_data c) v (inp_data_size c) (gas_price c) (log_ptr c) (cur_addr c)
     (log_bus c) (origin_addr c) (ext_code_size c) (stack_arr c) (counter c) (mem_size c) (sp
     c) (GasLimit c) (Number c) (is_pc_const_changed c) (Difficulty c) (gas_available c)
     (TimeStamp c) (CoinBase c) (data_bus c) (is_pc_within_inst c) (elfSize c) (sr c) (eear
     c).

Definition set_inp_data_size (v : Z) (c : CPUPPDLState) : CPUPPDLState :=
  mkCPU (pc c) (input_data c) (caller_addr c) v (gas_price c) (log_ptr c) (cur_addr c) (log_bus
     c) (origin_addr c) (ext_code_size c) (stack_arr c) (counter c) (mem_size c) (sp c)
     (GasLimit c) (Number c) (is_pc_const_changed c) (Difficulty c) (gas_available c)
     (TimeStamp c) (CoinBase c) (data_bus c) (is_pc_within_inst c) (elfSize c) (sr c) (eear
     c).

Definition set_gas_price (v : Z) (c : CPUPPDLState) : CPUPPDLState :=
  mkCPU (pc c) (input_data c) (caller_addr c) (inp_data_size c) v (log_ptr c) (cur_addr c)
     (log_bus c) (origin_addr c) (ext_code_size c) (stack_arr c) (counter c) (mem_size c) (sp
     c) (GasLimit c) (Number c) (is_pc_const_changed c) (Difficulty c) (gas_available c)
     (TimeStamp c) (CoinBase c) (data_bus c) (is_pc_within_inst c) (elfSize c) (sr c) (eear
     c).

Definition set_log_ptr (v : Z) (c : CPUPPDLState) : CPUPPDLState :=
  mkCPU (pc c) (input_data c) (caller_addr c) (inp_data_size c) (gas_price c) v (cur_addr c)
     (log_bus c) (origin_addr c) (ext_code_size c) (stack_arr c) (counter c) (mem_size c) (sp
     c) (GasLimit c) (Number c) (is_pc_const_changed c) (Difficulty c) (gas_available c)
     (TimeStamp c) (CoinBase c) (data_bus c) (is_pc_within_inst c) (elfSize c) (sr c) (eear
     c).

Definition set_cur_addr (v : Z) (c : CPUPPDLState) : CPUPPDLState :=
  mkCPU (pc c) (input_data c) (caller_addr c) (inp_data_size c) (gas_price c) (log_ptr c) v
     (log_bus c) (origin_addr c) (ext_code_size c) (stack_arr c) (counter c) (mem_size c) (sp
     c) (GasLimit c) (Number c) (is_pc_const_changed c) (Difficulty c) (gas_available c)
     (TimeStamp c) (CoinBase c) (data_bus c) (is_pc_within_inst c) (elfSize c) (sr c) (eear
     c).

Definition set_log_bus (v : list Z) (c : CPUPPDLState) : CPUPPDLState :=
  mkCPU (pc c) (input_data c) (caller_addr c) (inp_data_size c) (gas_price c) (log_ptr c)
     (cur_addr c) v (origin_addr c) (ext_code_size c) (stack_arr c) (counter c) (mem_size c)
     (sp c) (GasLimit c) (Number c) (is_pc_const_changed c) (Difficulty c) (gas_available c)
     (TimeStamp c) (CoinBase c) (data_bus c) (is_pc_within_inst c) (elfSize c) (sr c) (eear
     c).

Definition set_origin_addr (v : Z) (c : CPUPPDLState) : CPUPPDLState :=
  mkCPU (pc c) (input_data c) (caller_addr c) (inp_data_size c) (gas_price c) (log_ptr c)
     (cur_addr c) (log_bus c) v (ext_code_size c) (stack_arr c) (counter c) (mem_size c) (sp
     c) (GasLimit c) (Number c) (is_pc_const_changed c) (Difficulty c) (gas_available c)
     (TimeStamp c) (CoinBase c) (data_bus c) (is_pc_within_inst c) (elfSize c) (sr c) (eear
     c).

Definition set_ext_code_size (v : Z) (c : CPUPPDLState) : CPUPPDLState :=
  mkCPU (pc c) (input_data c) (caller_addr c) (inp_data_size c) (gas_price c) (log_ptr c)
     (cur_addr c) (log_bus c) (origin_addr c) v (stack_arr c) (counter c) (mem_size c) (sp c)
     (GasLimit c) (Number c) (is_pc_const_changed c) (Difficulty c) (gas_available c)
     (TimeStamp c) (CoinBase c) (data_bus c) (is_pc_within_inst c) (elfSize c) (sr c) (eear
     c).

Definition set_stack_arr (v : list Z) (c : CPUPPDLState) : CPUPPDLState :=
  mkCPU (pc c) (input_data c) (caller_addr c) (inp_data_size c) (gas_price c) (log_ptr c)
     (cur_addr c) (log_bus c) (origin_addr c) (ext_code_size c) v (counter c) (mem_size c)
     (sp c) (GasLimit c) (Number c) (is_pc_const_changed c) (Difficulty c) (gas_available c)
     (TimeStamp c) (CoinBase c) (data_bus c) (is_pc_within_inst c) (elfSize c) (sr c) (eear
     c).

Definition set_counter (v : Z) (c : CPUPPDLState) : CPUPPDLState :=
  mkCPU (pc c) (input_data c) (caller_addr c) (inp_data_size c) (gas_price c) (log_ptr c)
     (cur_addr c) (log_bus c) (origin_addr c) (ext_code_size c) (stack_arr c) v (mem_size c)
     (sp c) (GasLimit c) (Number c) (is_pc_const_changed c) (Difficulty c) (gas_available c)
     (TimeStamp c) (CoinBase c) (data_bus c) (is_pc_within_inst c) (elfSize c) (sr c) (eear
     c).

Definition set_mem_size (v : Z) (c : CPUPPDLState) : CPUPPDLState :=
  mkCPU (pc c) (input_data c) (caller_addr c) (inp_data_size c) (gas_price c) (log_ptr c)
     (cur_addr c) (log_bus c) (origin_addr c) (ext_code_size c) (stack_arr c) (counter c) v
     (sp c) (GasLimit c) (Number c) (is_pc_const_changed c) (Difficulty c) (gas_available c)
     (TimeStamp c) (CoinBase c) (data_bus c) (is_pc_within_inst c) (elfSize c) (sr c) (eear
     c).

Definition set_sp (v : Z) (c : CPUPPDLState) : CPUPPDLState :=
  mkCPU (pc c) (input_data c) (caller_addr c) (inp_data_size c) (gas_price c) (log_ptr c)
     (cur_addr c) (log_bus c) (origin_addr c) (ext_code_size c) (stack_arr c) (counter c)
     (mem_size c) v (GasLimit c) (Number c) (is_pc_const_changed c) (Difficulty c)
     (gas_available c) (TimeStamp c) (CoinBase c) (data_bus c) (is_pc_within_inst c) (elfSize
     c) (sr c) (eear c).

Definition set_GasLimit (v : Z) (c : CPUPPDLState) : CPUPPDLState :=
  mkCPU (pc c) (input_data c) (caller_addr c) (inp_data_size c) (gas_price c) (log_ptr c)
     (cur_addr c) (log_bus c) (origin_addr c) (ext_code_size c) (stack_arr c) (counter c)
     (mem_size c) (sp c) v (Number c) (is_pc_const_changed c) (Difficulty c) (gas_available
     c) (TimeStamp c) (CoinBase c) (data_bus c) (is_pc_within_inst c) (elfSize c) (sr c)
     (eear c).

Definition set_Number (v : Z) (c : CPUPPDLState) : CPUPPDLState :=
  mkCPU (pc c) (input_data c) (caller_addr c) (inp_data_size c) (gas_price c) (log_ptr c)
     (cur_addr c) (log_bus c) (origin_addr c) (ext_code_size c) (stack_arr c) (counter c)
     (mem_size c) (sp c) (GasLimit c) v (is_pc_const_changed c) (Difficulty c) (gas_available
     c) (TimeStamp c) (CoinBase c) (data_bus c) (is_pc_within_inst c) (elfSize c) (sr c)
     (eear c).

Definition set_is_pc_const_changed (v : Z) (c : CPUPPDLState) : CPUPPDLState :=
  mkCPU (pc c) (input_data c) (caller_addr c) (inp_data_size c) (gas_price c) (log_ptr c)
     (cur_addr c) (log_bus c) (origin_addr c) (ext_code_size c) (stack_arr c) (counter c)
     (mem_size c) (sp c) (GasLimit c) (Number c) v (Difficulty c) (gas_available c)
     (TimeStamp c) (CoinBase c) (data_bus c) (is_pc_within_inst c) (elfSize c) (sr c) (eear
     c).

Definition set_Difficulty (v : Z) (c : CPUPPDLState) : CPUPPDLState :=
  mkCPU (pc c) (input_data c) (caller_addr c) (inp_data_size c) (gas_price c) (log_ptr c)
     (cur_addr c) (log_bus c) (origin_addr c) (ext_code_size c) (stack_arr c) (counter c)
     (mem_size c) (sp c) (GasLimit c) (Number c) (is_pc_const_changed c) v (gas_available c)
     (TimeStamp c) (CoinBase c) (data_bus c) (is_pc_within_inst c) (elfSize c) (sr c) (eear
     c).

Definition set_gas_available (v : list Z) (c : CPUPPDLState) : CPUPPDLState :=
  mkCPU (pc c) (input_data c) (caller_addr c) (inp_data_size c) (gas_price c) (log_ptr c)
     (cur_addr c) (log_bus c) (origin_addr c) (ext_code_size c) (stack_arr c) (counter c)
     (mem_size c) (sp c) (GasLimit c) (Number c) (is_pc_const_changed c) (Difficulty c) v
     (TimeStamp c) (CoinBase c) (data_bus c) (is_pc_within_inst c) (elfSize c) (sr c) (eear
     c).

Definition set_TimeStamp (v : Z) (c : CPUPPDLState) : CPUPPDLState :=
  mkCPU (pc c) (input_data c) (caller_addr c) (inp_data_size c) (gas_price c) (log_ptr c)
     (cur_addr c) (log_bus c) (origin_addr c) (ext_code_size c) (stack_arr c) (counter c)
     (mem_size c) (sp c) (GasLimit c) (Number c) (is_pc_const_changed c) (Difficulty c)
     (gas_available c) v (CoinBase c) (data_bus c) (is_pc_within_inst c) (elfSize c) (sr c)
     (eear c).

Definition set_CoinBase (v : Z) (c : CPUPPDLState) : CPUPPDLState :=
  mkCPU (pc c) (input_data c) (caller_addr c) (inp_data_size c) (gas_price c) (log_ptr c)
     (cur_addr c) (log_bus c) (origin_addr c) (ext_code_size c) (stack_arr c) (counter c)
     (mem_size c) (sp c) (GasLimit c) (Number c) (is_pc_const_changed c) (Difficulty c)
     (gas_available c) (TimeStamp c) v (data_bus c) (is_pc_within_inst c) (elfSize c) (sr c)
     (eear c).

Definition set_data_bus (v : list Z) (c : CPUPPDLState) : CPUPPDLState :=
  mkCPU (pc c) (input_data c) (caller_addr c) (inp_data_size c) (gas_price c) (log_ptr c)
     (cur_addr c) (log_bus c) (origin_addr c) (ext_code_size c) (stack_arr c) (counter c)
     (mem_size c) (sp c) (GasLimit c) (Number c) (is_pc_const_changed c) (Difficulty c)
     (gas_available c) (TimeStamp c) (CoinBase c) v (is_pc_within_inst c) (elfSize c) (sr c)
     (eear c).

Definition set_is_pc_within_inst (v : Z) (c : CPUPPDLState) : CPUPPDLState :=
  mkCPU (pc c) (input_data c) (caller_addr c) (inp_data_size c) (gas_price c) (log_ptr c)
     (cur_addr c) (log_bus c) (origin_addr c) (ext_code_size c) (stack_arr c) (counter c)
     (mem_size c) (sp c) (GasLimit c) (Number c) (is_pc_const_changed c) (Difficulty c)
     (gas_available c) (TimeStamp c) (CoinBase c) (data_bus c) v (elfSize c) (sr c) (eear c).

Definition set_elfSize (v : Z) (c : CPUPPDLState) : CPUPPDLState :=
  mkCPU (pc c) (input_data c) (caller_addr c) (inp_data_size c) (gas_price c) (log_ptr c)
     (cur_addr c) (log_bus c) (origin_addr c) (ext_code_size c) (stack_arr c) (counter c)
     (mem_size c) (sp c) (GasLimit c) (Number c) (is_pc_const_changed c) (Difficulty c)
     (gas_available c) (TimeStamp c) (CoinBase c) (data_bus c) (is_pc_within_inst c) v (sr c)
     (eear c).

Definition set_sr (v : Z) (c : CPUPPDLState) : CPUPPDLState :=
  mkCPU (pc c) (input_data c) (caller_addr c) (inp_data_size c) (gas_price c) (log_ptr c)
     (cur_addr c) (log_bus c) (origin_addr c) (ext_code_size c) (stack_arr c) (counter c)
     (mem_size c) (sp c) (GasLimit c) (Number c) (is_pc_const_changed c) (Difficulty c)
     (gas_available c) (TimeStamp c) (CoinBase c) (data_bus c) (is_pc_within_inst c) (elfSize
     c) v (eear c).

Definition set_eear (v : Z) (c : CPUPPDLState) : CPUPPDLState :=
  mkCPU (pc c) (input_data c) (caller_addr c) (inp_data_size c) (gas_price c) (log_ptr c)
     (cur_addr c) (log_bus c) (origin_addr c) (ext_code_size c) (stack_arr c) (counter c)
     (mem_size c) (sp c) (GasLimit c) (Number c) (is_pc_const_changed c) (Difficulty c)
     (gas_available c) (TimeStamp c) (CoinBase c) (data_bus c) (is_pc_within_inst c) (elfSize
     c) (sr c) v.

(** ** The machine *)

(** One entry of the contract storage ([struct Storage] of [functions.c]). *)
Record Storage := mkStorage { key : Z; value : list Z }.

(** Guest memory: [ram_size] bytes, the given ones first and then zeros. *)
Record guest_ram := mkRam { ram_bytes : list Z; ram_size : Z }.

Record machine := mkMachine {
  cpu : CPUPPDLState;
  bn : heap;                          (* heap, heap_pos of v_bignum.c *)
  mainStorage : option (list Storage);  (* the chain, None for NULL *)
  ram : guest_ram;
  envSaved : CPUPPDLState;
  changed_pc : Z;
  stdout : list Z
}.

Definition with_cpu (f : CPUPPDLState -> CPUPPDLState) (m : machine) : machine :=
  mkMachine (f (cpu m)) (bn m) (mainStorage m) (ram m) (envSaved m) (changed_pc m) (stdout m).
Definition set_bn (h : heap) (m : machine) : machine :=
  mkMachine (cpu m) h (mainStorage m) (ram m) (envSaved m) (changed_pc m) (stdout m).
Definition set_storage (s : option (list Storage)) (m : machine) : machine :=
  mkMachine (cpu m) (bn m) s (ram m) (envSaved m) (changed_pc m) (stdout m).
Definition set_envSaved (c : CPUPPDLState) (m : machine) : machine :=
  mkMachine (cpu m) (bn m) (mainStorage m) (ram m) c (changed_pc m) (stdout m).
Definition set_changed_pc (v : Z) (m : machine) : machine :=
  mkMachine (cpu m) (bn m) (mainStorage m) (ram m) (envSaved m) v (stdout m).

(** [printf] *)
Definition print (s : list Z) (m : machine) : machine :=
  mkMachine (cpu m) (bn m) (mainStorage m) (ram m) (envSaved m) (changed_pc m) (stdout m ++ s).

(** [exit]: the whole output is kept. *)
Definition exit {A} (code : Z) (m : machine) : outcome A := Exit code (stdout m).

(** [env->pc] as C reads and writes it: the low 32 bits. *)
Definition env_pc (c : CPUPPDLState) : Z := u32 (pc c).
Definition set_env_pc (v : Z) (c : CPUPPDLState) : CPUPPDLState :=
  set_pc (pc c / 2 ^ 32 * 2 ^ 32 + u32 v) c.

(** ** Guarded shifts *)

Definition pd_lsh (aVal aOffs : Z) : Z := if 64 <=? aOffs then 0 else u64 (Z.shiftl aVal aOffs).
Definition pd_rsh (aVal aOffs : Z) : Z := if 64 <=? aOffs then 0 else Z.shiftr aVal aOffs.

(** ** Reset *)

Definition initialize (m : machine) : machine :=
  match mainStorage m with
  | None => set_storage (Some [mkStorage (u32 (-1)) [0; 0; 0; 0]]) m
  | Some _ => m
  end.

(** The registers the tracer looks at; the others of [out] are kept. *)
Definition saveState (out in_ : CPUPPDLState) : CPUPPDLState :=
  let out := set_env_pc (env_pc in_) out in
  let out := set_cur_addr (cur_addr in_) out in
  let out := set_caller_addr (caller_addr in_) out in
  let out := set_origin_addr (origin_addr in_) out in
  let out := set_gas_price (gas_price in_) out in
  let out := set_ext_code_size (ext_code_size in_) out in
  let out := set_inp_data_size (inp_data_size in_) out in
  let out := set_log_ptr (log_ptr in_) out in
  let out := set_sp (sp in_) out in
  let out := set_gas_available (gas_available in_) out in
  let out := set_data_bus (data_bus in_) out in
  let out := set_stack_arr (stack_arr in_) out in
  let out := set_CoinBase (CoinBase in_) out in
  let out := set_TimeStamp (TimeStamp in_) out in
  let out := set_Number (Number in_) out in
  let out := set_Difficulty (Difficulty in_) out in
  set_GasLimit (GasLimit in_) out.

(** [gasprice |= ((gas >> (8*j)) & 0xff) << 8*(7-j)] for [j = 0 .. 7]; the
    same loop turns a 64-bit value into a stack word in several helpers. *)
Fixpoint swap_loop (n : nat) (j w acc : Z) : Z :=
  match n with
  | O => acc
  | S n' =>
      let byte := Z.land (Z.shiftr w (8 * j)) 255 in
      swap_loop n' (j + 1) w (Z.lor acc (u64 (Z.shiftl byte (8 * (7 - j)))))
  end.

(** [for (env->counter = 0; env->counter < 0x400; env->counter++) env->data_bus[env->counter] = 0] *)
Fixpoint clear_bus (n : nat) (c : CPUPPDLState) : outcome CPUPPDLState :=
  match n with
  | O => Ok c
  | S n' =>
      if counter c <? 1024 then
        let* bus := aset (data_bus c) (counter c) 0 in
        clear_bus n' (set_counter (u64 (counter c + 1)) (set_data_bus bus c))
      else Ok c
  end.

(** [elf_entry], [gas] and [end_pc] are set by the loader and the command
    line.  [OPER] has the same body. *)
Definition RESET (elf_entry gas end_pc : Z) (m : machine) : outcome machine :=
  let c := cpu m in
  let c := set_env_pc elf_entry c in
  let c := set_GasLimit gas c in
  let c := set_gas_available [swap_loop 8 0 gas 0; 0; 0; 0] c in
  let c := set_elfSize end_pc c in
  let c := set_sp (u64 (0 - 1)) c in
  let c := set_log_ptr 0 c in
  let* c := clear_bus 1025 (set_counter 0 c) in
  let m := with_cpu (fun _ => c) m in
  let m := set_envSaved (saveState (envSaved m) c) m in
  Ok (initialize m).

Definition OPER (elf_entry gas end_pc : Z) (m : machine) : outcome machine :=
  RESET elf_entry gas end_pc m.

(** ** The byte swap *)

Lemma swap_lor b q k :
  0 <= b < 256 -> 0 <= k <= 56 ->
  Z.lor (q * 2 ^ (k + 8)) (u64 (Z.shiftl b k)) = (q * 256 + b) * 2 ^ k.
Proof.
  intros Hb Hk. rewrite Z.shiftl_mul_pow2 by lia.
  assert (0 < 2 ^ k) by (apply Z.pow_pos_nonneg; lia).
  assert (2 ^ (k + 8) = 256 * 2 ^ k) as E by (rewrite Z.pow_add_r by lia; lia).
  assert (0 <= b * 2 ^ k < 2 ^ (k + 8)) by (rewrite E; nia).
  rewrite u64_id.
  - rewrite Z.lor_comm, lor_add, E by lia. lia.
  - split; [lia|]. apply Z.lt_le_trans with (2 ^ (k + 8)); [lia|]. apply Z.pow_le_mono_r; lia.
Qed.

Lemma swap_loop_spec n j w q :
  is_u64 w -> 0 <= j -> Z.of_nat n + j = 8 ->
  swap_loop n j w (q * 2 ^ (8 * Z.of_nat n)) =
  q * 2 ^ (8 * Z.of_nat n) + le_val (rev (le_bytes n (w / 2 ^ (8 * j)))).
Proof.
  intros Hw. revert j q; induction n as [|n IH]; intros j q Hj Hn; [simpl; lia|].
  cbn [swap_loop]. replace (8 * Z.of_nat (S n)) with (8 * (7 - j) + 8) by lia.
  rewrite swap_lor by (rewrite ?land_ff; try (apply Z.mod_pos_bound); lia).
  replace (8 * (7 - j)) with (8 * Z.of_nat n) by lia. rewrite IH by lia.
  cbn [le_bytes rev]. rewrite le_val_app, length_rev, length_le_bytes. cbn [le_val].
  rewrite land_ff, Z.shiftr_div_pow2 by lia.
  replace (8 * (j + 1)) with (8 * j + 8) by lia. rewrite (Z.pow_add_r 2 (8 * j) 8) by lia.
  rewrite <- Z.div_div by lia. rewrite Z.pow_add_r by lia. lia.
Qed.

Lemma swap_loop_bswap w : is_u64 w -> swap_loop 8 0 w 0 = bswap64 w.
Proof. intros Hw. pose proof (swap_loop_spec 8 0 w 0 Hw) as H. rewrite Z.div_1_r in H. apply H; lia. Qed.
