(* ===== verification/Arithm.v ===== *)
(** * Gas and the arithmetic, comparison and bit operations

    [UseGas], [DoArithm] and [DoCompare] of [target-ppdl/functions.c].  The
    operands are four-word registers inside [stack_arr]; every one is loaded
    into a bignum allocated on the bignum heap, and so is the gas counter each
    time gas is charged. *)

From stdpp Require Import base numbers list option strings.
From Stdlib Require Import ZArith Lia.
From S2P Require Import Prelude Words Bignum BignumSpec BignumHeap BignumStr Cpu.

(** ** Gas costs ([gascost.h]) *)

Definition STEPGAS2 : Z := 3.
Definition STEPGAS3 : Z := 5.
Definition STEPGAS4 : Z := 8.
Definition STEPGAS5 : Z := 10.

(** ** Registers in the stack array *)

(** The four words a [uint64 *] at index [i] gives access to. *)
Definition read4 (arr : list Z) (i : Z) : outcome (list Z) :=
  if (0 <=? i) && (i + 4 <=? Z.of_nat (length arr))
  then Ok (take 4 (drop (Z.to_nat i) arr))
  else Undef.

Definition write4 (arr : list Z) (i : Z) (reg : list Z) : outcome (list Z) :=
  if (0 <=? i) && (i + 4 <=? Z.of_nat (length arr))
  then Ok (take (Z.to_nat i) arr ++ take 4 reg ++ drop (Z.to_nat i + 4) arr)
  else Undef.

(** [VBIGNUM(n, bits)]: a local number, zero. *)
Definition VBIGNUM (bits : Z) : list Z := replicate (Z.to_nat (bits / 16)) 0.

(** [v_bignum_set_bignum(a, v_bignum_reg_to_bignum(reg))] with a 256-bit [a]. *)
Definition load_reg (reg : list Z) (m : machine) : outcome (list Z * machine) :=
  let* (p, h) := v_bignum_reg_to_bignum reg (bn m) in
  let* y := load h p in
  Ok (v_bignum_set_bignum (VBIGNUM 256) y, set_bn h m).

(** [helper_error_message] of [op_helper.c]: every action of it is commented
    out. *)
Definition helper_error_message (index data : Z) (m : machine) : machine := m.

(** ** Gas *)

Definition UseGas (v : Z) (m : machine) : outcome machine :=
  let* (x, m) := load_reg (gas_available (cpu m)) m in
  let value_string := codes "0x" ++ fmt_x hexdig 0 v in
  let y := v_bignum_set_string_hex (VBIGNUM 64) value_string in
  if v_bignum_gt y x then
    let x := v_bignum_set_zero x in
    let* gas := v_bignum_bignum_to_reg x in
    let m := with_cpu (set_gas_available gas) m in
    let m := print (codes "out of gas" ++ [10]) m in
    Ok (helper_error_message 1 0 m)
  else
    let x := v_bignum_sub x y in
    let* gas := v_bignum_bignum_to_reg x in
    Ok (with_cpu (set_gas_available gas) m).

(** ** DoArithm *)

(** The first switch: the operands, the first word of the first operand and
    the index of the result. *)
Definition arithm_args (opcode sp0 : Z) (m : machine)
  : outcome (list Z * list Z * list Z * Z * Z * machine) :=
  let zero := VBIGNUM 256 in
  let stack := stack_arr (cpu m) in
  if ((1 <=? opcode) && (opcode <=? 7)) || (opcode =? 10) || (opcode =? 11) then
    let* arg1 := read4 stack (sp0 - 3) in
    let* arg2 := read4 stack (sp0 - 7) in
    let* (a, m) := load_reg arg1 m in
    let* (b, m) := load_reg arg2 m in
    Ok (a, b, zero, nth 0 arg1 0, sp0 - (2 * 4 - 1), m)
  else if (opcode =? 8) || (opcode =? 9) then
    let* arg1 := read4 stack (sp0 - 3) in
    let* arg2 := read4 stack (sp0 - 7) in
    let* arg3 := read4 stack (sp0 - 11) in
    let* (a, m) := load_reg arg1 m in
    let* (b, m) := load_reg arg2 m in
    let* (c, m) := load_reg arg3 m in
    Ok (a, b, c, nth 0 arg1 0, sp0 - (3 * 4 - 1), m)
  else Ok (zero, zero, zero, 0, sp0, m).

(** [while (!v_bignum_eq_one(b)) { v_bignum_mul(a, tmp2); v_bignum_sub(b, tmp); }] *)
Fixpoint exp_loop (fuel : nat) (a b tmp tmp2 : list Z) : outcome (list Z) :=
  if v_bignum_eq_one b then Ok a
  else
    match fuel with
    | O => Undef
    | S f => let* a := v_bignum_mul a tmp2 in exp_loop f a (v_bignum_sub b tmp) tmp tmp2
    end.

(** [for (i = t+1; i < 256; i++)] of SIGNEXTEND, [n] rounds. *)
Fixpoint signextend_loop (n : nat) (i t : Z) (b tmp : list Z) : list Z :=
  match n with
  | O => tmp
  | S n' =>
      let tmp := if v_bignum_bit_test b t then v_bignum_bit_set tmp i
                 else v_bignum_bit_clear tmp i in
      signextend_loop n' (i + 1) t b tmp
  end.

Definition lift_heap (r : outcome (heap * list Z)) (m : machine) : outcome (list Z * machine) :=
  let* (h, a) := r in Ok (a, set_bn h m).

(** The second switch. *)
Definition arithm_op (opcode : Z) (a b c : list Z) (arg1_0 : Z) (m : machine)
  : outcome (list Z * machine) :=
  match opcode with
  | 0 => Ok (a, helper_error_message 1 0 m)
  | 1 => let* m := UseGas STEPGAS2 m in Ok (v_bignum_add a b, m)
  | 2 => let* m := UseGas STEPGAS3 m in let* a := v_bignum_mul a b in Ok (a, m)
  | 3 => let* m := UseGas STEPGAS2 m in Ok (v_bignum_sub a b, m)
  | 4 | 5 =>
      let* m := UseGas STEPGAS3 m in
      let* (h, a, _) := v_bignum_div (bn m) a b (Some (VBIGNUM 256)) in
      Ok (a, set_bn h m)
  | 6 => let* m := UseGas STEPGAS3 m in lift_heap (v_bignum_mod (bn m) a b) m
  | 7 =>
      let* m := UseGas STEPGAS3 m in
      let tmp := v_bignum_set_zero (VBIGNUM 256) in
      let tmp := if v_bignum_bit_test a 255
                 then v_bignum_sub tmp (v_bignum_set_one (VBIGNUM 256))
                 else v_bignum_set_one tmp in
      let* (a, m) := lift_heap (v_bignum_mod (bn m) a b) m in
      let* a := v_bignum_mul a tmp in
      Ok (a, m)
  | 8 =>
      let* m := UseGas STEPGAS4 m in
      lift_heap (v_bignum_mod (bn m) (v_bignum_add a b) c) m
  | 9 =>
      let* m := UseGas STEPGAS4 m in
      let* a := v_bignum_mul a b in
      lift_heap (v_bignum_mod (bn m) a c) m
  | 10 =>
      let* m := UseGas STEPGAS5 m in
      if v_bignum_eq_zero b then Ok (v_bignum_set_one a, m)
      else
        let tmp := v_bignum_set_one (VBIGNUM 256) in
        let tmp2 := v_bignum_set_bignum (VBIGNUM 256) a in
        let* a := exp_loop (Z.to_nat (val b)) a b tmp tmp2 in
        Ok (a, m)
  | 11 =>
      let* m := UseGas STEPGAS3 m in
      let tmp := v_bignum_set_bignum (VBIGNUM 256) b in
      let byte := u8 (Z.land (Z.shiftr arg1_0 (7 * 8)) 255) in
      let tmp :=
        if byte <? 31 then
          let t := u8 (8 * byte + 7) in
          signextend_loop (Z.to_nat (256 - (t + 1))) (t + 1) t b tmp
        else tmp in
      Ok (v_bignum_set_bignum a tmp, m)
  | _ => Ok (a, m)
  end.

(** The register [ret] points at receives the number. *)
Definition put_result (i : Z) (a : list Z) (m : machine) : outcome machine :=
  let* reg := v_bignum_bignum_to_reg a in
  let* stack := write4 (stack_arr (cpu m)) i reg in
  Ok (with_cpu (set_stack_arr stack) m).

Definition DoArithm (opcode : Z) (m : machine) : outcome machine :=
  let sp0 := i32 (sp (cpu m)) in
  let* (a, b, c, arg1_0, sp1, m) := arithm_args opcode sp0 m in
  let m := with_cpu (set_sp (u64 (sp1 + 3))) m in
  let* (a, m) := arithm_op opcode a b c arg1_0 m in
  put_result sp1 a m.

(** ** DoCompare *)

Definition compare_args (opcode sp0 : Z) (m : machine)
  : outcome (list Z * list Z * Z * Z * machine) :=
  let zero := VBIGNUM 256 in
  let stack := stack_arr (cpu m) in
  if (opcode =? 5) || (opcode =? 9) then
    let* arg1 := read4 stack (sp0 - 3) in
    let* (a, m) := load_reg arg1 m in
    Ok (a, zero, nth 0 arg1 0, sp0 - (1 * 4 - 1), m)
  else if ((0 <=? opcode) && (opcode <=? 4)) || ((6 <=? opcode) && (opcode <=? 8)) || (opcode =? 10) then
    let* arg1 := read4 stack (sp0 - 3) in
    let* arg2 := read4 stack (sp0 - 7) in
    let* (a, m) := load_reg arg1 m in
    let* (b, m) := load_reg arg2 m in
    Ok (a, b, nth 0 arg1 0, sp0 - (2 * 4 - 1), m)
  else Ok (zero, zero, 0, sp0, m).

Definition flag (b : bool) (a : list Z) : list Z :=
  if b then v_bignum_set_one a else v_bignum_set_zero a.

Definition compare_op (opcode : Z) (a b : list Z) (arg1_0 : Z) : list Z :=
  match opcode with
  | 0 => flag (v_bignum_gt b a) a
  | 1 => flag (v_bignum_gt a b) a
  | 2 => flag (v_bignum_gt b a) a
  | 3 => flag (v_bignum_gt a b) a
  | 4 => flag (v_bignum_eq a b) a
  | 5 => flag (v_bignum_eq_zero a) a
  | 6 => v_bignum_and a b
  | 7 => v_bignum_or a b
  | 8 => v_bignum_xor a b
  | 9 => v_bignum_not a
  | 10 => v_bignum_set_bignum_part a b
            (u32 (255 - Z.land (Z.shiftr arg1_0 (8 * 7)) 255 * 8)) 8
  | _ => a
  end.

(** Every case charges [STEPGAS2] before it computes; there are none above 10. *)
Definition DoCompare (opcode : Z) (m : machine) : outcome machine :=
  let sp0 := i32 (sp (cpu m)) in
  let* (a, b, arg1_0, sp1, m) := compare_args opcode sp0 m in
  let m := with_cpu (set_sp (u64 (sp1 + 3))) m in
  let* m := if (0 <=? opcode) && (opcode <=? 10) then UseGas STEPGAS2 m else Ok m in
  put_result sp1 (compare_op opcode a b arg1_0) m.
