(* ===== verification/ArithmSpec.v ===== *)
(** * What gas charging, arithmetic and comparison compute

    The stack array is viewed as a stack of 256-bit words; on that view every
    arithmetic and comparison opcode pops its operands and pushes one word,
    given here in closed form. *)

From stdpp Require Import base numbers list option strings.
From Stdlib Require Import ZArith Lia.
From S2P Require Import Prelude Words Bignum BignumSpec BignumHeap BignumStr Cpu Arithm.

(** ** The stack of words *)

Definition STACK_CELLS : nat := 2048.

(** The [k]-th word from the bottom. *)
Definition word_at (arr : list Z) (k : nat) : Z := reg_val (take 4 (drop (4 * k) arr)).
Definition stack_words (n : nat) (arr : list Z) : list Z := map (word_at arr) (seq 0 n).

(** [c] holds the words [ws], bottom first. *)
Definition stack_is (c : CPUPPDLState) (ws : list Z) : Prop :=
  length (stack_arr c) = STACK_CELLS /\ Forall is_u64 (stack_arr c) /\
  (4 * length ws <= STACK_CELLS)%nat /\
  sp c = u64 (4 * Z.of_nat (length ws) - 1) /\
  stack_words (length ws) (stack_arr c) = ws.

(** ** The bignum heap between instructions *)

(** Cells from [k] on are zero. *)
Definition zero_from (k : Z) (h : heap) : Prop := Forall (eq 0) (drop (Z.to_nat k) (cells h)).

(** Operands are loaded in blocks of 65 cells and a division uses at most 51
    above them, so that the cells a later operation takes its temporaries from
    have never been written. *)
Definition bn_inv (h : heap) : Prop := heap_wf h /\ zero_from (heap_pos h + 65) h.
Definition bn_clean (h : heap) : Prop := heap_wf h /\ zero_from (heap_pos h) h.

(** ** The charged machine *)

Definition gas_of (c : CPUPPDLState) : Z := reg_val (gas_available c).

Definition out_of_gas : list Z := codes "out of gas" ++ [10].

Definition gas_left (g v : Z) : Z := if g <? v then 0 else g - v.

(** [m] after [UseGas v], with [h] as its bignum heap. *)
Definition charged (v : Z) (h : heap) (m : machine) : machine :=
  let g := gas_of (cpu m) in
  let m' := with_cpu (set_gas_available (reg_of (gas_left g v))) (set_bn h m) in
  if g <? v then print out_of_gas m' else m'.

(** ** The operations on words *)

Definition W : Z := 2 ^ 256.

(** The low byte of the first operand selects a byte. *)
Definition signextend_spec (a b : Z) : Z :=
  let k := a mod 256 in
  if k <? 31 then
    let t := 8 * k + 7 in
    if Z.testbit b t then b mod 2 ^ (t + 1) + (W - 2 ^ (t + 1)) else b mod 2 ^ (t + 1)
  else b.

(** The remainder the code computes: bit 255 of it is lost; by zero, zero. *)
Definition mod_result (a b : Z) : Z := if b =? 0 then 0 else (a mod b) mod 2 ^ 255.

Definition arith_result (opcode a b c : Z) : Z :=
  match opcode with
  | 1 => (a + b) mod W
  | 2 => (a * b) mod W
  | 3 => (a - b) mod W
  | 4 | 5 => a / b
  | 6 => mod_result a b
  | 7 => (mod_result a b * (if Z.testbit a 255 then W - 1 else 1)) mod W
  | 8 => mod_result ((a + b) mod W) c
  | 9 => mod_result ((a * b) mod W) c
  | 10 => a ^ b mod W
  | 11 => signextend_spec a b
  | _ => 0
  end.

Definition arith_gas (opcode : Z) : Z :=
  match opcode with
  | 1 | 3 => 3
  | 2 | 4 | 5 | 6 | 7 | 11 => 5
  | 8 | 9 => 8
  | 10 => 10
  | _ => 0
  end.

Definition byte_spec (a b : Z) : Z :=
  let k := a mod 256 in
  if k <? 32 then (b / 2 ^ (8 * (31 - k))) mod 256 else 0.

Definition compare_result (opcode a b : Z) : Z :=
  match opcode with
  | 0 | 2 => b2z (a <? b)
  | 1 | 3 => b2z (b <? a)
  | 4 => b2z (a =? b)
  | 5 => b2z (a =? 0)
  | 6 => Z.land a b
  | 7 => Z.lor a b
  | 8 => Z.lxor a b
  | 9 => W - 1 - a
  | 10 => byte_spec a b
  | _ => 0
  end.

(** ** The results the EVM's document asks for

    [emulator/docs/evm.pdf] treats the operands of SDIV, SMOD, SLT and SGT as
    signed, does not reduce the sum and the product of ADDMOD and MULMOD, and
    takes the whole index word of SIGNEXTEND and BYTE.  The code agrees with it
    under the conditions below, and not in general. *)

(** The two's complement value of a word. *)
Definition signed (w : Z) : Z := if w <? 2 ^ 255 then w else w - W.

Definition evm_signextend (a b : Z) : Z :=
  let t := 8 * a + 7 in
  if a <? 31 then b mod 2 ^ (t + 1) + (if Z.testbit b t then W - 2 ^ (t + 1) else 0) else b.

Definition evm_arith (opcode a b c : Z) : Z :=
  match opcode with
  | 1 => (a + b) mod W
  | 2 => (a * b) mod W
  | 3 => (a - b) mod W
  | 4 => if b =? 0 then 0 else a / b
  | 5 => if b =? 0 then 0 else Z.quot (signed a) (signed b) mod W
  | 6 => if b =? 0 then 0 else a mod b
  | 7 => if b =? 0 then 0 else Z.rem (signed a) (signed b) mod W
  | 8 => if c =? 0 then 0 else (a + b) mod c
  | 9 => if c =? 0 then 0 else (a * b) mod c
  | 10 => a ^ b mod W
  | 11 => evm_signextend a b
  | _ => 0
  end.

Definition evm_compare (opcode a b : Z) : Z :=
  match opcode with
  | 0 => b2z (a <? b)
  | 1 => b2z (b <? a)
  | 2 => b2z (signed a <? signed b)
  | 3 => b2z (signed b <? signed a)
  | 4 => b2z (a =? b)
  | 5 => b2z (a =? 0)
  | 6 => Z.land a b
  | 7 => Z.lor a b
  | 8 => Z.lxor a b
  | 9 => W - 1 - a
  | 10 => if a <? 32 then (b / 2 ^ (8 * (31 - a))) mod 256 else 0
  | _ => 0
  end.

Definition arith_agrees (opcode a b c : Z) : Prop :=
  match opcode with
  | 5 | 7 => a < 2 ^ 255 /\ b < 2 ^ 255
  | 6 => b = 0 \/ a mod b < 2 ^ 255
  | 8 => c = 0 \/ (a + b < W /\ (a + b) mod c < 2 ^ 255)
  | 9 => c = 0 \/ (a * b < W /\ (a * b) mod c < 2 ^ 255)
  | 11 => a < 256
  | _ => True
  end.

Definition compare_agrees (opcode a b : Z) : Prop :=
  match opcode with
  | 2 | 3 => a < 2 ^ 255 <-> b < 2 ^ 255
  | 10 => a < 256
  | _ => True
  end.

Lemma mod_result_small a b : 0 <= a -> 0 <= b -> b = 0 \/ a mod b < 2 ^ 255 -> mod_result a b = if b =? 0 then 0 else a mod b.
Proof.
  intros Ha Hb H. unfold mod_result. destruct (Z.eqb_spec b 0) as [|Hn]; [done|].
  pose proof (Z.mod_pos_bound a b ltac:(lia)). apply Z.mod_small. lia.
Qed.

Lemma signed_small w : w < 2 ^ 255 -> signed w = w.
Proof. intros H. unfold signed. by rewrite (proj2 (Z.ltb_lt _ _) H). Qed.

Lemma testbit_255_small a : 0 <= a < 2 ^ 255 -> Z.testbit a 255 = false.
Proof. intros H. rewrite Z.testbit_eqb by lia. by rewrite Z.div_small by lia. Qed.

Lemma arith_result_evm opcode a b c : 1 <= opcode <= 11 -> 0 <= a < W -> 0 <= b < W -> 0 <= c < W ->
  arith_agrees opcode a b c -> arith_result opcode a b c = evm_arith opcode a b c.
Proof.
  intros Ho Ha Hb Hc H.
  assert (opcode = 1 \/ opcode = 2 \/ opcode = 3 \/ opcode = 4 \/ opcode = 5 \/ opcode = 6 \/ opcode = 7 \/
    opcode = 8 \/ opcode = 9 \/ opcode = 10 \/ opcode = 11) as Hop by lia.
  destruct Hop as [->|[->|[->|[->|[->|[->|[->|[->|[->|[->| ->]]]]]]]]]]; cbn [arith_result evm_arith arith_agrees] in *; try done.
  - destruct (Z.eqb_spec b 0) as [->|]; [by rewrite Z.div_0_r|done].
  - destruct H as [H1 H2]. rewrite !signed_small by done. destruct (Z.eqb_spec b 0) as [->|]; [by rewrite Z.div_0_r|].
    rewrite Z.quot_div_nonneg by lia. symmetry. apply Z.mod_small. split; [apply Z.div_pos; lia|].
    apply Z.le_lt_trans with a; [apply Z.div_le_upper_bound; nia|lia].
  - apply mod_result_small; [lia|lia|done].
  - destruct H as [H1 H2]. rewrite !signed_small, testbit_255_small, Z.mul_1_r by lia.
    destruct (Z.eqb_spec b 0) as [->|Hn]; [by rewrite Z.mod_0_l|].
    pose proof (Z.mod_pos_bound a b ltac:(lia)). rewrite mod_result_small, (proj2 (Z.eqb_neq _ _) Hn) by (try right; lia).
    by rewrite Z.rem_mod_nonneg by lia.
  - destruct H as [->|[H1 H2]]; [done|]. rewrite (Z.mod_small (a + b)) by lia. apply mod_result_small; auto; lia.
  - destruct H as [->|[H1 H2]]; [done|]. rewrite (Z.mod_small (a * b)) by nia. apply mod_result_small; auto; nia.
  - unfold signextend_spec, evm_signextend. rewrite (Z.mod_small a) by lia. destruct (a <? 31); [|done].
    destruct (Z.testbit b _); [done|by rewrite Z.add_0_r].
Qed.

Lemma compare_result_evm opcode a b : 0 <= opcode <= 10 -> 0 <= a < W -> 0 <= b < W ->
  compare_agrees opcode a b -> compare_result opcode a b = evm_compare opcode a b.
Proof.
  intros Ho Ha Hb H.
  assert (opcode = 0 \/ opcode = 1 \/ opcode = 2 \/ opcode = 3 \/ opcode = 4 \/ opcode = 5 \/ opcode = 6 \/ opcode = 7 \/
    opcode = 8 \/ opcode = 9 \/ opcode = 10) as Hop by lia.
  destruct Hop as [->|[->|[->|[->|[->|[->|[->|[->|[->|[->| ->]]]]]]]]]]; cbn [compare_result evm_compare compare_agrees] in *; try done.
  - f_equal. unfold signed. destruct (Z.ltb_spec a (2 ^ 255)), (Z.ltb_spec b (2 ^ 255)); lia.
  - f_equal. unfold signed. destruct (Z.ltb_spec a (2 ^ 255)), (Z.ltb_spec b (2 ^ 255)); lia.
  - unfold byte_spec. by rewrite (Z.mod_small a) by lia.
Qed.

(** Where the code departs from the document: -4 / 2 and -4 mod 3, a remainder
    with bit 255, a sum and a product beyond 256 bits, an index of 256; -1 < 0,
    0 > -1, and byte 256. *)
Lemma arith_departures :
  Forall (fun '(o, a, b, c) => arith_result o a b c <> evm_arith o a b c)
    [(5, W - 4, 2, 0); (7, W - 4, 3, 0); (6, 2 ^ 255, W - 1, 0); (8, W - 1, 2, 3); (9, W - 1, 2, 7); (11, 256, 255, 0)].
Proof. repeat apply Forall_cons_2; [by vm_compute..|apply Forall_nil_2]. Qed.

Lemma compare_departures :
  Forall (fun '(o, a, b) => compare_result o a b <> evm_compare o a b) [(2, W - 1, 0); (3, 0, W - 1); (10, 256, W - 1)].
Proof. repeat apply Forall_cons_2; [by vm_compute..|apply Forall_nil_2]. Qed.

(** ** Stack lemmas *)

Lemma length_stack_words n arr : length (stack_words n arr) = n.
Proof. unfold stack_words. by rewrite length_map, length_seq. Qed.

Lemma stack_words_S n arr : stack_words (S n) arr = stack_words n arr ++ [word_at arr n].
Proof. unfold stack_words. by rewrite seq_S, map_app. Qed.

Lemma stack_words_snoc n arr ws w :
  stack_words n arr = ws ++ [w] -> exists k, n = S k /\ stack_words k arr = ws /\ word_at arr k = w.
Proof.
  intros E. destruct n as [|k].
  { apply (f_equal length) in E. rewrite length_app in E. simpl in E. lia. }
  rewrite stack_words_S in E. apply app_inj_tail in E as [E1 E2]. eauto.
Qed.

Lemma read4_ok arr i :
  0 <= i -> i + 4 <= Z.of_nat (length arr) -> read4 arr i = Ok (take 4 (drop (Z.to_nat i) arr)).
Proof. intros. unfold read4. by rewrite (proj2 (Z.leb_le _ _)), (proj2 (Z.leb_le _ _)) by lia. Qed.

Lemma reg_wf_window arr i :
  Forall is_u64 arr -> (i + 4 <= length arr)%nat -> reg_wf (take 4 (drop i arr)).
Proof.
  intros H Hl. split; [rewrite length_take, length_drop; lia|]. by apply Forall_take, Forall_drop.
Qed.

Lemma write4_ok arr i reg :
  0 <= i -> i + 4 <= Z.of_nat (length arr) -> length reg = 4%nat ->
  write4 arr i reg = Ok (take (Z.to_nat i) arr ++ reg ++ drop (Z.to_nat i + 4) arr).
Proof.
  intros. unfold write4. rewrite (proj2 (Z.leb_le _ _)), (proj2 (Z.leb_le _ _)) by lia.
  by rewrite (take_ge reg) by lia.
Qed.

Section Splice.
Context (arr reg : list Z) (n : nat).
Hypothesis (Hn : (4 * n + 4 <= length arr)%nat) (Hr : length reg = 4%nat).
Let arr' := take (4 * n) arr ++ reg ++ drop (4 * n + 4) arr.

Lemma length_splice : length arr' = length arr.
Proof. unfold arr'. rewrite !length_app, length_take, length_drop. lia. Qed.

Lemma word_at_splice_eq : word_at arr' n = reg_val reg.
Proof.
  unfold word_at, arr'. rewrite drop_app_length' by (rewrite length_take; lia).
  by rewrite take_app_length' by lia.
Qed.

Lemma word_at_splice_lt k : (k < n)%nat -> word_at arr' k = word_at arr k.
Proof.
  intros Hk. unfold word_at, arr'.
  rewrite drop_app_le, take_app_le by (rewrite ?length_drop, length_take; lia).
  f_equal. rewrite <- (take_drop (4 * n) arr) at 2.
  by rewrite drop_app_le, take_app_le by (rewrite ?length_drop, length_take; lia).
Qed.

Lemma word_at_splice_gt k : (n < k)%nat -> word_at arr' k = word_at arr k.
Proof.
  intros Hk. unfold word_at, arr'. do 2 f_equal. rewrite app_assoc.
  rewrite drop_app_ge by (rewrite length_app, length_take; lia).
  rewrite drop_drop, length_app, length_take. f_equal. lia.
Qed.

Lemma stack_words_splice : stack_words (S n) arr' = stack_words n arr ++ [reg_val reg].
Proof.
  rewrite stack_words_S, word_at_splice_eq. f_equal. apply map_ext_in. intros k Hk.
  apply in_seq in Hk. apply word_at_splice_lt. lia.
Qed.

Lemma Forall_splice P : Forall P arr -> Forall P reg -> Forall P arr'.
Proof. intros. unfold arr'. auto using Forall_app_2, Forall_take, Forall_drop. Qed.
End Splice.

(** ** Heap lemmas *)

Lemma zero_from_mono j k h : j <= k -> zero_from j h -> zero_from k h.
Proof.
  unfold zero_from. intros Hjk H. replace (Z.to_nat k) with (Z.to_nat j + (Z.to_nat k - Z.to_nat j))%nat by lia.
  rewrite <- drop_drop. by apply Forall_drop.
Qed.

Lemma zero_from_frame k m j h h' : frame k m h h' -> m <= j -> zero_from j h -> zero_from j h'.
Proof.
  unfold zero_from. intros (_ & _ & E) Hmj H.
  rewrite (drop_ge_eq (Z.to_nat m) (Z.to_nat j) (cells h') (cells h)); [done|lia|done].
Qed.

Lemma bn_clean_inv h : bn_clean h -> bn_inv h.
Proof. intros [H1 H2]. split; [done|]. eapply zero_from_mono; [|done]. lia. Qed.

Lemma length_VBIGNUM_256 : length (VBIGNUM 256) = 16%nat.
Proof. done. Qed.
Lemma weight_16 : weight 16 = W.
Proof. done. Qed.

(** ** Loading operands and charging gas *)

(** [x] is a 256-bit number of value [v]. *)
Definition num16 (x : list Z) (v : Z) : Prop := wf x /\ length x = 16%nat /\ val x = v.

Lemma num16_range x v : num16 x v -> 0 <= v < W.
Proof. intros (Hx & Hl & <-). rewrite <- weight_16, <- Hl. by apply val_range. Qed.

Lemma num16_VBIGNUM : num16 (VBIGNUM 256) 0.
Proof. split; [apply wf_replicate_0|]. split; [done|]. apply val_replicate_0. Qed.

Lemma num16_nonnil x v : num16 x v -> x <> [].
Proof. intros (_ & Hl & _) ->. done. Qed.

Lemma load_reg_ok reg m :
  bn_inv (bn m) -> reg_wf reg -> heap_pos (bn m) + 65 <= HEAP_SIZE ->
  exists x h, load_reg reg m = Ok (x, set_bn h m) /\ num16 x (reg_val reg) /\
  bn_clean h /\ heap_pos h = heap_pos (bn m) + 65.
Proof.
  intros [Hh Hz] Hr Hroom. unfold load_reg.
  destruct (reg_to_bignum_ok reg (bn m) Hh Hr Hroom) as (h' & x & -> & El & Hx & Hlx & Hv & Hp & Hf).
  cbn [obind]. rewrite El. cbn [obind]. do 2 eexists. split; [done|]. split; [|split; [|done]].
  - split_and!; [by apply wf_set_bignum|by rewrite length_set_bignum|].
    rewrite val_set_bignum, length_VBIGNUM_256, weight_16, Hv by done.
    apply Z.mod_small. by apply reg_val_256.
  - split; [apply Hf|]. rewrite Hp. by eapply zero_from_frame; [exact Hf| |].
Qed.

(** The text of a gas amount. *)
Lemma hex_digits_value dig f n acc :
  good_dig dig -> 0 <= n < 16 ^ Z.of_nat (S f) ->
  Forall (fun c => isxdigit c = true) (hex_digits f dig n) /\
  strtoull16_loop (hex_digits f dig n) acc = 16 ^ Z.of_nat (length (hex_digits f dig n)) * acc + n.
Proof.
  intros Hd. revert n acc; induction f as [|f IH]; intros n acc Hn; cbn [hex_digits].
  - change (16 ^ Z.of_nat 1) with 16 in Hn. rewrite Z.mod_small by lia.
    destruct (Hd n Hn) as [H1 H2]. split; [by repeat constructor|].
    cbn [strtoull16_loop length]. rewrite H1, H2. change (16 ^ Z.of_nat 1) with 16. lia.
  - destruct (Z.ltb_spec n 16).
    + destruct (Hd n) as [H1 H2]; [lia|]. split; [by repeat constructor|].
      cbn [strtoull16_loop length]. rewrite H1, H2. change (16 ^ Z.of_nat 1) with 16. lia.
    + destruct (Hd (n mod 16)) as [H1 H2]; [dm|].
      rewrite Nat2Z.inj_succ, Z.pow_succ_r in Hn by lia.
      destruct (IH (n / 16) acc) as [I1 I2].
      { split; [dm|]. apply Z.div_lt_upper_bound; lia. }
      split; [apply Forall_app_2; [done|by repeat constructor]|].
      rewrite strtoull16_loop_app, I2 by done. cbn [strtoull16_loop]. rewrite H1, H2, length_app.
      cbn [length]. rewrite Nat2Z.inj_add, Z.pow_add_r by lia. change (16 ^ Z.of_nat 1) with 16. dm.
Qed.

Lemma skip_0x_prefix s : skip_0x (codes "0x" ++ s) = s.
Proof. done. Qed.

(** The cost, as [UseGas] reads it back from its text. *)
Lemma gas_text v :
  is_u64 v ->
  let y := v_bignum_set_string_hex (VBIGNUM 64) (codes "0x" ++ fmt_x hexdig 0 v) in
  wf y /\ length y = 4%nat /\ val y = v.
Proof.
  intros Hv. cbn zeta. unfold v_bignum_set_string_hex, fmt_x.
  rewrite Nat.sub_0_l. cbn [replicate]. rewrite app_nil_l.
  rewrite skip_0x_prefix.
  destruct (set_string_hex_loop_spec (v_bignum_set_zero (VBIGNUM 64)) (hex_digits 16 hexdig v))
    as (Hl & Hw & Hval); [apply wf_set_zero|done|].
  split_and!; [done|done|]. rewrite Hval.
  destruct (hex_digits_value hexdig 16 v (val (v_bignum_set_zero (VBIGNUM 64)))) as [_ ->];
    [auto with cint|unfold is_u64 in Hv; simpl; lia|].
  rewrite val_set_zero, Z.mul_0_r. change (weight _) with (2 ^ 64). by apply Z.mod_small.
Qed.

Lemma UseGas_ok v m :
  bn_inv (bn m) -> reg_wf (gas_available (cpu m)) -> is_u64 v ->
  heap_pos (bn m) + 65 <= HEAP_SIZE ->
  exists h, UseGas v m = Ok (charged v h m) /\ bn_clean h /\ heap_pos h = heap_pos (bn m) + 65.
Proof.
  intros Hb Hg Hv Hroom. unfold UseGas.
  destruct (load_reg_ok _ m Hb Hg Hroom) as (x & h & -> & Hx & Hc & Hp). cbn [obind].
  destruct (gas_text v Hv) as (Hy & Hly & Hvy). cbn zeta in *.
  set (y := v_bignum_set_string_hex _ _) in *. clearbody y.
  pose proof (num16_range _ _ Hx) as Hr. destruct Hx as (Hx & Hlx & Hvx).
  exists h. split; [|done]. unfold charged, gas_left, gas_of.
  rewrite gt_le_length by (auto; lia). rewrite Hvx, Hvy.
  destruct (reg_val (gas_available (cpu m)) <? v) eqn:E.
  - rewrite bignum_to_reg_ok by (rewrite ?length_set_zero; auto using wf_set_zero).
    rewrite val_set_zero. done.
  - apply Z.ltb_ge in E. rewrite bignum_to_reg_ok by (rewrite ?length_sub by auto; auto using wf_sub).
    rewrite val_sub, Hlx, weight_16, Hvx, Hvy by auto.
    rewrite Z.mod_small by (unfold is_u64 in Hv; lia). done.
Qed.

Lemma charged_bn v h m : bn (charged v h m) = h.
Proof. unfold charged. by destruct (_ <? _). Qed.
Lemma charged_cpu v h m :
  cpu (charged v h m) = set_gas_available (reg_of (gas_left (gas_of (cpu m)) v)) (cpu m).
Proof. unfold charged. by destruct (_ <? _). Qed.

(** ** The operations on 256-bit numbers *)

Lemma num16_add a b x y : num16 a x -> num16 b y -> num16 (v_bignum_add a b) ((x + y) mod W).
Proof.
  intros (Ha & Hla & <-) (Hb & Hlb & <-).
  split_and!; [by apply wf_add|by rewrite length_add|]. by rewrite val_add, Hla.
Qed.

Lemma num16_sub a b x y : num16 a x -> num16 b y -> num16 (v_bignum_sub a b) ((x - y) mod W).
Proof.
  intros (Ha & Hla & <-) (Hb & Hlb & <-).
  split_and!; [by apply wf_sub|by rewrite length_sub|]. by rewrite val_sub, Hla.
Qed.

Lemma num16_mul a b x y : num16 a x -> num16 b y -> num16 (mul_digits a b) ((x * y) mod W).
Proof.
  intros Hxa (Hb & Hlb & <-). pose proof (num16_nonnil a x Hxa). destruct Hxa as (Ha & Hla & <-).
  split_and!; [by apply wf_mul|by rewrite length_mul|]. by rewrite val_mul, Hla.
Qed.

Lemma num16_mul_ok a b x y : num16 a x -> num16 b y -> v_bignum_mul a b = Ok (mul_digits a b).
Proof. intros (_ & Ha & _) (_ & Hb & _). apply mul_ok. lia. Qed.

Lemma num16_set_one a x : num16 a x -> num16 (v_bignum_set_one a) 1.
Proof.
  intros Ha. split_and!; [apply wf_set_one|rewrite length_set_one; apply Ha|].
  apply val_set_one. by eapply num16_nonnil.
Qed.

Lemma num16_set_zero a x : num16 a x -> num16 (v_bignum_set_zero a) 0.
Proof. intros (_ & Hl & _). split_and!; [apply wf_set_zero|by rewrite length_set_zero|apply val_set_zero]. Qed.

Lemma num16_set_bignum a b x y : num16 a x -> num16 b y -> num16 (v_bignum_set_bignum a b) y.
Proof. intros (_ & Hla & _) Hb. rewrite set_bignum_same_length; [done|]. destruct Hb as (_ & -> & _). done. Qed.

Lemma num16_div h a b x y rem :
  num16 a x -> num16 b y -> bn_clean h -> heap_pos h + 51 <= HEAP_SIZE ->
  exists h' r rem', v_bignum_div h a b rem = Ok (h', r, rem') /\ num16 r (x / y) /\
  bn_inv h' /\ heap_pos h' = heap_pos h.
Proof.
  intros Ha Hb Hc Hroom. pose proof (num16_nonnil a x Ha) as Hn.
  pose proof (num16_range b y Hb) as Hy. destruct (Z.eq_dec y 0) as [->|Hy0].
  - destruct Ha as (Ha & Hla & <-), Hb as (Hb & Hlb & Hvb). rewrite div_zero by done.
    do 3 eexists. split; [done|]. rewrite Z.div_0_r. split; [|split; [by apply bn_clean_inv|done]].
    apply num16_set_zero with (val a). done.
  - destruct Ha as (Ha & Hla & <-), Hb as (Hb & Hlb & <-), Hc as [Hh Hz].
    destruct (div_spec h a b rem) as (h' & r & w & -> & Hp & Hf & Hr & Hlr & Hvr & _); auto; try lia.
    do 3 eexists. split; [done|]. split; [split_and!; auto; lia|]. split; [|done].
    split; [apply Hf|]. rewrite Hp. eapply zero_from_frame; [exact Hf|lia|].
    eapply zero_from_mono; [|exact Hz]. lia.
Qed.

Lemma num16_mod h a b x y :
  num16 a x -> num16 b y -> bn_clean h -> heap_pos h + 51 <= HEAP_SIZE ->
  exists h' r, v_bignum_mod h a b = Ok (h', r) /\ num16 r (mod_result x y) /\
  bn_inv h' /\ heap_pos h' = heap_pos h.
Proof.
  intros Ha Hb [Hh Hz] Hroom. pose proof (num16_nonnil a x Ha) as Hn.
  pose proof (num16_range b y Hb) as Hy. unfold mod_result.
  assert (forall h' k, k <= heap_pos h + 65 -> frame (heap_pos h) k h h' -> heap_pos h' = heap_pos h ->
    bn_inv h' /\ heap_pos h' = heap_pos h) as Hinv.
  { intros h' k Hk Hf Hp. split; [|done]. split; [apply Hf|]. rewrite Hp.
    eapply zero_from_frame; [exact Hf|lia|]. eapply zero_from_mono; [|exact Hz]. lia. }
  destruct Ha as (Ha & Hla & <-), Hb as (Hb & Hlb & Hvb). destruct (Z.eqb_spec y 0) as [->|Hy0].
  - destruct (mod_zero h a b) as (h' & -> & Hp & Hf); auto; try lia.
    do 2 eexists. split; [done|]. split; [|eapply Hinv; [|exact Hf|done]; lia].
    assert (take (length a) (drop (Z.to_nat (heap_pos h + 1)) (cells h)) = VBIGNUM 256) as ->;
      [|apply num16_VBIGNUM].
    assert (zero_from (heap_pos h + 1) h) as Hz1 by (eapply zero_from_mono; [|exact Hz]; lia).
    symmetry. apply replicate_as_Forall_2; [|by apply Forall_take].
    destruct Hh as (Hlc & _ & Hp0). rewrite length_take, length_drop, Hla. change (Z.to_nat (256 / 16)) with 16%nat. lia.
  - subst y. destruct (mod_spec h a b) as (h' & r & -> & Hp & Hf & Hr & Hlr & Hvr); auto; try lia.
    do 2 eexists. split; [done|]. split; [|eapply Hinv; [|exact Hf|done]; lia].
    split_and!; auto; [lia|]. rewrite Hvr, Hla. done.
Qed.

Lemma num16_eq_one b y : num16 b y -> v_bignum_eq_one b = (y =? 1).
Proof. intros (Hb & _ & <-). by apply eq_one_spec. Qed.

Lemma num16_eq_zero b y : num16 b y -> v_bignum_eq_zero b = (y =? 0).
Proof. intros (Hb & _ & <-). by apply eq_zero_spec. Qed.

(** Exponentiation terminates after [y - 1] rounds. *)
Lemma num16_exp fuel a b tmp tmp2 x y g :
  num16 a x -> num16 b y -> num16 tmp 1 -> num16 tmp2 g -> 1 <= y -> y <= Z.of_nat fuel + 1 ->
  exists r, exp_loop fuel a b tmp tmp2 = Ok r /\ num16 r ((x * g ^ (y - 1)) mod W).
Proof.
  intros Ha Hb Ht Ht2 Hy. revert a b x y Ha Hb Hy.
  induction fuel as [|f IH]; intros a b x y Ha Hb Hy Hf; cbn [exp_loop];
    rewrite (num16_eq_one b y Hb); pose proof (num16_range _ _ Ha);
    (destruct (Z.eqb_spec y 1) as [->|Hne];
     [exists a; split; [done|]; rewrite Z.pow_0_r, Z.mul_1_r, Z.mod_small by done; done|]); [lia|].
  rewrite (num16_mul_ok a tmp2 x g) by done. cbn [obind].
  destruct (IH (mul_digits a tmp2) (v_bignum_sub b tmp) ((x * g) mod W) (y - 1)) as (r & -> & Hr);
    [by apply num16_mul| |lia|lia|].
  { pose proof (num16_range _ _ Hb). replace (y - 1) with ((y - 1) mod W) by (apply Z.mod_small; lia).
    by apply num16_sub. }
  exists r. split; [done|]. rewrite Z.mul_mod_idemp_l in Hr by (unfold W; lia).
  replace (x * g ^ (y - 1)) with (x * g * g ^ (y - 1 - 1)); [done|].
  replace (y - 1) with (1 + (y - 1 - 1)) at 2 by lia. rewrite Z.pow_add_r, Z.pow_1_r by lia. lia.
Qed.

Lemma bit_range x i : wf x -> length x = 16%nat -> 256 <= i -> Z.testbit (val x) i = false.
Proof.
  intros Hx Hl Hi. apply (testbit_small _ 256); [|done]. pose proof (val_range x Hx) as H.
  rewrite Hl in H. exact H.
Qed.

Lemma num16_signextend_loop n i t b tmp y z :
  num16 b y -> num16 tmp z -> 0 <= t -> 0 <= i -> i + Z.of_nat n = 256 ->
  exists v, num16 (signextend_loop n i t b tmp) v /\
  forall j, 0 <= j -> Z.testbit v j =
    if (i <=? j) && (j <? 256) then Z.testbit y t else Z.testbit z j.
Proof.
  intros Hb Ht Ht0. revert i tmp z Ht; induction n as [|n IH]; intros i tmp z Ht Hi Hn;
    cbn [signextend_loop].
  - exists z. split; [done|]. intros j Hj. destruct (Z.leb_spec i j); [|done].
    rewrite (proj2 (Z.ltb_ge _ _)) by lia. done.
  - destruct Hb as (Hb & Hlb & <-), Ht as (Htw & Hlt & <-). rewrite bit_test_spec by done.
    set (tmp' := if Z.testbit (val b) t then _ else _).
    assert (num16 tmp' (val tmp') /\ forall j, 0 <= j ->
      Z.testbit (val tmp') j = if j =? i then Z.testbit (val b) t else Z.testbit (val tmp) j)
      as [Ht' Hbit].
    { unfold tmp'. destruct (Z.testbit (val b) t).
      - split; [split_and!; [by apply wf_bit_set|by rewrite length_bit_set|done]|].
        intros j Hj. rewrite bit_set_testbit by (auto; lia). by destruct (j =? i).
      - split; [split_and!; [by apply wf_bit_clear|by rewrite length_bit_clear|done]|].
        intros j Hj. rewrite bit_clear_testbit by (auto; lia). by destruct (j =? i). }
    destruct (IH (i + 1) tmp' (val tmp') Ht') as (v & Hv & Hvb); [lia|lia|].
    exists v. split; [done|]. intros j Hj. rewrite Hvb, Hbit by done.
    destruct (Z.eqb_spec j i) as [->|].
    + rewrite Z.leb_refl, (proj2 (Z.leb_gt _ _)), (proj2 (Z.ltb_lt _ _)) by lia. done.
    + replace (i + 1 <=? j) with (i <=? j) by lia. done.
Qed.

(** The top byte of a register's first word is the low byte of its number. *)
Lemma top_byte w : is_u64 w -> Z.land (Z.shiftr w 56) 255 = bswap64 w mod 256.
Proof.
  intros Hw. rewrite land_ff, Z.shiftr_div_pow2 by lia. unfold bswap64.
  rewrite le_bytes_map. cbn [seq map rev app le_val].
  change (8 * Z.of_nat 7) with 56. change 256 with (2 ^ 8).
  rewrite (Z.mul_comm (2 ^ 8)), Z.mod_add by lia. by rewrite Z.mod_mod by lia.
Qed.

Lemma low_byte reg : reg_wf reg -> Z.land (Z.shiftr (nth 0 reg 0) 56) 255 = reg_val reg mod 256.
Proof.
  intros [Hl Hw]. destruct reg as [|w reg]; [done|]. apply Forall_cons in Hw as [Hw _].
  cbn [nth reg_val]. rewrite top_byte by done.
  replace (2 ^ 64 * reg_val reg) with (2 ^ 56 * reg_val reg * 256) by lia. by rewrite Z.mod_add by lia.
Qed.

Lemma testbit_ones_shift n m j :
  0 <= n <= m -> 0 <= j -> Z.testbit (2 ^ m - 2 ^ n) j = (n <=? j) && (j <? m).
Proof.
  intros Hnm Hj. replace (2 ^ m - 2 ^ n) with (Z.shiftl (Z.ones (m - n)) n).
  - rewrite Z.shiftl_spec by done. destruct (Z.leb_spec n j).
    + rewrite Z.testbit_ones_nonneg by lia. simpl. lia.
    + by rewrite Z.testbit_neg_r by lia.
  - rewrite Z.shiftl_mul_pow2, Z.ones_equiv by lia.
    replace (2 ^ m) with (2 ^ (m - n) * 2 ^ n) by (rewrite <- Z.pow_add_r by lia; f_equal; lia). lia.
Qed.

Lemma signextend_value b t v :
  0 <= b < W -> 0 <= t < 256 -> (forall j, 0 <= j -> Z.testbit v j =
    if (t + 1 <=? j) && (j <? 256) then Z.testbit b t else Z.testbit b j) ->
  v = if Z.testbit b t then b mod 2 ^ (t + 1) + (W - 2 ^ (t + 1)) else b mod 2 ^ (t + 1).
Proof.
  unfold W. intros Hb Ht Hbits. apply Z.bits_inj'. intros j Hj. rewrite Hbits by done.
  assert (forall i, 256 <= i -> Z.testbit b i = false) as Hhi
    by (intros; by apply (testbit_small b 256)).
  assert (forall c, (if (t + 1 <=? j) && (j <? 256) then c else Z.testbit b j)
    = (j <? t + 1) && Z.testbit b j || ((t + 1 <=? j) && (j <? 256)) && c) as Hif.
  { intros c. destruct (Z.leb_spec (t + 1) j), (Z.ltb_spec j 256), (Z.ltb_spec j (t + 1)); simpl;
      rewrite ?orb_false_r; try lia; try done. by apply Hhi. }
  rewrite Hif. destruct (Z.testbit b t).
  - assert (2 ^ 256 - 2 ^ (t + 1) = (2 ^ (256 - (t + 1)) - 1) * 2 ^ (t + 1)) as E.
    { replace (2 ^ 256) with (2 ^ (256 - (t + 1)) * 2 ^ (t + 1)); [lia|].
      rewrite <- Z.pow_add_r by lia. f_equal. lia. }
    rewrite E, <- lor_add, <- E by (try lia; apply Z.mod_pos_bound; lia).
    rewrite Z.lor_spec, testbit_mod_pow2, testbit_ones_shift by lia. by rewrite andb_true_r.
  - rewrite testbit_mod_pow2 by lia. by rewrite andb_false_r, orb_false_r.
Qed.

Lemma set_bn_charged v h h' m : set_bn h' (charged v h m) = charged v h' m.
Proof. unfold charged. by destruct (_ <? _). Qed.

(** ** The second switch of [DoArithm] *)

Section ArithmOp.
Context (a b c : list Z) (x y z arg1_0 : Z) (m : machine).
Hypothesis (Ha : num16 a x) (Hb : num16 b y) (Hc : num16 c z).
Hypothesis (Harg : Z.land (Z.shiftr arg1_0 56) 255 = x mod 256).
Hypothesis (Hbn : bn_inv (bn m)) (Hgas : reg_wf (gas_available (cpu m))).
Hypothesis (Hroom : heap_pos (bn m) + 116 <= HEAP_SIZE).

Definition arithm_op_post (opcode : Z) : Prop :=
  exists r h, arithm_op opcode a b c arg1_0 m = Ok (r, charged (arith_gas opcode) h m) /\
  num16 r (arith_result opcode x y z) /\ bn_inv h /\ heap_pos h = heap_pos (bn m) + 65.

Lemma arithm_pure opcode v (f : list Z) w :
  (forall m, arithm_op opcode a b c arg1_0 m = let* m := UseGas v m in Ok (f, m)) ->
  v = arith_gas opcode -> is_u64 v -> num16 f w -> w = arith_result opcode x y z ->
  arithm_op_post opcode.
Proof.
  intros E -> Hv Hf ->. destruct (UseGas_ok _ m Hbn Hgas Hv ltac:(lia)) as (h & Eg & Hcl & Hp).
  exists f, h. rewrite E, Eg. split_and!; auto. by apply bn_clean_inv.
Qed.

Lemma arithm_mod opcode v (d e : list Z) wd we :
  (forall m, arithm_op opcode a b c arg1_0 m =
     let* m := UseGas v m in lift_heap (v_bignum_mod (bn m) d e) m) ->
  v = arith_gas opcode -> is_u64 v -> num16 d wd -> num16 e we ->
  mod_result wd we = arith_result opcode x y z -> arithm_op_post opcode.
Proof.
  intros E -> Hv Hd He Hr. destruct (UseGas_ok _ m Hbn Hgas Hv ltac:(lia)) as (h & Eg & Hcl & Hp).
  destruct (num16_mod h d e wd we Hd He Hcl ltac:(lia)) as (h' & r & Em & Hnr & Hinv & Hp').
  exists r, h'. rewrite E, Eg. cbn [obind]. rewrite charged_bn, Em. cbn [lift_heap obind].
  rewrite set_bn_charged, <- Hr. split_and!; auto. lia.
Qed.

Lemma arithm_div opcode : opcode = 4 \/ opcode = 5 -> arithm_op_post opcode.
Proof.
  intros Ho. destruct (UseGas_ok 5 m Hbn Hgas ltac:(by vm_compute) ltac:(lia)) as (h & Eg & Hcl & Hp).
  destruct (num16_div h a b x y (Some (VBIGNUM 256)) Ha Hb Hcl ltac:(lia))
    as (h' & r & rem & Ed & Hr & Hinv & Hp').
  exists r, h'. destruct Ho; subst opcode; cbn [arithm_op arith_gas arith_result];
    unfold STEPGAS3; rewrite Eg; cbn [obind]; rewrite charged_bn, Ed; cbn [obind];
    rewrite set_bn_charged; (split_and!; auto; lia).
Qed.

Lemma arithm_smod : arithm_op_post 7.
Proof.
  destruct (UseGas_ok 5 m Hbn Hgas ltac:(by vm_compute) ltac:(lia)) as (h & Eg & Hcl & Hp).
  destruct (num16_mod h a b x y Ha Hb Hcl ltac:(lia)) as (h' & r & Em & Hr & Hinv & Hp').
  set (tmp := if v_bignum_bit_test a 255
              then v_bignum_sub (v_bignum_set_zero (VBIGNUM 256)) (v_bignum_set_one (VBIGNUM 256))
              else v_bignum_set_one (v_bignum_set_zero (VBIGNUM 256))).
  assert (num16 tmp (if Z.testbit x 255 then W - 1 else 1)) as Ht.
  { unfold tmp. destruct Ha as (Haw & _ & <-). rewrite bit_test_spec by (auto; lia).
    destruct (Z.testbit (val a) 255).
    - replace (W - 1) with ((0 - 1) mod W) by done.
      eapply num16_sub; [eapply num16_set_zero|eapply num16_set_one]; apply num16_VBIGNUM.
    - eapply num16_set_one, num16_set_zero, num16_VBIGNUM. }
  exists (mul_digits r tmp), h'. cbn [arithm_op arith_gas arith_result].
  unfold STEPGAS3. rewrite Eg. cbn [obind]. rewrite charged_bn, Em. cbn [lift_heap obind].
  fold tmp. rewrite (num16_mul_ok r tmp _ _ Hr Ht). cbn [obind].
  rewrite set_bn_charged. split_and!; auto; [by apply num16_mul|lia].
Qed.

Lemma arithm_exp : arithm_op_post 10.
Proof.
  destruct (UseGas_ok 10 m Hbn Hgas ltac:(by vm_compute) ltac:(lia)) as (h & Eg & Hcl & Hp).
  unfold arithm_op_post. cbn [arithm_op arith_gas arith_result].
  unfold STEPGAS5. rewrite Eg. cbn [obind]. rewrite (num16_eq_zero b y Hb).
  pose proof (num16_range _ _ Hb) as Hry. pose proof (num16_range _ _ Ha) as Hrx.
  destruct (Z.eqb_spec y 0) as [->|Hy].
  - do 2 eexists. split; [done|]. split_and!; auto using bn_clean_inv.
    rewrite Z.pow_0_r. by eapply num16_set_one.
  - destruct (num16_exp (Z.to_nat (val b)) a b (v_bignum_set_one (VBIGNUM 256))
      (v_bignum_set_bignum (VBIGNUM 256) a) x y x) as (r & -> & Hr); auto.
    + eapply num16_set_one, num16_VBIGNUM.
    + eapply num16_set_bignum; [apply num16_VBIGNUM|done].
    + lia.
    + destruct Hb as (_ & _ & ->). lia.
    + cbn [obind]. do 2 eexists. split; [done|]. split_and!; auto using bn_clean_inv.
      rewrite <- Z.pow_succ_r in Hr by lia. by replace (Z.succ (y - 1)) with y in Hr by lia.
Qed.

Lemma num16_signextend :
  num16 (let tmp := v_bignum_set_bignum (VBIGNUM 256) b in
         let byte := u8 (Z.land (Z.shiftr arg1_0 (7 * 8)) 255) in
         if byte <? 31 then
           let t := u8 (8 * byte + 7) in
           signextend_loop (Z.to_nat (256 - (t + 1))) (t + 1) t b tmp
         else tmp) (signextend_spec x y).
Proof.
  cbn zeta. change (7 * 8) with 56. rewrite Harg. unfold signextend_spec.
  pose proof (Z.mod_pos_bound x 256) as Hk. rewrite u8_id by (unfold is_u8; lia).
  pose proof (num16_set_bignum (VBIGNUM 256) b 0 y num16_VBIGNUM Hb) as Ht.
  destruct (Z.ltb_spec (x mod 256) 31); [|done].
  rewrite u8_id by (unfold is_u8; lia). set (t := 8 * (x mod 256) + 7).
  destruct (num16_signextend_loop (Z.to_nat (256 - (t + 1))) (t + 1) t b _ y y Hb Ht)
    as (v & Hv & Hbits); unfold t in *; try lia.
  rewrite <- (signextend_value y (8 * (x mod 256) + 7) v); auto; [by apply num16_range in Hb|lia].
Qed.

Lemma arithm_signextend : arithm_op_post 11.
Proof.
  eapply (arithm_pure 11 5 _ (signextend_spec x y)); [reflexivity|done|by vm_compute| |done].
  eapply num16_set_bignum; [exact Ha|]. apply num16_signextend.
Qed.

Lemma arithm_op_ok opcode : 1 <= opcode <= 11 -> arithm_op_post opcode.
Proof.
  intros Ho.
  assert (opcode = 1 \/ opcode = 2 \/ opcode = 3 \/ (opcode = 4 \/ opcode = 5) \/ opcode = 6 \/
    opcode = 7 \/ opcode = 8 \/ opcode = 9 \/ opcode = 10 \/ opcode = 11) as Hcase by lia.
  destruct Hcase as [->|[->|[->|[H45|[->|[->|[->|[->|[->| ->]]]]]]]]].
  - eapply (arithm_pure 1 3); [reflexivity|done|by vm_compute|by apply num16_add|done].
  - eapply (arithm_pure 2 5); [intros m1; cbn [arithm_op]; by rewrite (num16_mul_ok a b x y Ha Hb)|done|by vm_compute|by apply num16_mul|done].
  - eapply (arithm_pure 3 3); [reflexivity|done|by vm_compute|by apply num16_sub|done].
  - by apply arithm_div.
  - eapply (arithm_mod 6 5); [reflexivity|done|by vm_compute|exact Ha|exact Hb|done].
  - apply arithm_smod.
  - eapply (arithm_mod 8 8); [reflexivity|done|by vm_compute|by apply num16_add|exact Hc|done].
  - eapply (arithm_mod 9 8); [intros m1; cbn [arithm_op]; by rewrite (num16_mul_ok a b x y Ha Hb)|done|by vm_compute|by apply num16_mul|exact Hc|done].
  - apply arithm_exp.
  - apply arithm_signextend.
Qed.
End ArithmOp.

(** ** Operands on the stack *)

Lemma sp_i32 n : (0 < n)%nat -> (4 * n <= STACK_CELLS)%nat ->
  i32 (u64 (4 * Z.of_nat n - 1)) = 4 * Z.of_nat n - 1.
Proof.
  intros Hn Hm. unfold STACK_CELLS in Hm. rewrite u64_id by (unfold is_u64; lia). apply i32_id. lia.
Qed.

(** The [k]-th operand from the top. *)
Lemma operand c ws k w :
  stack_is c ws -> ws !! (length ws - S k)%nat = Some w -> (k < length ws)%nat ->
  let i := i32 (sp c) - (4 * Z.of_nat k + 3) in
  exists reg, read4 (stack_arr c) i = Ok reg /\ reg_wf reg /\ reg_val reg = w.
Proof.
  intros (Hl & Hu & Hn & Hsp & Hws) Hk Hlt. cbn zeta. unfold STACK_CELLS in *.
  rewrite Hsp, sp_i32 by (unfold STACK_CELLS; lia).
  set (j := (length ws - S k)%nat) in *.
  replace (4 * Z.of_nat (length ws) - 1 - (4 * Z.of_nat k + 3)) with (Z.of_nat (4 * j)) by lia.
  rewrite read4_ok by lia. rewrite Nat2Z.id. eexists. split; [done|]. split.
  - apply reg_wf_window; [done|]. lia.
  - rewrite <- Hws in Hk. unfold stack_words in Hk. rewrite list_lookup_fmap in Hk.
    rewrite lookup_seq_lt in Hk by lia. by injection Hk.
Qed.

(** ** Results *)

Lemma put_result_ok n r v m :
  length (stack_arr (cpu m)) = STACK_CELLS -> Forall is_u64 (stack_arr (cpu m)) ->
  (4 * n + 4 <= STACK_CELLS)%nat -> num16 r v ->
  sp (cpu m) = u64 (4 * Z.of_nat (S n) - 1) ->
  exists arr, put_result (Z.of_nat (4 * n)) r m = Ok (with_cpu (set_stack_arr arr) m) /\
  stack_is (set_stack_arr arr (cpu m)) (stack_words n (stack_arr (cpu m)) ++ [v]).
Proof.
  intros Hl Hu Hn (Hr & Hlr & Hv) Hsp. unfold put_result. rewrite bignum_to_reg_ok by done. cbn [obind].
  rewrite write4_ok by (try done; lia). cbn [obind]. rewrite Nat2Z.id.
  eexists. split; [done|]. pose proof (reg_of_wf (val r)) as [Hl4 Hu4].
  assert (reg_val (reg_of (val r)) = v) as Hrv.
  { rewrite Hv. apply reg_val_of. apply (num16_range r). split_and!; auto. }
  unfold stack_is. cbn [stack_arr sp set_stack_arr].
  rewrite !length_app, length_stack_words. cbn [length]. split_and!.
  - rewrite <- !length_app. rewrite <- Hl. apply length_splice; lia.
  - by apply Forall_splice.
  - lia.
  - rewrite Hsp. do 2 f_equal. lia.
  - rewrite Nat.add_1_r, stack_words_splice by lia. by rewrite Hrv.
Qed.

(** What an operation does besides replacing its operands by its result: it
    charges [v] units of gas and loads [k] registers. *)
Record effect (v k : Z) (m m' : machine) : Prop := {
  effect_gas : gas_available (cpu m') = reg_of (gas_left (gas_of (cpu m)) v);
  effect_bn : bn_inv (bn m');
  effect_pos : heap_pos (bn m') = heap_pos (bn m) + 65 * k;
  effect_out : stdout m' = stdout m ++ (if gas_of (cpu m) <? v then out_of_gas else []);
  effect_mem : mainStorage m' = mainStorage m /\ ram m' = ram m /\
    envSaved m' = envSaved m /\ changed_pc m' = changed_pc m;
  effect_cpu : cpu m' = set_sp (sp (cpu m')) (set_stack_arr (stack_arr (cpu m'))
    (set_gas_available (gas_available (cpu m')) (cpu m)))
}.

Lemma effect_intro v k s arr h h0 m :
  bn_inv h -> heap_pos h = heap_pos (bn m) + 65 * k ->
  effect v k m (with_cpu (set_stack_arr arr) (charged v h (with_cpu (set_sp s) (set_bn h0 m)))).
Proof.
  intros Hb Hp. unfold charged. split; try (destruct (_ <? _); by cbn).
  cbn [cpu with_cpu set_bn gas_of gas_available set_sp].
  unfold gas_of. cbn. destruct (reg_val (gas_available (cpu m)) <? v); cbn; by rewrite ?app_nil_r.
Qed.

(** The machine on which an opcode can run: its stack, a gas register and
    [k] registers' worth of bignum heap. *)
Record ready (k : Z) (m : machine) (ws : list Z) : Prop := {
  ready_stack : stack_is (cpu m) ws;
  ready_gas : reg_wf (gas_available (cpu m));
  ready_bn : bn_inv (bn m);
  ready_room : heap_pos (bn m) + 65 * k <= HEAP_SIZE
}.

Lemma stack_is_app c ws ws' :
  stack_is c (ws ++ ws') -> stack_words (length ws) (stack_arr c) = ws.
Proof.
  intros (_ & _ & _ & _ & E). rewrite length_app in E. unfold stack_words in *.
  rewrite seq_app, map_app in E. apply app_inj_1 in E as [E _]; [done|].
  by rewrite length_map, length_seq.
Qed.

Lemma lookup_snoc_from (rest l : list Z) k w :
  l !! (length l - S k)%nat = Some w -> (k < length l)%nat ->
  (rest ++ l) !! (length (rest ++ l) - S k)%nat = Some w.
Proof.
  intros H Hk. rewrite length_app, lookup_app_r by lia.
  by replace (length rest + length l - S k - length rest)%nat with (length l - S k)%nat by lia.
Qed.

(** ** Arithmetic on the stack of words *)

Section Arithm.
Context (opcode : Z) (m : machine) (rest : list Z) (a b c : Z).

Lemma arithm_finish g r v h h0 n :
  stack_is (cpu m) n -> bn_inv h -> num16 r v ->
  (length rest < length n)%nat -> (exists t, n = rest ++ t) ->
  let s := u64 (4 * Z.of_nat (length rest) + 3) in
  exists m', put_result (4 * Z.of_nat (length rest)) r
    (charged (g) h (with_cpu (set_sp s) (set_bn h0 m))) = Ok m' /\
  stack_is (cpu m') (rest ++ [v]) /\
  forall k, heap_pos h = heap_pos (bn m) + 65 * k -> effect (g) k m m'.
Proof.
  intros Hs Hb Hr Hlen [t ->]. cbn zeta. pose proof Hs as (Hl & Hu & Hn & _ & _).
  rewrite length_app in Hn, Hlen.
  set (m1 := charged _ h _).
  assert (stack_arr (cpu m1) = stack_arr (cpu m)) as Ea by (unfold m1; by rewrite charged_cpu).
  assert (sp (cpu m1) = u64 (4 * Z.of_nat (S (length rest)) - 1)) as Es.
  { unfold m1. rewrite charged_cpu. cbn [sp set_gas_available with_cpu cpu set_sp]. f_equal. lia. }
  destruct (put_result_ok (length rest) r v m1) as (arr & E & Hst); rewrite ?Ea; auto; [lia|].
  replace (4 * Z.of_nat (length rest)) with (Z.of_nat (4 * length rest)) by lia.
  rewrite E. eexists. split; [done|]. split.
  - rewrite Ea, (stack_is_app _ _ _ Hs) in Hst. exact Hst.
  - intros k Hk. by apply effect_intro.
Qed.

Lemma DoArithm_binary :
  (1 <= opcode <= 7 \/ opcode = 10 \/ opcode = 11) -> ready 4 m (rest ++ [b; a]) ->
  exists m', DoArithm opcode m = Ok m' /\
  stack_is (cpu m') (rest ++ [arith_result opcode a b 0]) /\ effect (arith_gas opcode) 3 m m'.
Proof.
  intros Ho [Hs Hg Hb Hroom]. unfold DoArithm, arithm_args.
  replace (((1 <=? opcode) && (opcode <=? 7)) || (opcode =? 10) || (opcode =? 11)) with true by lia.
  destruct (operand _ _ 0 a Hs) as (ra & Era & Hra & Hva);
    [apply lookup_snoc_from; [done|simpl; lia]|rewrite length_app; simpl; lia|].
  destruct (operand _ _ 1 b Hs) as (rb & Erb & Hrb & Hvb);
    [apply lookup_snoc_from; [done|simpl; lia]|rewrite length_app; simpl; lia|].
  change (4 * Z.of_nat 0 + 3) with 3 in Era. change (4 * Z.of_nat 1 + 3) with 7 in Erb.
  cbn zeta in *. rewrite Era. cbn [obind]. rewrite Erb. cbn [obind].
  destruct (load_reg_ok ra m Hb Hra ltac:(lia)) as (xa & ha & -> & Hxa & Hca & Hpa). cbn [obind].
  destruct (load_reg_ok rb (set_bn ha m)) as (xb & hb & -> & Hxb & Hcb & Hpb);
    [by apply bn_clean_inv|done|cbn [bn set_bn]; lia|]. cbn [obind bn set_bn] in *.
  set (m1 := with_cpu _ _).
  assert (m1 = with_cpu (set_sp (u64 (i32 (sp (cpu m)) - 7 + 3))) (set_bn hb m)) as Em1 by done.
  destruct (arithm_op_ok xa xb (VBIGNUM 256) a b 0 (nth 0 ra 0) m1 ltac:(congruence)
    ltac:(congruence) num16_VBIGNUM ltac:(rewrite low_byte; congruence)
    (bn_clean_inv _ Hcb) Hg ltac:(cbn; lia) opcode ltac:(lia)) as (r & h & -> & Hr & Hbi & Hp).
  cbn [obind]. rewrite Em1. cbn [m1 bn set_bn with_cpu] in Hp. clear Em1 m1.
  assert (i32 (sp (cpu m)) - 7 = 4 * Z.of_nat (length rest)) as Esp.
  { destruct Hs as (_ & _ & Hn & -> & _). rewrite sp_i32 by (rewrite length_app in *; simpl in *; lia).
    rewrite length_app. simpl. lia. }
  replace (i32 (sp (cpu m)) - (2 * 4 - 1)) with (4 * Z.of_nat (length rest)) by lia. rewrite Esp.
  destruct (arithm_finish (arith_gas opcode) r _ h hb _ Hs Hbi Hr) as (m' & -> & Hst & Heff);
    [rewrite length_app; simpl; lia|by eexists|].
  exists m'. split_and!; auto. apply Heff. rewrite Hp. cbn. lia.
Qed.
Lemma DoArithm_ternary :
  (opcode = 8 \/ opcode = 9) -> ready 5 m (rest ++ [c; b; a]) ->
  exists m', DoArithm opcode m = Ok m' /\
  stack_is (cpu m') (rest ++ [arith_result opcode a b c]) /\ effect (arith_gas opcode) 4 m m'.
Proof.
  intros Ho [Hs Hg Hb Hroom]. unfold DoArithm, arithm_args.
  replace (((1 <=? opcode) && (opcode <=? 7)) || (opcode =? 10) || (opcode =? 11)) with false by lia.
  replace ((opcode =? 8) || (opcode =? 9)) with true by lia.
  destruct (operand _ _ 0 a Hs) as (ra & Era & Hra & Hva);
    [apply lookup_snoc_from; [done|simpl; lia]|rewrite length_app; simpl; lia|].
  destruct (operand _ _ 1 b Hs) as (rb & Erb & Hrb & Hvb);
    [apply lookup_snoc_from; [done|simpl; lia]|rewrite length_app; simpl; lia|].
  destruct (operand _ _ 2 c Hs) as (rc & Erc & Hrc & Hvc);
    [apply lookup_snoc_from; [done|simpl; lia]|rewrite length_app; simpl; lia|].
  change (4 * Z.of_nat 0 + 3) with 3 in Era. change (4 * Z.of_nat 1 + 3) with 7 in Erb.
  change (4 * Z.of_nat 2 + 3) with 11 in Erc.
  cbn zeta in *. rewrite Era. cbn [obind]. rewrite Erb. cbn [obind]. rewrite Erc. cbn [obind].
  destruct (load_reg_ok ra m Hb Hra ltac:(lia)) as (xa & ha & -> & Hxa & Hca & Hpa). cbn [obind].
  destruct (load_reg_ok rb (set_bn ha m)) as (xb & hb & -> & Hxb & Hcb & Hpb);
    [by apply bn_clean_inv|done|cbn [bn set_bn]; lia|]. cbn [obind bn set_bn] in *.
  change (set_bn hb (set_bn ha m)) with (set_bn hb m).
  destruct (load_reg_ok rc (set_bn hb m)) as (xc & hc & -> & Hxc & Hcc & Hpc);
    [by apply bn_clean_inv|done|cbn [bn set_bn]; lia|]. cbn [obind bn set_bn] in *.
  set (m1 := with_cpu _ _).
  assert (m1 = with_cpu (set_sp (u64 (i32 (sp (cpu m)) - 11 + 3))) (set_bn hc m)) as Em1 by done.
  destruct (arithm_op_ok xa xb xc a b c (nth 0 ra 0) m1 ltac:(congruence)
    ltac:(congruence) ltac:(congruence) ltac:(rewrite low_byte; congruence)
    (bn_clean_inv _ Hcc) Hg ltac:(cbn; lia) opcode ltac:(lia)) as (r & h & -> & Hr & Hbi & Hp).
  cbn [obind]. rewrite Em1. cbn [m1 bn set_bn with_cpu] in Hp. clear Em1 m1.
  assert (i32 (sp (cpu m)) - 11 = 4 * Z.of_nat (length rest)) as Esp.
  { destruct Hs as (_ & _ & Hn & -> & _). rewrite sp_i32 by (rewrite length_app in *; simpl in *; lia).
    rewrite length_app. simpl. lia. }
  replace (i32 (sp (cpu m)) - (3 * 4 - 1)) with (4 * Z.of_nat (length rest)) by lia. rewrite Esp.
  destruct (arithm_finish (arith_gas opcode) r _ h hc _ Hs Hbi Hr) as (m' & -> & Hst & Heff);
    [rewrite length_app; simpl; lia|by eexists|].
  exists m'. split_and!; auto. apply Heff. rewrite Hp. cbn. lia.
Qed.
End Arithm.

(** ** Comparison and bit operations *)

Lemma num16_flag f a x : num16 a x -> num16 (flag f a) (b2z f).
Proof. intros Ha. destruct f; [by eapply num16_set_one|by eapply num16_set_zero]. Qed.

Lemma num16_gt a b x y : num16 a x -> num16 b y -> v_bignum_gt a b = (y <? x).
Proof. intros (Ha & Hla & <-) (Hb & Hlb & <-). apply gt_le_length; auto. lia. Qed.

Lemma num16_eq a b x y : num16 a x -> num16 b y -> v_bignum_eq a b = (x =? y).
Proof. intros (Ha & Hla & <-) (Hb & Hlb & <-). apply eq_same_length; auto. lia. Qed.

Lemma num16_bitwise op f a b x y :
  (forall u v, wf u -> wf v -> length u = length v -> val (op u v) = f (val u) (val v)) ->
  (exists g, forall u v, op u v = digitwise g u v) ->
  num16 a x -> num16 b y -> num16 (op a b) (f x y).
Proof.
  intros Hf [g Hg] (Ha & Hla & <-) (Hb & Hlb & <-). split_and!.
  - rewrite Hg. by apply wf_digitwise.
  - by rewrite Hg, length_digitwise.
  - apply Hf; auto. lia.
Qed.

Lemma num16_byte a b x y arg1_0 :
  num16 a x -> num16 b y -> Z.land (Z.shiftr arg1_0 56) 255 = x mod 256 ->
  num16 (v_bignum_set_bignum_part a b (u32 (255 - Z.land (Z.shiftr arg1_0 (8 * 7)) 255 * 8)) 8)
    (byte_spec x y).
Proof.
  intros (Ha & Hla & _) (Hb & Hlb & <-) Harg. change (8 * 7) with 56. rewrite Harg.
  pose proof (Z.mod_pos_bound x 256) as Hk. unfold byte_spec. set (k := x mod 256) in *.
  destruct (Z.ltb_spec k 32).
  - rewrite u32_id by (unfold is_u32; lia).
    destruct (set_bignum_part_spec a b (255 - k * 8) 8) as (Hl & Hw & Hv); auto; try lia.
    split_and!; auto; [lia|]. rewrite Hv. do 3 f_equal. lia.
  - unfold v_bignum_set_bignum_part. rewrite (proj2 (Z.ltb_lt _ _)).
    + split_and!; [apply wf_set_zero|by rewrite length_set_zero|apply val_set_zero].
    + unfold u32. rewrite Hlb. Z.div_mod_to_equations. lia.
Qed.

Lemma compare_op_ok opcode a b x y arg1_0 :
  num16 a x -> num16 b y -> 0 <= opcode <= 10 ->
  Z.land (Z.shiftr arg1_0 56) 255 = x mod 256 ->
  num16 (compare_op opcode a b arg1_0) (compare_result opcode x y).
Proof.
  intros Ha Hb Ho Harg.
  assert (opcode = 0 \/ opcode = 1 \/ opcode = 2 \/ opcode = 3 \/ opcode = 4 \/ opcode = 5 \/
    opcode = 6 \/ opcode = 7 \/ opcode = 8 \/ opcode = 9 \/ opcode = 10) as Hcase by lia.
  destruct Hcase as [->|[->|[->|[->|[->|[->|[->|[->|[->|[->| ->]]]]]]]]]];
    cbn [compare_op compare_result].
  1-4: erewrite num16_gt by eassumption; by eapply num16_flag.
  - erewrite num16_eq by eassumption; by eapply num16_flag.
  - erewrite num16_eq_zero by eassumption; by eapply num16_flag.
  - apply num16_bitwise; auto using val_and. by eexists.
  - apply num16_bitwise; auto using val_or. by eexists.
  - apply num16_bitwise; auto using val_xor. by eexists.
  - destruct Ha as (Ha & Hla & <-). split_and!; [apply wf_not|by rewrite length_not|].
    by rewrite val_not, Hla.
  - by apply num16_byte.
Qed.

Section Compare.
Context (opcode : Z) (m : machine) (rest : list Z) (a b : Z).

Lemma DoCompare_binary :
  (0 <= opcode <= 4 \/ 6 <= opcode <= 8 \/ opcode = 10) -> ready 3 m (rest ++ [b; a]) ->
  exists m', DoCompare opcode m = Ok m' /\
  stack_is (cpu m') (rest ++ [compare_result opcode a b]) /\ effect 3 3 m m'.
Proof.
  intros Ho [Hs Hg Hb Hroom]. unfold DoCompare, compare_args.
  replace ((opcode =? 5) || (opcode =? 9)) with false by lia.
  replace ((0 <=? opcode) && (opcode <=? 4) || (6 <=? opcode) && (opcode <=? 8) || (opcode =? 10))
    with true by lia.
  destruct (operand _ _ 0 a Hs) as (ra & Era & Hra & Hva);
    [apply lookup_snoc_from; [done|simpl; lia]|rewrite length_app; simpl; lia|].
  destruct (operand _ _ 1 b Hs) as (rb & Erb & Hrb & Hvb);
    [apply lookup_snoc_from; [done|simpl; lia]|rewrite length_app; simpl; lia|].
  change (4 * Z.of_nat 0 + 3) with 3 in Era. change (4 * Z.of_nat 1 + 3) with 7 in Erb.
  cbn zeta in *. rewrite Era. cbn [obind]. rewrite Erb. cbn [obind].
  destruct (load_reg_ok ra m Hb Hra ltac:(lia)) as (xa & ha & -> & Hxa & Hca & Hpa). cbn [obind].
  destruct (load_reg_ok rb (set_bn ha m)) as (xb & hb & -> & Hxb & Hcb & Hpb);
    [by apply bn_clean_inv|done|cbn [bn set_bn]; lia|]. cbn [obind bn set_bn] in *.
  replace ((0 <=? opcode) && (opcode <=? 10)) with true by lia.
  assert (i32 (sp (cpu m)) - 7 = 4 * Z.of_nat (length rest)) as Esp.
  { destruct Hs as (_ & _ & Hn & -> & _). rewrite sp_i32 by (rewrite length_app in *; simpl in *; lia).
    rewrite length_app. simpl. lia. }
  replace (i32 (sp (cpu m)) - (2 * 4 - 1)) with (4 * Z.of_nat (length rest)) by lia.
  set (s := u64 (4 * Z.of_nat (length rest) + 3)). change (set_bn hb (set_bn ha m)) with (set_bn hb m).
  destruct (UseGas_ok 3 (with_cpu (set_sp s) (set_bn hb m)) (bn_clean_inv _ Hcb) Hg
    ltac:(by vm_compute) ltac:(cbn; lia)) as (h & Eg & Hcl & Hp).
  unfold STEPGAS2. rewrite Eg. cbn [obind].
  destruct (arithm_finish m rest 3 (compare_op opcode xa xb (nth 0 ra 0)) (compare_result opcode a b)
    h hb _ Hs (bn_clean_inv _ Hcl)) as (m' & E & Hst & Heff);
    [|rewrite length_app; simpl; lia|by eexists|].
  { apply compare_op_ok; try congruence; [lia|]. rewrite low_byte by done. congruence. }
  subst s. rewrite E. exists m'. split_and!; auto. apply Heff. rewrite Hp. cbn. lia.
Qed.

Lemma DoCompare_unary :
  (opcode = 5 \/ opcode = 9) -> ready 2 m (rest ++ [a]) ->
  exists m', DoCompare opcode m = Ok m' /\
  stack_is (cpu m') (rest ++ [compare_result opcode a 0]) /\ effect 3 2 m m'.
Proof.
  intros Ho [Hs Hg Hb Hroom]. unfold DoCompare, compare_args.
  replace ((opcode =? 5) || (opcode =? 9)) with true by lia.
  destruct (operand _ _ 0 a Hs) as (ra & Era & Hra & Hva);
    [apply lookup_snoc_from; [done|simpl; lia]|rewrite length_app; simpl; lia|].
  change (4 * Z.of_nat 0 + 3) with 3 in Era.
  cbn zeta in *. rewrite Era. cbn [obind].
  destruct (load_reg_ok ra m Hb Hra ltac:(lia)) as (xa & ha & -> & Hxa & Hca & Hpa). cbn [obind].
  replace ((0 <=? opcode) && (opcode <=? 10)) with true by lia.
  assert (i32 (sp (cpu m)) - 3 = 4 * Z.of_nat (length rest)) as Esp.
  { destruct Hs as (_ & _ & Hn & -> & _). rewrite sp_i32 by (rewrite length_app in *; simpl in *; lia).
    rewrite length_app. simpl. lia. }
  replace (i32 (sp (cpu m)) - (1 * 4 - 1)) with (4 * Z.of_nat (length rest)) by lia.
  set (s := u64 (4 * Z.of_nat (length rest) + 3)).
  destruct (UseGas_ok 3 (with_cpu (set_sp s) (set_bn ha m)) (bn_clean_inv _ Hca) Hg
    ltac:(by vm_compute) ltac:(cbn; lia)) as (h & Eg & Hcl & Hp).
  unfold STEPGAS2. rewrite Eg. cbn [obind].
  destruct (arithm_finish m rest 3 (compare_op opcode xa (VBIGNUM 256) (nth 0 ra 0))
    (compare_result opcode a 0) h ha _ Hs (bn_clean_inv _ Hcl)) as (m' & E & Hst & Heff);
    [|rewrite length_app; simpl; lia|by eexists|].
  { apply compare_op_ok; try congruence; [apply num16_VBIGNUM|lia|]. rewrite low_byte by done. congruence. }
  subst s. rewrite E. exists m'. split_and!; auto. apply Heff. rewrite Hp. cbn. lia.
Qed.
End Compare.

(** ** Pushing and popping words *)

Lemma sp_i32_any n : (4 * n <= STACK_CELLS)%nat -> i32 (u64 (4 * Z.of_nat n - 1)) = 4 * Z.of_nat n - 1.
Proof. intros Hn. destruct n as [|n]; [done|]. apply sp_i32; lia. Qed.

Lemma stack_pop c rest w : stack_is c (rest ++ [w]) ->
  stack_is (set_sp (u64 (4 * Z.of_nat (length rest) - 1)) c) rest.
Proof.
  intros Hs. pose proof (stack_is_app c rest [w] Hs) as E.
  destruct Hs as (Hl & Hu & Hn & _ & _). rewrite length_app in Hn. cbn [length] in Hn.
  split_and!; auto. lia.
Qed.

Lemma stack_push c ws reg :
  stack_is c ws -> (4 * S (length ws) <= STACK_CELLS)%nat -> reg_wf reg ->
  exists arr, write4 (stack_arr c) (4 * Z.of_nat (length ws)) reg = Ok arr /\
  forall s, s = u64 (4 * Z.of_nat (length ws) + 3) ->
    stack_is (set_sp s (set_stack_arr arr c)) (ws ++ [reg_val reg]).
Proof.
  intros (Hl & Hu & Hn & Hsp & E) Hr [Hl4 Hu4]. rewrite write4_ok by (try done; lia).
  replace (Z.to_nat (4 * Z.of_nat (length ws))) with (4 * length ws)%nat by lia.
  eexists. split; [done|]. intros s ->. unfold stack_is. cbn [stack_arr sp set_sp set_stack_arr].
  rewrite !length_app. cbn [length]. split_and!.
  - rewrite <- !length_app, <- Hl. apply length_splice; lia.
  - by apply Forall_splice.
  - lia.
  - f_equal. lia.
  - rewrite Nat.add_1_r, stack_words_splice by lia. by rewrite E.
Qed.

(** The word on top. *)
Lemma stack_top c rest w :
  stack_is c (rest ++ [w]) ->
  exists reg, read4 (stack_arr c) (4 * Z.of_nat (length rest)) = Ok reg /\ reg_wf reg /\ reg_val reg = w.
Proof.
  intros Hs. destruct (operand c (rest ++ [w]) 0 w Hs) as (reg & E & H).
  - apply lookup_snoc_from; [done|simpl; lia].
  - rewrite length_app. simpl. lia.
  - exists reg. split; [|done]. rewrite <- E. f_equal.
    destruct Hs as (_ & _ & Hn & -> & _). rewrite sp_i32_any by done. rewrite length_app. simpl. lia.
Qed.

(** The first cell of the [k]-th word from the top, as 64-bit helpers read it. *)
Lemma operand_cell c ws k w :
  stack_is c ws -> ws !! (length ws - S k)%nat = Some w -> (k < length ws)%nat ->
  exists v, aget (stack_arr c) (u64 (sp c - (4 * Z.of_nat k + 3))) = Ok v /\ is_u64 v /\
  bswap64 v = w mod 2 ^ 64.
Proof.
  intros (Hl & Hu & Hn & Hsp & Hws) Hk Hlt. unfold STACK_CELLS in *.
  set (j := (length ws - S k)%nat) in *.
  assert (u64 (sp c - (4 * Z.of_nat k + 3)) = Z.of_nat (4 * j)) as ->.
  { rewrite Hsp. rewrite (u64_id (4 * _ - 1)) by (unfold is_u64; lia).
    rewrite u64_id by (unfold is_u64; lia). lia. }
  rewrite aget_ok, Nat2Z.id by lia. eexists. split; [done|].
  assert (is_u64 (nth (4 * j) (stack_arr c) 0)) as Hv.
  { apply (Forall_nth is_u64 0 (stack_arr c)); [done|lia]. }
  split; [done|].
  rewrite <- Hws in Hk. unfold stack_words in Hk. rewrite list_lookup_fmap in Hk.
  rewrite lookup_seq_lt in Hk by lia. injection Hk as <-. unfold word_at. cbn [Nat.add].
  destruct (drop (4 * j) (stack_arr c)) as [|v l] eqn:Ed.
  { apply (f_equal length) in Ed. rewrite length_drop in Ed. simpl in Ed. lia. }
  assert (nth (4 * j) (stack_arr c) 0 = v) as ->.
  { rewrite nth_lookup. rewrite <- (Nat.add_0_r (4 * j)), <- lookup_drop, Ed. done. }
  cbn [take reg_val]. rewrite (Z.mul_comm (2 ^ 64)), Z.mod_add by lia.
  symmetry. apply Z.mod_small. apply bswap64_range.
Qed.
