(* ===== verification/Storage.v ===== *)
(** * Contract storage and the end of a run

    [SaveToStorage], [LoadFromStorage], [finalize] and [result_message] of
    [target-ppdl/functions.c].  The storage is a linked list of entries whose
    first entry starts out as an empty slot marked by the key -1. *)

From stdpp Require Import base numbers list option strings gmap.
From Stdlib Require Import ZArith Lia.
From S2P Require Import Prelude Words Bignum BignumSpec BignumHeap BignumStr Cpu Arithm ArithmSpec.

(** [node->key == -1]: the key is unsigned, -1 is converted. *)
Definition EMPTY : Z := 2 ^ 32 - 1.

(** ** Operations *)

(** The byte loops: [data_tmp[j]] is [data_val[3-j]] with its bytes swapped. *)
Definition swap_reg (reg : list Z) : list Z := map (fun w => swap_loop 8 0 w 0) (rev reg).

(** The walk and the overwrite or append at its end. *)
Fixpoint save_node (s : list Storage) (offs : Z) (v : list Z) : list Storage :=
  match s with
  | [] => [mkStorage offs v]
  | n :: s' =>
      if (key n =? EMPTY) || (key n =? offs) then mkStorage offs v :: s'
      else n :: save_node s' offs v
  end.

(** With no list at all [tail] would be used without a value. *)
Definition SaveToStorage (offs : Z) (m : machine) : outcome machine :=
  let sp0 := i32 (sp (cpu m)) in
  let* data_val := read4 (stack_arr (cpu m)) (sp0 - 3) in
  let data_tmp := swap_reg data_val in
  let m := with_cpu (set_sp (u64 (sp0 - 4))) m in
  match mainStorage m with
  | None => Undef
  | Some s => Ok (set_storage (Some (save_node s (u32 offs) data_tmp)) m)
  end.

Fixpoint find_node (s : list Storage) (offs : Z) : option (list Z) :=
  match s with
  | [] => None
  | n :: s' => if key n =? offs then Some (value n) else find_node s' offs
  end.

(** [data_tmp] has no value when the key is not found. *)
Definition LoadFromStorage (offs : Z) (m : machine) : outcome machine :=
  let sp0 := i32 (sp (cpu m)) in
  match find_node (default [] (mainStorage m)) (u32 offs) with
  | None => Undef
  | Some data_tmp =>
      let* stack := write4 (stack_arr (cpu m)) (sp0 + 1) (swap_reg data_tmp) in
      Ok (with_cpu (set_sp (u64 (sp0 + 4))) (with_cpu (set_stack_arr stack) m))
  end.

(** [finalize]: the entries are freed one by one, the first one last. *)
Definition finalize (m : machine) : machine := set_storage None m.

(** The bytes [data_bus[offs .. offs + size - 1]] in hexadecimal. *)
Fixpoint print_bytes (fuel : nat) (bus : list Z) (i offs size : Z) : outcome (list Z) :=
  if i <? size then
    match fuel with
    | O => Undef
    | S f =>
        let* v := aget bus (u64 (i + offs)) in
        let* rest := print_bytes f bus (i + 1) offs size in
        Ok (fmt_x HEXDIG 2 (u8 v) ++ rest)
    end
  else Ok [].

(** The bus has 1024 cells: after that many bytes an access is out of range. *)
Definition result_message (m : machine) : outcome machine :=
  let m := finalize m in
  let* g0 := aget (gas_available (cpu m)) 0 in
  if g0 =? 0 then
    let m := print ([10] ++ codes "gas limit error" ++ [10]) m in
    exit (-1) m
  else
    let* w3 := aget (stack_arr (cpu m)) (u64 (sp (cpu m) - 3)) in
    let offs := swap_loop 8 0 w3 0 in
    let* w7 := aget (stack_arr (cpu m)) (u64 (sp (cpu m) - 7)) in
    let size := swap_loop 8 0 w7 0 in
    let m := with_cpu (set_sp (u64 (sp (cpu m) - 8))) m in
    let m := print (codes "0x") m in
    let* text := print_bytes 1024 (data_bus (cpu m)) 0 offs size in
    let m := print (text ++ [10]) m in
    exit 0 m.

(** ** The storage as a map from keys to 256-bit words *)

Definition node_word (n : Storage) : Z := reg_val (swap_reg (value n)).

(** The first entry of a key counts; an empty slot is no entry. *)
Fixpoint storage_map (s : list Storage) : gmap Z Z :=
  match s with
  | [] => ∅
  | n :: s' =>
      if key n =? EMPTY then storage_map s'
      else <[key n := node_word n]> (storage_map s')
  end.

Definition storage_wf (s : list Storage) : Prop := Forall (fun n => reg_wf (value n)) s.

Lemma swap_reg_wf reg : reg_wf reg -> reg_wf (swap_reg reg).
Proof.
  intros [Hl Hu]. split; [unfold swap_reg; by rewrite length_map, length_rev|].
  apply Forall_map. apply Forall_rev in Hu. eapply Forall_impl; [exact Hu|].
  intros w Hw. cbn beta. rewrite swap_loop_bswap by done. apply bswap64_range.
Qed.

Lemma swap_reg_invol reg : Forall is_u64 reg -> swap_reg (swap_reg reg) = reg.
Proof.
  intros Hu. unfold swap_reg. rewrite <- map_rev, rev_involutive, map_map.
  rewrite <- (map_id reg) at 2. apply map_ext_in. intros w Hw.
  assert (is_u64 w) by (eapply Forall_forall in Hu; [done|]; by apply list_elem_of_In).
  rewrite !swap_loop_bswap by (rewrite ?swap_loop_bswap by done; auto with cint).
  by apply bswap64_invol.
Qed.

Lemma find_node_map s k : k <> EMPTY ->
  storage_map s !! k = (fun v => reg_val (swap_reg v)) <$> find_node s k.
Proof.
  intros Hk. induction s as [|n s IH]; simpl; [done|].
  destruct (Z.eqb_spec (key n) EMPTY) as [->|Hne].
  - destruct (Z.eqb_spec EMPTY k); [congruence|done].
  - destruct (Z.eqb_spec (key n) k) as [->|].
    + by rewrite lookup_insert_eq.
    + by rewrite lookup_insert_ne.
Qed.

Lemma save_node_map s k v : k <> EMPTY ->
  storage_map (save_node s k v) = <[k := reg_val (swap_reg v)]> (storage_map s).
Proof.
  intros Hk. induction s as [|n s IH]; simpl.
  - by rewrite (proj2 (Z.eqb_neq _ _) Hk).
  - destruct (Z.eqb_spec (key n) EMPTY) as [E|Hne]; simpl.
    + by rewrite (proj2 (Z.eqb_neq _ _) Hk).
    + destruct (Z.eqb_spec (key n) k) as [->|Hnk]; simpl.
      * rewrite (proj2 (Z.eqb_neq _ _) Hk). by rewrite insert_insert_eq.
      * rewrite (proj2 (Z.eqb_neq _ _) Hne), IH. by apply insert_insert_ne.
Qed.

Lemma save_node_wf s k v : storage_wf s -> reg_wf v -> storage_wf (save_node s k v).
Proof.
  intros Hs Hv. induction Hs as [|n s Hn Hs IH]; simpl; [by apply Forall_singleton|].
  destruct (_ || _); by constructor.
Qed.

Lemma find_node_wf s k v : storage_wf s -> find_node s k = Some v -> reg_wf v.
Proof.
  intros Hs. induction Hs as [|n s Hn Hs IH]; simpl; [done|].
  destruct (_ =? _); [|done]. intros E. by injection E as <-.
Qed.

(** SSTORE: the word on top goes into the map and off the stack. *)
Lemma SaveToStorage_ok offs m rest w s :
  stack_is (cpu m) (rest ++ [w]) -> mainStorage m = Some s -> u32 offs <> EMPTY -> storage_wf s ->
  exists s', SaveToStorage offs m =
    Ok (set_storage (Some s') (with_cpu (set_sp (u64 (4 * Z.of_nat (length rest) - 1))) m)) /\
  storage_map s' = <[u32 offs := w]> (storage_map s) /\ storage_wf s'.
Proof.
  intros Hs Em Hk Hwf. unfold SaveToStorage.
  destruct (stack_top _ _ _ Hs) as (reg & E & Hr & Hw).
  assert (i32 (sp (cpu m)) = 4 * Z.of_nat (length rest) + 3) as Esp.
  { destruct Hs as (_ & _ & Hn & -> & _). rewrite sp_i32_any by done. rewrite length_app. simpl. lia. }
  rewrite Esp. replace (4 * Z.of_nat (length rest) + 3 - 3) with (4 * Z.of_nat (length rest)) by lia.
  rewrite E. cbn [obind with_cpu mainStorage]. rewrite Em. eexists. split_and!.
  - replace (4 * Z.of_nat (length rest) + 3 - 4) with (4 * Z.of_nat (length rest) - 1) by lia.
    reflexivity.
  - rewrite save_node_map by done. rewrite swap_reg_invol by apply Hr. by rewrite Hw.
  - apply save_node_wf; [done|]. by apply swap_reg_wf.
Qed.

(** SLOAD: a key that is there is pushed; one that is not has no defined result. *)
Lemma LoadFromStorage_ok offs m ws s w :
  stack_is (cpu m) ws -> (4 * S (length ws) <= STACK_CELLS)%nat ->
  mainStorage m = Some s -> storage_wf s -> u32 offs <> EMPTY ->
  storage_map s !! u32 offs = Some w ->
  exists arr, LoadFromStorage offs m =
    Ok (with_cpu (set_sp (u64 (4 * Z.of_nat (length ws) + 3))) (with_cpu (set_stack_arr arr) m)) /\
  stack_is (set_sp (u64 (4 * Z.of_nat (length ws) + 3)) (set_stack_arr arr (cpu m))) (ws ++ [w]).
Proof.
  intros Hs Hroom Em Hwf Hk Hl. unfold LoadFromStorage. rewrite Em. cbn [from_option id].
  rewrite find_node_map in Hl by done.
  destruct (find_node s (u32 offs)) as [v|] eqn:Ef; simpl in Hl; [|done]. injection Hl as <-.
  pose proof (find_node_wf s _ v Hwf Ef) as Hv.
  destruct (stack_push _ _ (swap_reg v) Hs Hroom (swap_reg_wf _ Hv)) as (arr & Ew & Hp).
  assert (i32 (sp (cpu m)) = 4 * Z.of_nat (length ws) - 1) as Esp.
  { destruct Hs as (_ & _ & Hn & -> & _). by apply sp_i32_any. }
  rewrite Esp. replace (4 * Z.of_nat (length ws) - 1 + 1) with (4 * Z.of_nat (length ws)) by lia.
  rewrite Ew. cbn [obind]. exists arr. split; [|by apply Hp].
  by replace (4 * Z.of_nat (length ws) - 1 + 4) with (4 * Z.of_nat (length ws) + 3) by lia.
Qed.

(** ** The result of a run *)

Definition hex_bytes (bytes : list Z) : list Z := flat_map (fun v => fmt_x HEXDIG 2 (u8 v)) bytes.

Lemma print_bytes_ok fuel bus i offs size :
  0 <= i -> 0 <= offs -> offs + size <= Z.of_nat (length bus) -> Z.of_nat (length bus) < 2 ^ 64 ->
  size - i <= Z.of_nat fuel ->
  print_bytes fuel bus i offs size =
  Ok (hex_bytes (take (Z.to_nat (size - i)) (drop (Z.to_nat (offs + i)) bus))).
Proof.
  intros Hi Ho Hs Hb. revert i Hi; induction fuel as [|f IH]; intros i Hi Hf; cbn [print_bytes];
    (destruct (Z.ltb_spec i size) as [Hlt|Hge];
     [|replace (Z.to_nat (size - i)) with 0%nat by lia; done]); [lia|].
  rewrite u64_id, aget_ok by (try split; lia). cbn [obind]. rewrite IH by lia. cbn [obind]. f_equal.
  replace (Z.to_nat (size - i)) with (S (Z.to_nat (size - (i + 1)))) by lia.
  replace (Z.to_nat (offs + (i + 1))) with (S (Z.to_nat (offs + i))) by lia.
  replace (Z.to_nat (i + offs)) with (Z.to_nat (offs + i)) by lia.
  assert (Z.to_nat (offs + i) < length bus)%nat as Hk by lia. revert Hk.
  generalize (Z.to_nat (offs + i)). intros k Hk.
  destruct (lookup_lt_is_Some_2 bus k Hk) as [v Hv].
  rewrite (drop_S bus v k Hv), nth_lookup, Hv. done.
Qed.

Lemma gas_word0 c : reg_wf (gas_available c) ->
  exists g0, aget (gas_available c) 0 = Ok g0 /\ (g0 =? 0) = (gas_of c mod 2 ^ 64 =? 0).
Proof.
  intros [Hl Hu]. unfold gas_of. destruct (gas_available c) as [|g0 gs]; [done|].
  exists g0. split; [done|]. apply Forall_cons in Hu as [Hg _]. cbn [reg_val].
  rewrite (Z.mul_comm (2 ^ 64)), Z.mod_add by lia.
  pose proof (bswap64_range g0) as Hr. rewrite Z.mod_small by apply Hr.
  destruct (Z.eqb_spec g0 0) as [->|Hne]; [done|]. symmetry. apply Z.eqb_neq. intros E.
  apply Hne. apply bswap64_inj; auto. unfold is_u64. lia.
Qed.

Lemma result_message_ok m rest offs size :
  stack_is (cpu m) (rest ++ [size; offs]) -> reg_wf (gas_available (cpu m)) ->
  gas_of (cpu m) mod 2 ^ 64 <> 0 -> length (data_bus (cpu m)) = 1024%nat ->
  offs mod 2 ^ 64 + size mod 2 ^ 64 <= 1024 ->
  result_message m = Exit 0 (stdout m ++ codes "0x" ++
    hex_bytes (take (Z.to_nat (size mod 2 ^ 64)) (drop (Z.to_nat (offs mod 2 ^ 64)) (data_bus (cpu m))))
    ++ [10]).
Proof.
  intros Hs Hg Hne Hbus Hfit. unfold result_message, finalize. cbn [cpu set_storage].
  destruct (gas_word0 _ Hg) as (g0 & -> & E0). cbn [obind].
  rewrite E0, (proj2 (Z.eqb_neq _ _) Hne).
  destruct (operand_cell _ _ 0 offs Hs) as (v3 & E3 & Hv3 & Hb3);
    [apply lookup_snoc_from; [done|simpl; lia]|rewrite length_app; simpl; lia|].
  destruct (operand_cell _ _ 1 size Hs) as (v7 & E7 & Hv7 & Hb7);
    [apply lookup_snoc_from; [done|simpl; lia]|rewrite length_app; simpl; lia|].
  change (4 * Z.of_nat 0 + 3) with 3 in E3. change (4 * Z.of_nat 1 + 3) with 7 in E7.
  rewrite E3. cbn [obind]. rewrite E7. cbn [obind].
  rewrite !swap_loop_bswap, Hb3, Hb7 by done.
  pose proof (Z.mod_pos_bound offs (2 ^ 64)). pose proof (Z.mod_pos_bound size (2 ^ 64)).
  cbn [cpu with_cpu print data_bus set_sp set_storage].
  rewrite print_bytes_ok by lia. cbn [obind]. unfold exit. cbn [stdout print with_cpu set_storage].
  rewrite Z.sub_0_r, Z.add_0_r, <- !app_assoc. done.
Qed.

Lemma result_message_no_gas m :
  reg_wf (gas_available (cpu m)) -> gas_of (cpu m) mod 2 ^ 64 = 0 ->
  result_message m = Exit (-1) (stdout m ++ [10] ++ codes "gas limit error" ++ [10]).
Proof.
  intros Hg E. unfold result_message, finalize. cbn [cpu set_storage].
  destruct (gas_word0 _ Hg) as (g0 & -> & E0). cbn [obind]. rewrite E0, E. done.
Qed.
