(* ===== verification/Bitfield.v ===== *)
(** * Bit fields

    [set_bitfield] and [get_bitfield] of [target-ppdl/bitfield.c].  Shifts by
    64 or more have no defined result. *)

From stdpp Require Import base numbers list option.
From Stdlib Require Import ZArith Lia.
From S2P Require Import Prelude.

(** The common prologue: the first bit, the width and the mask. *)
Definition bitfield_range (start end_ : Z) : Z * Z :=
  let start := Z.min start end_ in
  let end_ := u64 (Z.max start end_ + 1) in
  (start, i32 (u64 (end_ - start))).

Definition bitfield_mask (diff : Z) : outcome Z :=
  if diff =? 64 then Ok (2 ^ 64 - 1)
  else if (0 <=? diff) && (diff <? 64) then Ok (u64 (Z.shiftl 1 diff - 1))
  else Undef.

Definition shl64 (v n : Z) : outcome Z := if n <? 64 then Ok (u64 (Z.shiftl v n)) else Undef.
Definition shr64 (v n : Z) : outcome Z := if n <? 64 then Ok (Z.shiftr v n) else Undef.

Definition set_bitfield (dst start end_ aVal : Z) : outcome Z :=
  let '(start, diff) := bitfield_range start end_ in
  let* mask := bitfield_mask diff in
  let* smask := shl64 mask start in
  let masked_val := Z.land dst (Z.lxor (2 ^ 64 - 1) smask) in
  let* new_val := shl64 (Z.land aVal mask) start in
  Ok (Z.lor masked_val new_val).

Definition get_bitfield (aVal start end_ : Z) : outcome Z :=
  let '(start, diff) := bitfield_range start end_ in
  let* mask := bitfield_mask diff in
  let* v := shr64 aVal start in
  Ok (Z.land v mask).

(** ** What they compute *)

(** A field given by its first and last bit. *)
Section Field.
Context (start end_ : Z) (Hr : 0 <= start <= end_) (He : end_ < 64).
Let width := end_ - start + 1.

Lemma range_ok : bitfield_range start end_ = (start, width).
Proof.
  unfold bitfield_range. rewrite Z.min_l, Z.max_r by lia.
  rewrite (u64_id (end_ + 1)), u64_id, i32_id by (unfold is_u64; lia). f_equal. unfold width. lia.
Qed.

Lemma mask_ok : bitfield_mask width = Ok (Z.ones width).
Proof.
  unfold bitfield_mask. destruct (Z.eqb_spec width 64) as [->|Hw]; [done|].
  rewrite (proj2 (Z.leb_le 0 width)), (proj2 (Z.ltb_lt width 64)) by (unfold width in *; lia).
  cbn [andb]. f_equal. rewrite Z.shiftl_1_l. unfold Z.ones. rewrite Z.shiftl_1_l, <- Z.sub_1_r.
  apply u64_id. unfold is_u64.
  assert (0 < 2 ^ width <= 2 ^ 64); [|lia].
  split; [apply Z.pow_pos_nonneg; lia|apply Z.pow_le_mono_r; unfold width in *; lia].
Qed.

Lemma get_bitfield_spec v : is_u64 v -> get_bitfield v start end_ = Ok ((v / 2 ^ start) mod 2 ^ width).
Proof.
  intros Hv. unfold get_bitfield. rewrite range_ok, mask_ok. cbn [obind]. unfold shr64.
  rewrite (proj2 (Z.ltb_lt start 64)) by lia. cbn [obind].
  rewrite Z.land_ones, Z.shiftr_div_pow2 by (unfold width; lia). done.
Qed.

(** The bits of the result: the field comes from the value, the rest stays. *)
Lemma set_bitfield_spec dst v : is_u64 dst -> is_u64 v ->
  exists r, set_bitfield dst start end_ v = Ok r /\ is_u64 r /\
  forall i, 0 <= i -> Z.testbit r i =
    if (start <=? i) && (i <=? end_) then Z.testbit v (i - start) else Z.testbit dst i.
Proof.
  intros Hd Hv. unfold set_bitfield. rewrite range_ok, mask_ok. cbn [obind]. unfold shl64.
  rewrite (proj2 (Z.ltb_lt start 64)) by lia. cbn [obind]. eexists. split; [done|].
  assert (forall n, 0 <= n -> Z.testbit dst n = (n <? 64) && Z.testbit dst n) as Hd64.
  { intros n Hn. destruct (Z.ltb_spec n 64); [done|]. rewrite (testbit_small dst 64) by (done || lia). done. }
  assert (forall i, 0 <= i -> Z.testbit (Z.lor (Z.land dst (Z.lxor (2 ^ 64 - 1) (u64 (Z.shiftl (Z.ones width) start))))
    (u64 (Z.shiftl (Z.land v (Z.ones width)) start))) i =
    (i <? 64) && (if (start <=? i) && (i <=? end_) then Z.testbit v (i - start) else Z.testbit dst i)) as Hb.
  { intros i Hi. change (2 ^ 64 - 1) with (Z.ones 64). unfold u64.
    rewrite Z.lor_spec, Z.land_spec, Z.lxor_spec, !testbit_mod_pow2, !Z.shiftl_spec, Z.land_spec by lia.
    rewrite (Hd64 i Hi). unfold width in *.
    destruct (Z.ltb_spec i 64); cbn [andb]; [|done].
    rewrite (Z.ones_spec_low 64) by lia.
    destruct (Z.leb_spec start i), (Z.leb_spec i end_); cbn [andb].
    - rewrite Z.ones_spec_low by lia. by rewrite andb_true_r, andb_false_r.
    - rewrite Z.ones_spec_high by lia. by rewrite andb_false_r, orb_false_r, andb_true_r.
    - rewrite !(Z.testbit_neg_r _ (i - start)) by lia. by rewrite orb_false_r, andb_true_r.
    - rewrite !(Z.testbit_neg_r _ (i - start)) by lia. by rewrite orb_false_r, andb_true_r. }
  set (r := Z.lor _ _) in *.
  assert (0 <= r) as Hr0.
  { unfold r. apply Z.lor_nonneg. split; [apply Z.land_nonneg; left; unfold is_u64 in Hd; lia|apply u64_range]. }
  split.
  - split; [done|]. destruct (Z.eq_dec r 0) as [->|Hz]; [lia|]. apply Z.log2_lt_pow2; [lia|].
    destruct (Z.lt_ge_cases (Z.log2 r) 64) as [|Hge]; [done|].
    pose proof (Z.bit_log2 r ltac:(lia)) as Hbit. rewrite Hb in Hbit by apply Z.log2_nonneg.
    rewrite (proj2 (Z.ltb_ge _ _)) in Hbit by lia. done.
  - intros i Hi. rewrite Hb by done. destruct (Z.ltb_spec i 64) as [|Hge]; [done|]. cbn [andb].
    replace (i <=? end_) with false by lia. rewrite andb_false_r.
    symmetry. apply (testbit_small dst 64); done || lia.
Qed.

Lemma get_set_bitfield dst v : is_u64 dst -> is_u64 v ->
  exists r, set_bitfield dst start end_ v = Ok r /\ get_bitfield r start end_ = Ok (v mod 2 ^ width).
Proof.
  intros Hd Hv. destruct (set_bitfield_spec dst v Hd Hv) as (r & E & Hu & Hb). exists r. split; [done|].
  rewrite get_bitfield_spec by done. f_equal. apply Z.bits_inj'. intros n Hn.
  rewrite !testbit_mod_pow2 by (unfold width; lia). destruct (Z.ltb_spec n width); [|done]. cbn [andb].
  rewrite Z.div_pow2_bits, Hb by lia. unfold width in *.
  replace ((start <=? n + start) && (n + start <=? end_)) with true by lia. f_equal. lia.
Qed.
End Field.

(** Given in the other order, only the bit [end_] is affected: [end] is
    computed from the [start] already overwritten. *)
Lemma bitfield_reversed start end_ : 0 <= end_ <= start -> start < 64 ->
  bitfield_range start end_ = (end_, 1).
Proof.
  intros H Hs. unfold bitfield_range. rewrite Z.min_r, Z.max_l by lia.
  rewrite (u64_id (end_ + 1)), u64_id, i32_id by (unfold is_u64; lia). f_equal. lia.
Qed.
