(* ===== verification/Gdb.v ===== *)
(** * Register access for the debugger

    [ppdl_cpu_gdb_read_register] and [ppdl_cpu_gdb_write_register] of
    [target-ppdl/gdbstub.c].  The two switches enumerate 3090 registers in
    four groups: 0 to 12 (registers and gas), 13 to 1036 (the bytes of
    [data_bus]), 1037 to 3084 (the cells of [stack_arr]) and 3085 to 3089 (the
    block's data).  The target's byte order is little-endian. *)

From stdpp Require Import base numbers list option.
From Stdlib Require Import ZArith Lia.
From S2P Require Import Prelude Words Bignum BignumSpec BignumHeap BignumStr Cpu.

(** ** Reading: the bytes put into the buffer *)

Definition gdb_get_reg8 (v : Z) : list Z := le_bytes 1 (u8 v).
Definition gdb_get_reg32 (v : Z) : list Z := le_bytes 4 (u32 v).
Definition gdb_get_reg64 (v : Z) : list Z := le_bytes 8 v.

Definition gdb_read_core (c : CPUPPDLState) (reg : Z) : list Z :=
  match reg with
  | 0 => gdb_get_reg32 (env_pc c)
  | 1 => gdb_get_reg64 (cur_addr c)
  | 2 => gdb_get_reg64 (caller_addr c)
  | 3 => gdb_get_reg64 (origin_addr c)
  | 4 => gdb_get_reg64 (gas_price c)
  | 5 => gdb_get_reg64 (ext_code_size c)
  | 6 => gdb_get_reg64 (inp_data_size c)
  | 7 => gdb_get_reg32 (log_ptr c)
  | 8 => gdb_get_reg32 (sp c)
  | 9 | 10 | 11 | 12 => gdb_get_reg64 (nth (Z.to_nat (reg - 9)) (gas_available c) 0)
  | _ => []
  end.

Definition gdb_read_data_bus (c : CPUPPDLState) (reg : Z) : list Z :=
  gdb_get_reg8 (nth (Z.to_nat (reg - 13)) (data_bus c) 0).
Definition gdb_read_stack_arr (c : CPUPPDLState) (reg : Z) : list Z :=
  gdb_get_reg64 (nth (Z.to_nat (reg - 1037)) (stack_arr c) 0).

Definition gdb_read_block (c : CPUPPDLState) (reg : Z) : list Z :=
  match reg with
  | 3085 => gdb_get_reg64 (CoinBase c)
  | 3086 => gdb_get_reg64 (TimeStamp c)
  | 3087 => gdb_get_reg64 (Number c)
  | 3088 => gdb_get_reg64 (Difficulty c)
  | 3089 => gdb_get_reg64 (GasLimit c)
  | _ => []
  end.

(** The length of the result is the value returned; none for an unknown
    register. *)
Definition ppdl_cpu_gdb_read_register (c : CPUPPDLState) (reg : Z) : list Z :=
  if (13 <=? reg) && (reg <=? 1036) then gdb_read_data_bus c reg
  else if (1037 <=? reg) && (reg <=? 3084) then gdb_read_stack_arr c reg
  else if reg <? 13 then gdb_read_core c reg
  else gdb_read_block c reg.

(** ** Writing: the value returned and the new state *)

Definition gdb_write_core (c : CPUPPDLState) (reg tmp : Z) : Z * CPUPPDLState :=
  match reg with
  | 0 => (4, set_env_pc tmp c)
  | 1 => (8, set_cur_addr tmp c)
  | 2 => (8, set_caller_addr tmp c)
  | 3 => (8, set_origin_addr tmp c)
  | 4 => (8, set_gas_price tmp c)
  | 5 => (8, set_ext_code_size tmp c)
  | 6 => (8, set_inp_data_size tmp c)
  | 7 => (4, set_log_ptr tmp c)
  | 8 => (4, set_sp tmp c)
  | 9 | 10 | 11 | 12 => (8, set_gas_available (<[Z.to_nat (reg - 9) := tmp]> (gas_available c)) c)
  | _ => (8, c)
  end.

Definition gdb_write_data_bus (c : CPUPPDLState) (reg tmp : Z) : Z * CPUPPDLState :=
  (1, set_data_bus (<[Z.to_nat (reg - 13) := tmp]> (data_bus c)) c).
Definition gdb_write_stack_arr (c : CPUPPDLState) (reg tmp : Z) : Z * CPUPPDLState :=
  (8, set_stack_arr (<[Z.to_nat (reg - 1037) := tmp]> (stack_arr c)) c).

Definition gdb_write_block (c : CPUPPDLState) (reg tmp : Z) : Z * CPUPPDLState :=
  match reg with
  | 3085 => (8, set_CoinBase tmp c)
  | 3086 => (8, set_TimeStamp tmp c)
  | 3087 => (8, set_Number tmp c)
  | 3088 => (8, set_Difficulty tmp c)
  | 3089 => (8, set_GasLimit tmp c)
  | _ => (8, c)
  end.

(** [cc->gdb_num_core_regs] as [ppdl_cpu_class_init] sets it. *)
Definition gdb_num_core_regs : Z := 152.

(** Only four bytes of the buffer are looked at. *)
Definition ppdl_cpu_gdb_write_register (c : CPUPPDLState) (mem_buf : list Z) (reg : Z) : Z * CPUPPDLState :=
  if gdb_num_core_regs <? reg then (0, c)
  else
    let tmp := le_val (take 4 mem_buf) in
    if (13 <=? reg) && (reg <=? 1036) then gdb_write_data_bus c reg tmp
    else if (1037 <=? reg) && (reg <=? 3084) then gdb_write_stack_arr c reg tmp
    else if reg <? 13 then gdb_write_core c reg tmp
    else gdb_write_block c reg tmp.

Definition ppdl_cpu_set_pc (value : Z) (c : CPUPPDLState) : CPUPPDLState := set_env_pc value c.

(** ** Properties *)

(** The sizes of the arrays. *)
Definition cpu_sized (c : CPUPPDLState) : Prop :=
  length (gas_available c) = 4%nat /\ length (data_bus c) = 1024%nat /\ length (stack_arr c) = 2048%nat.

Definition reg_size (reg : Z) : nat :=
  if (13 <=? reg) && (reg <=? 1036) then 1
  else if (reg =? 0) || (reg =? 7) || (reg =? 8) then 4 else 8.

Lemma core_cases (P : Z -> Prop) : P 0 -> P 1 -> P 2 -> P 3 -> P 4 -> P 5 -> P 6 -> P 7 -> P 8 -> P 9 -> P 10 ->
  P 11 -> P 12 -> forall r, 0 <= r < 13 -> P r.
Proof.
  intros. assert (r = 0 \/ r = 1 \/ r = 2 \/ r = 3 \/ r = 4 \/ r = 5 \/ r = 6 \/ r = 7 \/ r = 8 \/ r = 9 \/
    r = 10 \/ r = 11 \/ r = 12) as E by lia.
  repeat destruct E as [->|E]; [assumption..|by rewrite E].
Qed.

Lemma gdb_read_length c reg : cpu_sized c -> 0 <= reg <= 3089 ->
  length (ppdl_cpu_gdb_read_register c reg) = reg_size reg.
Proof.
  intros Hc Hr. unfold ppdl_cpu_gdb_read_register, reg_size.
  destruct (_ && _) eqn:E1; [done|]. destruct ((1037 <=? reg) && _) eqn:E2.
  { replace ((reg =? 0) || (reg =? 7) || (reg =? 8)) with false by lia. done. }
  destruct (Z.ltb_spec reg 13).
  - assert (0 <= reg < 13) as H0 by lia. clear -H0. revert reg H0. by apply core_cases.
  - assert (reg = 3085 \/ reg = 3086 \/ reg = 3087 \/ reg = 3088 \/ reg = 3089) as H5 by lia.
    by destruct H5 as [->|[->|[->|[->| ->]]]].
Qed.

Lemma env_pc_set v c : env_pc (set_env_pc v c) = u32 v.
Proof.
  unfold env_pc, set_env_pc. destruct c. cbn [Cpu.pc set_pc]. unfold u32 at 1.
  rewrite Z.add_comm, Z.mod_add by lia. apply Z.mod_small, u32_range.
Qed.

(** A register within the number the class announces reads back as its first
    four bytes were written. *)
Lemma gdb_write_read4 c buf0 reg : let buf := take 4 buf0 in
  cpu_sized c -> 0 <= reg <= gdb_num_core_regs -> Forall is_u8 buf -> length buf = 4%nat ->
  let '(n, c') := ppdl_cpu_gdb_write_register c buf0 reg in
  n = Z.of_nat (reg_size reg) /\ ppdl_cpu_gdb_read_register c' reg = le_bytes (reg_size reg) (le_val buf).
Proof.
  intros buf (Hg & Hb & Hs) Hr Hu Hl. unfold gdb_num_core_regs in Hr.
  unfold ppdl_cpu_gdb_write_register, gdb_num_core_regs. rewrite (proj2 (Z.ltb_ge 152 reg)) by lia.
  fold buf. clearbody buf. clear buf0. pose proof (le_val_range buf Hu) as Hv. rewrite Hl in Hv.
  change (2 ^ (8 * Z.of_nat 4)) with (2 ^ 32) in Hv.
  unfold ppdl_cpu_gdb_read_register, reg_size.
  destruct (_ && _) eqn:E1.
  { unfold gdb_write_data_bus, gdb_read_data_bus, gdb_get_reg8. split; [done|]. destruct c. cbn in Hb |- *.
    rewrite nth_lookup, list_lookup_insert_eq by lia. cbn [from_option id le_bytes]. unfold u8. by rewrite Z.mod_mod. }
  replace ((1037 <=? reg) && (reg <=? 3084)) with false by lia. rewrite (proj2 (Z.ltb_lt reg 13)) by lia.
  assert (0 <= reg < 13) as H0 by lia. clear E1 Hr. revert reg H0.
  assert (u32 (le_val buf) = le_val buf) as E32 by (by apply u32_id).
  destruct c; cbn in Hg. apply core_cases; (split; [reflexivity|]);
    try (unfold gdb_write_core, gdb_read_core, gdb_get_reg32; cbn -[le_bytes u32]; by rewrite ?E32).
  - change (gdb_get_reg32 (env_pc (set_env_pc (le_val buf) (mkCPU pc input_data caller_addr inp_data_size gas_price
      log_ptr cur_addr log_bus origin_addr ext_code_size stack_arr counter mem_size sp GasLimit Number is_pc_const_changed
      Difficulty gas_available TimeStamp CoinBase data_bus is_pc_within_inst elfSize sr eear))) = le_bytes 4 (le_val buf)).
    unfold gdb_get_reg32. by rewrite env_pc_set, !E32.
  - destruct gas_available as [|g0 [|g1 [|g2 [|g3 [|]]]]]; done.
  - destruct gas_available as [|g0 [|g1 [|g2 [|g3 [|]]]]]; done.
  - destruct gas_available as [|g0 [|g1 [|g2 [|g3 [|]]]]]; done.
  - destruct gas_available as [|g0 [|g1 [|g2 [|g3 [|]]]]]; done.
Qed.

Lemma le_bytes_low (a b c d : Z) n : Forall is_u8 [a; b; c; d] -> (n = 1 \/ n = 4 \/ n = 8)%nat ->
  le_bytes n (le_val [a; b; c; d]) = take n [a; b; c; d; 0; 0; 0; 0].
Proof.
  intros Hu Hn. destruct Hn as [->|[->| ->]].
  - inversion Hu as [|? ? Ha]. unfold is_u8 in Ha. cbn [le_bytes le_val take]. f_equal. dm.
  - exact (le_bytes_val [a; b; c; d] Hu).
  - assert (Forall is_u8 ([a; b; c; d] ++ [0; 0; 0; 0])) as H8 by (apply Forall_app_2; [exact Hu|by repeat constructor]).
    transitivity (le_bytes 8 (le_val ([a; b; c; d] ++ [0; 0; 0; 0]))); [|exact (le_bytes_val _ H8)].
    reflexivity.
Qed.

Lemma reg_size_cases reg : (reg_size reg = 1 \/ reg_size reg = 4 \/ reg_size reg = 8)%nat.
Proof. unfold reg_size. destruct (_ && _); [auto|]. destruct (_ || _); auto. Qed.

(** Whatever the register's size, four bytes of the buffer count. *)
Lemma gdb_write_read c buf reg :
  cpu_sized c -> 0 <= reg <= gdb_num_core_regs -> Forall is_u8 buf -> (4 <= length buf)%nat ->
  let '(n, c') := ppdl_cpu_gdb_write_register c buf reg in
  n = Z.of_nat (reg_size reg) /\
  ppdl_cpu_gdb_read_register c' reg = take (reg_size reg) (take 4 buf ++ [0; 0; 0; 0]).
Proof.
  intros Hc Hr Hu Hl. destruct buf as [|b0 [|b1 [|b2 [|b3 buf]]]]; cbn [length] in Hl; try lia.
  assert (Forall is_u8 [b0; b1; b2; b3]) as Hu4 by exact (Forall_take is_u8 4 _ Hu).
  pose proof (gdb_write_read4 c (b0 :: b1 :: b2 :: b3 :: buf) reg Hc Hr Hu4 eq_refl) as H.
  destruct (ppdl_cpu_gdb_write_register _ _ _) as [n c']. destruct H as [Hn ->]. split; [exact Hn|].
  exact (le_bytes_low b0 b1 b2 b3 (reg_size reg) Hu4 (reg_size_cases reg)).
Qed.

(** Reads look at one register each. *)
Lemma gdb_read_ext c c' reg :
  data_bus c' = data_bus c -> stack_arr c' = stack_arr c -> CoinBase c' = CoinBase c ->
  TimeStamp c' = TimeStamp c -> Number c' = Number c -> Difficulty c' = Difficulty c -> GasLimit c' = GasLimit c ->
  (0 <= reg < 13 -> gdb_read_core c' reg = gdb_read_core c reg) -> 0 <= reg ->
  ppdl_cpu_gdb_read_register c' reg = ppdl_cpu_gdb_read_register c reg.
Proof.
  intros E1 E2 E3 E4 E5 E6 E7 Hc H0.
  unfold ppdl_cpu_gdb_read_register, gdb_read_data_bus, gdb_read_stack_arr, gdb_read_block.
  rewrite E1, E2, E3, E4, E5, E6, E7. destruct (Z.ltb_spec reg 13); [by rewrite Hc by lia|done].
Qed.

Lemma gdb_core_frame c reg tmp : 0 <= reg < 13 -> forall reg', 0 <= reg' < 13 -> reg' <> reg ->
  length (gas_available c) = 4%nat ->
  gdb_read_core (gdb_write_core c reg tmp).2 reg' = gdb_read_core c reg'.
Proof.
  intros Hr reg' Hr' Hne Hg.
  destruct c as [? ? ? ? ? ? ? ? ? ? ? ? ? ? ? ? ? ? ga]. cbn in Hg.
  destruct ga as [|g0 [|g1 [|g2 [|g3 [|]]]]]; try done. clear Hg.
  set (c := mkCPU _ _ _ _ _ _ _ _ _ _ _ _ _ _ _ _ _ _ _ _ _ _ _ _ _ _).
  apply (core_cases (fun reg => reg' <> reg ->
    gdb_read_core (gdb_write_core c reg tmp).2 reg' = gdb_read_core c reg')); try done; clear Hne Hr reg;
  intros Hne; revert reg' Hr' Hne;
  match goal with |- forall r, _ -> r <> ?k -> _ =>
    apply (core_cases (fun r => r <> k -> gdb_read_core (gdb_write_core c k tmp).2 r = gdb_read_core c r)) end;
  done.
Qed.

(** A write changes no other register, and above the announced number none. *)
Lemma gdb_write_frame c buf reg reg' :
  cpu_sized c -> 0 <= reg -> 0 <= reg' -> reg' <> reg ->
  ppdl_cpu_gdb_read_register (ppdl_cpu_gdb_write_register c buf reg).2 reg' =
  ppdl_cpu_gdb_read_register c reg'.
Proof.
  intros (Hg & Hb & Hs) Hr Hr' Hne. unfold ppdl_cpu_gdb_write_register.
  destruct (Z.ltb_spec gdb_num_core_regs reg) as [|H152]; [done|]. unfold gdb_num_core_regs in H152.
  set (tmp := le_val _). destruct (_ && _) eqn:E1.
  { unfold gdb_write_data_bus, ppdl_cpu_gdb_read_register, gdb_read_data_bus. destruct c. cbn [snd Cpu.data_bus set_data_bus].
    destruct ((13 <=? reg') && _) eqn:E2; [|done]. f_equal. rewrite !nth_lookup.
    rewrite list_lookup_insert_ne by lia. done. }
  replace ((1037 <=? reg) && (reg <=? 3084)) with false by lia. rewrite (proj2 (Z.ltb_lt reg 13)) by lia.
  assert (0 <= reg < 13) as H13 by lia.
  apply gdb_read_ext; try done; [..|intros; apply gdb_core_frame; done];
    clear -H13; revert reg H13; apply core_cases; by destruct c.
Qed.
