(* ===== verification/Mmu.v ===== *)
(** * Address translation

    [target-ppdl/mmu.c], [tlb_fill] of [target-ppdl/mmu_helper.c] and the
    exception helpers of [target-ppdl/op_helper.c].  The TLBs have one way of
    64 entries; which of the two translation functions is used is a pointer in
    the TLB context, here a flag. *)

From stdpp Require Import base numbers list option.
From Stdlib Require Import ZArith Lia.
From S2P Require Import Prelude.

(** ** State *)

Record PPDLTLBEntry := mkEntry { mr : Z; tr : Z }.

(** What [cpu_ppdl_map_address_code] and [..._data] point at. *)
Inductive map_fn := get_phys_nommu | get_phys_tlb.

Record mmu := mkMmu {
  itlb : list PPDLTLBEntry;
  dtlb : list PPDLTLBEntry;
  map_address_code : map_fn;
  map_address_data : map_fn;
  mmu_sr : Z;                  (* env.sr *)
  mmu_eear : Z;                (* env.eear *)
  exception_index : Z
}.

Definition TARGET_PAGE_BITS : Z := 8.
Definition TLB_MASK : Z := 63.

Definition PAGE_READ : Z := 1.
Definition PAGE_WRITE : Z := 2.
Definition PAGE_EXEC : Z := 4.
Definition SR_SM : Z := 1.
Definition URE : Z := 64.
Definition UWE : Z := 128.
Definition SRE : Z := 256.
Definition SWE : Z := 512.
Definition SXE : Z := 64.
Definition UXE : Z := 128.

Inductive tlbret := TLBRET_INVALID | TLBRET_NOMATCH | TLBRET_BADADDR | TLBRET_MATCH (physical prot : Z).

Definition EXCP_DPF : Z := 3.
Definition EXCP_IPF : Z := 4.
Definition EXCP_DTLBMISS : Z := 9.
Definition EXCP_ITLBMISS : Z := 10.

(** ** Translation *)

Definition cpu_ppdl_get_phys_nommu (address : Z) : tlbret :=
  TLBRET_MATCH address (Z.lor (Z.lor PAGE_READ PAGE_WRITE) PAGE_EXEC).

(** [*physical = (tr & TARGET_PAGE_MASK) | (address & (TARGET_PAGE_SIZE-1))] *)
Definition phys_of (tr address : Z) : Z :=
  Z.lor (Z.land tr (u32 (- 256))) (Z.land address 255).

Definition has (v bit : Z) : bool := negb (Z.land v bit =? 0).

Definition entry_at (tlb : list PPDLTLBEntry) (vpn : Z) : PPDLTLBEntry :=
  nth (Z.to_nat (Z.land vpn TLB_MASK)) tlb (mkEntry 0 0).

Definition cpu_ppdl_get_phys_code (s : mmu) (address rw : Z) : tlbret :=
  let vpn := i32 (Z.shiftr address TARGET_PAGE_BITS) in
  let e := entry_at (itlb s) vpn in
  if negb (Z.shiftr (mr e) TARGET_PAGE_BITS =? u32 vpn) then TLBRET_NOMATCH
  else if negb (has (mr e) 1) then TLBRET_INVALID
  else
    let right :=
      if has (mmu_sr s) SR_SM
      then if has (tr e) SXE then PAGE_EXEC else 0
      else if has (tr e) UXE then PAGE_EXEC else 0 in
    if has rw 2 && (Z.land right PAGE_EXEC =? 0) then TLBRET_BADADDR
    else TLBRET_MATCH (phys_of (tr e) address) right.

Definition cpu_ppdl_get_phys_data (s : mmu) (address rw : Z) : tlbret :=
  let vpn := i32 (Z.shiftr address TARGET_PAGE_BITS) in
  let e := entry_at (dtlb s) vpn in
  if negb (Z.shiftr (mr e) TARGET_PAGE_BITS =? u32 vpn) then TLBRET_NOMATCH
  else if negb (has (mr e) 1) then TLBRET_INVALID
  else
    let '(re, we) := if has (mmu_sr s) SR_SM then (SRE, SWE) else (URE, UWE) in
    let right := if has (tr e) re then PAGE_READ else 0 in
    let right := if has (tr e) we then Z.lor right PAGE_WRITE else right in
    if negb (has rw 1) && (Z.land right PAGE_READ =? 0) then TLBRET_BADADDR
    else if has rw 1 && (Z.land right PAGE_WRITE =? 0) then TLBRET_BADADDR
    else TLBRET_MATCH (phys_of (tr e) address) right.

Definition call_map (f : map_fn) (tlb : mmu -> Z -> Z -> tlbret) (s : mmu) (address rw : Z) : tlbret :=
  match f with
  | get_phys_nommu => cpu_ppdl_get_phys_nommu address
  | get_phys_tlb => tlb s address rw
  end.

Definition cpu_ppdl_get_phys_addr (s : mmu) (address rw : Z) : tlbret :=
  if rw =? 2 then call_map (map_address_code s) cpu_ppdl_get_phys_code s address rw
  else call_map (map_address_data s) cpu_ppdl_get_phys_data s address rw.

(** ** Faults *)

Definition cpu_ppdl_raise_mmu_exception (s : mmu) (address rw : Z) (tlb_error : tlbret) : mmu :=
  let exception :=
    match tlb_error with
    | TLBRET_INVALID | TLBRET_NOMATCH => if rw =? 2 then EXCP_ITLBMISS else EXCP_DTLBMISS
    | _ => if rw =? 2 then EXCP_IPF else EXCP_DPF
    end in
  mkMmu (itlb s) (dtlb s) (map_address_code s) (map_address_data s) (mmu_sr s) address exception.

(** The page handed to [tlb_set_page]: virtual, physical, protection. *)
Record page := mkPage { pg_virt : Z; pg_phys : Z; pg_prot : Z }.
Definition page_mask (a : Z) : Z := Z.land a (u64 (- 256)).

(** The value returned, the page entered and the new state. *)
Definition ppdl_cpu_handle_mmu_fault (s : mmu) (address rw : Z) : Z * option page * mmu :=
  match cpu_ppdl_get_phys_addr s address rw with
  | TLBRET_MATCH physical prot => (0, Some (mkPage (page_mask address) (page_mask physical) prot), s)
  | err => (1, None, cpu_ppdl_raise_mmu_exception s address rw err)
  end.

Definition ppdl_cpu_get_phys_page_debug (s : mmu) (addr : Z) : Z :=
  match cpu_ppdl_get_phys_addr s addr 0 with
  | TLBRET_MATCH physical _ => physical
  | _ => u64 (-1)
  end.

Definition cpu_ppdl_mmu_init (s : mmu) : mmu :=
  mkMmu (replicate 64 (mkEntry 0 0)) (replicate 64 (mkEntry 0 0)) get_phys_nommu get_phys_nommu
    (mmu_sr s) (mmu_eear s) (exception_index s).

(** [tlb_fill]: the CPU loop is left with the exception. *)
Definition tlb_fill (s : mmu) (addr is_write : Z) : outcome (option page) :=
  let '(ret, pg, s') := ppdl_cpu_handle_mmu_fault s addr is_write in
  if negb (ret =? 0) then Raise (exception_index s') else Ok pg.

Definition raise_exception {A} (tt : Z) : outcome A := Raise tt.

Definition ppdl_cpu_unassigned_access {A} (is_exec : bool) : outcome A :=
  if is_exec then raise_exception 16 else raise_exception 17.

(** ** Properties *)

(** After [cpu_ppdl_mmu_init] every address is its own translation with every
    right, and no access faults. *)
Lemma mmu_init_identity s address rw : is_u64 address ->
  tlb_fill (cpu_ppdl_mmu_init s) address rw = Ok (Some (mkPage (page_mask address) (page_mask address) 7)) /\
  ppdl_cpu_get_phys_page_debug (cpu_ppdl_mmu_init s) address = address.
Proof.
  intros _. unfold tlb_fill, ppdl_cpu_handle_mmu_fault, ppdl_cpu_get_phys_page_debug, cpu_ppdl_get_phys_addr.
  by destruct (rw =? 2).
Qed.

Lemma phys_of_split tr address : is_u32 tr -> 0 <= address ->
  phys_of tr address = tr / 256 * 256 + address mod 256.
Proof.
  intros Ht Ha. unfold phys_of. change 255 with (Z.ones 8). rewrite Z.land_ones by lia.
  assert (Z.land tr (u32 (- 256)) = tr / 2 ^ 8 * 2 ^ 8) as ->.
  { change (u32 (-256)) with (Z.shiftl (Z.ones 24) 8).
    apply Z.bits_inj'. intros n Hn. rewrite Z.land_spec, Z.shiftl_spec by lia.
    rewrite <- Z.shiftl_mul_pow2, Z.shiftl_spec, <- Z.shiftr_div_pow2 by lia.
    destruct (Z.lt_ge_cases n 8); [rewrite !(Z.testbit_neg_r _ (n - 8)) by lia; apply andb_false_r|].
    rewrite Z.shiftr_spec by lia. replace (n - 8 + 8) with n by lia.
    destruct (Z.lt_ge_cases n 32).
    - rewrite Z.ones_spec_low by lia. apply andb_true_r.
    - rewrite (testbit_small tr 32) by done. done. }
  rewrite Z.lor_comm, (lor_add _ _ 8); [change (2 ^ 8) with 256; lia|lia|]. apply Z.mod_pos_bound. lia.
Qed.

Lemma get_phys_data_inv s address rw physical prot :
  cpu_ppdl_get_phys_data s address rw = TLBRET_MATCH physical prot ->
  let e := entry_at (dtlb s) (i32 (address / 256)) in
  let '(re, we) := if has (mmu_sr s) SR_SM then (SRE, SWE) else (URE, UWE) in
  mr e / 256 = (address / 256) mod 2 ^ 32 /\ has (mr e) 1 = true /\
  physical = phys_of (tr e) address /\ (if has rw 1 then has (tr e) we else has (tr e) re) = true.
Proof.
  intros H. unfold cpu_ppdl_get_phys_data, TARGET_PAGE_BITS in H. rewrite !Z.shiftr_div_pow2 in H by lia.
  change (2 ^ 8) with 256 in H. set (e := entry_at _ _) in *. cbn zeta.
  destruct (Z.eqb_spec (mr e / 256) (u32 (i32 (address / 256)))) as [E|E]; [|done]. cbn [negb] in H.
  destruct (has (mr e) 1) eqn:Ev; [|done]. cbn [negb] in H.
  assert (u32 (i32 (address / 256)) = (address / 256) mod 2 ^ 32) as E32 by (unfold u32, i32; dm).
  destruct (has (mmu_sr s) SR_SM);
    destruct (has (tr e) _) eqn:E1 in H; destruct (has (tr e) _) eqn:E2 in H; destruct (has rw 1);
    cbn in H; try discriminate H; injection H as <- _; rewrite <- E32; auto.
Qed.

Lemma get_phys_code_inv s address physical prot :
  cpu_ppdl_get_phys_code s address 2 = TLBRET_MATCH physical prot ->
  let e := entry_at (itlb s) (i32 (address / 256)) in
  mr e / 256 = (address / 256) mod 2 ^ 32 /\ has (mr e) 1 = true /\
  physical = phys_of (tr e) address /\
  has (tr e) (if has (mmu_sr s) SR_SM then SXE else UXE) = true.
Proof.
  intros H. unfold cpu_ppdl_get_phys_code, TARGET_PAGE_BITS in H. rewrite !Z.shiftr_div_pow2 in H by lia.
  change (2 ^ 8) with 256 in H. set (e := entry_at _ _) in *. cbn zeta.
  destruct (Z.eqb_spec (mr e / 256) (u32 (i32 (address / 256)))) as [E|E]; [|done]. cbn [negb] in H.
  destruct (has (mr e) 1) eqn:Ev; [|done]. cbn [negb] in H.
  assert (u32 (i32 (address / 256)) = (address / 256) mod 2 ^ 32) as E32 by (unfold u32, i32; dm).
  destruct (has (mmu_sr s) SR_SM); destruct (has (tr e) _) eqn:E1 in H;
    cbn in H; try discriminate H; injection H as <- _; rewrite <- E32; auto.
Qed.
