(* ===== verification/GuestMem.v ===== *)
(** * Loads and stores of guest code

    [helper_mem_ld64], [helper_mem_ld32], [helper_mem_st64] and
    [helper_mem_st32] of [target-ppdl/semihosting_helper.c], as compiled for the
    system emulator without the TLM bridge.  Addresses of four-byte words in
    the device window are reported and not accessed; everything else is the
    guest's memory.  [memtrace] is the memory tracer's filter.  The byte load
    [helper_mem_ld8] is with PUSH, its only user, in [Helpers]. *)

From stdpp Require Import base numbers list option strings.
From Stdlib Require Import ZArith Lia.
From S2P Require Import Prelude Words Bignum BignumSpec BignumHeap BignumStr Cpu.

(** ** The guest's memory *)

Definition in_ram (addr : Z) (n : nat) (r : guest_ram) : bool :=
  (0 <=? addr) && (addr + Z.of_nat n <=? ram_size r).

(** [cpu_ldq_data], [cpu_ldl_data]: [n] bytes, least significant first. *)
Definition ram_load (n : nat) (addr : Z) (r : guest_ram) : outcome Z :=
  if in_ram addr n r
  then Ok (le_val (map (fun i => nth (Z.to_nat addr + i) (ram_bytes r) 0) (seq 0 n)))
  else Raise 17.

(** [cpu_stq_data], [cpu_stl_data] *)
Definition ram_store (n : nat) (addr v : Z) (r : guest_ram) : outcome guest_ram :=
  if in_ram addr n r then
    let a := Z.to_nat addr in
    let l := ram_bytes r ++ replicate (a + n - length (ram_bytes r)) 0 in
    Ok (mkRam (take a l ++ le_bytes n v ++ drop (a + n) l) (ram_size r))
  else Raise 17.

(** ** The helpers *)

Definition START_DEVICES : Z := 0x10000000.
Definition END_DEVICES : Z := 0x1FFFFFFF.

(** Memory of devices, according to its comment, is from 0x10000000 to
    0x1FFFFFFF; the comparisons leave both ends out. *)
Definition device_window (a : Z) : bool := (START_DEVICES <? a) && (a <? END_DEVICES).

Definition device_warning (a : Z) : list Z :=
  codes "warning: access to memory of devices: " ++ fmt_x HEXDIG 0 a ++ [10].
Definition trace_line (what : string) (a data : Z) : list Z :=
  codes what ++ fmt_x HEXDIG 0 a ++ codes ", data: " ++ fmt_x HEXDIG 0 data ++ [10].

Section Helpers.
Context (memtrace : Z -> bool).

(** The two branches on [START_PPDL_RAM] are the same without custom memory. *)
Definition helper_mem_ld64 (addr : Z) (m : machine) : outcome (Z * machine) :=
  let _addr := Z.shiftr addr 2 in
  if device_window _addr then Ok (0, print (device_warning _addr) m)
  else
    let* data := ram_load 8 addr (ram m) in
    Ok (data, if memtrace _addr then print (trace_line "mem load 64: addr: " _addr data) m else m).

Definition helper_mem_ld32 (addr : Z) (m : machine) : outcome (Z * machine) :=
  let _addr := Z.shiftr addr 2 in
  if device_window _addr then Ok (0, print (device_warning _addr) m)
  else
    let* data := ram_load 4 addr (ram m) in
    Ok (data, if memtrace _addr then print (trace_line "mem load 32: addr: " _addr data) m else m).

Definition set_ram (r : guest_ram) (m : machine) : machine :=
  mkMachine (cpu m) (bn m) (mainStorage m) r (envSaved m) (changed_pc m) (stdout m).

(** A store is traced before the window is checked. *)
Definition helper_mem_st64 (addr data : Z) (m : machine) : outcome machine :=
  let _addr := Z.shiftr addr 2 in
  let m := if memtrace _addr then print (trace_line "mem store 64: addr: " _addr data) m else m in
  if device_window _addr then Ok (print (device_warning _addr) m)
  else let* r := ram_store 8 addr data (ram m) in Ok (set_ram r m).

Definition helper_mem_st32 (addr data : Z) (m : machine) : outcome machine :=
  let _addr := Z.shiftr addr 2 in
  let m := if memtrace _addr then print (trace_line "mem store 32: addr: " _addr data) m else m in
  if device_window _addr then Ok (print (device_warning _addr) m)
  else let* r := ram_store 4 addr (u32 data) (ram m) in Ok (set_ram r m).
End Helpers.

(** ** Properties *)

Lemma length_store n addr v r r' : ram_store n addr v r = Ok r' ->
  ram_size r' = ram_size r /\
  length (ram_bytes r') = Nat.max (length (ram_bytes r)) (Z.to_nat addr + n).
Proof.
  unfold ram_store. intros H. destruct (in_ram addr n r); [|done]. injection H as <-. split; [done|].
  cbn [ram_bytes]. rewrite !length_app, length_take, length_drop, length_le_bytes, length_app, length_replicate. lia.
Qed.

(** Each byte after a store. *)
Lemma store_byte n addr v r r' i : 0 <= addr -> ram_store n addr v r = Ok r' ->
  nth i (ram_bytes r') 0 =
  if ((Z.to_nat addr <=? i) && (i <? Z.to_nat addr + n))%nat
  then nth (i - Z.to_nat addr) (le_bytes n v) 0 else nth i (ram_bytes r) 0.
Proof.
  unfold ram_store. intros Ha H. destruct (in_ram addr n r); [|done]. injection H as <-. cbn [ram_bytes].
  set (a := Z.to_nat addr). set (l := ram_bytes r ++ _).
  assert (a + n <= length l)%nat as Hl by (unfold l; rewrite length_app, length_replicate; lia).
  assert (forall j, nth j l 0 = nth j (ram_bytes r) 0) as El.
  { intros j. unfold l. destruct (Nat.lt_ge_cases j (length (ram_bytes r))).
    - by rewrite app_nth1.
    - rewrite app_nth2 by lia. rewrite (nth_overflow (ram_bytes r)) by lia. rewrite nth_lookup.
      destruct (_ !! _) eqn:E; [by apply lookup_replicate in E as [-> _]|done]. }
  destruct (Nat.leb_spec a i); cbn [andb].
  - rewrite app_nth2; rewrite length_take; [|lia]. replace (i - Nat.min a (length l))%nat with (i - a)%nat by lia.
    destruct (Nat.ltb_spec i (a + n)).
    + rewrite app_nth1 by (rewrite length_le_bytes; lia). done.
    + rewrite app_nth2; rewrite length_le_bytes; [|lia]. rewrite nth_lookup, lookup_drop, <- nth_lookup, <- El.
      f_equal. lia.
  - rewrite app_nth1 by (rewrite length_take; lia). rewrite nth_lookup, lookup_take_lt, <- nth_lookup by lia. apply El.
Qed.

(** What is stored is loaded back. *)
Lemma ram_load_store n addr v r r' : 0 <= v -> ram_store n addr v r = Ok r' ->
  ram_load n addr r' = Ok (v mod 2 ^ (8 * Z.of_nat n)).
Proof.
  intros Hv H. pose proof (length_store _ _ _ _ _ H) as [Hs _].
  assert (in_ram addr n r = true) as Hin by (unfold ram_store in H; by destruct (in_ram addr n r)).
  assert (0 <= addr) as Ha by (unfold in_ram in Hin; lia).
  unfold ram_load, in_ram in *. rewrite Hs, Hin. f_equal. rewrite <- le_val_bytes by done. f_equal.
  apply list_eq. intros i. destruct (Nat.lt_ge_cases i n) as [Hi|Hi].
  - rewrite list_lookup_fmap, lookup_seq_lt by lia. cbn.
    rewrite (store_byte _ _ _ _ _ _ Ha H). rewrite (proj2 (Nat.leb_le _ _)), (proj2 (Nat.ltb_lt _ _)) by lia. cbn [andb].
    replace (Z.to_nat addr + i - Z.to_nat addr)%nat with i by lia.
    rewrite nth_lookup. destruct (le_bytes n v !! i) eqn:E; [done|].
    apply lookup_ge_None_1 in E. rewrite length_le_bytes in E. lia.
  - rewrite !lookup_ge_None_2; [done|rewrite length_le_bytes; lia|rewrite length_map, length_seq; lia].
Qed.
