(* ===== verification/Loader.v ===== *)
(** * The image loader

    [hw/core/loader.c] as built for the EVM: the program is a text of
    hexadecimal digits, which [rom_add_file] turns into bytes; images wait in a
    list ordered by address and are copied into memory at reset
    ([rom_load_all], [rom_reset]).  [write_rom] is
    [cpu_physical_memory_write_rom] of [exec.c] on a machine whose only memory
    is one RAM region. *)

From stdpp Require Import base numbers list option strings.
From Stdlib Require Import ZArith Lia Sorted.
From S2P Require Import Prelude Words Bignum BignumSpec BignumHeap BignumStr Cpu GuestMem.

(** A file that can be opened: its bytes, and what [read] of all of them
    returns. *)
Record image := mkImage { contents : list Z; read_rc : Z }.
Definition image_size (f : image) : Z := Z.of_nat (length (contents f)).
Definition INT_MAX : Z := 2 ^ 31 - 1.

(** [struct Rom]; the name and the path are left out, [fw_file] and [mr] are
    kept as whether they are set. *)
Record Rom := mkRom {
  rom_addr : Z;
  romsize : Z;
  datasize : Z;
  rom_data : option (list Z);
  fw_file : bool;
  rom_mr : bool;
  isrom : bool
}.

(** The file's globals and [end_pc]. *)
Record loader := mkLoader { roms : list Rom; roms_loaded : bool; end_pc : Z }.
Definition loader_init : loader := mkLoader [] false 0.

(** ** The list of images *)

Fixpoint insert_before (rom : Rom) (l : list Rom) : list Rom :=
  match l with
  | [] => [rom]
  | item :: l' =>
      if rom_addr item <=? rom_addr rom then item :: insert_before rom l' else rom :: item :: l'
  end.

(** What [g_malloc0] gives for so many bytes: NULL for none. *)
Definition g_data (data : list Z) : option (list Z) := match data with [] => None | _ => Some data end.

(** [None] is the abort of [hw_error]. *)
Definition rom_insert (rom : Rom) (s : loader) : option loader :=
  if roms_loaded s then None
  else Some (mkLoader (insert_before rom (roms s)) (roms_loaded s) (end_pc s)).

(** ** Hexadecimal text *)

(** Digits have their value; any other character is taken as it is. *)
Definition hex_nibble (c : Z) : Z :=
  if (0x30 <=? c) && (c <=? 0x39) then c - 0x30
  else if (0x41 <=? c) && (c <=? 0x46) then c - 0x41 + 0xA
  else if (0x61 <=? c) && (c <=? 0x66) then c - 0x61 + 0xA
  else c.

(** [for (k = 0; k < rom->datasize; k++)]: [t0] and [t1] are [tmp_data], [i] is
    the number of bytes written. *)
Fixpoint hex_loop (origin : list Z) (k : nat) (t0 t1 : Z) (i : nat) (data : list Z) : list Z :=
  match origin with
  | [] => data
  | c :: origin' =>
      let index := Nat.odd k in
      let t0 := if index then t0 else u8 (hex_nibble c) in
      let t1 := if index then u8 (hex_nibble c) else t1 in
      if index then hex_loop origin' (S k) t0 t1 (S i) (<[i := u8 (Z.shiftl t0 4 + t1)]> data)
      else hex_loop origin' (S k) t0 t1 i data
  end.

(** [rom_add_file] without a firmware directory.  [end_pc] is set before the
    result of [read] is looked at; [rc] is an [int].  The counter [k] of the loop
    is an [int] too: it overflows when the file has more than [INT_MAX] bytes,
    which is undefined ([None], as for the abort of [hw_error]). *)
Definition rom_add_file (f : option image) (addr : Z) (s : loader) : option (Z * loader) :=
  match f with
  | None => Some (-1, s)
  | Some f =>
      if INT_MAX <? image_size f then None else
      let size := length (contents f) in
      let got := Z.to_nat (read_rc f) in
      let rc := i32 (read_rc f) in
      let origin_data := take got (contents f) ++ replicate (size - got) 0 in
      let data := hex_loop origin_data 0 0 0 0 (replicate (size / 2) 0) in
      let dsize := image_size f / 2 in
      let s := mkLoader (roms s) (roms_loaded s) dsize in
      if Z.quot rc 2 =? dsize then
        match rom_insert (mkRom addr (image_size f) dsize (g_data data) false false false) s with
        | Some s => Some (0, s)
        | None => None
        end
      else Some (-1, s)
  end.

(** [abort()]. *)
Definition of_abort {A} (r : option A) : outcome A := match r with Some a => Ok a | None => Undef end.

Definition rom_add_blob (blob : list Z) (addr : Z) (s : loader) : option loader :=
  let len := Z.of_nat (length blob) in
  rom_insert (mkRom addr len len (g_data blob) false false false) s.

Definition rom_add_elf_program (data : option (list Z)) (datasize romsize addr : Z) (s : loader) : option loader :=
  rom_insert (mkRom addr romsize datasize data false false false) s.

(** [size] is an [int]: what [lseek] gives is cut to 32 bits, so that a file of
    2 GiB or more may have a negative size. *)
Definition get_image_size (f : option image) : Z :=
  match f with None => -1 | Some f => i32 (image_size f) end.

(** The comparison of [size] with [max_sz] is unsigned, the result of
    [rom_add_file] is not looked at. *)
Definition load_image_targphys (f : option image) (addr max_sz : Z) (s : loader) : option (Z * loader) :=
  let size := get_image_size f in
  if max_sz <? u64 size then Some (-1, s)
  else if 0 <? size then
    match rom_add_file f addr s with
    | Some (_, s) => Some (size, s)
    | None => None
    end
  else Some (size, s).

(** ** Loading at reset *)

(** [addr] is the end of the image before; the only region the board maps is
    RAM, so that no image is in ROM.  [None]: the regions overlap. *)
Fixpoint rom_load_loop (addr : Z) (l : list Rom) : option (list Rom) :=
  match l with
  | [] => Some []
  | rom :: l' =>
      if fw_file rom then option_map (cons rom) (rom_load_loop addr l')
      else if rom_addr rom <? addr then None
      else
        let rom' := mkRom (rom_addr rom) (romsize rom) (datasize rom) (rom_data rom) (fw_file rom) (rom_mr rom) false in
        option_map (cons rom') (rom_load_loop (u64 (rom_addr rom + romsize rom)) l')
  end.

Definition rom_load_all (s : loader) : option loader :=
  match rom_load_loop 0 (roms s) with
  | Some l => Some (mkLoader l (roms_loaded s) (end_pc s))
  | None => None
  end.

Definition rom_load_done (s : loader) : loader := mkLoader (roms s) true (end_pc s).

(** One byte into memory; nothing outside the RAM. *)
Definition write_byte (addr b : Z) (r : guest_ram) : guest_ram :=
  if (0 <=? addr) && (addr <? ram_size r) then
    let a := Z.to_nat addr in
    let l := ram_bytes r ++ replicate (S a - length (ram_bytes r)) 0 in
    mkRam (<[a := b]> l) (ram_size r)
  else r.

(** [cpu_physical_memory_write_rom]; its [int len] holds the length of every
    image the loaders make (at most [INT_MAX] bytes). *)
Fixpoint write_rom (addr : Z) (data : list Z) (r : guest_ram) : guest_ram :=
  match data with
  | [] => r
  | b :: data' => write_rom (addr + 1) data' (write_byte addr b r)
  end.

(** An image in a memory region of its own ([mr]) is not in the RAM; an image
    in ROM is written once. *)
Definition rom_reset_one (rom : Rom) (r : guest_ram) : Rom * guest_ram :=
  if fw_file rom then (rom, r)
  else
    match rom_data rom with
    | None => (rom, r)
    | Some data =>
        let r := if rom_mr rom then r else write_rom (rom_addr rom) (take (Z.to_nat (datasize rom)) data) r in
        let rom_data' := if isrom rom then None else Some data in
        (mkRom (rom_addr rom) (romsize rom) (datasize rom) rom_data' (fw_file rom) (rom_mr rom) (isrom rom), r)
    end.

Fixpoint rom_reset (l : list Rom) (r : guest_ram) : list Rom * guest_ram :=
  match l with
  | [] => ([], r)
  | rom :: l' =>
      let '(rom, r) := rom_reset_one rom r in
      let '(l', r) := rom_reset l' r in
      (rom :: l', r)
  end.

(** ** Images as the monitor and the board look at them *)

Fixpoint find_rom (addr : Z) (l : list Rom) : option Rom :=
  match l with
  | [] => None
  | rom :: l' =>
      if fw_file rom then find_rom addr l'
      else if rom_mr rom then find_rom addr l'
      else if addr <? rom_addr rom then find_rom addr l'
      else if u64 (rom_addr rom + romsize rom) <? addr then find_rom addr l'
      else Some rom
  end.

(** The offset into the data of the image [find_rom] gives; [None] for NULL. *)
Definition rom_ptr (addr : Z) (s : loader) : option (list Z * Z) :=
  match find_rom addr (roms s) with
  | None => None
  | Some rom =>
      match rom_data rom with
      | None => None
      | Some data => Some (data, addr - rom_addr rom)
      end
  end.

(** ** What the text decodes to *)

(** Two characters per byte; a last odd character is dropped. *)
Fixpoint hex_pairs (text : list Z) : list Z :=
  match text with
  | c1 :: c2 :: text' => u8 (16 * hex_nibble c1 + hex_nibble c2) :: hex_pairs text'
  | _ => []
  end.

Definition is_hex (c : Z) : Prop :=
  0x30 <= c <= 0x39 \/ 0x41 <= c <= 0x46 \/ 0x61 <= c <= 0x66.

Lemma hex_pairs_ind (P : list Z -> Prop) :
  P [] -> (forall c, P [c]) -> (forall c1 c2 t, P t -> P (c1 :: c2 :: t)) -> forall t, P t.
Proof.
  intros H0 H1 H2. fix IH 1. intros [|c1 [|c2 t]]; [done|apply H1|]. apply H2, IH.
Qed.

Lemma length_hex_pairs t : length (hex_pairs t) = (length t / 2)%nat.
Proof.
  induction t as [|c|c1 c2 t IH] using hex_pairs_ind; [done|done|]. cbn [hex_pairs length].
  rewrite IH. replace (S (S (length t))) with (length t + 1 * 2)%nat by lia. rewrite Nat.div_add by lia. lia.
Qed.

Lemma length_hex_pairs_le t : (length (hex_pairs t) <= length t)%nat.
Proof. induction t using hex_pairs_ind; simpl; lia. Qed.

Lemma byte_of_nibbles a b : u8 (Z.shiftl (u8 a) 4 + u8 b) = u8 (16 * a + b).
Proof. unfold u8. rewrite Z.shiftl_mul_pow2 by lia. dm. Qed.

Lemma list_insert_middle (l k : list Z) x y : <[length l := y]> (l ++ x :: k) = l ++ y :: k.
Proof. induction l as [|z l IH]; [done|]. simpl. by f_equal. Qed.

Lemma hex_loop_pairs t k t0 t1 (done_ rest : list Z) :
  Nat.odd k = false -> length rest = (length t / 2)%nat ->
  hex_loop t k t0 t1 (length done_) (done_ ++ rest) = done_ ++ hex_pairs t.
Proof.
  revert k t0 t1 done_ rest.
  induction t as [|c|c1 c2 t IH] using hex_pairs_ind; intros k t0 t1 acc rest Hk Hl.
  - destruct rest; [done|]. by simpl in Hl.
  - destruct rest; [|by simpl in Hl]. cbn [hex_loop]. by rewrite Hk.
  - cbn [hex_loop]. rewrite Nat.odd_succ, <- Nat.negb_odd, Hk. cbn [negb].
    destruct rest as [|x rest].
    { cbn [length] in Hl. replace (S (S (length t))) with (length t + 1 * 2)%nat in Hl by lia.
      rewrite Nat.div_add in Hl by lia. lia. }
    rewrite byte_of_nibbles, list_insert_middle.
    set (b := u8 (16 * _ + _)). replace (S (length acc)) with (length (acc ++ [b])) by (rewrite length_app; simpl; lia).
    replace (acc ++ b :: rest) with ((acc ++ [b]) ++ rest) by by rewrite <- app_assoc.
    rewrite IH, <- app_assoc; [done|by rewrite Nat.odd_succ, <- Nat.negb_odd, Nat.odd_succ, <- Nat.negb_odd, Hk|].
    cbn [length] in Hl. replace (S (S (length t))) with (length t + 1 * 2)%nat in Hl by lia.
    rewrite Nat.div_add in Hl by lia. lia.
Qed.

Lemma hex_loop_ok t : hex_loop t 0 0 0 0 (replicate (length t / 2) 0) = hex_pairs t.
Proof. apply (hex_loop_pairs t 0 0 0 []); [done|apply length_replicate]. Qed.

Lemma hex_pairs_u8 t : Forall is_u8 (hex_pairs t).
Proof. induction t using hex_pairs_ind; simpl; auto with cint. Qed.

(** The bytes of a program, printed in either case, decode to themselves. *)
Lemma hex_nibble_digit up n : 0 <= n < 16 -> hex_nibble ((if up : bool then HEXDIG else hexdig) n) = n.
Proof.
  intros H. assert (n ∈ map Z.of_nat (seq 0 16)) as Hn.
  { apply list_elem_of_fmap. exists (Z.to_nat n). rewrite elem_of_seq. lia. }
  clear H. destruct up; repeat (apply elem_of_cons in Hn as [->|Hn]; [done|]); by apply not_elem_of_nil in Hn.
Qed.

Definition hex_text (up : bool) (code : list Z) : list Z :=
  flat_map (fun b => [(if up then HEXDIG else hexdig) (b / 16); (if up then HEXDIG else hexdig) (b mod 16)]) code.

Lemma hex_pairs_text up code : Forall is_u8 code -> hex_pairs (hex_text up code) = code.
Proof.
  induction 1 as [|b code Hb _ IH]; [done|]. cbn [hex_text flat_map app hex_pairs]. f_equal; [|exact IH].
  unfold is_u8 in Hb. rewrite !hex_nibble_digit by dm. unfold u8. dm.
Qed.

(** ** The list stays ordered *)

Definition addr_le (a b : Rom) : Prop := rom_addr a <= rom_addr b.

Lemma insert_before_perm rom l : insert_before rom l ≡ₚ rom :: l.
Proof.
  induction l as [|item l IH]; [done|]. cbn [insert_before]. destruct (_ <=? _); [|done].
  rewrite IH. constructor.
Qed.

Lemma insert_before_sorted rom l :
  StronglySorted addr_le l -> StronglySorted addr_le (insert_before rom l).
Proof.
  induction 1 as [|item l Hs IH Hall]; [by repeat constructor|]. cbn [insert_before].
  destruct (Z.leb_spec (rom_addr item) (rom_addr rom)) as [Hle|Hgt].
  - constructor; [done|]. rewrite insert_before_perm. by constructor.
  - constructor; [by constructor|]. constructor; [unfold addr_le; lia|].
    eapply Forall_impl; [exact Hall|]. unfold addr_le. intros. lia.
Qed.

(** ** What is in memory after a reset *)

Lemma g_data_some data : (0 < length data)%nat -> g_data data = Some data.
Proof. destruct data; [simpl; lia|done]. Qed.

Lemma g_data_bytes data : default [] (g_data data) = data.
Proof. by destruct data. Qed.

Lemma write_byte_at addr b r i : 0 <= addr ->
  nth i (ram_bytes (write_byte addr b r)) 0 =
  if (Z.of_nat i =? addr) && (addr <? ram_size r) then b else nth i (ram_bytes r) 0.
Proof.
  intros Ha. unfold write_byte. rewrite (proj2 (Z.leb_le 0 addr)) by lia. cbn [andb].
  destruct (Z.ltb_spec addr (ram_size r)); [|by rewrite andb_false_r]. rewrite andb_true_r. cbn [ram_bytes].
  set (l := ram_bytes r ++ _).
  assert (Z.to_nat addr < length l)%nat by (unfold l; rewrite length_app, length_replicate; lia).
  rewrite nth_lookup. destruct (Z.eqb_spec (Z.of_nat i) addr) as [E|E].
  - replace i with (Z.to_nat addr) by lia. by rewrite list_lookup_insert_eq.
  - rewrite list_lookup_insert_ne by lia. unfold l. rewrite <- nth_lookup.
    destruct (Nat.lt_ge_cases i (length (ram_bytes r))); [by rewrite app_nth1|].
    rewrite app_nth2, nth_lookup by lia. rewrite (nth_overflow (ram_bytes r)) by lia.
    destruct (_ !! _) eqn:El; [by apply lookup_replicate in El as [-> _]|done].
Qed.

Lemma write_byte_size addr b r : ram_size (write_byte addr b r) = ram_size r.
Proof. unfold write_byte. by destruct (_ && _). Qed.

Lemma write_rom_size addr data r : ram_size (write_rom addr data r) = ram_size r.
Proof.
  revert addr r; induction data as [|b data IH]; intros; [done|]. cbn [write_rom]. by rewrite IH, write_byte_size.
Qed.

Lemma write_rom_at addr data r i : 0 <= addr ->
  nth i (ram_bytes (write_rom addr data r)) 0 =
  if (addr <=? Z.of_nat i) && (Z.of_nat i <? addr + Z.of_nat (length data)) && (Z.of_nat i <? ram_size r)
  then nth (i - Z.to_nat addr) data 0 else nth i (ram_bytes r) 0.
Proof.
  revert addr r; induction data as [|b data IH]; intros addr r Ha; cbn [write_rom length].
  - destruct (Z.leb_spec addr (Z.of_nat i)), (Z.ltb_spec (Z.of_nat i) (addr + Z.of_nat 0)); try done; lia.
  - rewrite IH, write_byte_size, write_byte_at by lia.
    destruct (Z.leb_spec addr (Z.of_nat i)), (Z.leb_spec (addr + 1) (Z.of_nat i)),
      (Z.ltb_spec (Z.of_nat i) (addr + Z.of_nat (S (length data)))),
      (Z.ltb_spec (Z.of_nat i) (addr + 1 + Z.of_nat (length data))),
      (Z.ltb_spec (Z.of_nat i) (ram_size r)), (Z.eqb_spec (Z.of_nat i) addr), (Z.ltb_spec addr (ram_size r));
      cbn [andb]; try lia; try done.
    + replace (i - Z.to_nat addr)%nat with (S (i - Z.to_nat (addr + 1))) by lia. done.
    + by replace (i - Z.to_nat addr)%nat with 0%nat by lia.
Qed.

(** Images as [rom_add_file], [rom_add_blob] and [rom_add_elf_program] make
    them. *)
Definition rom_ok (rom : Rom) : Prop :=
  0 <= rom_addr rom /\ rom_addr rom + romsize rom < 2 ^ 64 /\ fw_file rom = false /\ rom_mr rom = false /\
  datasize rom = Z.of_nat (length (default [] (rom_data rom))) /\ datasize rom <= romsize rom.

Definition loads (rom : Rom) (r : guest_ram) : guest_ram :=
  write_rom (rom_addr rom) (default [] (rom_data rom)) r.

Lemma rom_reset_one_ok rom r : rom_ok rom -> (rom_reset_one rom r).2 = loads rom r.
Proof.
  intros (_ & _ & Hf & Hm & Hs & _). unfold rom_reset_one, loads. rewrite Hf, Hm. destruct (rom_data rom); [|done].
  cbn [snd default from_option id] in *. rewrite firstn_all2; [done|]. lia.
Qed.

(** The images that follow an address leave what is below it alone. *)
Lemma rom_reset_below l l' addr r i :
  rom_load_loop addr l = Some l' -> Forall rom_ok l -> Z.of_nat i < addr ->
  nth i (ram_bytes (rom_reset l' r).2) 0 = nth i (ram_bytes r) 0.
Proof.
  revert l' addr r; induction l as [|rom l IH]; intros l' addr r H Hok Hi; cbn [rom_load_loop] in H.
  { by injection H as <-. }
  apply Forall_cons in Hok as [Hr Hok]. destruct Hr as (Ha & Hw & Hf & Hm & Hs & Hle).
  rewrite Hf in H. destruct (Z.ltb_spec (rom_addr rom) addr); [done|].
  destruct (rom_load_loop _ l) as [l1|] eqn:E; [|done]. injection H as <-. cbn [rom_reset].
  set (rom' := mkRom _ _ _ _ _ _ _). assert (rom_ok rom') as Hr' by (by split_and!).
  pose proof (rom_reset_one_ok rom' r Hr') as E1. destruct (rom_reset_one rom' r) as [x r1]. cbn [snd] in E1.
  subst r1. specialize (IH _ _ (loads rom' r) E Hok).
  destruct (rom_reset l1 _) as [y r2]. cbn [snd] in *. rewrite IH.
  - unfold loads. rewrite write_rom_at by done. rewrite (proj2 (Z.leb_gt _ _)); [done|]. subst rom'. cbn. lia.
  - rewrite u64_id by (unfold is_u64; lia). lia.
Qed.

(** Every image that [rom_load_all] accepts is in memory after the reset, as
    far as there is memory. *)
Lemma rom_reset_loaded l l' addr r rom (j : nat) :
  rom_load_loop addr l = Some l' -> Forall rom_ok l -> rom ∈ l -> (j < length (default [] (rom_data rom)))%nat ->
  rom_addr rom + Z.of_nat j < ram_size r ->
  nth (Z.to_nat (rom_addr rom) + j) (ram_bytes (rom_reset l' r).2) 0 = nth j (default [] (rom_data rom)) 0.
Proof.
  revert l' addr r; induction l as [|rom0 l IH]; intros l' addr r H Hok Hin Hj Hr; cbn [rom_load_loop] in H.
  { by apply not_elem_of_nil in Hin. }
  apply Forall_cons in Hok as [Hr0 Hok]. pose proof Hr0 as (Ha & Hw & Hf & Hm & Hs & Hle).
  rewrite Hf in H. destruct (Z.ltb_spec (rom_addr rom0) addr); [done|].
  destruct (rom_load_loop _ l) as [l1|] eqn:E; [|done]. injection H as <-. cbn [rom_reset].
  set (rom' := mkRom _ _ _ _ _ _ _). assert (rom_ok rom') as Hr' by (by split_and!).
  pose proof (rom_reset_one_ok rom' r Hr') as E1. destruct (rom_reset_one rom' r) as [x r1]. cbn [snd] in E1.
  subst r1. pose proof (rom_reset_below l l1 _ (loads rom' r) (Z.to_nat (rom_addr rom0) + j) E Hok) as Hb.
  specialize (IH _ _ (loads rom' r) E Hok).
  destruct (rom_reset l1 _) as [y r2]. cbn [snd] in *. apply elem_of_cons in Hin as [->|Hin].
  - rewrite u64_id in Hb by (unfold is_u64; lia). rewrite Hb by lia. unfold loads. rewrite write_rom_at by done.
    subst rom'. cbn [rom_addr rom_data].
    rewrite (proj2 (Z.leb_le _ _)), !(proj2 (Z.ltb_lt _ _)) by lia. cbn [andb]. f_equal. lia.
  - apply IH; auto. unfold loads. by rewrite write_rom_size.
Qed.

(** Images that do not overlap are accepted. *)
Definition disjoint_roms (a b : Rom) : Prop :=
  rom_addr a + romsize a <= rom_addr b \/ rom_addr b + romsize b <= rom_addr a.

Lemma rom_load_apart l addr : StronglySorted addr_le l -> Forall rom_ok l -> Forall (fun rom => 0 < romsize rom) l ->
  ForallOrdPairs disjoint_roms l -> Forall (fun rom => addr <= rom_addr rom) l -> exists l', rom_load_loop addr l = Some l'.
Proof.
  intros Hs. revert addr; induction Hs as [|rom l Hs IH Hall]; intros addr Hok Hpos Hd Ha; [by eexists|]. cbn [rom_load_loop].
  apply Forall_cons in Hok as [(H1 & H2 & H3 & _) Hok]. apply Forall_cons in Hpos as [Hp Hpos]. apply Forall_cons in Ha as [Ha _].
  inversion_clear Hd as [|? ? Hd1 Hd2]. rewrite H3, (proj2 (Z.ltb_ge _ _)), u64_id by (unfold is_u64; lia).
  destruct (IH (rom_addr rom + romsize rom)) as [l' ->]; try done; [|by eexists].
  rewrite Forall_forall in *. intros rom' Hin. specialize (Hall _ Hin). specialize (Hpos _ Hin). destruct (Hd1 _ Hin); unfold addr_le in *; lia.
Qed.

(** Where no image lies, memory keeps what it had. *)
Definition rom_holds (rom : Rom) (i : Z) : Prop :=
  rom_addr rom <= i < rom_addr rom + Z.of_nat (length (default [] (rom_data rom))).

Lemma rom_reset_elsewhere l l' addr r i :
  rom_load_loop addr l = Some l' -> Forall rom_ok l -> (forall rom, rom ∈ l -> ~ rom_holds rom (Z.of_nat i)) ->
  nth i (ram_bytes (rom_reset l' r).2) 0 = nth i (ram_bytes r) 0 /\ ram_size (rom_reset l' r).2 = ram_size r.
Proof.
  revert l' addr r; induction l as [|rom l IH]; intros l' addr r H Hok Hi; cbn [rom_load_loop] in H.
  { by injection H as <-. }
  apply Forall_cons in Hok as [(Ha & Hw & Hf & Hm & Hs & Hle) Hok]. rewrite Hf in H. destruct (_ <? addr); [done|].
  destruct (rom_load_loop _ l) as [l1|] eqn:E; [|done]. injection H as <-. cbn [rom_reset].
  set (rom' := mkRom _ _ _ _ _ _ _). assert (rom_ok rom') as Hr' by (by split_and!).
  pose proof (rom_reset_one_ok rom' r Hr') as E1. destruct (rom_reset_one rom' r) as [x r1]. cbn [snd] in E1. subst r1.
  destruct (IH _ _ (loads rom' r) E Hok) as [I1 I2]; [intros; apply Hi; by right|].
  destruct (rom_reset l1 _) as [y r2]. cbn [snd] in *. rewrite I1, I2. unfold loads. rewrite write_rom_size, write_rom_at by done.
  split; [|done]. specialize (Hi rom ltac:(by left)). unfold rom_holds in Hi. subst rom'. cbn [rom_addr rom_data].
  destruct (Z.leb_spec (rom_addr rom) (Z.of_nat i)), (Z.ltb_spec (Z.of_nat i) (rom_addr rom + Z.of_nat (length (default [] (rom_data rom)))));
    try done. lia.
Qed.
