(* ===== verification/Elf.v ===== *)
(** * ELF files

    The ELF loader: [include/hw/elf_ops.h], which [hw/core/loader.c] includes
    once for 32-bit and once for 64-bit files, [load_elf] itself, and the table
    of symbols it fills, which [lookup_symbol] of [disas.c] searches.  Files
    are read through their position; [Undef] stands for an abort of [g_malloc]
    too. *)

From stdpp Require Import base numbers list option strings.
From Stdlib Require Import ZArith Lia Sorted.
From S2P Require Import Prelude Words GuestMem Loader.

(** ** Files *)

(** An open file: what it holds and the position in it. *)
Record file := mkFile { fd_image : image; fd_pos : Z }.

(** What can be read of a file. *)
Definition readable (f : image) : list Z := take (Z.to_nat (read_rc f)) (contents f).

(** At most so many bytes are read at once. *)
Definition MAX_RW_COUNT : Z := 0x7ffff000.

(** [None] is the result -1. *)
Definition read (n : Z) (fd : file) : option (list Z) * file :=
  let f := fd_image fd in
  if read_rc f <? 0 then (None, fd)
  else
    let l := take (Z.to_nat (Z.min n MAX_RW_COUNT)) (drop (Z.to_nat (fd_pos fd)) (readable f)) in
    (Some l, mkFile f (fd_pos fd + Z.of_nat (length l))).

(** [read(...) != n] is the failure of the callers. *)
Definition read_exactly (n : Z) (fd : file) : option (list Z) * file :=
  let '(r, fd) := read n fd in
  match r with
  | Some l => (if Z.of_nat (length l) =? n then Some l else None, fd)
  | None => (None, fd)
  end.

(** [lseek(fd, offset, SEEK_SET)] *)
Definition lseek (offset : Z) (fd : file) : option file :=
  if offset <? 0 then None else Some (mkFile (fd_image fd) offset).

(** Conversion to [int64_t]. *)
Definition i64 (z : Z) : Z := (z + 2 ^ 63) mod 2 ^ 64 - 2 ^ 63.

(** ** Structures of the file *)

(** The field of [n] bytes at [off], read on a little-endian host. *)
Definition fld (off n : nat) (b : list Z) : Z := le_val (take n (drop off b)).

(** [bswap16s], [bswap32s], [bswap64s] *)
Definition bswap (n : nat) (w : Z) : Z := le_val (rev (le_bytes n w)).

Record elfhdr := mkElfhdr {
  e_type : Z; e_machine : Z; e_version : Z; e_entry : Z; e_phoff : Z; e_shoff : Z; e_flags : Z;
  e_ehsize : Z; e_phentsize : Z; e_phnum : Z; e_shentsize : Z; e_shnum : Z; e_shstrndx : Z
}.

Record elf_phdr := mkPhdr {
  p_type : Z; p_offset : Z; p_vaddr : Z; p_paddr : Z; p_filesz : Z; p_memsz : Z; p_flags : Z; p_align : Z
}.

Record elf_shdr := mkShdr {
  sh_name : Z; sh_type : Z; sh_flags : Z; sh_addr : Z; sh_offset : Z; sh_size : Z; sh_link : Z; sh_info : Z;
  sh_addralign : Z; sh_entsize : Z
}.

Record elf_sym := mkSym { st_name : Z; st_value : Z; st_size : Z; st_info : Z; st_other : Z; st_shndx : Z }.

(** What the two inclusions of [elf_ops.h] differ in: the size of [elf_word] in
    bytes, the sizes of the structures and where their fields are. *)
Record elf_class := mkClass {
  SZ : nat;
  ehdr_size : nat; ehdr_of : list Z -> elfhdr;
  phdr_size : nat; phdr_of : list Z -> elf_phdr;
  shdr_size : nat; shdr_of : list Z -> elf_shdr;
  sym_size : nat; sym_of : list Z -> elf_sym
}.

Definition elf32 : elf_class := mkClass 4
  52 (fun b => mkElfhdr (fld 16 2 b) (fld 18 2 b) (fld 20 4 b) (fld 24 4 b) (fld 28 4 b) (fld 32 4 b) (fld 36 4 b)
        (fld 40 2 b) (fld 42 2 b) (fld 44 2 b) (fld 46 2 b) (fld 48 2 b) (fld 50 2 b))
  32 (fun b => mkPhdr (fld 0 4 b) (fld 4 4 b) (fld 8 4 b) (fld 12 4 b) (fld 16 4 b) (fld 20 4 b) (fld 24 4 b) (fld 28 4 b))
  40 (fun b => mkShdr (fld 0 4 b) (fld 4 4 b) (fld 8 4 b) (fld 12 4 b) (fld 16 4 b) (fld 20 4 b) (fld 24 4 b)
        (fld 28 4 b) (fld 32 4 b) (fld 36 4 b))
  16 (fun b => mkSym (fld 0 4 b) (fld 4 4 b) (fld 8 4 b) (fld 12 1 b) (fld 13 1 b) (fld 14 2 b)).

Definition elf64 : elf_class := mkClass 8
  64 (fun b => mkElfhdr (fld 16 2 b) (fld 18 2 b) (fld 20 4 b) (fld 24 8 b) (fld 32 8 b) (fld 40 8 b) (fld 48 4 b)
        (fld 52 2 b) (fld 54 2 b) (fld 56 2 b) (fld 58 2 b) (fld 60 2 b) (fld 62 2 b))
  56 (fun b => mkPhdr (fld 0 4 b) (fld 8 8 b) (fld 16 8 b) (fld 24 8 b) (fld 32 8 b) (fld 40 8 b) (fld 4 4 b) (fld 48 8 b))
  64 (fun b => mkShdr (fld 0 4 b) (fld 4 4 b) (fld 8 8 b) (fld 16 8 b) (fld 24 8 b) (fld 32 8 b) (fld 40 4 b)
        (fld 44 4 b) (fld 48 8 b) (fld 56 8 b))
  24 (fun b => mkSym (fld 0 4 b) (fld 8 8 b) (fld 16 8 b) (fld 4 1 b) (fld 5 1 b) (fld 6 2 b)).

(** [elf_word], and [(uint64_t)(elf_sword)]. *)
Definition elf_word (c : elf_class) (z : Z) : Z := z mod 2 ^ (8 * Z.of_nat (SZ c)).
Definition elf_sword (c : elf_class) (z : Z) : Z :=
  let w := 2 ^ (8 * Z.of_nat (SZ c)) in u64 ((z + w / 2) mod w - w / 2).

(** An array of [n] structures. *)
Definition structs {A} (size : nat) (parse : list Z -> A) (n : nat) (b : list Z) : list A :=
  map (fun i => parse (take size (drop (i * size) b))) (seq 0 n).

Section Swap.
Context (c : elf_class).
Definition bswapSZ : Z -> Z := bswap (SZ c).

Definition bswap_ehdr (e : elfhdr) : elfhdr :=
  mkElfhdr (bswap 2 (e_type e)) (bswap 2 (e_machine e)) (bswap 4 (e_version e)) (bswapSZ (e_entry e))
    (bswapSZ (e_phoff e)) (bswapSZ (e_shoff e)) (bswap 4 (e_flags e)) (bswap 2 (e_ehsize e)) (bswap 2 (e_phentsize e))
    (bswap 2 (e_phnum e)) (bswap 2 (e_shentsize e)) (bswap 2 (e_shnum e)) (bswap 2 (e_shstrndx e)).

Definition bswap_phdr (p : elf_phdr) : elf_phdr :=
  mkPhdr (bswap 4 (p_type p)) (bswapSZ (p_offset p)) (bswapSZ (p_vaddr p)) (bswapSZ (p_paddr p)) (bswapSZ (p_filesz p))
    (bswapSZ (p_memsz p)) (bswap 4 (p_flags p)) (bswapSZ (p_align p)).

Definition bswap_shdr (s : elf_shdr) : elf_shdr :=
  mkShdr (bswap 4 (sh_name s)) (bswap 4 (sh_type s)) (bswapSZ (sh_flags s)) (bswapSZ (sh_addr s)) (bswapSZ (sh_offset s))
    (bswapSZ (sh_size s)) (bswap 4 (sh_link s)) (bswap 4 (sh_info s)) (bswapSZ (sh_addralign s)) (bswapSZ (sh_entsize s)).

Definition bswap_sym (s : elf_sym) : elf_sym :=
  mkSym (bswap 4 (st_name s)) (bswapSZ (st_value s)) (bswapSZ (st_size s)) (st_info s) (st_other s) (bswap 2 (st_shndx s)).
End Swap.

(** What the loader uses of the host's libraries: whether an allocation
    succeeds, [qsort] by [symcmp], and zlib. *)
Record host := mkHost {
  g_malloc_ok : Z -> bool;
  qsort_syms : list elf_sym -> list elf_sym;
  inflateInit2 : Z;
  inflate : list Z -> Z -> Z * list Z
}.

(** [symcmp] orders by value. *)
Definition sym_le (a b : elf_sym) : Prop := st_value a <= st_value b.

Class HostLaws (h : host) : Prop := {
  qsort_perm l : qsort_syms h l ≡ₚ l;
  qsort_sorted l : StronglySorted sym_le (qsort_syms h l)
}.

(** ** Symbols *)

(** [struct syminfo]: the list [syminfos] is a list of them. *)
Record syminfo := mkSyminfo { si_class : elf_class; disas_symtab : list elf_sym; disas_strtab : list Z }.

Definition SHT_SYMTAB : Z := 2.
Definition SHN_UNDEF : Z := 0.
Definition SHN_LORESERVE : Z := 0xff00.
Definition STT_FUNC : Z := 2.

Fixpoint find_section (shdr_table : list elf_shdr) (type : Z) : option elf_shdr :=
  match shdr_table with
  | [] => None
  | s :: l => if sh_type s =? type then Some s else find_section l type
  end.

(** The range is computed in [elf_word]. *)
Definition symfind (c : elf_class) (addr : Z) (sym : elf_sym) : Z :=
  if addr <? st_value sym then -1
  else if elf_word c (st_value sym + st_size sym) <=? addr then 1
  else 0.

(** [bsearch] of the C library, with a round for every entry at least. *)
Fixpoint bsearch_loop (fuel : nat) (cmp : elf_sym -> Z) (syms : list elf_sym) (l u : nat) : option elf_sym :=
  match fuel with
  | O => None
  | S f =>
      if (l <? u)%nat then
        let idx := ((l + u) / 2)%nat in
        match syms !! idx with
        | None => None
        | Some sym =>
            if cmp sym <? 0 then bsearch_loop f cmp syms l idx
            else if 0 <? cmp sym then bsearch_loop f cmp syms (S idx) u
            else Some sym
        end
      else None
  end.
Definition bsearch (cmp : elf_sym -> Z) (syms : list elf_sym) : option elf_sym :=
  bsearch_loop (S (length syms)) cmp syms 0 (length syms).

(** The text of the table from the name on. *)
Definition lookup_symbol_SZ (s : syminfo) (orig_addr : Z) : outcome (list Z) :=
  match bsearch (symfind (si_class s) orig_addr) (disas_symtab s) with
  | Some sym =>
      if st_name sym <? Z.of_nat (length (disas_strtab s)) then Ok (drop (Z.to_nat (st_name sym)) (disas_strtab s))
      else Undef
  | None => Ok [0]
  end.

(** [lookup_symbol] of [disas.c]. *)
Fixpoint lookup_symbol_loop (l : list syminfo) (symbol : list Z) (orig_addr : Z) : outcome (list Z) :=
  match l with
  | [] => Ok symbol
  | s :: l =>
      let* symbol := lookup_symbol_SZ s orig_addr in
      if negb (hd 0 symbol =? 0) then Ok symbol else lookup_symbol_loop l symbol orig_addr
  end.
Definition lookup_symbol (syminfos : list syminfo) (orig_addr : Z) : outcome (list Z) :=
  lookup_symbol_loop syminfos [0] orig_addr.

Section Load.
Context (h : host).

(** [offset] and [size] are [int]; [g_malloc(0)] is NULL. *)
Definition load_at (offset size : Z) (fd : file) : outcome (option (list Z) * file) :=
  match lseek offset fd with
  | None => Ok (None, fd)
  | Some fd =>
      if (size <? 0) || negb (g_malloc_ok h size) then Undef
      else
        let '(r, fd) := read_exactly size fd in
        Ok (if size =? 0 then None else r, fd)
  end.

Section Class.
Context (c : elf_class) (must_swab clear_lsb : bool).

Definition swab {A} (f : A -> A) (x : A) : A := if must_swab then f x else x.

(** Is it a symbol to throw away? *)
Definition other_symbol (s : elf_sym) : bool :=
  (st_shndx s =? SHN_UNDEF) || (SHN_LORESERVE <=? st_shndx s) || negb (Z.land (st_info s) 0xf =? STT_FUNC).

Definition set_value (v : Z) (s : elf_sym) : elf_sym := mkSym (st_name s) v (st_size s) (st_info s) (st_other s) (st_shndx s).
Definition set_size (v : Z) (s : elf_sym) : elf_sym := mkSym (st_name s) (st_value s) v (st_info s) (st_other s) (st_shndx s).

(** [while (i < nsyms)]: a symbol thrown away is replaced by the last one. *)
Fixpoint filter_loop (fuel : nat) (i nsyms : nat) (syms : list elf_sym) : outcome (nat * list elf_sym) :=
  match fuel with
  | O => Undef
  | S f =>
      if (i <? nsyms)%nat then
        match syms !! i with
        | None => Undef
        | Some s =>
            let s := swab (bswap_sym c) s in
            if other_symbol s then
              let nsyms := pred nsyms in
              if (i <? nsyms)%nat then
                match syms !! nsyms with
                | None => Undef
                | Some last => filter_loop f i nsyms (<[i := last]> syms)
                end
              else filter_loop f i nsyms syms
            else
              let s := if clear_lsb then set_value (Z.land (st_value s) (elf_word c (Z.lnot 1))) s else s in
              filter_loop f (S i) nsyms (<[i := s]> syms)
        end
      else Ok (nsyms, syms)
  end.

(** A symbol without a size ends where the next one begins. *)
Fixpoint fix_sizes (l : list elf_sym) : list elf_sym :=
  match l with
  | s :: l' =>
      match l' with
      | next :: _ => (if st_size s =? 0 then set_size (elf_word c (st_value next - st_value s)) s else s) :: fix_sizes l'
      | [] => [s]
      end
  | [] => []
  end.

(** The number of symbols is an [int]; a negative one makes [g_realloc] abort. *)
Definition read_symbols (symtab : elf_shdr) (b : list Z) : outcome (list elf_sym) :=
  let syms := structs (sym_size c) (sym_of c) (length b / sym_size c) b in
  let nsyms := i32 (sh_size symtab / Z.of_nat (sym_size c)) in
  if nsyms <? 0 then Undef
  else
    let* (nsyms, syms) := filter_loop (S (Z.to_nat nsyms)) 0 (Z.to_nat nsyms) syms in
    Ok (if (nsyms =? 0)%nat then [] else fix_sizes (qsort_syms h (take nsyms syms))).

Definition load_symbols (ehdr : elfhdr) (fd : file) (syminfos : list syminfo) : outcome (Z * file * list syminfo) :=
  let* (t, fd) := load_at (i32 (e_shoff ehdr)) (i32 (Z.of_nat (shdr_size c) * e_shnum ehdr)) fd in
  match t with
  | None => Ok (-1, fd, syminfos)
  | Some t =>
      let shdr_table := map (swab (bswap_shdr c)) (structs (shdr_size c) (shdr_of c) (Z.to_nat (e_shnum ehdr)) t) in
      match find_section shdr_table SHT_SYMTAB with
      | None => Ok (-1, fd, syminfos)
      | Some symtab =>
          let* (b, fd) := load_at (i32 (sh_offset symtab)) (i32 (sh_size symtab)) fd in
          match b with
          | None => Ok (-1, fd, syminfos)
          | Some b =>
              let* syms := read_symbols symtab b in
              match (if e_shnum ehdr <=? sh_link symtab then None else shdr_table !! Z.to_nat (sh_link symtab)) with
              | None => Ok (-1, fd, syminfos)
              | Some strtab =>
                  let* (str, fd) := load_at (i32 (sh_offset strtab)) (i32 (sh_size strtab)) fd in
                  match str with
                  | None => Ok (-1, fd, syminfos)
                  | Some str => Ok (0, fd, mkSyminfo c syms str :: syminfos)
                  end
              end
          end
      end
  end.

(** ** Segments *)

Definition PT_LOAD : Z := 1.
Definition PF_X : Z := 1.
Definition EM_386 : Z := 3.
Definition EM_PPC : Z := 20.
Definition EM_PPC64 : Z := 21.
Definition EM_X86_64 : Z := 62.
Definition EM_MICROBLAZE : Z := 189.
Definition EM_MICROBLAZE_OLD : Z := 0xBAAB.
Definition EM_PPDL : Z := 0xfa32.

Definition machine_ok (elf_machine e_machine : Z) : bool :=
  if elf_machine =? EM_PPC64 then (e_machine =? EM_PPC64) || (e_machine =? EM_PPC)
  else if elf_machine =? EM_X86_64 then (e_machine =? EM_X86_64) || (e_machine =? EM_386)
  else if elf_machine =? EM_MICROBLAZE then (e_machine =? EM_MICROBLAZE) || (e_machine =? EM_MICROBLAZE_OLD)
  else elf_machine =? e_machine.

(** The variables of the loop over the program headers, with [*pentry] and the
    loader's globals. *)
Record segments := mkSegments { sg_fd : file; total_size : Z; low : Z; high : Z; sg_entry : Z; sg_loader : loader }.

(** The data of a segment; [None] is [goto fail]. *)
Definition segment_data (ph : elf_phdr) (fd : file) : option (list Z) * file :=
  if 0 <? p_filesz ph then
    match lseek (i64 (p_offset ph)) fd with
    | None => (None, fd)
    | Some fd => read_exactly (p_filesz ph) fd
    end
  else (Some [], fd).

(** One program header; [false] is [goto fail]. *)
Definition load_segment (translate_fn : option (Z -> Z)) (ehdr : elfhdr) (ph : elf_phdr) (s : segments)
  : outcome (bool * segments) :=
  if negb (p_type ph =? PT_LOAD) then Ok (true, s)
  else
    let mem_size := p_memsz ph in
    let file_size := p_filesz ph in
    if negb (g_malloc_ok h file_size) then Undef
    else
      let '(data, fd) := segment_data ph (sg_fd s) in
      let s := mkSegments fd (total_size s) (low s) (high s) (sg_entry s) (sg_loader s) in
      match data with
      | None => Ok (false, s)
      | Some data =>
          let addr := match translate_fn with Some f => f (p_paddr ph) | None => p_paddr ph end in
          let entry :=
            match translate_fn with
            | None =>
                if negb (p_vaddr ph =? p_paddr ph) && (p_vaddr ph <=? e_entry ehdr) &&
                   (e_entry ehdr <? elf_word c (p_vaddr ph + p_filesz ph)) && negb (Z.land (p_flags ph) PF_X =? 0)
                then elf_word c (e_entry ehdr - p_vaddr ph + p_paddr ph) else sg_entry s
            | Some _ => sg_entry s
            end in
          let* l := of_abort (rom_add_elf_program (g_data data) file_size mem_size addr (sg_loader s)) in
          Ok (true, mkSegments fd (i32 (total_size s + mem_size)) (if addr <? low s then addr else low s)
                      (if high s <? u64 (addr + mem_size) then u64 (addr + mem_size) else high s) entry l)
      end.

Fixpoint load_segments (translate_fn : option (Z -> Z)) (ehdr : elfhdr) (phdr : list elf_phdr) (s : segments)
  : outcome (bool * segments) :=
  match phdr with
  | [] => Ok (true, s)
  | ph :: phdr =>
      let* (ok, s) := load_segment translate_fn ehdr ph s in
      if ok then load_segments translate_fn ehdr phdr s else Ok (false, s)
  end.

End Class.

Definition ELF_LOAD_FAILED : Z := -1.
Definition ELF_LOAD_NOT_ELF : Z := -2.
Definition ELF_LOAD_WRONG_ARCH : Z := -3.
Definition ELF_LOAD_WRONG_ENDIAN : Z := -4.

(** The result and what is written through the pointers: the entry, [None] if it
    is not, the lowest and the highest address; then the globals. *)
Record elf_result := mkElf {
  er_ret : Z; er_entry : option Z; er_low : Z; er_high : Z; er_loader : loader; er_syms : list syminfo
}.

(** [load_elf32] and [load_elf64].  Without program headers the table is NULL,
    which fails. *)
Definition load_elf_SZ (c : elf_class) (translate_fn : option (Z -> Z)) (must_swab : bool) (elf_machine : Z)
    (clear_lsb : bool) (fd : file) (l : loader) (y : list syminfo) : outcome elf_result :=
  let '(r, fd) := read_exactly (Z.of_nat (ehdr_size c)) fd in
  match r with
  | None => Ok (mkElf ELF_LOAD_FAILED None 0 0 l y)
  | Some b =>
      let ehdr := swab must_swab (bswap_ehdr c) (ehdr_of c b) in
      if negb (machine_ok elf_machine (e_machine ehdr)) then Ok (mkElf ELF_LOAD_WRONG_ARCH None 0 0 l y)
      else
        let entry := elf_sword c (e_entry ehdr) in
        let* (_, fd, y) := load_symbols c must_swab clear_lsb ehdr fd y in
        let size := i32 (e_phnum ehdr * Z.of_nat (phdr_size c)) in
        let fd := match lseek (i64 (e_phoff ehdr)) fd with Some fd => fd | None => fd end in
        if (size =? 0) then Ok (mkElf ELF_LOAD_FAILED (Some entry) 0 0 l y)
        else if negb (g_malloc_ok h size) then Undef
        else
          let '(r, fd) := read_exactly size fd in
          match r with
          | None => Ok (mkElf ELF_LOAD_FAILED (Some entry) 0 0 l y)
          | Some b =>
              let phdr := map (swab must_swab (bswap_phdr c)) (structs (phdr_size c) (phdr_of c) (Z.to_nat (e_phnum ehdr)) b) in
              let* (ok, s) := load_segments c translate_fn ehdr phdr (mkSegments fd 0 (u64 (-1)) 0 entry l) in
              Ok (if ok
                  then mkElf (total_size s) (Some (sg_entry s)) (elf_sword c (low s)) (elf_sword c (high s)) (sg_loader s) y
                  else mkElf ELF_LOAD_FAILED (Some (sg_entry s)) 0 0 (sg_loader s) y)
          end
  end.

(** The host is little-endian ([ELFDATA2LSB], 1). *)
Definition load_elf (f : option image) (translate_fn : option (Z -> Z)) (big_endian : bool) (elf_machine : Z)
    (clear_lsb : bool) (l : loader) (y : list syminfo) : outcome elf_result :=
  match f with
  | None => Ok (mkElf (-1) None 0 0 l y)
  | Some f =>
      let '(r, fd) := read_exactly 16 (mkFile f 0) in
      match r with
      | None => Ok (mkElf ELF_LOAD_FAILED None 0 0 l y)
      | Some e_ident =>
          let id i := nth i e_ident 0 in
          if negb ((id 0%nat =? 0x7f) && (id 1%nat =? 69) && (id 2%nat =? 76) && (id 3%nat =? 70))
          then Ok (mkElf ELF_LOAD_NOT_ELF None 0 0 l y)
          else
            let must_swab := negb (1 =? id 5%nat) in
            let target_data_order := if big_endian then 2 else 1 in
            if negb (target_data_order =? id 5%nat) then Ok (mkElf ELF_LOAD_WRONG_ENDIAN None 0 0 l y)
            else
              let c := if id 4%nat =? 2 then elf64 else elf32 in
              load_elf_SZ c translate_fn must_swab elf_machine clear_lsb (mkFile f 0) l y
      end
  end.
End Load.
