(* ===== verification/Uboot.v ===== *)
(** * U-Boot images

    [load_uboot_image] of [hw/core/loader.c]: the header, kernels and RAM disks,
    and the decompression of a kernel, whose header [gunzip] skips before it
    calls zlib.  Messages on the standard error output are left out. *)

From stdpp Require Import base numbers list option strings.
From Stdlib Require Import ZArith Lia.
From S2P Require Import Prelude Words GuestMem Loader Elf.

Definition IH_MAGIC : Z := 0x27051956.
Definition IH_OS_LINUX : Z := 5.
Definition IH_TYPE_KERNEL : Z := 2.
Definition IH_TYPE_RAMDISK : Z := 3.
Definition IH_COMP_NONE : Z := 0.
Definition IH_COMP_GZIP : Z := 1.

Record uboot_image_header := mkUboot {
  ih_magic : Z; ih_hcrc : Z; ih_time : Z; ih_size : Z; ih_load : Z; ih_ep : Z; ih_dcrc : Z;
  ih_os : Z; ih_arch : Z; ih_type : Z; ih_comp : Z; ih_name : list Z
}.

Definition uboot_header_of (b : list Z) : uboot_image_header :=
  mkUboot (fld 0 4 b) (fld 4 4 b) (fld 8 4 b) (fld 12 4 b) (fld 16 4 b) (fld 20 4 b) (fld 24 4 b)
    (fld 28 1 b) (fld 29 1 b) (fld 30 1 b) (fld 31 1 b) (take 32 (drop 32 b)).

Definition bswap_uboot_header (u : uboot_image_header) : uboot_image_header :=
  mkUboot (bswap 4 (ih_magic u)) (bswap 4 (ih_hcrc u)) (bswap 4 (ih_time u)) (bswap 4 (ih_size u)) (bswap 4 (ih_load u))
    (bswap 4 (ih_ep u)) (bswap 4 (ih_dcrc u)) (ih_os u) (ih_arch u) (ih_type u) (ih_comp u) (ih_name u).

(** ** gzip *)

Definition HEAD_CRC : Z := 2.
Definition EXTRA_FIELD : Z := 4.
Definition ORIG_NAME : Z := 8.
Definition COMMENT : Z := 0x10.
Definition RESERVED : Z := 0xe0.
Definition DEFLATED : Z := 8.
Definition UBOOT_MAX_GUNZIP_BYTES : Z := Z.shiftl 64 20.

(** [while (src[i++] != 0)], from the text at [i]; beyond the end of the buffer
    nothing is known. *)
Fixpoint skip_string (src : list Z) (i : Z) : outcome Z :=
  match src with
  | [] => Undef
  | b :: src' => if b =? 0 then Ok (i + 1) else skip_string src' (i + 1)
  end.

Definition puts (s : string) : list Z := codes s ++ [10].

(** Where the compressed data begins. *)
Definition gzip_header (src : list Z) (flags : Z) : outcome Z :=
  let flag b := negb (Z.land flags b =? 0) in
  let* i :=
    if flag EXTRA_FIELD then
      let* lo := aget src 10 in
      let* hi := aget src 11 in
      Ok (12 + lo + Z.shiftl hi 8)
    else Ok 10 in
  let* i := if flag ORIG_NAME then skip_string (drop (Z.to_nat i) src) i else Ok i in
  let* i := if flag COMMENT then skip_string (drop (Z.to_nat i) src) i else Ok i in
  Ok (if flag HEAD_CRC then i + 2 else i).

(** The bytes, [None] for the result -1, and what is printed. *)
Definition gunzip (h : host) (dstlen : Z) (src : list Z) : outcome (option (list Z) * list Z) :=
  let* flags := aget src 3 in
  let* method := aget src 2 in
  if negb (method =? DEFLATED) || negb (Z.land flags RESERVED =? 0)
  then Ok (None, puts "Error: Bad gzipped data" ++ [10])
  else
    let* i := gzip_header src flags in
    if Z.of_nat (length src) <=? i then Ok (None, puts "Error: gunzip out of data in header" ++ [10])
    else if negb (inflateInit2 h =? 0)
    then Ok (None, codes "Error: inflateInit2() returned " ++ fmt_d 0 (inflateInit2 h) ++ [10])
    else
      let '(r, out) := inflate h (drop (Z.to_nat i) src) dstlen in
      if negb (r =? 0) && negb (r =? 1) then Ok (None, codes "Error: inflate() returned " ++ fmt_d 0 r ++ [10])
      else Ok (Some out, []).

(** ** Images *)

(** The result and what is written through the pointers ([None]: nothing), the
    loader's globals and what is printed. *)
Record uimage := mkUimage {
  ui_ret : Z; ui_ep : option Z; ui_loadaddr : option Z; ui_linux : option bool; ui_loader : loader; ui_out : list Z
}.

(** Where the data goes and whether it is compressed; [None] is [goto out]. *)
Definition image_target (u : uboot_image_header) (loadaddr : option Z) : outcome (option (Z * bool)) :=
  if ih_type u =? IH_TYPE_KERNEL then
    Ok (if ih_comp u =? IH_COMP_NONE then Some (ih_load u, false)
        else if ih_comp u =? IH_COMP_GZIP then Some (ih_load u, true)
        else None)
  else if ih_type u =? IH_TYPE_RAMDISK then
    match loadaddr with Some a => Ok (Some (a, false)) | None => Undef end
  else Ok None.

Section Load.
Context (h : host).

(** The data of the image, decompressed if it is to be. *)
Definition image_data (u : uboot_image_header) (do_uncompress : bool) (fd : file) : outcome (option (list Z) * list Z) :=
  if negb (g_malloc_ok h (ih_size u)) then Undef
  else
    match (read_exactly (ih_size u) fd).1 with
    | None => Ok (None, [])
    | Some data =>
        if do_uncompress then
          if negb (g_malloc_ok h UBOOT_MAX_GUNZIP_BYTES) then Undef else gunzip h UBOOT_MAX_GUNZIP_BYTES data
        else Ok (Some data, [])
    end.

(** [loadaddr] is what the pointer points to, [None] for NULL.  Of a file
    shorter than the header, the bytes that are not there are not defined. *)
Definition load_uboot_image (f : option image) (loadaddr : option Z) (image_type : Z) (l : loader) : outcome uimage :=
  match f with
  | None => Ok (mkUimage (-1) None None None l [])
  | Some f =>
      let '(r, fd) := read 64 (mkFile f 0) in
      match r with
      | None => Ok (mkUimage (-1) None None None l [])
      | Some b =>
          if (length b <? 4)%nat then Undef
          else
            let u := bswap_uboot_header (uboot_header_of b) in
            if negb (ih_magic u =? IH_MAGIC) then Ok (mkUimage (-1) None None None l [])
            else if (length b <? 64)%nat then Undef
            else if negb (ih_type u =? image_type) then Ok (mkUimage (-1) None None None l [])
            else
              let* target := image_target u loadaddr in
              let kernel := ih_type u =? IH_TYPE_KERNEL in
              let la := if kernel then Some (ih_load u) else None in
              match target with
              | None => Ok (mkUimage (-1) None la None l [])
              | Some (address, do_uncompress) =>
                  let ep := if kernel then Some (ih_ep u) else None in
                  let is_linux := if kernel then Some (ih_os u =? IH_OS_LINUX) else None in
                  let* (data, out) := image_data u do_uncompress fd in
                  match data with
                  | None => Ok (mkUimage (-1) ep la is_linux l out)
                  | Some data =>
                      let* l := of_abort (rom_add_blob data address l) in
                      Ok (mkUimage (i32 (Z.of_nat (length data))) ep la is_linux l out)
                  end
              end
      end
  end.

Definition load_uimage (f : option image) (l : loader) : outcome uimage := load_uboot_image f None IH_TYPE_KERNEL l.

Definition load_ramdisk (f : option image) (addr : Z) (l : loader) : outcome uimage :=
  load_uboot_image f (Some addr) IH_TYPE_RAMDISK l.
End Load.
