(* ===== verification/ElfSpec.v ===== *)
(** * What the ELF loader does

    The segments of a file end up in the list of images, and the table of
    symbols holds the functions of the file, so that the binary search finds
    the function an address lies in. *)

From stdpp Require Import base numbers list option strings sorting.
From Stdlib Require Import ZArith Lia Sorted.
From S2P Require Import Prelude Words Cpu GuestMem Loader Elf.

(** ** Reading *)

(** A range of the file. *)
Definition in_file (f : image) (off size : Z) : Prop :=
  0 <= off /\ 0 < size /\ off + size <= Z.of_nat (length (readable f)).

Definition bytes_at (f : image) (off size : Z) : list Z := take (Z.to_nat size) (drop (Z.to_nat off) (readable f)).

(** A file that is read with single calls of [read], on a host with memory for
    what is read. *)
Record readable_file (h : host) (f : image) : Prop := {
  rf_rc : 0 <= read_rc f;
  rf_size : Z.of_nat (length (readable f)) <= MAX_RW_COUNT;
  rf_malloc n : 0 <= n < 2 ^ 31 -> g_malloc_ok h n = true
}.

Section File.
Context (h : host) (f : image) (Hf : readable_file h f).

Lemma read_exactly_in off size : in_file f off size ->
  read_exactly size (mkFile f off) = (Some (bytes_at f off size), mkFile f (off + size)).
Proof.
  intros (H1 & H2 & H3). destruct Hf as [Hr Hs _]. unfold read_exactly, read. cbn [fd_image fd_pos].
  rewrite (proj2 (Z.ltb_ge _ 0)), Z.min_l by lia. fold (bytes_at f off size).
  assert (Z.of_nat (length (bytes_at f off size)) = size) as -> by (unfold bytes_at; rewrite length_take, length_drop; lia).
  by rewrite Z.eqb_refl.
Qed.

(** Whatever is read is in the file. *)
Lemma read_exactly_some off size b fd : 0 < size -> 0 <= off ->
  read_exactly size (mkFile f off) = (Some b, fd) -> in_file f off size /\ b = bytes_at f off size /\ fd = mkFile f (off + size).
Proof.
  intros Hs Ho E. assert (in_file f off size) as Hi; [|rewrite read_exactly_in in E by done; by injection E as <- <-].
  destruct Hf as [Hr Hl _]. unfold read_exactly, read in E. cbn [fd_image fd_pos] in E.
  rewrite (proj2 (Z.ltb_ge _ 0)) in E by lia. destruct (Z.eqb_spec (Z.of_nat (length
    (take (Z.to_nat (Z.min size MAX_RW_COUNT)) (drop (Z.to_nat off) (readable f))))) size) as [E1|]; [|discriminate E].
  rewrite length_take, length_drop in E1. unfold in_file. lia.
Qed.

Lemma read_exactly_image n fd : fd_image (read_exactly n fd).2 = fd_image fd.
Proof. unfold read_exactly, read. destruct (_ <? 0); [done|]. by destruct (_ =? _). Qed.

(** [load_at] of a range in the file. *)
Lemma load_at_in off size p : in_file f off size ->
  load_at h (i32 off) (i32 size) (mkFile f p) = Ok (Some (bytes_at f off size), mkFile f (off + size)).
Proof.
  intros Hi. pose proof Hi as (H1 & H2 & H3). destruct Hf as [Hr Hs Hm]. unfold MAX_RW_COUNT in *.
  rewrite !i32_id by lia. unfold load_at, lseek. rewrite (proj2 (Z.ltb_ge off 0)), (proj2 (Z.ltb_ge size 0)), Hm by lia.
  cbn [orb negb fd_image]. rewrite read_exactly_in by done. by rewrite (proj2 (Z.eqb_neq _ _)) by lia.
Qed.

(** It gives nothing else, and it returns unless the size is out of range. *)
Lemma load_at_returns off size p : 0 <= size < 2 ^ 31 -> exists b fd,
  load_at h off size (mkFile f p) = Ok (b, fd) /\ fd_image fd = f /\
  forall l, b = Some l -> in_file f off size /\ l = bytes_at f off size.
Proof.
  intros Hz. unfold load_at, lseek. destruct (Z.ltb_spec off 0) as [|Ho]; [by do 2 eexists|].
  rewrite (proj2 (Z.ltb_ge size 0)), (rf_malloc _ _ Hf) by lia. cbn [orb negb fd_image].
  destruct (read_exactly size (mkFile f off)) as [b fd] eqn:E. eexists _, fd. split; [reflexivity|]. split.
  - change fd with (b, fd).2. by rewrite <- E, read_exactly_image.
  - intros l. destruct (Z.eqb_spec size 0) as [|Hn]; [done|]. intros ->.
    destruct (read_exactly_some off size l fd) as (? & ? & _); [lia|done|done|]. by split.
Qed.
End File.

(** ** The table of symbols *)

Section Symbols.
Context (c : elf_class) (must_swab clear_lsb : bool).

(** The symbols kept, as they are kept. *)
Definition is_function (s : elf_sym) : Prop := other_symbol (swab must_swab (bswap_sym c) s) = false.

#[export] Instance is_function_dec s : Decision (is_function s).
Proof. unfold is_function. apply _. Defined.

Definition kept_symbol (s : elf_sym) : elf_sym :=
  let s := swab must_swab (bswap_sym c) s in
  if clear_lsb then set_value (Z.land (st_value s) (elf_word c (Z.lnot 1))) s else s.

Definition functions (l : list elf_sym) : list elf_sym := map kept_symbol (filter is_function l).

(** The part not yet looked at begins with the symbol at [i] and ends with the
    one at [n - 1]. *)
Lemma slice_cons {A} (l : list A) i n x : (i < n)%nat -> l !! i = Some x -> drop i (take n l) = x :: drop (S i) (take n l).
Proof. intros Hi Hx. apply drop_S. by rewrite lookup_take_lt. Qed.

Lemma slice_snoc {A} (l : list A) i n x : (i <= n)%nat -> l !! n = Some x -> drop i (take (S n) l) = drop i (take n l) ++ [x].
Proof.
  intros Hi Hx. pose proof (lookup_lt_Some _ _ _ Hx). rewrite (take_S_r _ _ _ Hx), drop_app_le; [done|]. rewrite length_take. lia.
Qed.

Lemma slice_insert {A} (l : list A) i n x : drop (S i) (take n (<[i := x]> l)) = drop (S i) (take n l).
Proof. rewrite take_insert. case_decide; [|done]. apply drop_insert_lt. lia. Qed.

Lemma functions_cons s l : functions (s :: l) = if other_symbol (swab must_swab (bswap_sym c) s) then functions l else kept_symbol s :: functions l.
Proof.
  unfold functions. rewrite filter_cons. case_decide as E; unfold is_function in E; [by rewrite E|].
  by destruct (other_symbol _).
Qed.

Lemma functions_perm l l' : l ≡ₚ l' -> functions l ≡ₚ functions l'.
Proof. intros E. unfold functions. by rewrite E. Qed.

(** The loop keeps the functions, in some order. *)
Lemma filter_loop_ok fuel i n syms : (i <= n)%nat -> (n <= length syms)%nat -> (n - i < fuel)%nat ->
  exists n' syms', filter_loop c must_swab clear_lsb fuel i n syms = Ok (n', syms') /\ (n' <= length syms')%nat /\
    take n' syms' ≡ₚ take i syms ++ functions (drop i (take n syms)).
Proof.
  revert i n syms; induction fuel as [|fuel IH]; intros i n syms Hi Hn Hf; [lia|]. cbn [filter_loop].
  destruct (Nat.ltb_spec i n) as [Hlt|Hge].
  2: { exists n, syms. split; [done|]. split; [done|]. rewrite drop_ge by (rewrite length_take; lia).
       replace i with n by lia. unfold functions. cbn. by rewrite app_nil_r. }
  destruct (lookup_lt_is_Some_2 syms i) as [s Es]; [lia|]. rewrite Es.
  rewrite (slice_cons syms i n s Hlt Es), functions_cons. destruct (other_symbol (swab must_swab (bswap_sym c) s)) eqn:Eo.
  - destruct n as [|n]; [lia|]. cbn [pred]. destruct (Nat.ltb_spec i n) as [Hl|Hl].
    + destruct (lookup_lt_is_Some_2 syms n) as [last El]; [lia|]. rewrite El.
      destruct (IH i n (<[i := last]> syms)) as (n' & syms' & E & Hn' & Hp); [lia|rewrite length_insert; lia|lia|].
      exists n', syms'. split; [exact E|]. split; [exact Hn'|]. rewrite Hp, take_insert_ge by lia. apply Permutation_app_head, functions_perm.
      rewrite (slice_cons _ i n last) by (lia || (rewrite list_lookup_insert_eq; [done|lia])).
      rewrite slice_insert, (slice_snoc _ (S i) n last) by (done || lia). apply Permutation_cons_append.
    + destruct (IH i n syms) as (n' & syms' & E & Hn' & Hp); [lia|lia|lia|].
      exists n', syms'. split; [exact E|]. split; [exact Hn'|]. rewrite Hp. apply Permutation_app_head, functions_perm.
      by rewrite !drop_ge by (rewrite length_take; lia).
  - fold (kept_symbol s). destruct (IH (S i) n (<[i := kept_symbol s]> syms)) as (n' & syms' & E & Hn' & Hp); [lia|rewrite length_insert; lia|lia|].
    exists n', syms'. split; [exact E|]. split; [exact Hn'|]. rewrite Hp.
    rewrite (take_S_r _ i (kept_symbol s)) by (rewrite list_lookup_insert_eq; [done|lia]).
    by rewrite take_insert_ge, slice_insert, <- app_assoc by lia.
Qed.

(** ** Binary search *)

Lemma bsearch_sound fuel cmp syms l u s : bsearch_loop fuel cmp syms l u = Some s -> s ∈ syms /\ cmp s = 0.
Proof.
  revert l u; induction fuel as [|fuel IH]; intros l u; cbn [bsearch_loop]; [done|]. destruct (_ <? _)%nat; [|done].
  destruct (syms !! _) as [x|] eqn:E; [|done]. destruct (Z.ltb_spec (cmp x) 0); [apply IH|].
  destruct (Z.ltb_spec 0 (cmp x)); [apply IH|]. intros [= <-]. split; [by eapply list_elem_of_lookup_2|lia].
Qed.

(** The entries below the range of the address come first, those above last. *)
Definition searchable (cmp : elf_sym -> Z) (syms : list elf_sym) : Prop :=
  forall i j a b, (i < j)%nat -> syms !! i = Some a -> syms !! j = Some b ->
    (0 < cmp b -> 0 < cmp a) /\ (cmp a < 0 -> cmp b < 0).

Lemma bsearch_loop_complete fuel cmp syms l u k s : searchable cmp syms -> syms !! k = Some s -> cmp s = 0 ->
  (l <= k < u)%nat -> (u <= length syms)%nat -> (u - l < fuel)%nat -> exists s', bsearch_loop fuel cmp syms l u = Some s'.
Proof.
  intros Hm Hk H0. revert l u; induction fuel as [|fuel IH]; intros l u Hlu Hu Hf; [lia|]. cbn [bsearch_loop].
  rewrite (proj2 (Nat.ltb_lt _ _)) by lia. set (idx := ((l + u) / 2)%nat).
  assert (l <= idx < u)%nat as Hi by (pose proof (Nat.Div0.div_mod (l + u) 2); pose proof (Nat.mod_upper_bound (l + u) 2); lia).
  destruct (lookup_lt_is_Some_2 syms idx) as [x Ex]; [lia|]. rewrite Ex.
  destruct (Z.ltb_spec (cmp x) 0) as [Hc|Hc]; [|destruct (Z.ltb_spec 0 (cmp x)) as [Hd|Hd]; [|by eexists]].
  - apply IH; try lia. split; [lia|]. destruct (Nat.lt_trichotomy k idx) as [|[->|Hgt]]; [done|simplify_eq; lia|].
    pose proof (Hm idx k x s Hgt Ex Hk). lia.
  - apply IH; try lia. split; [|lia]. destruct (Nat.lt_trichotomy k idx) as [Hlt|[->|]]; [|simplify_eq; lia|lia].
    pose proof (Hm k idx s x Hlt Hk Ex). lia.
Qed.

Lemma bsearch_complete cmp syms s : searchable cmp syms -> s ∈ syms -> cmp s = 0 ->
  exists s', bsearch cmp syms = Some s' /\ s' ∈ syms /\ cmp s' = 0.
Proof.
  intros Hm Hs H0. apply list_elem_of_lookup_1 in Hs as [k Hk]. pose proof (lookup_lt_Some _ _ _ Hk).
  destruct (bsearch_loop_complete (S (length syms)) cmp syms 0 (length syms) k s) as [s' E]; try done; try lia.
  exists s'. split; [done|]. by eapply bsearch_sound.
Qed.

(** ** Functions apart from each other *)

Definition word_limit : Z := 2 ^ (8 * Z.of_nat (SZ c)).

Lemma elf_word_id z : 0 <= z < word_limit -> elf_word c z = z.
Proof. apply Z.mod_small. Qed.

Definition in_range (s : elf_sym) : Prop := 0 <= st_value s /\ 0 <= st_size s /\ st_value s + st_size s < word_limit.

Definition before (s s' : elf_sym) : Prop := st_value s < st_value s' /\ st_value s + st_size s <= st_value s'.

(** No two functions overlap or begin at the same address. *)
Record apart (fs : list elf_sym) : Prop := {
  ap_range : Forall in_range fs;
  ap_pairs : ForallOrdPairs (fun s s' => before s s' \/ before s' s) fs
}.

(** The function an address lies in: one without a size goes on to the next
    function, if there is one. *)
Definition covers (fs : list elf_sym) (s : elf_sym) (a : Z) : Prop :=
  st_value s <= a /\ (forall s', s' ∈ fs -> st_value s < st_value s' -> a < st_value s') /\
  (if st_size s =? 0 then exists s', s' ∈ fs /\ a < st_value s' else a < st_value s + st_size s).

Lemma pairs_perm {A} (R : A -> A -> Prop) l l' : (forall x y, R x y -> R y x) -> l ≡ₚ l' -> ForallOrdPairs R l -> ForallOrdPairs R l'.
Proof.
  intros Hs. induction 1 as [|x l l' E IH|x y l|l1 l2 l3 _ IH1 _ IH2]; intros H.
  - constructor.
  - inversion_clear H as [|? ? H1 H2]. constructor; [by rewrite <- E|by apply IH].
  - inversion_clear H as [|? ? H1 H2]. apply Forall_cons in H1 as [Hxy H1]. inversion_clear H2 as [|? ? H3 H4].
    constructor; [|by constructor]. constructor; [by apply Hs|done].
  - auto.
Qed.

Lemma apart_perm l l' : l ≡ₚ l' -> apart l -> apart l'.
Proof. intros E [H1 H2]. split; [by rewrite <- E|]. eapply pairs_perm; [|done|done]. tauto. Qed.

Lemma covers_perm l l' s a : l ≡ₚ l' -> covers l s a -> covers l' s a.
Proof.
  intros E (H1 & H2 & H3). split; [done|]. split; [intros s' Hs'; apply H2; by rewrite E|].
  destruct (_ =? 0); [|done]. destruct H3 as (s' & Hs' & ?). exists s'. by rewrite <- E.
Qed.

(** Sorted, each is before all that follow. *)
Lemma apart_sorted l : apart l -> StronglySorted sym_le l -> StronglySorted before l.
Proof.
  intros [H1 H2]. induction 1 as [|s l Hs IH Hall]; [constructor|]. apply Forall_cons in H1 as [Hr H1].
  inversion_clear H2 as [|? ? H3 H4]. constructor; [by apply IH|]. rewrite Forall_forall in *. intros s' Hs'.
  specialize (Hall s' Hs'). destruct (H3 s' Hs') as [|Hb]; [done|]. unfold before, sym_le in *. lia.
Qed.

Lemma covers_tail s l x a : Forall (before s) l -> x ∈ l -> covers (s :: l) x a <-> covers l x a.
Proof.
  intros Hb Hx. rewrite Forall_forall in Hb. pose proof (Hb x Hx) as [Hv _]. unfold covers. split; intros (H1 & H2 & H3); (split; [done|]).
  - split; [intros s' Hs'; apply H2; by right|]. destruct (_ =? 0); [|done]. destruct H3 as (s' & Hs' & ?).
    apply elem_of_cons in Hs' as [->|Hs']; [lia|by exists s'].
  - split; [intros s' [->|Hs']%elem_of_cons; [lia|by apply H2]|]. destruct (_ =? 0); [|done]. destruct H3 as (s' & Hs' & ?).
    exists s'. split; [by right|done].
Qed.

(** The range of the first function ends before the next one. *)
Lemma covers_head s n l a : Forall (before s) (n :: l) -> Forall (before n) l -> covers (s :: n :: l) s a <->
  st_value s <= a < st_value s + (if st_size s =? 0 then st_value n - st_value s else st_size s).
Proof.
  intros Hs Hn. apply Forall_cons in Hs as [[Hs1 Hs2] Hs]. unfold covers. split.
  - intros (H1 & H2 & H3). split; [done|]. specialize (H2 n ltac:(right; by left) Hs1). destruct (_ =? 0); lia.
  - intros [H1 H2]. assert (a < st_value n) by (destruct (Z.eqb_spec (st_size s) 0); lia). split; [done|]. split.
    + intros s' [->|[->|Hs']%elem_of_cons]%elem_of_cons Hlt; [lia|done|]. rewrite Forall_forall in Hn. destruct (Hn s' Hs'). lia.
    + destruct (_ =? 0); [|done]. exists n. split; [right; by left|done].
Qed.

Definition resized (t : list elf_sym) (s s' : elf_sym) : Prop :=
  st_name s' = st_name s /\ st_value s' = st_value s /\ in_range s' /\
  forall a, covers t s a <-> st_value s' <= a < st_value s' + st_size s'.

Lemma fix_sizes_ok t : Forall in_range t -> StronglySorted before t ->
  Forall2 (resized t) t (fix_sizes c t) /\ StronglySorted before (fix_sizes c t).
Proof.
  intros Hr Hs. induction Hs as [|s l Hs IH Hall]; [by split; constructor|]. apply Forall_cons in Hr as [Hr0 Hr].
  destruct (IH Hr) as [IH1 IH2]; clear IH. destruct l as [|n l].
  - split; [|by repeat constructor]. constructor; [|constructor]. split_and!; try done. intros a. unfold covers. split.
    + intros (H1 & H2 & H3). destruct (Z.eqb_spec (st_size s) 0); [|lia]. destruct H3 as (s' & ->%list_elem_of_singleton & ?). lia.
    + intros [H1 H2]. split; [done|]. split; [intros s' ->%list_elem_of_singleton; lia|]. destruct (Z.eqb_spec (st_size s) 0); lia.
  - change (fix_sizes c (s :: n :: l)) with
      ((if st_size s =? 0 then set_size (elf_word c (st_value n - st_value s)) s else s) :: fix_sizes c (n :: l)).
    set (s1 := if _ =? 0 then _ else _). pose proof (proj1 (Forall_cons _ _ _) Hall) as [[Hn1 Hn2] _].
    inversion_clear Hs as [|? ? Hsl Hnl]. inversion Hr as [|? ? Hrn _]; subst. unfold in_range in Hr0, Hrn.
    assert (st_name s1 = st_name s /\ st_value s1 = st_value s /\
      st_size s1 = if st_size s =? 0 then st_value n - st_value s else st_size s) as (E1 & E2 & E3).
    { unfold s1. destruct (_ =? 0); [|done]. cbn. split_and!; try done. apply elf_word_id. lia. }
    assert (in_range s1) as Hr1 by (unfold in_range; rewrite E2, E3; destruct (_ =? 0); lia).
    assert (st_value s1 + st_size s1 <= st_value n /\ st_value s1 < st_value n) as [He Hlt] by (rewrite E2, E3; destruct (_ =? 0); lia).
    split.
    + constructor.
      * split; [done|]. split; [done|]. split; [done|]. intros a. rewrite E3, E2. by apply covers_head.
      * eapply Forall2_impl; [|intros x y H; exact H]. apply Forall2_same_length_lookup_2; [by eapply Forall2_length|].
        intros i x y Hx Hy. destruct (Forall2_lookup_lr _ _ _ _ _ _ IH1 Hx Hy) as (F1 & F2 & F3 & F4). split_and!; try done.
        intros a. rewrite covers_tail; [apply F4|done|by eapply list_elem_of_lookup_2].
    + constructor; [done|]. rewrite Forall_forall. intros y Hy. apply list_elem_of_lookup_1 in Hy as [i Hy].
      destruct (Forall2_lookup_r _ _ _ _ _ IH1 Hy) as (x & Hx & _ & F2 & _).
      rewrite Forall_forall in Hall. apply list_elem_of_lookup_2 in Hx. unfold before. rewrite F2.
      apply elem_of_cons in Hx as [->|Hx]; [lia|]. rewrite Forall_forall in Hnl. destruct (Hnl x Hx). lia.
Qed.

Lemma sorted_lookup t i j a b : StronglySorted before t -> (i < j)%nat -> t !! i = Some a -> t !! j = Some b -> before a b.
Proof.
  intros H. revert i j; induction H as [|s l Hs IH Hall]; intros i j Hij Hi Hj; [done|]. destruct i as [|i], j as [|j]; try lia.
  - injection Hi as ->. rewrite Forall_forall in Hall. apply Hall. by eapply list_elem_of_lookup_2.
  - apply (IH i j); [lia|done|done].
Qed.

(** The search finds the function an address lies in. *)
Lemma symfind_zero s a : in_range s -> symfind c a s = 0 <-> st_value s <= a < st_value s + st_size s.
Proof.
  intros (H1 & H2 & H3). unfold symfind. rewrite elf_word_id by lia.
  destruct (Z.ltb_spec a (st_value s)), (Z.leb_spec (st_value s + st_size s) a); lia.
Qed.

Lemma symfind_searchable t a : Forall in_range t -> StronglySorted before t -> searchable (symfind c a) t.
Proof.
  intros Hr Hs i j x y Hij Hx Hy. destruct (sorted_lookup t i j x y Hs Hij Hx Hy) as [Hb1 Hb2].
  pose proof (Forall_lookup_1 _ _ _ _ Hr Hx) as (X1 & X2 & X3). pose proof (Forall_lookup_1 _ _ _ _ Hr Hy) as (Y1 & Y2 & Y3).
  unfold symfind. rewrite !elf_word_id by lia.
  destruct (Z.ltb_spec a (st_value x)), (Z.leb_spec (st_value x + st_size x) a), (Z.ltb_spec a (st_value y)),
    (Z.leb_spec (st_value y + st_size y) a); lia.
Qed.

Lemma search_found t s a : Forall in_range t -> StronglySorted before t -> s ∈ t -> covers t s a ->
  exists s', bsearch (symfind c a) (fix_sizes c t) = Some s' /\ st_name s' = st_name s.
Proof.
  intros Hr Hs Hin Hc. destruct (fix_sizes_ok t Hr Hs) as [Hf Hs']. apply list_elem_of_lookup_1 in Hin as [i Hi].
  destruct (Forall2_lookup_l _ _ _ _ _ Hf Hi) as (s' & Hi' & F1 & _ & F3 & F4).
  assert (Forall in_range (fix_sizes c t)) as Hr'.
  { apply Forall_lookup_2. intros j y Hy. by destruct (Forall2_lookup_r _ _ _ _ _ Hf Hy) as (_ & _ & _ & _ & ? & _). }
  apply F4 in Hc. destruct (bsearch_complete (symfind c a) (fix_sizes c t) s') as (s2 & E & Hin2 & H2);
    [by apply symfind_searchable|by eapply list_elem_of_lookup_2|by apply symfind_zero|].
  exists s2. split; [done|]. rewrite <- F1. apply list_elem_of_lookup_1 in Hin2 as [j Hj].
  pose proof (Forall_lookup_1 _ _ _ _ Hr' Hj) as Hr2. apply symfind_zero in H2; [|done].
  destruct (Nat.lt_trichotomy i j) as [Hlt|[->|Hlt]].
  - destruct (sorted_lookup _ _ _ _ _ Hs' Hlt Hi' Hj). lia.
  - by simplify_eq.
  - destruct (sorted_lookup _ _ _ _ _ Hs' Hlt Hj Hi'). lia.
Qed.

Lemma search_none t a : Forall in_range t -> StronglySorted before t -> (forall s, s ∈ t -> ~ covers t s a) ->
  bsearch (symfind c a) (fix_sizes c t) = None.
Proof.
  intros Hr Hs Hn. destruct (bsearch _ _) as [s'|] eqn:E; [|done]. apply bsearch_sound in E as [Hin H0].
  destruct (fix_sizes_ok t Hr Hs) as [Hf _]. apply list_elem_of_lookup_1 in Hin as [i Hi].
  destruct (Forall2_lookup_r _ _ _ _ _ Hf Hi) as (s & Hi' & _ & _ & F3 & F4). exfalso.
  apply (Hn s); [by eapply list_elem_of_lookup_2|]. apply F4. by apply symfind_zero in H0.
Qed.
End Symbols.

(** ** Loading the symbols of a file *)

Lemma bytes_at_length f off size : in_file f off size -> Z.of_nat (length (bytes_at f off size)) = size.
Proof. intros (H1 & H2 & H3). unfold bytes_at. rewrite length_take, length_drop. lia. Qed.

Section LoadSymbols.
Context (h : host) `{!HostLaws h} (f : image) (Hf : readable_file h f) (c : elf_class) (must_swab clear_lsb : bool).
Context (Hc : (0 < sym_size c)%nat /\ (0 < shdr_size c <= 64)%nat).

Abbreviation fns := (functions c must_swab clear_lsb).

(** What the file holds: its section headers and the symbols of a section. *)
Definition section_table (ehdr : elfhdr) : list elf_shdr :=
  map (swab must_swab (bswap_shdr c)) (structs (shdr_size c) (shdr_of c) (Z.to_nat (e_shnum ehdr))
    (bytes_at f (e_shoff ehdr) (Z.of_nat (shdr_size c) * e_shnum ehdr))).

Definition symbols_in (s : elf_shdr) : list elf_sym :=
  let b := bytes_at f (sh_offset s) (sh_size s) in structs (sym_size c) (sym_of c) (length b / sym_size c) b.

Lemma length_structs {A} size (p : list Z -> A) n b : length (structs size p n b) = n.
Proof. unfold structs. by rewrite length_map, length_seq. Qed.

Lemma read_symbols_ok s b : 0 <= sh_size s < 2 ^ 31 -> Z.of_nat (length b) = sh_size s ->
  exists t, read_symbols h c must_swab clear_lsb s b = Ok (fix_sizes c t) /\
    t ≡ₚ fns (structs (sym_size c) (sym_of c) (length b / sym_size c) b) /\ StronglySorted sym_le t.
Proof.
  intros Hs Hb. unfold read_symbols. set (syms := structs _ _ _ _).
  assert (sh_size s / Z.of_nat (sym_size c) = Z.of_nat (length b / sym_size c)) as -> by (rewrite <- Hb; by rewrite Nat2Z.inj_div).
  assert (length b / sym_size c <= length b)%nat as Hl by (apply Nat.Div0.div_le_upper_bound; nia).
  rewrite i32_id, (proj2 (Z.ltb_ge _ 0)), Nat2Z.id by lia.
  destruct (filter_loop_ok c must_swab clear_lsb (S (length b / sym_size c)) 0 (length b / sym_size c) syms)
    as (n & syms' & -> & Hn & Hp); [lia|unfold syms; by rewrite length_structs|lia|]. cbn [obind].
  rewrite take_0, drop_0, app_nil_l, (take_ge syms) in Hp by (unfold syms; by rewrite length_structs).
  destruct (Nat.eqb_spec n 0) as [->|Hn0].
  - exists []. split; [done|]. split; [by rewrite take_0 in Hp|constructor].
  - exists (qsort_syms h (take n syms')). split; [done|]. split; [by rewrite qsort_perm|apply qsort_sorted].
Qed.

(** The symbol table and its names are in the file. *)
Record has_symbols (ehdr : elfhdr) (symtab strtab : elf_shdr) : Prop := {
  hs_table : in_file f (e_shoff ehdr) (Z.of_nat (shdr_size c) * e_shnum ehdr);
  hs_find : find_section (section_table ehdr) SHT_SYMTAB = Some symtab;
  hs_syms : in_file f (sh_offset symtab) (sh_size symtab);
  hs_link : 0 <= sh_link symtab < e_shnum ehdr;
  hs_strtab : section_table ehdr !! Z.to_nat (sh_link symtab) = Some strtab;
  hs_names : in_file f (sh_offset strtab) (sh_size strtab)
}.

Lemma load_symbols_ok ehdr symtab strtab p y : has_symbols ehdr symtab strtab ->
  exists t fd, load_symbols h c must_swab clear_lsb ehdr (mkFile f p) y =
    Ok (0, fd, mkSyminfo c (fix_sizes c t) (bytes_at f (sh_offset strtab) (sh_size strtab)) :: y) /\
  t ≡ₚ fns (symbols_in symtab) /\ StronglySorted sym_le t.
Proof.
  intros [H1 H2 H3 H4 H5 H6]. unfold load_symbols. rewrite (load_at_in h f Hf) by done. cbn [obind].
  fold (section_table ehdr). rewrite H2. rewrite (load_at_in h f Hf) by done. cbn [obind].
  pose proof (rf_size _ _ Hf) as Hz. unfold MAX_RW_COUNT in Hz. pose proof H3 as (? & ? & ?).
  destruct (read_symbols_ok symtab (bytes_at f (sh_offset symtab) (sh_size symtab))) as (t & -> & Ht & Hs);
    [lia|by apply bytes_at_length|]. cbn [obind].
  rewrite (proj2 (Z.leb_gt _ _)), H5, (load_at_in h f Hf) by (done || lia). cbn [obind]. eauto.
Qed.

(** Symbols or not, the loader goes on, if the sections have sizes an [int] can
    hold. *)
Definition sizes_ok (ehdr : elfhdr) : Prop :=
  0 <= e_shnum ehdr < 2 ^ 16 /\ 0 <= e_shoff ehdr < 2 ^ 31 /\
  forall s, s ∈ section_table ehdr -> 0 <= sh_size s < 2 ^ 31.

Lemma find_section_in l type s : find_section l type = Some s -> s ∈ l.
Proof.
  induction l as [|x l IH]; [done|]. cbn. destruct (_ =? _); [intros [= ->]; by left|]. intros H. right. by apply IH.
Qed.

Lemma load_symbols_returns ehdr p y : sizes_ok ehdr -> exists rc fd y',
  load_symbols h c must_swab clear_lsb ehdr (mkFile f p) y = Ok (rc, fd, y') /\ fd_image fd = f.
Proof.
  intros (H1 & H2 & H3). assert (0 <= Z.of_nat (shdr_size c) * e_shnum ehdr < 2 ^ 31) as Hz by nia.
  unfold load_symbols. rewrite (i32_id (e_shoff ehdr)), (i32_id (_ * _)) by lia.
  destruct (load_at_returns h f Hf (e_shoff ehdr) (Z.of_nat (shdr_size c) * e_shnum ehdr) p) as (b & fd & -> & Ei & Hb); [done|].
  cbn [obind]. destruct b as [t|]; [|eauto]. destruct (Hb t eq_refl) as [_ ->]. fold (section_table ehdr).
  destruct (find_section (section_table ehdr) SHT_SYMTAB) as [s|] eqn:Es; [|eauto]. apply find_section_in in Es. specialize (H3 _ Es) as Hs.
  rewrite (i32_id (sh_size s)) by lia. destruct fd as [? p1]. cbn in Ei. subst.
  destruct (load_at_returns h f Hf (i32 (sh_offset s)) (sh_size s) p1) as (b & fd & -> & Ei & Hb2); [lia|]. cbn [obind].
  destruct b as [b|]; [|eauto]. destruct (Hb2 b eq_refl) as [Hin ->].
  destruct (read_symbols_ok s (bytes_at f (i32 (sh_offset s)) (sh_size s))) as (t & -> & _); [lia|by apply bytes_at_length|].
  cbn [obind]. destruct (e_shnum ehdr <=? sh_link s); [eauto|]. destruct (section_table ehdr !! _) as [s2|] eqn:E2; [|eauto].
  apply list_elem_of_lookup_2 in E2. specialize (H3 _ E2). rewrite (i32_id (sh_size s2)) by lia. destruct fd as [? p2]. cbn in Ei. subst.
  destruct (load_at_returns h f Hf (i32 (sh_offset s2)) (sh_size s2) p2) as (b & fd & -> & Ei & _); [lia|]. cbn [obind].
  destruct b; eauto.
Qed.

(** The name of a symbol in the table of names. *)
Definition name_of (strtab : list Z) (s : elf_sym) : outcome (list Z) :=
  if st_name s <? Z.of_nat (length strtab) then Ok (drop (Z.to_nat (st_name s)) strtab) else Undef.

Lemma lookup_found t fs s a str : t ≡ₚ fs -> StronglySorted sym_le t -> apart c fs -> s ∈ fs -> covers fs s a ->
  lookup_symbol_SZ (mkSyminfo c (fix_sizes c t) str) a = name_of str s.
Proof.
  intros Ht Hs Ha Hin Hcov. pose proof (apart_perm c _ _ (Permutation_sym Ht) Ha) as Ha'.
  destruct (search_found c t s a) as (s' & E & En); [apply Ha'|by apply (apart_sorted c)|by rewrite Ht|by eapply covers_perm|].
  unfold lookup_symbol_SZ. cbn [si_class disas_symtab disas_strtab]. by rewrite E, En.
Qed.

Lemma lookup_none t fs a str : t ≡ₚ fs -> StronglySorted sym_le t -> apart c fs -> (forall s, s ∈ fs -> ~ covers fs s a) ->
  lookup_symbol_SZ (mkSyminfo c (fix_sizes c t) str) a = Ok [0].
Proof.
  intros Ht Hs Ha Hn. pose proof (apart_perm c _ _ (Permutation_sym Ht) Ha) as Ha'.
  unfold lookup_symbol_SZ. cbn [si_class disas_symtab disas_strtab].
  rewrite search_none; [done|apply Ha'|by apply (apart_sorted c)|].
  intros s Hin Hcov. apply (Hn s); [by rewrite <- Ht|]. by eapply covers_perm.
Qed.
End LoadSymbols.

(** ** Loading the segments of a file *)

Section Segments.
Context (h : host) (f : image) (Hf : readable_file h f) (c : elf_class) (tr : Z -> Z).

Definition loadable (ph : elf_phdr) : Prop := p_type ph = PT_LOAD.

#[export] Instance loadable_dec ph : Decision (loadable ph).
Proof. unfold loadable. apply _. Defined.

Definition segment_bytes (ph : elf_phdr) : list Z := bytes_at f (p_offset ph) (p_filesz ph).

Definition segment_rom (ph : elf_phdr) : Rom :=
  mkRom (tr (p_paddr ph)) (p_memsz ph) (p_filesz ph) (g_data (segment_bytes ph)) false false false.

(** The data of the segment is in the file and there is room for it. *)
Record segment_ok (ph : elf_phdr) : Prop := {
  sg_data : p_filesz ph = 0 \/ in_file f (p_offset ph) (p_filesz ph);
  sg_size : p_filesz ph <= p_memsz ph;
  sg_memsz : 0 < p_memsz ph;
  sg_addr : 0 <= tr (p_paddr ph);
  sg_end : tr (p_paddr ph) + p_memsz ph < 2 ^ 64
}.

Definition memory_size (l : list elf_phdr) : Z := foldr (fun ph n => p_memsz ph + n) 0 l.

Lemma segment_length ph : segment_ok ph -> Z.of_nat (length (segment_bytes ph)) = p_filesz ph.
Proof.
  unfold segment_bytes. intros [[->|Hd] _ _ _ _]; [done|]. by apply bytes_at_length.
Qed.

Lemma segment_rom_ok ph : segment_ok ph -> rom_ok (segment_rom ph) /\ 0 < romsize (segment_rom ph).
Proof.
  intros H. pose proof (segment_length ph H) as Hl. destruct H. split; [|done]. split; [done|]. split; [done|].
  split; [done|]. split; [done|]. split; [cbn [rom_data segment_rom datasize]; by rewrite g_data_bytes|done].
Qed.

Lemma segment_data_ok ph fd : segment_ok ph -> fd_image fd = f ->
  exists fd', segment_data ph fd = (Some (segment_bytes ph), fd') /\ fd_image fd' = f /\ g_malloc_ok h (p_filesz ph) = true.
Proof.
  intros Hs Hi. pose proof (rf_size _ _ Hf) as Hz. unfold MAX_RW_COUNT in Hz. unfold segment_data, segment_bytes.
  destruct (sg_data _ Hs) as [E0|Hd].
  - rewrite E0. change (0 <? 0) with false. cbv iota. exists fd. split_and!; [done|done|]. apply (rf_malloc _ _ Hf). lia.
  - pose proof Hd as (H1 & H2 & H3). rewrite (proj2 (Z.ltb_lt _ _)) by done. unfold lseek, i64.
    rewrite (Z.mod_small (p_offset ph + 2 ^ 63)) by lia. replace (p_offset ph + 2 ^ 63 - 2 ^ 63) with (p_offset ph) by lia.
    rewrite (proj2 (Z.ltb_ge _ 0)), Hi, (read_exactly_in h f Hf) by done. eexists. split_and!; [done|done|]. apply (rf_malloc _ _ Hf). lia.
Qed.

(** What the loop leaves: the images of the segments in the list, ordered by
    address, the sum of their sizes, the rest as it was. *)
Record loaded (l : list elf_phdr) (s s' : segments) : Prop := {
  ld_image : fd_image (sg_fd s') = f;
  ld_roms : roms (sg_loader s') ≡ₚ map segment_rom l ++ roms (sg_loader s);
  ld_sorted : StronglySorted addr_le (roms (sg_loader s)) -> StronglySorted addr_le (roms (sg_loader s'));
  ld_state : roms_loaded (sg_loader s') = false;
  ld_end : end_pc (sg_loader s') = end_pc (sg_loader s);
  ld_entry : sg_entry s' = sg_entry s;
  ld_total : total_size s' = total_size s + memory_size l
}.

Lemma load_segment_ok ehdr ph s : loadable ph -> segment_ok ph -> fd_image (sg_fd s) = f -> roms_loaded (sg_loader s) = false ->
  0 <= total_size s -> total_size s + p_memsz ph < 2 ^ 31 ->
  exists s', load_segment h c (Some tr) ehdr ph s = Ok (true, s') /\ loaded [ph] s s'.
Proof.
  intros Hl Hs Hi Hr Ht Hm. unfold load_segment. rewrite Hl. change (negb (PT_LOAD =? PT_LOAD)) with false. cbv iota.
  destruct (segment_data_ok ph (sg_fd s) Hs Hi) as (fd' & -> & Hi' & ->). cbn [negb].
  unfold rom_add_elf_program, rom_insert. cbn [sg_loader]. rewrite Hr. cbn [of_abort obind total_size]. eexists. split; [reflexivity|].
  pose proof (sg_memsz _ Hs). split; cbn [sg_fd sg_loader roms roms_loaded end_pc sg_entry total_size map app memory_size foldr]; try done.
  - apply insert_before_perm.
  - apply insert_before_sorted.
  - rewrite i32_id by lia. lia.
Qed.

Lemma loaded_cons ph l s s1 s2 : loaded [ph] s s1 -> loaded l s1 s2 -> loaded (ph :: l) s s2.
Proof.
  intros [] []. split; try done; try congruence; auto.
  - rewrite ld_roms1, ld_roms0. cbn [map app]. by rewrite <- Permutation_middle.
  - rewrite ld_total1, ld_total0. unfold memory_size. cbn [foldr]. lia.
Qed.

Lemma memory_size_pos l : Forall segment_ok l -> 0 <= memory_size l.
Proof. induction 1 as [|ph l H _ IH]; [done|]. cbn. pose proof (sg_memsz _ H). unfold memory_size in IH. lia. Qed.

Lemma load_segments_ok ehdr phs s : Forall segment_ok (filter loadable phs) -> fd_image (sg_fd s) = f ->
  roms_loaded (sg_loader s) = false -> 0 <= total_size s -> total_size s + memory_size (filter loadable phs) < 2 ^ 31 ->
  exists s', load_segments h c (Some tr) ehdr phs s = Ok (true, s') /\ loaded (filter loadable phs) s s'.
Proof.
  revert s; induction phs as [|ph phs IH]; intros s Hs Hi Hr Ht Hm.
  { exists s. split; [done|]. split; try done. cbn. lia. }
  cbn [load_segments]. rewrite filter_cons in *. destruct (decide (loadable ph)) as [Hl|Hl].
  - apply Forall_cons in Hs as [H1 Hs]. pose proof (memory_size_pos _ Hs). cbn [memory_size foldr] in Hm. fold (memory_size (filter loadable phs)) in Hm.
    pose proof (sg_memsz _ H1). destruct (load_segment_ok ehdr ph s) as (s1 & -> & L1); try done; [lia|]. cbn [obind].
    assert (total_size s1 = total_size s + p_memsz ph) as E1 by (rewrite (ld_total _ _ _ L1); unfold memory_size; cbn [foldr]; lia).
    destruct (IH s1) as (s2 & E2 & L2); [done|apply L1|apply L1|lia|lia|]. exists s2. split; [done|]. by eapply loaded_cons.
  - unfold load_segment. rewrite (proj2 (Z.eqb_neq _ _)) by exact Hl. cbn [negb obind]. by apply IH.
Qed.
End Segments.

(** ** Loading a file *)

(** A little-endian ELF file of this target: its class, its header and program
    headers, and segments that do not overlap. *)
Record elf_file (f : image) (tr : Z -> Z) (c : elf_class) (ehdr : elfhdr) (phs : list elf_phdr) : Prop := {
  ef_class : c = elf32 \/ c = elf64;
  ef_ident : bytes_at f 0 6 = [0x7f; 69; 76; 70; if (SZ c =? 8)%nat then 2 else 1; 1];
  ef_header : in_file f 0 (Z.of_nat (ehdr_size c));
  ef_ehdr : ehdr = ehdr_of c (bytes_at f 0 (Z.of_nat (ehdr_size c)));
  ef_machine : e_machine ehdr = EM_PPDL;
  ef_sections : sizes_ok f c false ehdr;
  ef_phnum : 0 <= e_phnum ehdr < 2 ^ 16;
  ef_table : in_file f (e_phoff ehdr) (e_phnum ehdr * Z.of_nat (phdr_size c));
  ef_phdrs : phs = structs (phdr_size c) (phdr_of c) (Z.to_nat (e_phnum ehdr))
               (bytes_at f (e_phoff ehdr) (e_phnum ehdr * Z.of_nat (phdr_size c)));
  ef_segments : Forall (segment_ok f tr) (filter loadable phs);
  ef_apart : ForallOrdPairs disjoint_roms (map (segment_rom f tr) (filter loadable phs));
  ef_total : memory_size (filter loadable phs) < 2 ^ 31
}.

Lemma class_sizes c : c = elf32 \/ c = elf64 ->
  (0 < sym_size c)%nat /\ (0 < shdr_size c <= 64)%nat /\ (32 <= phdr_size c <= 64)%nat /\ (52 <= ehdr_size c <= 64)%nat.
Proof. intros [-> | ->]; cbn; lia. Qed.

Lemma ident_at f (l : list Z) (n : Z) i : bytes_at f 0 6 = l -> in_file f 0 n -> 6 <= n -> (i < 6)%nat -> nth i (bytes_at f 0 n) 0 = nth i l 0.
Proof.
  intros <- (_ & _ & H) Hn Hi. unfold bytes_at. rewrite !nth_lookup, !lookup_take_lt by lia. done.
Qed.

Lemma i64_id z : 0 <= z < 2 ^ 63 -> i64 z = z.
Proof. intros H. unfold i64. rewrite Z.mod_small; lia. Qed.

(** The result of [load_elf]: the size, the entry and the images. *)
Record elf_loaded_as (f : image) (tr : Z -> Z) (ehdr : elfhdr) (c : elf_class) (segs : list elf_phdr) (l : loader) (r : elf_result) : Prop := {
  el_ret : er_ret r = memory_size segs;
  el_entry : er_entry r = Some (elf_sword c (e_entry ehdr));
  el_roms : roms (er_loader r) ≡ₚ map (segment_rom f tr) segs ++ roms l;
  el_sorted : StronglySorted addr_le (roms l) -> StronglySorted addr_le (roms (er_loader r));
  el_state : roms_loaded (er_loader r) = false;
  el_end : end_pc (er_loader r) = end_pc l
}.

Lemma load_elf_ok h `{!HostLaws h} f tr c ehdr phs lsb l y : readable_file h f -> elf_file f tr c ehdr phs -> roms_loaded l = false ->
  exists r, load_elf h (Some f) (Some tr) false EM_PPDL lsb l y = Ok r /\ elf_loaded_as f tr ehdr c (filter loadable phs) l r.
Proof.
  intros Hf [] Hl. destruct (class_sizes c ef_class0) as (Hc1 & Hc2 & Hc3 & Hc4).
  assert (in_file f 0 16) as H16 by (destruct ef_header0 as (_ & _ & ?); unfold in_file; lia).
  unfold load_elf. rewrite (read_exactly_in h f Hf) by done. cbv zeta.
  rewrite !(ident_at f _ _ _ ef_ident0 H16) by lia. cbn [nth]. change (1 =? 1) with true. cbn [negb andb Z.eqb Pos.eqb].
  assert ((if (if (SZ c =? 8)%nat then 2 else 1) =? 2 then elf64 else elf32) = c) as -> by (by destruct ef_class0 as [-> | ->]).
  unfold load_elf_SZ. rewrite (read_exactly_in h f Hf) by done.
  assert (swab false (bswap_ehdr c) (ehdr_of c (bytes_at f 0 (Z.of_nat (ehdr_size c)))) = ehdr) as -> by (by rewrite ef_ehdr0).
  rewrite ef_machine0. change (machine_ok EM_PPDL EM_PPDL) with true. cbn [negb].
  destruct (load_symbols_returns h f Hf c false lsb (conj Hc1 Hc2) ehdr (0 + Z.of_nat (ehdr_size c)) y ef_sections0)
    as (rc & [fi fp] & y' & -> & Hfd). cbn [obind]. cbn [fd_image] in Hfd. subst fi.
  pose proof ef_table0 as (Hp1 & Hp2 & Hp3). pose proof (rf_size _ _ Hf) as Hz. unfold MAX_RW_COUNT in Hz.
  rewrite (i32_id (e_phnum ehdr * _)) by lia. rewrite (proj2 (Z.eqb_neq _ 0)), (rf_malloc _ _ Hf) by lia. cbn [negb].
  unfold lseek. rewrite i64_id, (proj2 (Z.ltb_ge _ 0)) by lia. cbn [fd_image].
  rewrite (read_exactly_in h f Hf) by done. change (swab false (bswap_phdr c)) with (fun ph : elf_phdr => ph). rewrite map_id, <- ef_phdrs0.
  match goal with |- context [load_segments _ _ _ _ _ ?s] => destruct (load_segments_ok h f Hf c tr ehdr phs s) as (s' & Es & Hs') end.
  1-4: done.
  { cbn [total_size]. lia. }
  rewrite Es. cbn [obind]. eexists. split; [reflexivity|]. split; [exact (ld_total _ _ _ _ _ Hs')|exact (f_equal Some (ld_entry _ _ _ _ _ Hs'))|exact (ld_roms _ _ _ _ _ Hs')|exact (ld_sorted _ _ _ _ _ Hs')|
      exact (ld_state _ _ _ _ _ Hs')|exact (ld_end _ _ _ _ _ Hs')].
Qed.

(** ** A host *)

(** Memory without end, a sort that keeps equal symbols in order, and data that
    is stored without compression. *)
#[export] Instance sym_le_dec a b : Decision (sym_le a b).
Proof. unfold sym_le. apply _. Defined.

Definition small_host : host := mkHost (fun _ => true) (merge_sort sym_le) 0 (fun src n => (1, take (Z.to_nat n) src)).

#[export] Instance small_host_laws : HostLaws small_host.
Proof.
  split; cbn.
  - intros l. apply merge_sort_Permutation.
  - intros l. apply StronglySorted_merge_sort; [intros x y z; unfold sym_le; lia|intros x y; unfold sym_le; lia].
Qed.
