(* ===== verification/Helpers.v ===== *)
(** * The instruction helpers

    [target-ppdl/func_shared.c], its copies and the further helpers of
    [target-ppdl/func_helper.c], and the opcode lists of
    [target-ppdl/arglist_helper.c].  Stack indexes are [uint64_t] expressions:
    an empty stack has [sp == -1] and every access below the bottom or above
    the top of [stack_arr] is out of range. *)

From stdpp Require Import base numbers list option strings.
From Stdlib Require Import ZArith Lia.
From S2P Require Import Prelude Words Bignum BignumSpec BignumHeap BignumStr Cpu Arithm ArithmSpec Storage GuestMem.

(** ** Access to the arrays of the state *)

Definition stack_get (i : Z) (m : machine) : outcome Z := aget (stack_arr (cpu m)) (u64 i).
Definition stack_set (i v : Z) (m : machine) : outcome machine :=
  let* arr := aset (stack_arr (cpu m)) (u64 i) v in Ok (with_cpu (set_stack_arr arr) m).
Definition move_sp (d : Z) (m : machine) : machine :=
  with_cpu (set_sp (u64 (sp (cpu m) + d))) m.

Definition stack_arr_get (index : Z) (m : machine) : outcome Z := aget (stack_arr (cpu m)) index.
Definition stack_arr_set (index data : Z) (m : machine) : outcome machine :=
  let* arr := aset (stack_arr (cpu m)) index data in Ok (with_cpu (set_stack_arr arr) m).
Definition input_data_get (index : Z) (m : machine) : outcome Z := aget (input_data (cpu m)) index.
Definition input_data_set (index data : Z) (m : machine) : outcome machine :=
  let* arr := aset (input_data (cpu m)) index data in Ok (with_cpu (set_input_data arr) m).
Definition log_bus_get (index : Z) (m : machine) : outcome Z := aget (log_bus (cpu m)) index.
Definition log_bus_set (index data : Z) (m : machine) : outcome machine :=
  let* arr := aset (log_bus (cpu m)) index data in Ok (with_cpu (set_log_bus arr) m).
Definition data_bus_get (index : Z) (m : machine) : outcome Z := aget (data_bus (cpu m)) index.
Definition data_bus_set (index data : Z) (m : machine) : outcome machine :=
  let* arr := aset (data_bus (cpu m)) index data in Ok (with_cpu (set_data_bus arr) m).
Definition gas_available_get (index : Z) (m : machine) : outcome Z :=
  aget (gas_available (cpu m)) index.
Definition gas_available_set (index data : Z) (m : machine) : outcome machine :=
  let* arr := aset (gas_available (cpu m)) index data in Ok (with_cpu (set_gas_available arr) m).

(** ** Single 64-bit values on the stack *)

(** [data_val |= pd_lsh((pd_rsh(data_tmp, 8*i)&0xFF), 8*(7-i))], [i < 8] *)
Fixpoint push_loop (n : nat) (i data_tmp data_val : Z) : Z :=
  match n with
  | O => data_val
  | S n' =>
      push_loop n' (i + 1) data_tmp
        (Z.lor data_val (pd_lsh (Z.land (pd_rsh data_tmp (8 * i)) 255) (8 * (7 - i))))
  end.

(** Four cells on top of the stack, [sp] going up by one before and by three
    after. *)
Definition push4 (v0 v1 v2 v3 : Z) (m : machine) : outcome machine :=
  let m := move_sp 1 m in
  let* m := stack_set (sp (cpu m)) v0 m in
  let* m := stack_set (sp (cpu m) + 1) v1 m in
  let* m := stack_set (sp (cpu m) + 2) v2 m in
  let* m := stack_set (sp (cpu m) + 3) v3 m in
  Ok (move_sp 3 m).

Definition PushSingleBlockToStack (data_tmp : Z) (m : machine) : outcome machine :=
  let data_val := push_loop 8 0 data_tmp 0 in
  push4 data_val 0 0 0 m.

(** [data_val |= pd_lsh((pd_rsh(data_tmp, 8*(7-i))&0xFF), i)], [i < 8]: the
    bytes are shifted by [i], not by [8*i]. *)
Fixpoint get_loop (n : nat) (i data_tmp data_val : Z) : Z :=
  match n with
  | O => data_val
  | S n' =>
      get_loop n' (i + 1) data_tmp
        (Z.lor data_val (pd_lsh (Z.land (pd_rsh data_tmp (8 * (7 - i))) 255) i))
  end.

Definition GetSingleBlockFromStack (m : machine) : outcome (Z * machine) :=
  let* data_tmp := stack_get (sp (cpu m) - 3) m in
  let m := move_sp (-4) m in
  Ok (get_loop 8 0 data_tmp 0, m).

Definition Pop (m : machine) : machine := move_sp (-4) m.

Definition USEGAS (v : Z) (m : machine) : outcome machine := UseGas v m.

(** ** The environment opcodes *)

Definition StopExec (m : machine) : outcome machine :=
  let m := helper_error_message 1 0 m in
  let* m := result_message m in
  exit 0 m.

Definition Return (m : machine) : outcome machine :=
  let* m := USEGAS 0 m in StopExec m.

(** Charge, then push a register. *)
Definition gas_push (gas : Z) (field : CPUPPDLState -> Z) (m : machine) : outcome machine :=
  let v := field (cpu m) in
  let* m := USEGAS gas m in
  PushSingleBlockToStack v m.

Definition GetOrigin := gas_push 2 origin_addr.
Definition GetGasPrice := gas_push 2 gas_price.
Definition GetCaller := gas_push 2 caller_addr.
Definition GetAddress := gas_push 2 cur_addr.
Definition GetGasLimit := gas_push 2 GasLimit.
Definition GetTimeStamp := gas_push 2 TimeStamp.
Definition GetNumber := gas_push 2 Number.
Definition GetDifficulty := gas_push 2 Difficulty.
Definition GetCoinBase := gas_push 2 CoinBase.
Definition CallDataSize := gas_push 2 inp_data_size.
Definition ExtCodeSize := gas_push 20 ext_code_size.
Definition GetElfSize (m : machine) : Z := elfSize (cpu m).
Definition GetElfSizeStub (m : machine) : Z := GetElfSize m.
Definition GetCodeSize (m : machine) : outcome machine :=
  let elf_size := GetElfSizeStub m in
  let* m := USEGAS 2 m in PushSingleBlockToStack elf_size m.
Definition BlockChainHash (m : machine) : outcome machine :=
  let* m := USEGAS 20 m in PushSingleBlockToStack 0 m.

(** Opcodes that only charge. *)
Definition MakeCall := USEGAS 40.
Definition MakeCallCode := USEGAS 40.
Definition DelegateCall := USEGAS 40.
Definition CreateAccount := USEGAS 32000.
Definition GetInputData := USEGAS 3.
Definition CallDataCopy := USEGAS 3.
Definition CodeCopy := USEGAS 3.
Definition ExtCodeCopy := USEGAS 20.
Definition GetBalance := USEGAS 20.
Definition CallValue := USEGAS 2.

(** ** Opcode lists ([arglist_helper.c])

    A list of operations returns normally for any other value; a list of
    numbers returns no value then, and its callers use the value. *)

Definition AccountsData (aVal : Z) (m : machine) : outcome machine :=
  match aVal with
  | 0 => GetAddress m
  | 1 => GetBalance m
  | 2 => GetOrigin m
  | 3 => GetCaller m
  | 4 => CallValue m
  | 5 => GetInputData m
  | 6 => CallDataSize m
  | 7 => CallDataCopy m
  | 8 => GetCodeSize m
  | 9 => CodeCopy m
  | 10 => GetGasPrice m
  | 11 => ExtCodeSize m
  | 12 => ExtCodeCopy m
  | _ => Ok m
  end.

Definition SystemOps (aVal : Z) (m : machine) : outcome machine :=
  match aVal with
  | 0 => CreateAccount m
  | 1 => MakeCall m
  | 2 => MakeCallCode m
  | 3 => Return m
  | 4 => DelegateCall m
  | _ => Ok m
  end.

Definition BlockChain (aVal : Z) (m : machine) : outcome machine :=
  match aVal with
  | 0 => BlockChainHash m
  | 1 => GetCoinBase m
  | 2 => GetTimeStamp m
  | 3 => GetNumber m
  | 4 => GetDifficulty m
  | 5 => GetGasLimit m
  | _ => Ok m
  end.

Definition ArithmOps (aVal : Z) : outcome Z :=
  if (0 <=? aVal) && (aVal <=? 11) then Ok aVal else Undef.
Definition MemOps (aVal : Z) : outcome Z :=
  if (0 <=? aVal) && (aVal <=? 11) then Ok aVal else Undef.
Definition CompareLogOps (aVal : Z) : outcome Z :=
  if (0 <=? aVal) && (aVal <=? 10) then Ok aVal else Undef.

(** ** Memory *)

Definition MSizeOp (m : machine) : outcome machine := PushSingleBlockToStack (mem_size (cpu m)) m.
Definition PcOp (m : machine) : outcome machine := PushSingleBlockToStack (env_pc (cpu m)) m.

(** The inner loop of [MStoreInst]: eight bytes of one word. *)
Fixpoint mstore_word (n : nat) (i w addr : Z) (m : machine) : outcome machine :=
  match n with
  | O => Ok m
  | S n' =>
      let data_tmp := Z.land (pd_rsh w (8 * i)) 255 in
      let* m := data_bus_set (u64 addr) (u8 data_tmp) m in
      mstore_word n' (i + 1) w (addr + 1) m
  end.

Definition MStoreInst (addr_val : Z) (m : machine) : outcome machine :=
  let s := sp (cpu m) in
  let* d3 := stack_get s m in
  let* d2 := stack_get (s - 1) m in
  let* d1 := stack_get (s - 2) m in
  let* d0 := stack_get (s - 3) m in
  let m := move_sp (-4) m in
  let* m := mstore_word 8 0 d3 addr_val m in
  let* m := mstore_word 8 0 d2 (addr_val + 8) m in
  let* m := mstore_word 8 0 d1 (addr_val + 16) m in
  let* m := mstore_word 8 0 d0 (addr_val + 24) m in
  let addr := u64 (addr_val + 32) in
  if mem_size (cpu m) <? addr then Ok (with_cpu (set_mem_size addr) m) else Ok m.

(** The inner loop of [MloadInst]; its address is a [uint32_t]. *)
Fixpoint mload_word (n : nat) (i addr acc : Z) (m : machine) : outcome Z :=
  match n with
  | O => Ok acc
  | S n' =>
      let* b := data_bus_get (u32 addr) m in
      mload_word n' (i + 1) (addr + 1) (Z.lor acc (pd_lsh b (8 * i))) m
  end.

Definition MloadInst (addr_val : Z) (m : machine) : outcome machine :=
  let a := u32 addr_val in
  let* d3 := mload_word 8 0 a 0 m in
  let* d2 := mload_word 8 0 (a + 8) 0 m in
  let* d1 := mload_word 8 0 (a + 16) 0 m in
  let* d0 := mload_word 8 0 (a + 24) 0 m in
  let* m := stack_set (sp (cpu m) + 1) d0 m in
  let* m := stack_set (sp (cpu m) + 2) d1 m in
  let* m := stack_set (sp (cpu m) + 3) d2 m in
  let* m := stack_set (sp (cpu m) + 4) d3 m in
  Ok (move_sp 4 m).

Definition SaveToStorageStub (addr : Z) (m : machine) : outcome machine := SaveToStorage (u32 addr) m.
Definition LoadFromStorageStub (addr : Z) (m : machine) : outcome machine := LoadFromStorage (u32 addr) m.
Definition ArithmStub (opcode : Z) (m : machine) : outcome machine := DoArithm (u32 opcode) m.
Definition CompareStub (opcode : Z) (m : machine) : outcome machine := DoCompare (u32 opcode) m.

(** ** Stack manipulation *)

Definition DupOp (count : Z) (m : machine) : outcome machine :=
  let offset := u32 (4 * u32 count) in
  let s := sp (cpu m) in
  let* c0 := stack_get (s - u32 (offset + 0)) m in
  let* c1 := stack_get (s - u32 (offset + 1)) m in
  let* c2 := stack_get (s - u32 (offset + 2)) m in
  let* c3 := stack_get (s - u32 (offset + 3)) m in
  push4 c3 c2 c1 c0 m.

(** One round of [SwapOp]; [offs] is a [uint32_t]. *)
Definition swap_round (count i first : Z) (m : machine) : outcome machine :=
  let offs := u32 (sp (cpu m) - u32 (4 * u32 (u32 count + 1) + i)) in
  let* v := stack_get offs m in
  let* m := stack_set (sp (cpu m) - i) v m in
  stack_set offs first m.

Definition SwapOp (count : Z) (m : machine) : outcome machine :=
  let s := sp (cpu m) in
  let* e3 := stack_get (s - 3) m in
  let* e2 := stack_get (s - 2) m in
  let* e1 := stack_get (s - 1) m in
  let* e0 := stack_get s m in
  let* m := swap_round count 0 e0 m in
  let* m := swap_round count 1 e1 m in
  let* m := swap_round count 2 e2 m in
  swap_round count 3 e3 m.

(** [LogInst]: the same log cell is written [count] times. *)
Fixpoint log_loop (n : nat) (count log_ptr : Z) (m : machine) : outcome machine :=
  match n with
  | O => Ok m
  | S n' =>
      let* v := stack_get (sp (cpu m)) m in
      let* m := log_bus_set (u32 (log_ptr + 2 + count)) v m in
      log_loop n' count log_ptr (move_sp (-1) m)
  end.

Definition LogInst (count log_ptr : Z) (m : machine) : outcome machine :=
  log_loop (Z.to_nat (u32 count)) (u32 count) (u32 log_ptr) m.

(** ** Push *)

(** [cpu_ldsb_data]: without a TLB translation the guest's address is the
    physical one; an access outside the RAM raises [EXCP_DBE]. *)
Definition EXCP_DBE : Z := 17.
Definition EXCP_IBE : Z := 16.

Definition ram_byte (excp addr : Z) (r : guest_ram) : outcome Z :=
  if (0 <=? addr) && (addr <? ram_size r) then Ok (nth (Z.to_nat addr) (ram_bytes r) 0)
  else Raise excp.

Definition helper_mem_ld8 (memtrace : Z -> bool) (addr : Z) (m : machine) : outcome (Z * machine) :=
  let* b := ram_byte EXCP_DBE addr (ram m) in
  let data := u64 (i8 b) in
  Ok (data, if memtrace addr then print (trace_line "mem load 8: addr: " addr data) m else m).

(** Programs are modelled with the tracers off, so that a load leaves the
    machine as it was. *)
Definition no_trace (addr : Z) : bool := false.

(** [for (i = 0; i < n; i++) a |= (mem_ld8(env->pc + (top - i)) & 0xFF) << 8*(7-i)] *)
Fixpoint push_bytes (n : nat) (i top a : Z) (m : machine) : outcome Z :=
  match n with
  | O => Ok a
  | S n' =>
      let* (b, m) := helper_mem_ld8 no_trace (u32 (env_pc (cpu m) + (top - i))) m in
      let tmp := Z.land b 255 in
      push_bytes n' (i + 1) top (Z.lor a (pd_lsh tmp (8 * (7 - i)))) m
  end.

(** The whole words, [j] of [cnt/8]. *)
Fixpoint push_blocks (n : nat) (j cnt : Z) (m : machine) : outcome machine :=
  match n with
  | O => Ok m
  | S n' =>
      let* a := push_bytes 8 0 (cnt - 8 * j) 0 m in
      let* m := stack_set (sp (cpu m) + j) a m in
      push_blocks n' (j + 1) cnt m
  end.

(** [for (j = j+1; j < 4; j++) stack_arr[sp + j] = 0] *)
Fixpoint push_zeros (n : nat) (j : Z) (m : machine) : outcome machine :=
  match n with
  | O => Ok m
  | S n' =>
      if j <? 4 then
        let* m := stack_set (sp (cpu m) + j) 0 m in push_zeros n' (j + 1) m
      else Ok m
  end.

Definition PushInst (cnt0 : Z) (m : machine) : outcome machine :=
  let cnt := u32 cnt0 in
  let m := move_sp 1 m in
  let blocks := cnt / 8 in
  let* m := push_blocks (Z.to_nat blocks) 0 cnt m in
  let rest := Z.land cnt 7 in
  let* m :=
    if negb (rest =? 0) then
      let* a := push_bytes (Z.to_nat rest) 0 rest 0 m in
      stack_set (sp (cpu m) + blocks) a m
    else Ok m in
  let* m := push_zeros 4 (blocks + 1) m in
  Ok (move_sp 3 m).
