(* ===== verification/HelpersSpec.v ===== *)
(** * What the instruction helpers compute

    On the view of [stack_arr] as a stack of 256-bit words ([ArithmSpec.v]). *)

From stdpp Require Import base numbers list option strings.
From Stdlib Require Import ZArith Lia.
From S2P Require Import Prelude Words Bignum BignumSpec BignumHeap BignumStr Cpu Arithm ArithmSpec Storage Helpers.

(** ** Four consecutive cells *)

Lemma four_cells (arr : list Z) (i : nat) :
  (i + 4 <= length arr)%nat -> exists l a b c d r, arr = l ++ a :: b :: c :: d :: r /\ length l = i.
Proof.
  intros H. destruct (drop i arr) as [|a [|b [|c [|d r]]]] eqn:E;
    try (apply (f_equal length) in E; rewrite length_drop in E; simpl in E; lia).
  exists (take i arr), a, b, c, d, r. rewrite <- E, take_drop. split; [done|].
  rewrite length_take. lia.
Qed.

Lemma write4_steps arr i v0 v1 v2 v3 arr' :
  write4 arr i [v0; v1; v2; v3] = Ok arr' ->
  exists a1 a2 a3, aset arr i v0 = Ok a1 /\ aset a1 (i + 1) v1 = Ok a2 /\
  aset a2 (i + 2) v2 = Ok a3 /\ aset a3 (i + 3) v3 = Ok arr'.
Proof.
  unfold write4. destruct (Z.leb_spec 0 i); [|done].
  destruct (Z.leb_spec (i + 4) (Z.of_nat (length arr))) as [Hl|]; [|done]. cbn [andb].
  intros E. injection E as <-.
  destruct (four_cells arr (Z.to_nat i)) as (l & a & b & c & d & r & -> & Hlen); [lia|].
  exists (l ++ v0 :: b :: c :: d :: r), (l ++ v0 :: v1 :: c :: d :: r), (l ++ v0 :: v1 :: v2 :: d :: r).
  rewrite <- Hlen, take_app_length. cbn [take].
  replace (drop (length l + 4) (l ++ a :: b :: c :: d :: r)) with r
    by (by rewrite <- drop_drop, drop_app_length).
  rewrite length_app in Hl. cbn [length] in Hl.
  split_and!; rewrite aset_ok by (rewrite length_app; cbn [length]; lia); f_equal.
  - replace (Z.to_nat i) with (length l + 0)%nat by lia. by rewrite insert_app_r.
  - replace (Z.to_nat (i + 1)) with (length l + 1)%nat by lia. by rewrite insert_app_r.
  - replace (Z.to_nat (i + 2)) with (length l + 2)%nat by lia. by rewrite insert_app_r.
  - replace (Z.to_nat (i + 3)) with (length l + 3)%nat by lia. by rewrite insert_app_r.
Qed.

Lemma read4_steps arr i reg :
  read4 arr i = Ok reg -> exists v0 v1 v2 v3, reg = [v0; v1; v2; v3] /\
  aget arr i = Ok v0 /\ aget arr (i + 1) = Ok v1 /\ aget arr (i + 2) = Ok v2 /\ aget arr (i + 3) = Ok v3.
Proof.
  unfold read4. destruct (Z.leb_spec 0 i); [|done].
  destruct (Z.leb_spec (i + 4) (Z.of_nat (length arr))) as [Hl|]; [|done]. cbn [andb].
  intros E. injection E as <-.
  destruct (four_cells arr (Z.to_nat i)) as (l & a & b & c & d & r & -> & Hlen); [lia|].
  exists a, b, c, d. rewrite <- Hlen, drop_app_length.
  rewrite length_app in Hl. cbn [length] in Hl.
  split_and!; [done|..]; rewrite aget_ok by (rewrite length_app; cbn [length]; lia); f_equal;
    rewrite nth_lookup.
  - replace (Z.to_nat i) with (length l + 0)%nat by lia. by rewrite lookup_app_plus.
  - replace (Z.to_nat (i + 1)) with (length l + 1)%nat by lia. by rewrite lookup_app_plus.
  - replace (Z.to_nat (i + 2)) with (length l + 2)%nat by lia. by rewrite lookup_app_plus.
  - replace (Z.to_nat (i + 3)) with (length l + 3)%nat by lia. by rewrite lookup_app_plus.
Qed.

(** The stack pointer of [n] words, and small offsets from it. *)
Lemma sp_plus n k :
  (4 * n <= STACK_CELLS)%nat -> 0 < 4 * Z.of_nat n + k -> k < 2 ^ 32 ->
  u64 (u64 (4 * Z.of_nat n - 1) + k) = 4 * Z.of_nat n - 1 + k.
Proof.
  intros Hn Hk Hk2. unfold STACK_CELLS in Hn. unfold u64. rewrite Z.add_mod_idemp_l by lia.
  apply Z.mod_small. lia.
Qed.

(** ** Single values *)

Lemma push_loop_swap n i v acc :
  0 <= i -> Z.of_nat n + i <= 8 -> push_loop n i v acc = swap_loop n i v acc.
Proof.
  revert i acc; induction n as [|n IH]; intros i acc Hi Hn; [done|]. cbn [push_loop swap_loop].
  rewrite IH by lia. unfold pd_lsh, pd_rsh.
  rewrite (proj2 (Z.leb_gt 64 (8 * i))), (proj2 (Z.leb_gt 64 (8 * (7 - i)))) by lia. done.
Qed.

(** Pushing a word given by its four cells. *)
Lemma push_cells m ws v0 v1 v2 v3 :
  stack_is (cpu m) ws -> (4 * S (length ws) <= STACK_CELLS)%nat -> Forall is_u64 [v0; v1; v2; v3] ->
  exists a1 a2 a3 a4, let b := 4 * Z.of_nat (length ws) in
  aset (stack_arr (cpu m)) b v0 = Ok a1 /\ aset a1 (b + 1) v1 = Ok a2 /\
  aset a2 (b + 2) v2 = Ok a3 /\ aset a3 (b + 3) v3 = Ok a4 /\
  stack_is (set_sp (u64 (b + 3)) (set_stack_arr a4 (cpu m))) (ws ++ [reg_val [v0; v1; v2; v3]]).
Proof.
  intros Hs Hroom Hv. destruct (stack_push _ _ [v0; v1; v2; v3] Hs Hroom) as (a4 & E & H); [done|].
  destruct (write4_steps _ _ _ _ _ _ _ E) as (a1 & a2 & a3 & E1 & E2 & E3 & E4).
  exists a1, a2, a3, a4. cbn zeta. split_and!; auto.
Qed.

(** [m] with the words [ws] on its stack, everything else as it was. *)
Definition push_to (arr : list Z) (n : nat) (m : machine) : machine :=
  with_cpu (fun c => set_sp (4 * Z.of_nat n - 1) (set_stack_arr arr c)) m.

Ltac cells := cbn [obind cpu with_cpu sp set_sp stack_arr set_stack_arr].
Ltac small := unfold STACK_CELLS, is_u64 in *; lia.

Lemma push4_ok m ws v0 v1 v2 v3 :
  stack_is (cpu m) ws -> (4 * S (length ws) <= STACK_CELLS)%nat -> Forall is_u64 [v0; v1; v2; v3] ->
  exists arr, push4 v0 v1 v2 v3 m = Ok (push_to arr (S (length ws)) m) /\
  stack_is (cpu (push_to arr (S (length ws)) m)) (ws ++ [reg_val [v0; v1; v2; v3]]).
Proof.
  intros Hs Hroom Hv. unfold push4.
  destruct (push_cells m ws v0 v1 v2 v3 Hs Hroom Hv) as (a1 & a2 & a3 & a4 & E1 & E2 & E3 & E4 & H).
  cbn zeta in *. pose proof Hs as (_ & _ & Hn & Hsp & _). set (n := length ws) in *.
  unfold move_sp, stack_set. cells. rewrite Hsp, sp_plus by lia.
  replace (4 * Z.of_nat n - 1 + 1) with (4 * Z.of_nat n) by lia.
  rewrite (u64_id (4 * Z.of_nat n)) by small. rewrite E1. cells.
  rewrite (u64_id (4 * Z.of_nat n + 1)) by small. rewrite E2. cells.
  rewrite (u64_id (4 * Z.of_nat n + 2)) by small. rewrite E3. cells.
  rewrite (u64_id (4 * Z.of_nat n + 3)) by small. rewrite E4. cells.
  exists a4. unfold push_to. replace (4 * Z.of_nat (S n) - 1) with (4 * Z.of_nat n + 3) by lia.
  split; [by rewrite u64_id by small|]. rewrite u64_id in H by small. exact H.
Qed.

Lemma reg_val_single v : is_u64 v -> reg_val [bswap64 v; 0; 0; 0] = v.
Proof. intros Hv. cbn [reg_val]. rewrite bswap64_invol by done. change (bswap64 0) with 0. lia. Qed.

Lemma PushSingleBlock_ok v m ws :
  stack_is (cpu m) ws -> (4 * S (length ws) <= STACK_CELLS)%nat -> is_u64 v ->
  exists arr, PushSingleBlockToStack v m = Ok (push_to arr (S (length ws)) m) /\
  stack_is (cpu (push_to arr (S (length ws)) m)) (ws ++ [v]).
Proof.
  intros Hs Hroom Hv. unfold PushSingleBlockToStack.
  rewrite push_loop_swap, swap_loop_bswap by (done || lia).
  destruct (push4_ok m ws (bswap64 v) 0 0 0 Hs Hroom) as (arr & E & H); [all_u|].
  rewrite reg_val_single in H by done. eauto.
Qed.

(** The value [GetSingleBlockFromStack] makes of the low 64 bits of a word:
    byte [k] is added in at bit [k]. *)
Definition block_value (w : Z) : Z :=
  fold_left (fun acc k => Z.lor acc (Z.shiftl (nth k (le_bytes 8 w) 0) (Z.of_nat k))) (seq 0 8) 0.

Lemma get_loop_spec n (j : nat) v acc :
  is_u64 v -> (n + j = 8)%nat ->
  get_loop n (Z.of_nat j) v acc =
  fold_left (fun acc k => Z.lor acc (Z.shiftl (nth k (le_bytes 8 (bswap64 v)) 0) (Z.of_nat k)))
    (seq j n) acc.
Proof.
  intros Hv. revert j acc; induction n as [|n IH]; intros j acc Hn; [done|].
  cbn [get_loop seq fold_left]. replace (Z.of_nat j + 1) with (Z.of_nat (S j)) by lia.
  rewrite IH by lia. do 2 f_equal. unfold pd_lsh, pd_rsh.
  rewrite (proj2 (Z.leb_gt 64 (8 * _))), (proj2 (Z.leb_gt 64 (Z.of_nat j))) by lia.
  rewrite bswap64_bytes by done. rewrite rev_nth by (rewrite length_le_bytes; lia).
  rewrite length_le_bytes, le_bytes_map, nth_map_seq by lia.
  rewrite land_ff, Z.shiftr_div_pow2 by lia.
  replace (8 * (7 - Z.of_nat j)) with (8 * Z.of_nat (8 - S j)) by lia.
  set (b := _ mod 2 ^ 8). assert (0 <= b < 2 ^ 8) as Hb by (apply Z.mod_pos_bound; lia).
  rewrite Z.shiftl_mul_pow2 by lia. apply u64_id. unfold is_u64.
  assert (0 < 2 ^ Z.of_nat j <= 2 ^ 7) by (split; [lia|apply Z.pow_le_mono_r; lia]). nia.
Qed.

Lemma pop_sp m rest w :
  stack_is (cpu m) (rest ++ [w]) -> move_sp (-4) m = with_cpu (set_sp (u64 (4 * Z.of_nat (length rest) - 1))) m.
Proof.
  intros (_ & _ & Hn & Hsp & _). unfold move_sp. rewrite Hsp. do 2 f_equal.
  rewrite length_app. cbn [length]. unfold u64. rewrite Z.add_mod_idemp_l by lia. f_equal. lia.
Qed.

Lemma GetSingleBlock_ok m rest w :
  stack_is (cpu m) (rest ++ [w]) ->
  let m' := with_cpu (set_sp (u64 (4 * Z.of_nat (length rest) - 1))) m in
  GetSingleBlockFromStack m = Ok (block_value (w mod 2 ^ 64), m') /\ stack_is (cpu m') rest.
Proof.
  intros Hs. cbn zeta. split; [|by eapply stack_pop].
  destruct (operand_cell _ _ 0 w Hs) as (v & E & Hv & Hb);
    [apply lookup_snoc_from; [done|simpl; lia]|rewrite length_app; simpl; lia|].
  change (4 * Z.of_nat 0 + 3) with 3 in E.
  unfold GetSingleBlockFromStack, stack_get. rewrite E. cbn [obind].
  rewrite (pop_sp _ _ _ Hs). pose proof (get_loop_spec 8 0 v 0 Hv eq_refl) as Hg.
  change (Z.of_nat 0) with 0 in Hg. rewrite Hg, Hb. done.
Qed.

(** Addresses below 256 come through unchanged. *)
Lemma block_value_small w : 0 <= w < 256 -> block_value w = w.
Proof.
  intros Hw. unfold block_value.
  assert (le_bytes 8 w = [w; 0; 0; 0; 0; 0; 0; 0]) as ->.
  { cbn [le_bytes]. rewrite Z.mod_small, (Z.div_small w) by lia. done. }
  cbn [seq fold_left nth Z.of_nat]. rewrite !Z.shiftl_0_l, !Z.lor_0_r. done.
Qed.

(** ** DUP and SWAP *)

(** The four cells of the [k]-th word from the top, at the [uint64_t] indexes
    the helpers use. *)
Lemma operand_cells c ws k w :
  stack_is c ws -> ws !! (length ws - S k)%nat = Some w -> (k < length ws)%nat ->
  exists v0 v1 v2 v3, reg_wf [v0; v1; v2; v3] /\ reg_val [v0; v1; v2; v3] = w /\
  aget (stack_arr c) (u64 (sp c - (4 * Z.of_nat k + 3))) = Ok v0 /\
  aget (stack_arr c) (u64 (sp c - (4 * Z.of_nat k + 2))) = Ok v1 /\
  aget (stack_arr c) (u64 (sp c - (4 * Z.of_nat k + 1))) = Ok v2 /\
  aget (stack_arr c) (u64 (sp c - (4 * Z.of_nat k + 0))) = Ok v3.
Proof.
  intros Hs Hk Hlt. destruct (operand c ws k w Hs Hk Hlt) as (reg & E & Hr & Hv).
  destruct (read4_steps _ _ _ E) as (v0 & v1 & v2 & v3 & -> & E0 & E1 & E2 & E3).
  exists v0, v1, v2, v3. split; [done|]. split; [done|].
  destruct Hs as (_ & _ & Hn & Hsp & _). rewrite Hsp in *. rewrite sp_i32_any in * by done.
  rewrite !(u64_id (4 * Z.of_nat (length ws) - 1)) by small.
  rewrite !u64_id by small.
  split_and!; [rewrite <- E0|rewrite <- E1|rewrite <- E2|rewrite <- E3]; f_equal; lia.
Qed.

Lemma DupOp_ok k m ws w :
  stack_is (cpu m) ws -> ws !! (length ws - S k)%nat = Some w -> (k < length ws)%nat ->
  (k < 16)%nat -> (4 * S (length ws) <= STACK_CELLS)%nat ->
  exists arr, DupOp (Z.of_nat k) m = Ok (push_to arr (S (length ws)) m) /\
  stack_is (cpu (push_to arr (S (length ws)) m)) (ws ++ [w]).
Proof.
  intros Hs Hk Hlt H16 Hroom.
  destruct (operand_cells _ _ _ _ Hs Hk Hlt) as (v0 & v1 & v2 & v3 & [_ Hr] & Hv & E0 & E1 & E2 & E3).
  unfold DupOp, stack_get.
  rewrite (u32_id (Z.of_nat k)), (u32_id (4 * _)), !u32_id by (unfold is_u32; lia).
  rewrite E3. cbn [obind]. rewrite E2. cbn [obind]. rewrite E1. cbn [obind]. rewrite E0. cbn [obind].
  destruct (push4_ok m ws v0 v1 v2 v3 Hs Hroom Hr) as (arr & E & H). rewrite Hv in H. eauto.
Qed.

Lemma stack_words_lookup n arr ws i :
  stack_words n arr = ws -> (i < n)%nat -> ws !! i = Some (word_at arr i).
Proof. intros <- Hi. unfold stack_words. by rewrite list_lookup_fmap, lookup_seq_lt. Qed.

(** Replacing one word of the stack. *)
Lemma stack_update c ws k reg :
  stack_is c ws -> (k < length ws)%nat -> reg_wf reg ->
  exists arr, write4 (stack_arr c) (4 * Z.of_nat k) reg = Ok arr /\
  stack_is (set_stack_arr arr c) (<[k := reg_val reg]> ws).
Proof.
  intros (Hl & Hu & Hn & Hsp & E) Hk [Hl4 Hu4].
  rewrite write4_ok by (try done; small).
  replace (Z.to_nat (4 * Z.of_nat k)) with (4 * k)%nat by lia.
  eexists. split; [done|]. unfold stack_is. cbn [stack_arr sp set_stack_arr].
  rewrite length_insert. split_and!; auto.
  - rewrite <- Hl. apply length_splice; small.
  - by apply Forall_splice.
  - apply list_eq. intros i. unfold stack_words. rewrite list_lookup_fmap.
    destruct (Nat.lt_ge_cases i (length ws)) as [Hi|Hi].
    2: { rewrite lookup_seq_ge by lia. simpl. symmetry. apply lookup_ge_None_2. by rewrite length_insert. }
    rewrite lookup_seq_lt by done. simpl. destruct (decide (i = k)) as [->|Hne].
    + rewrite list_lookup_insert_eq by done. f_equal. apply word_at_splice_eq; small.
    + rewrite list_lookup_insert_ne by done. assert (ws !! i = Some (word_at (stack_arr c) i)) as ->.
      { by apply (stack_words_lookup (length ws)). }
      f_equal.
      destruct (Nat.lt_ge_cases i k); [apply word_at_splice_lt|apply word_at_splice_gt]; small.
Qed.

(** Two words of the array, the lower one first. *)
Definition two (l1 : list Z) (a0 a1 a2 a3 : Z) (l2 : list Z) (b0 b1 b2 b3 : Z) (l3 : list Z) : list Z :=
  l1 ++ a0 :: a1 :: a2 :: a3 :: l2 ++ b0 :: b1 :: b2 :: b3 :: l3.

Lemma two_words (arr : list Z) (p q : nat) :
  (p < q)%nat -> (4 * q + 4 <= length arr)%nat ->
  exists l1 a0 a1 a2 a3 l2 b0 b1 b2 b3 l3,
  arr = two l1 a0 a1 a2 a3 l2 b0 b1 b2 b3 l3 /\ length l1 = (4 * p)%nat /\
  length l2 = (4 * q - 4 * p - 4)%nat.
Proof.
  intros Hpq Hl. destruct (four_cells arr (4 * p)) as (l1 & a0 & a1 & a2 & a3 & r & -> & H1); [lia|].
  rewrite length_app in Hl. cbn [length] in Hl.
  destruct (four_cells r (4 * q - 4 * p - 4)) as (l2 & b0 & b1 & b2 & b3 & l3 & -> & H2); [lia|].
  by exists l1, a0, a1, a2, a3, l2, b0, b1, b2, b3, l3.
Qed.

Section TwoWords.
Context (l1 l2 l3 : list Z) (a0 a1 a2 a3 b0 b1 b2 b3 : Z).
Let arr := two l1 a0 a1 a2 a3 l2 b0 b1 b2 b3 l3.

Lemma lookup_low j : (j < 4)%nat -> nth (length l1 + j) arr 0 = nth j [a0; a1; a2; a3] 0.
Proof.
  intros Hj. unfold arr, two. rewrite !nth_lookup, lookup_app_plus.
  do 4 (destruct j as [|j]; [done|]). lia.
Qed.

(** Writing cell [j] of both words. *)
Lemma insert_both j u v : (j < 4)%nat ->
  <[(length l1 + j)%nat := u]> (<[(length l1 + (4 + (length l2 + j)))%nat := v]> arr) =
  l1 ++ <[j := u]> (a0 :: a1 :: a2 :: a3 :: l2 ++ <[j := v]> (b0 :: b1 :: b2 :: b3 :: l3)).
Proof.
  intros. unfold arr, two. rewrite !insert_app_r.
  assert (forall r n, <[(4 + n)%nat := v]> (a0 :: a1 :: a2 :: a3 :: r)
    = a0 :: a1 :: a2 :: a3 :: <[n := v]> r) as -> by done.
  by rewrite insert_app_r.
Qed.

Lemma lookup_high j : (j < 4)%nat ->
  nth (length l1 + (4 + (length l2 + j))) arr 0 = nth j [b0; b1; b2; b3] 0.
Proof.
  intros Hj. unfold arr, two. rewrite !nth_lookup, lookup_app_plus.
  assert (forall (r : list Z) n, (a0 :: a1 :: a2 :: a3 :: r) !! (4 + n)%nat = r !! n) as -> by done.
  rewrite lookup_app_plus. do 4 (destruct j as [|j]; [done|]). lia.
Qed.

Lemma word_low p : length l1 = (4 * p)%nat -> word_at arr p = reg_val [a0; a1; a2; a3].
Proof. intros E. unfold word_at, arr, two. by rewrite <- E, drop_app_length. Qed.

Lemma word_high q : (length l1 + (4 + length l2) = 4 * q)%nat -> word_at arr q = reg_val [b0; b1; b2; b3].
Proof.
  intros E. unfold word_at, arr, two. rewrite <- E, <- drop_drop, drop_app_length.
  rewrite <- (drop_drop _ (length l2) 4).
  assert (forall r : list Z, drop 4 (a0 :: a1 :: a2 :: a3 :: r) = r) as -> by done.
  by rewrite drop_app_length.
Qed.

Lemma two_u64 : Forall is_u64 arr -> Forall is_u64 [a0; a1; a2; a3] /\ Forall is_u64 [b0; b1; b2; b3].
Proof.
  unfold arr, two. rewrite !Forall_app, !Forall_cons, Forall_app, !Forall_cons. intuition all_u.
Qed.

Lemma write4_low c0 c1 c2 c3 :
  write4 arr (Z.of_nat (length l1)) [c0; c1; c2; c3] = Ok (two l1 c0 c1 c2 c3 l2 b0 b1 b2 b3 l3).
Proof.
  rewrite write4_ok by (try done; unfold arr, two; rewrite ?length_app; cbn [length]; lia).
  rewrite Nat2Z.id, <- drop_drop. unfold arr, two. by rewrite take_app_length, drop_app_length.
Qed.

Lemma write4_high c0 c1 c2 c3 :
  write4 arr (Z.of_nat (length l1 + (4 + length l2))) [c0; c1; c2; c3]
  = Ok (two l1 a0 a1 a2 a3 l2 c0 c1 c2 c3 l3).
Proof.
  assert (arr = (l1 ++ a0 :: a1 :: a2 :: a3 :: l2) ++ b0 :: b1 :: b2 :: b3 :: l3) as E
    by (unfold arr, two; by rewrite <- app_assoc).
  assert (length (l1 ++ a0 :: a1 :: a2 :: a3 :: l2) = (length l1 + (4 + length l2))%nat) as Hl
    by (by rewrite length_app).
  rewrite write4_ok by (try done; rewrite ?E, ?length_app; cbn [length]; lia).
  rewrite Nat2Z.id, <- drop_drop, E, <- Hl, take_app_length, drop_app_length.
  cbn [drop]. unfold two. by rewrite <- app_assoc.
Qed.

Lemma length_two : length arr = (length l1 + length l2 + length l3 + 8)%nat.
Proof. unfold arr, two. rewrite length_app. cbn. rewrite length_app. cbn. lia. Qed.
End TwoWords.

(** One round of SWAP, the array given by its two words. *)
Lemma swap_round_eq k i j m (n : nat) first arr' l1 a0 a1 a2 a3 l2 b0 b1 b2 b3 l3 :
  stack_arr (cpu m) = two l1 a0 a1 a2 a3 l2 b0 b1 b2 b3 l3 ->
  sp (cpu m) = u64 (4 * Z.of_nat n - 1) -> (4 * n <= STACK_CELLS)%nat ->
  (S k < n)%nat -> (k < 16)%nat -> length l1 = (4 * (n - S (S k)))%nat -> length l2 = (4 * k)%nat ->
  (j < 4)%nat -> i = 3 - Z.of_nat j ->
  arr' = l1 ++ <[j := first]> (a0 :: a1 :: a2 :: a3 ::
           l2 ++ <[j := nth j [a0; a1; a2; a3] 0]> (b0 :: b1 :: b2 :: b3 :: l3)) ->
  swap_round (Z.of_nat k) i first m = Ok (with_cpu (set_stack_arr arr') m).
Proof.
  intros Ha Hsp Hn Hk H16 Hl1 Hl2 Hj -> ->. unfold swap_round, stack_get, stack_set.
  rewrite (u32_id (Z.of_nat k)), (u32_id (Z.of_nat k + 1)) by (unfold is_u32; lia).
  rewrite (u32_id (4 * (Z.of_nat k + 1) + _)) by (unfold is_u32; lia).
  rewrite Hsp. rewrite (u64_id (4 * Z.of_nat n - 1)) by small.
  rewrite u32_id by (unfold is_u32, STACK_CELLS in *; lia).
  replace (4 * Z.of_nat n - 1 - (4 * (Z.of_nat k + 1) + (3 - Z.of_nat j)))
    with (Z.of_nat (length l1 + j)) by lia.
  replace (4 * Z.of_nat n - 1 - (3 - Z.of_nat j))
    with (Z.of_nat (length l1 + (4 + (length l2 + j)))) by lia.
  rewrite !u64_id by small. rewrite Ha.
  assert (length (two l1 a0 a1 a2 a3 l2 b0 b1 b2 b3 l3) = (length l1 + length l2 + length l3 + 8)%nat)
    as Hlen by apply length_two.
  rewrite aget_ok, Nat2Z.id, lookup_low by lia. cells.
  rewrite aset_ok, Nat2Z.id by lia. cells.
  rewrite aset_ok, Nat2Z.id by (rewrite length_insert; lia).
  by rewrite insert_both.
Qed.

Lemma SwapOp_ok k m ws t w :
  stack_is (cpu m) ws -> (S k < length ws)%nat -> (k < 16)%nat ->
  ws !! (length ws - 1)%nat = Some t -> ws !! (length ws - S (S k))%nat = Some w ->
  exists arr, SwapOp (Z.of_nat k) m = Ok (with_cpu (set_stack_arr arr) m) /\
  stack_is (set_stack_arr arr (cpu m))
    (<[(length ws - 1)%nat := w]> (<[(length ws - S (S k))%nat := t]> ws)).
Proof.
  intros Hs Hk H16 Ht Hw. pose proof Hs as (Hl & Hu & Hn & Hsp & Hws).
  destruct (two_words (stack_arr (cpu m)) (length ws - S (S k)) (length ws - 1))
    as (l1 & a0 & a1 & a2 & a3 & l2 & b0 & b1 & b2 & b3 & l3 & Ea & Hl1 & Hl2); [lia|small|].
  assert (length l2 = (4 * k)%nat) as Hl2' by lia.
  unfold SwapOp, stack_get. rewrite Hsp, (u64_id (4 * Z.of_nat (length ws) - 1)) by small.
  replace (4 * Z.of_nat (length ws) - 1 - 3) with (Z.of_nat (length l1 + (4 + (length l2 + 0)))) by lia.
  replace (4 * Z.of_nat (length ws) - 1 - 2) with (Z.of_nat (length l1 + (4 + (length l2 + 1)))) by lia.
  replace (4 * Z.of_nat (length ws) - 1 - 1) with (Z.of_nat (length l1 + (4 + (length l2 + 2)))) by lia.
  replace (4 * Z.of_nat (length ws) - 1) with (Z.of_nat (length l1 + (4 + (length l2 + 3)))) by lia.
  assert (length (stack_arr (cpu m)) = length l1 + length l2 + length l3 + 8)%nat as Hlen
    by (rewrite Ea; apply length_two).
  rewrite !u64_id by small. rewrite !aget_ok by lia. rewrite !Nat2Z.id, Ea, !lookup_high by lia.
  cbn [obind nth].
  rewrite (swap_round_eq k 0 3 m (length ws) b3 (two l1 a0 a1 a2 b3 l2 b0 b1 b2 a3 l3)
    l1 a0 a1 a2 a3 l2 b0 b1 b2 b3 l3) by (auto; lia). cells.
  rewrite (swap_round_eq k 1 2 _ (length ws) b2 (two l1 a0 a1 b2 b3 l2 b0 b1 a2 a3 l3)
    l1 a0 a1 a2 b3 l2 b0 b1 b2 a3 l3) by (auto; lia). cells.
  rewrite (swap_round_eq k 2 1 _ (length ws) b1 (two l1 a0 b1 b2 b3 l2 b0 a1 a2 a3 l3)
    l1 a0 a1 b2 b3 l2 b0 b1 a2 a3 l3) by (auto; lia). cells.
  rewrite (swap_round_eq k 3 0 _ (length ws) b0 (two l1 b0 b1 b2 b3 l2 a0 a1 a2 a3 l3)
    l1 a0 b1 b2 b3 l2 b0 a1 a2 a3 l3) by (auto; lia). cells.
  exists (two l1 b0 b1 b2 b3 l2 a0 a1 a2 a3 l3). split; [done|].
  rewrite (stack_words_lookup _ _ _ _ Hws), Ea, (word_high l1 l2 l3) in Ht by lia. injection Ht as <-.
  rewrite (stack_words_lookup _ _ _ _ Hws), Ea, (word_low l1 l2 l3) in Hw by lia. injection Hw as <-.
  rewrite Ea in Hu. apply two_u64 in Hu as [Hua Hub].
  destruct (stack_update (cpu m) ws (length ws - S (S k)) [b0; b1; b2; b3] Hs) as (x1 & E1 & S1);
    [lia|done|].
  replace (4 * Z.of_nat (length ws - S (S k))) with (Z.of_nat (length l1)) in E1 by lia.
  rewrite Ea, write4_low in E1. injection E1 as <-.
  destruct (stack_update _ _ (length ws - 1) [a0; a1; a2; a3] S1) as (x2 & E2 & S2);
    [rewrite length_insert; lia|done|].
  replace (4 * Z.of_nat (length ws - 1)) with (Z.of_nat (length l1 + (4 + length l2))) in E2 by lia.
  cbn [stack_arr set_stack_arr] in E2. rewrite write4_high in E2. injection E2 as <-. exact S2.
Qed.
