(* ===== verification/MemSpec.v ===== *)
(** * What the memory helpers compute

    [MStoreInst], [MloadInst] and [PushInst] as operations on the bytes of
    [data_bus] and of the program: words are stored most significant byte
    first. *)

From stdpp Require Import base numbers list option strings.
From Stdlib Require Import ZArith Lia.
From S2P Require Import Prelude Words Bignum BignumSpec BignumHeap BignumStr Cpu Arithm ArithmSpec Storage Helpers HelpersSpec.

(** ** Writing and reading the bus *)

(** [l] with [x] written from index [k] on. *)
Definition splice (k : nat) (x l : list Z) : list Z := take k l ++ x ++ drop (k + length x) l.

Lemma length_splice_at k x l : (k + length x <= length l)%nat -> length (splice k x l) = length l.
Proof. intros H. unfold splice. rewrite !length_app, length_take, length_drop. lia. Qed.

Lemma splice_cons k b x l : (k < length l)%nat -> splice (S k) x (<[k := b]> l) = splice k (b :: x) l.
Proof.
  intros Hk. unfold splice.
  rewrite (take_S_r _ _ b) by (by rewrite list_lookup_insert_eq).
  rewrite take_insert_ge, drop_insert_lt by lia. rewrite <- app_assoc. cbn [app length].
  by replace (k + S (length x))%nat with (S k + length x)%nat by lia.
Qed.

Lemma splice_app k x y l : (k + length x + length y <= length l)%nat ->
  splice (k + length x) y (splice k x l) = splice k (x ++ y) l.
Proof.
  intros H. unfold splice.
  assert (length (take k l ++ x) = (k + length x)%nat) as Hl by (rewrite length_app, length_take; lia).
  rewrite (app_assoc (take k l) x (drop _ l)), <- Hl, take_app_length, <- drop_drop, drop_app_length.
  rewrite drop_drop, Hl, length_app, <- !app_assoc. by rewrite Nat.add_assoc.
Qed.

Lemma splice4 k x y z t l :
  length x = 8%nat -> length y = 8%nat -> length z = 8%nat -> length t = 8%nat ->
  (k + 32 <= length l)%nat ->
  splice (k + 8 + 8 + 8) t (splice (k + 8 + 8) z (splice (k + 8) y (splice k x l)))
  = splice k (x ++ y ++ z ++ t) l.
Proof.
  intros Hx Hy Hz Ht Hl.
  replace (k + 8 + 8 + 8)%nat with (k + length ((x ++ y) ++ z))%nat by (rewrite !length_app; lia).
  replace (k + 8 + 8)%nat with (k + length (x ++ y))%nat by (rewrite !length_app; lia).
  replace (k + 8)%nat with (k + length x)%nat by lia. rewrite splice_app by lia.
  rewrite splice_app by (rewrite ?length_app; lia). rewrite splice_app by (rewrite ?length_app; lia).
  by rewrite <- !app_assoc.
Qed.

(** Bytes [i .. i + n - 1] of a word, low byte first. *)
Definition word_bytes (i n : nat) (w : Z) : list Z :=
  map (fun j => (w / 2 ^ (8 * Z.of_nat j)) mod 2 ^ 8) (seq i n).

Lemma mstore_word_ok n (i : nat) w (addr : nat) m :
  (addr + n <= length (data_bus (cpu m)))%nat -> Z.of_nat (length (data_bus (cpu m))) < 2 ^ 64 ->
  (n + i <= 8)%nat ->
  mstore_word n (Z.of_nat i) w (Z.of_nat addr) m =
  Ok (with_cpu (set_data_bus (splice addr (word_bytes i n w) (data_bus (cpu m)))) m).
Proof.
  revert i addr m; induction n as [|n IH]; intros i addr m Hl Hb Hn; cbn [mstore_word].
  - unfold splice. simpl. rewrite Nat.add_0_r, take_drop. by destruct m as [[] ? ? ? ? ? ?].
  - unfold data_bus_set, pd_rsh. rewrite (proj2 (Z.leb_gt _ _)) by lia.
    rewrite land_ff, Z.shiftr_div_pow2 by lia. rewrite u8_id by (apply Z.mod_pos_bound; lia).
    rewrite u64_id, aset_ok, Nat2Z.id by (unfold is_u64; lia). cbn [obind].
    replace (Z.of_nat i + 1) with (Z.of_nat (S i)) by lia.
    replace (Z.of_nat addr + 1) with (Z.of_nat (S addr)) by lia.
    rewrite IH by (cbn [cpu with_cpu data_bus set_data_bus]; rewrite ?length_insert; lia).
    cbn [cpu with_cpu data_bus set_data_bus]. rewrite splice_cons by lia.
    done.
Qed.

Lemma word_bytes_8 w : word_bytes 0 8 w = le_bytes 8 w.
Proof. by rewrite le_bytes_map. Qed.

(** The 32 bytes of a word, most significant first. *)
Definition be32 (w : Z) : list Z := rev (le_bytes 32 w).

Lemma le_bytes_app n k w : le_bytes (n + k) w = le_bytes n w ++ le_bytes k (w / 2 ^ (8 * Z.of_nat n)).
Proof.
  revert w; induction n as [|n IH]; intros w; cbn [Nat.add le_bytes app].
  - by rewrite Z.div_1_r.
  - rewrite IH. do 3 f_equal. rewrite Z.div_div by lia. rewrite <- Z.pow_add_r by lia. do 2 f_equal. lia.
Qed.

Lemma be32_cells v0 v1 v2 v3 :
  Forall is_u64 [v0; v1; v2; v3] ->
  be32 (reg_val [v0; v1; v2; v3]) = le_bytes 8 v3 ++ le_bytes 8 v2 ++ le_bytes 8 v1 ++ le_bytes 8 v0.
Proof.
  rewrite !Forall_cons. intros (H0 & H1 & H2 & H3 & _). unfold be32.
  change 32%nat with (8 + (8 + (8 + 8)))%nat. rewrite !le_bytes_app.
  assert (forall v x, is_u64 v -> le_bytes 8 (bswap64 v + 2 ^ 64 * x) = rev (le_bytes 8 v)) as Hb.
  { intros v x Hv. rewrite <- bswap64_bytes by done. rewrite !le_bytes_map. apply map_ext_in.
    intros j Hj. apply in_seq in Hj.
    replace (2 ^ 64) with (2 ^ (8 * Z.of_nat (7 - j)) * 2 ^ 8 * 2 ^ (8 * Z.of_nat j))
      by (rewrite <- !Z.pow_add_r by lia; f_equal; lia).
    replace (_ * _ * _ * x) with (2 ^ (8 * Z.of_nat (7 - j)) * x * 2 ^ 8 * 2 ^ (8 * Z.of_nat j)) by lia.
    rewrite Z.div_add by lia. by rewrite Z.mod_add by lia. }
  assert (forall v x, is_u64 v -> (bswap64 v + 2 ^ 64 * x) / 2 ^ (8 * Z.of_nat 8) = x) as Hd.
  { intros v x Hv. change (8 * Z.of_nat 8) with 64. rewrite (Z.mul_comm (2 ^ 64)), Z.div_add by lia.
    pose proof (bswap64_range v). rewrite Z.div_small by done. lia. }
  cbn [reg_val]. rewrite !Hd, !Hb by done. by rewrite !rev_app_distr, !rev_involutive, <- !app_assoc.
Qed.

Lemma MStoreInst_ok (addr : nat) m rest w :
  stack_is (cpu m) (rest ++ [w]) -> length (data_bus (cpu m)) = 1024%nat -> (addr + 32 <= 1024)%nat ->
  let bus := splice addr (be32 w) (data_bus (cpu m)) in
  MStoreInst (Z.of_nat addr) m =
  Ok (with_cpu (fun c => set_mem_size (Z.max (mem_size c) (Z.of_nat addr + 32))
    (set_data_bus bus (set_sp (u64 (4 * Z.of_nat (length rest) - 1)) c))) m).
Proof.
  intros Hs Hbus Ha. cbn zeta.
  destruct (operand_cells _ _ 0 w Hs) as (v0 & v1 & v2 & v3 & [_ Hr] & Hv & E0 & E1 & E2 & E3);
    [apply lookup_snoc_from; [done|simpl; lia]|rewrite length_app; simpl; lia|].
  change (4 * Z.of_nat 0) with 0 in *. rewrite ?Z.add_0_l, ?Z.sub_0_r in *.
  unfold MStoreInst, stack_get. rewrite E3. cbn [obind]. rewrite E2. cbn [obind].
  rewrite E1. cbn [obind]. rewrite E0. cbn [obind]. rewrite (pop_sp _ _ _ Hs).
  set (m1 := with_cpu _ m). assert (data_bus (cpu m1) = data_bus (cpu m)) as Eb by done.
  assert (forall (a : nat) v m', (a + 8 <= 1024)%nat -> length (data_bus (cpu m')) = 1024%nat ->
    mstore_word 8 0 v (Z.of_nat a) m' =
    Ok (with_cpu (set_data_bus (splice a (le_bytes 8 v) (data_bus (cpu m')))) m')) as Hw.
  { intros a v m' H1 H2. pose proof (mstore_word_ok 8 0 v a m') as H. rewrite word_bytes_8 in H.
    apply H; lia. }
  replace (Z.of_nat addr + 8) with (Z.of_nat (addr + 8)) by lia.
  replace (Z.of_nat addr + 16) with (Z.of_nat (addr + 8 + 8)) by lia.
  replace (Z.of_nat addr + 24) with (Z.of_nat (addr + 8 + 8 + 8)) by lia.
  assert (forall a v l, (a + 8 <= 1024)%nat -> length l = 1024%nat ->
    length (splice a (le_bytes 8 v) l) = 1024%nat) as Hl.
  { intros a v l H1 H2. rewrite length_splice_at; [done|]. rewrite length_le_bytes. lia. }
  rewrite Hw by (rewrite ?Eb; lia). cbn [obind]. rewrite Eb.
  rewrite Hw by (cbn [cpu with_cpu data_bus set_data_bus]; rewrite ?Hl; lia). cbn [obind].
  rewrite Hw by (cbn [cpu with_cpu data_bus set_data_bus]; rewrite ?Hl by (rewrite ?Hl; lia); lia). cbn [obind].
  rewrite Hw by (cbn [cpu with_cpu data_bus set_data_bus]; rewrite ?Hl by (rewrite ?Hl by (rewrite ?Hl; lia); lia); lia).
  cbn [obind cpu with_cpu data_bus set_data_bus mem_size set_sp m1].
  rewrite splice4 by (rewrite ?length_le_bytes; lia). rewrite <- be32_cells, Hv by done.
  rewrite u64_id by (unfold is_u64; lia).
  destruct (Z.ltb_spec (mem_size (cpu m)) (Z.of_nat addr + 32)).
  - rewrite <- (Z.max_r (mem_size (cpu m)) (Z.of_nat addr + 32)) at 1 by lia. reflexivity.
  - unfold m1, with_cpu. cbn [cpu]. rewrite (Z.max_l (mem_size (cpu m))) by lia.
    by destruct m as [[] ? ? ? ? ? ?].
Qed.

Lemma mload_word_ok n (i : nat) (addr : nat) acc m :
  Forall is_u8 (data_bus (cpu m)) -> (addr + n <= length (data_bus (cpu m)))%nat ->
  Z.of_nat (length (data_bus (cpu m))) < 2 ^ 32 -> (n + i <= 8)%nat ->
  0 <= acc < 2 ^ (8 * Z.of_nat i) ->
  mload_word n (Z.of_nat i) (Z.of_nat addr) acc m =
  Ok (acc + 2 ^ (8 * Z.of_nat i) * le_val (take n (drop addr (data_bus (cpu m))))).
Proof.
  intros Hu. revert i addr acc; induction n as [|n IH]; intros i addr acc Hl Hb Hn Hacc; cbn [mload_word].
  - simpl. f_equal. lia.
  - unfold data_bus_get. rewrite u32_id, aget_ok, Nat2Z.id by (unfold is_u32; lia). cbn [obind].
    destruct (lookup_lt_is_Some_2 (data_bus (cpu m)) addr) as [b Eb]; [lia|].
    rewrite nth_lookup, Eb. cbn [from_option id].
    assert (is_u8 b) as Hb8 by (by eapply Forall_lookup_1). unfold is_u8 in Hb8.
    assert (0 < 2 ^ (8 * Z.of_nat i)) by lia.
    assert (2 ^ (8 * Z.of_nat (S i)) = 2 ^ 8 * 2 ^ (8 * Z.of_nat i)) as Hpow
      by (rewrite <- Z.pow_add_r by lia; f_equal; lia).
    assert (Z.lor acc (pd_lsh b (8 * Z.of_nat i)) = acc + b * 2 ^ (8 * Z.of_nat i)) as ->.
    { unfold pd_lsh. rewrite (proj2 (Z.leb_gt _ _)), Z.shiftl_mul_pow2 by lia.
      rewrite u64_id; [by apply lor_add; lia|]. unfold is_u64.
      assert (2 ^ (8 * Z.of_nat (S i)) <= 2 ^ 64) by (apply Z.pow_le_mono_r; lia). nia. }
    replace (Z.of_nat i + 1) with (Z.of_nat (S i)) by lia.
    replace (Z.of_nat addr + 1) with (Z.of_nat (S addr)) by lia.
    rewrite IH by (try lia; rewrite Hpow; nia). f_equal.
    rewrite (drop_S _ b addr Eb). cbn [take le_val]. rewrite Hpow. lia.
Qed.

(** The number 32 bytes stand for, most significant first. *)
Definition be_val (l : list Z) : Z := le_val (rev l).

Lemma be_val_cells b0 b1 b2 b3 :
  length b0 = 8%nat -> length b1 = 8%nat -> length b2 = 8%nat -> length b3 = 8%nat ->
  Forall is_u8 b0 -> Forall is_u8 b1 -> Forall is_u8 b2 -> Forall is_u8 b3 ->
  reg_val [le_val b0; le_val b1; le_val b2; le_val b3] = be_val (b3 ++ b2 ++ b1 ++ b0).
Proof.
  intros L0 L1 L2 L3 H0 H1 H2 H3.
  assert (forall b, length b = 8%nat -> Forall is_u8 b -> bswap64 (le_val b) = le_val (rev b)) as Hs.
  { intros b Hl Hb. unfold bswap64. rewrite <- Hl, le_bytes_val by done. done. }
  unfold be_val. cbn [reg_val]. rewrite !Hs by done.
  rewrite !rev_app_distr, !le_val_app, !length_app, !length_rev, L0, L1, L2.
  change (2 ^ (8 * Z.of_nat (8 + 8 + 8))) with (2 ^ 64 * 2 ^ 64 * 2 ^ 64).
  change (2 ^ (8 * Z.of_nat (8 + 8))) with (2 ^ 64 * 2 ^ 64).
  change (2 ^ (8 * Z.of_nat 8)) with (2 ^ 64). lia.
Qed.

Lemma take_drop_split (l : list Z) a n k :
  take (n + k) (drop a l) = take n (drop a l) ++ take k (drop (a + n) l).
Proof. by rewrite <- take_take_drop, drop_drop. Qed.

Lemma MloadInst_ok (addr : nat) m ws :
  stack_is (cpu m) ws -> (4 * S (length ws) <= STACK_CELLS)%nat ->
  length (data_bus (cpu m)) = 1024%nat -> Forall is_u8 (data_bus (cpu m)) -> (addr + 32 <= 1024)%nat ->
  exists arr, MloadInst (Z.of_nat addr) m = Ok (push_to arr (S (length ws)) m) /\
  stack_is (cpu (push_to arr (S (length ws)) m))
    (ws ++ [be_val (take 32 (drop addr (data_bus (cpu m))))]).
Proof.
  intros Hs Hroom Hbus Hu Ha. set (bus := data_bus (cpu m)) in *.
  assert (forall a, (a + 8 <= 1024)%nat -> length (take 8 (drop a bus)) = 8%nat) as Hl8.
  { intros a H. rewrite length_take, length_drop. lia. }
  assert (forall a, Forall is_u8 (take 8 (drop a bus))) as Hu8.
  { intros a. by apply Forall_take, Forall_drop. }
  assert (forall a : nat, (a + 8 <= 1024)%nat ->
    mload_word 8 0 (Z.of_nat a) 0 m = Ok (le_val (take 8 (drop a bus)))) as Hw.
  { intros a H. pose proof (mload_word_ok 8 0 a 0 m Hu) as E. rewrite Z.add_0_l in E.
    change (2 ^ (8 * Z.of_nat 0)) with 1 in E. rewrite Z.mul_1_l in E. apply E; fold bus; lia. }
  assert (forall a, (a + 8 <= 1024)%nat -> is_u64 (le_val (take 8 (drop a bus)))) as Hv.
  { intros a H. pose proof (le_val_range _ (Hu8 a)) as E. rewrite Hl8 in E by done. exact E. }
  unfold MloadInst. rewrite u32_id by (unfold is_u32; lia).
  replace (Z.of_nat addr + 8) with (Z.of_nat (addr + 8)) by lia.
  replace (Z.of_nat addr + 16) with (Z.of_nat (addr + 8 + 8)) by lia.
  replace (Z.of_nat addr + 24) with (Z.of_nat (addr + 8 + 8 + 8)) by lia.
  rewrite !Hw by lia. cbn [obind].
  set (d3 := le_val (take 8 (drop addr bus))). set (d2 := le_val (take 8 (drop (addr + 8) bus))).
  set (d1 := le_val (take 8 (drop (addr + 8 + 8) bus))).
  set (d0 := le_val (take 8 (drop (addr + 8 + 8 + 8) bus))).
  destruct (push_cells m ws d0 d1 d2 d3 Hs Hroom) as (a1 & a2 & a3 & a4 & E1 & E2 & E3 & E4 & H).
  { all_u; apply Hv; lia. }
  unfold d0, d1, d2, d3 in H. rewrite be_val_cells in H by (auto; apply Hl8; lia).
  rewrite <- (take_drop_split bus (addr + 8 + 8) 8 8), <- (take_drop_split bus (addr + 8) 8 (8 + 8)),
    <- (take_drop_split bus addr 8 (8 + (8 + 8))) in H.
  cbn zeta in *. pose proof Hs as (_ & _ & Hn & Hsp & _). set (n := length ws) in *.
  unfold move_sp, stack_set. cells. rewrite Hsp, sp_plus by lia.
  replace (4 * Z.of_nat n - 1 + 1) with (4 * Z.of_nat n) by lia. rewrite E1. cells.
  rewrite Hsp, sp_plus by lia. replace (4 * Z.of_nat n - 1 + 2) with (4 * Z.of_nat n + 1) by lia.
  rewrite E2. cells.
  rewrite Hsp, sp_plus by lia. replace (4 * Z.of_nat n - 1 + 3) with (4 * Z.of_nat n + 2) by lia.
  rewrite E3. cells.
  rewrite Hsp, sp_plus by lia. replace (4 * Z.of_nat n - 1 + 4) with (4 * Z.of_nat n + 3) by lia.
  rewrite E4. cells. rewrite Hsp, sp_plus by lia.
  exists a4. unfold push_to. replace (4 * Z.of_nat (S n) - 1) with (4 * Z.of_nat n + 3) by lia.
  replace (4 * Z.of_nat n - 1 + 4) with (4 * Z.of_nat n + 3) by lia.
  split; [done|]. rewrite u64_id in H by small. exact H.
Qed.

Lemma be32_length w : length (be32 w) = 32%nat.
Proof. unfold be32. by rewrite length_rev, length_le_bytes. Qed.
Lemma be32_u8 w : Forall is_u8 (be32 w).
Proof. apply Forall_rev, le_bytes_u8. Qed.

Lemma be_val_be32 w : 0 <= w < W -> be_val (be32 w) = w.
Proof.
  intros Hw. unfold be_val, be32. rewrite rev_involutive, le_val_bytes by lia. by apply Z.mod_small.
Qed.

Lemma take_drop_splice k x l :
  (k + length x <= length l)%nat -> take (length x) (drop k (splice k x l)) = x.
Proof.
  intros H. unfold splice. rewrite drop_app_length' by (rewrite length_take; lia). by rewrite take_app_length.
Qed.
