(* ===== verification/PushSpec.v ===== *)
(** * PUSH: the immediate operand becomes a word *)

From stdpp Require Import base numbers list option strings.
From Stdlib Require Import ZArith Lia.
From S2P Require Import Prelude Words Bignum BignumSpec BignumHeap BignumStr Cpu Arithm ArithmSpec Storage Helpers HelpersSpec MemSpec.

(** The byte of the program at an address. *)
Definition code_byte (m : machine) (a : Z) : Z := nth (Z.to_nat a) (ram_bytes (ram m)) 0.

(** The [n] bytes at [pc + top, pc + top - 1, ...]. *)
Definition down_bytes (m : machine) (top : Z) (n : nat) : list Z :=
  map (fun i => code_byte m (env_pc (cpu m) + top - Z.of_nat i)) (seq 0 n).

(** The immediate operand of a PUSH of [cnt] bytes, as it is in the code. *)
Definition immediate (m : machine) (cnt : nat) : list Z :=
  map (fun i => code_byte m (env_pc (cpu m) + 1 + Z.of_nat i)) (seq 0 cnt).

(** The [cnt] bytes after the opcode are in the RAM. *)
Definition code_in_ram (m : machine) (cnt : Z) : Prop :=
  Forall is_u8 (ram_bytes (ram m)) /\ env_pc (cpu m) + cnt < ram_size (ram m) /\
  env_pc (cpu m) + cnt < 2 ^ 32.

Lemma env_pc_range c : 0 <= env_pc c < 2 ^ 32.
Proof. apply (u32_range (pc c)). Qed.

Lemma code_byte_u8 m a : Forall is_u8 (ram_bytes (ram m)) -> is_u8 (code_byte m a).
Proof.
  intros H. unfold code_byte. rewrite nth_lookup.
  destruct (ram_bytes (ram m) !! Z.to_nat a) eqn:E; simpl; [by eapply Forall_lookup_1|].
  unfold is_u8. lia.
Qed.

Lemma ld8_byte m a :
  Forall is_u8 (ram_bytes (ram m)) -> 0 <= a < ram_size (ram m) ->
  exists b, helper_mem_ld8 no_trace a m = Ok (b, m) /\ Z.land b 255 = code_byte m a.
Proof.
  intros Hu Ha. unfold helper_mem_ld8, ram_byte.
  rewrite (proj2 (Z.leb_le _ _)), (proj2 (Z.ltb_lt _ _)) by lia. cbn [andb obind].
  eexists. split; [done|]. fold (code_byte m a).
  pose proof (code_byte_u8 m a Hu) as Hb. unfold is_u8 in Hb.
  rewrite land_ff. unfold u64, i8. dm.
Qed.

(** Bytes shifted in from the top of a word. *)
Lemma push_bytes_ok n (i : nat) (top : Z) q m :
  code_in_ram m top -> Z.of_nat i + Z.of_nat n <= top -> (i + n <= 8)%nat -> 0 <= q ->
  push_bytes n (Z.of_nat i) top (q * 2 ^ (8 * (8 - Z.of_nat i))) m =
  Ok (2 ^ (8 * (8 - Z.of_nat (i + n))) *
      (q * 2 ^ (8 * Z.of_nat n) +
       le_val (rev (map (fun k => code_byte m (env_pc (cpu m) + top - Z.of_nat k)) (seq i n))))).
Proof.
  intros (Hu & Hr & H32). pose proof (env_pc_range (cpu m)) as Hpc.
  revert i q; induction n as [|n IH]; intros i q Ht Hn Hq; cbn [push_bytes].
  - rewrite Nat.add_0_r. simpl. f_equal. lia.
  - rewrite u32_id by (unfold is_u32; lia).
    destruct (ld8_byte m (env_pc (cpu m) + (top - Z.of_nat i)) Hu) as (b & -> & Hb); [lia|].
    cbn [obind]. rewrite Hb. replace (env_pc (cpu m) + (top - Z.of_nat i)) with (env_pc (cpu m) + top - Z.of_nat i) by lia.
    set (c := code_byte m (env_pc (cpu m) + top - Z.of_nat i)).
    assert (is_u8 c) as Hc by (by apply code_byte_u8). unfold is_u8 in Hc.
    unfold pd_lsh. rewrite (proj2 (Z.leb_gt _ _)) by lia.
    replace (8 * (8 - Z.of_nat i)) with (8 * (7 - Z.of_nat i) + 8) by lia.
    rewrite swap_lor by lia. replace (Z.of_nat i + 1) with (Z.of_nat (S i)) by lia.
    replace (8 * (7 - Z.of_nat i)) with (8 * (8 - Z.of_nat (S i))) by lia.
    rewrite IH by lia. cbn [seq map rev]. fold c.
    rewrite le_val_app, length_rev, length_map, length_seq. cbn [le_val].
    replace (S i + n)%nat with (i + S n)%nat by lia. do 2 f_equal.
    replace (8 * Z.of_nat (S n)) with (8 + 8 * Z.of_nat n) by lia.
    rewrite (Z.pow_add_r 2 8) by lia. lia.
Qed.

Lemma le_val_zeros n : le_val (replicate n 0) = 0.
Proof. induction n; cbn [replicate le_val]; lia. Qed.

Lemma rev_zeros n : rev (replicate n 0) = replicate n 0.
Proof. induction n as [|n IH]; [done|]. rewrite replicate_S_end at 2. simpl. by rewrite IH. Qed.

Lemma bswap64_bytes_pad bs :
  Forall is_u8 bs -> (length bs <= 8)%nat ->
  bswap64 (2 ^ (8 * (8 - Z.of_nat (length bs))) * le_val (rev bs)) = le_val bs.
Proof.
  intros Hb Hl. set (l := replicate (8 - length bs) 0 ++ rev bs).
  assert (length l = 8%nat) as Hll by (unfold l; rewrite length_app, length_replicate, length_rev; lia).
  assert (Forall is_u8 l) as Hlu.
  { unfold l. apply Forall_app_2; [apply Forall_replicate; unfold is_u8; lia|by apply Forall_rev]. }
  assert (2 ^ (8 * (8 - Z.of_nat (length bs))) * le_val (rev bs) = le_val l) as ->.
  { unfold l. rewrite le_val_app, le_val_zeros, length_replicate.
    replace (8 * Z.of_nat (8 - length bs)) with (8 * (8 - Z.of_nat (length bs))) by lia. lia. }
  unfold bswap64. rewrite <- Hll, le_bytes_val by done. unfold l.
  rewrite rev_app_distr, rev_involutive, le_val_app.
  rewrite rev_zeros, le_val_zeros. lia.
Qed.

(** Every cell PUSH writes is the swapped number of its bytes. *)
Lemma push_bytes_cell n top m :
  code_in_ram m top -> Z.of_nat n <= top -> (0 < n <= 8)%nat ->
  exists a, push_bytes n 0 top 0 m = Ok a /\ is_u64 a /\ bswap64 a = le_val (down_bytes m top n).
Proof.
  intros Hc Ht Hn. pose proof (push_bytes_ok n 0 top 0 m Hc ltac:(lia) ltac:(lia) ltac:(lia)) as E.
  rewrite !Z.mul_0_l, Z.add_0_l in E. cbn [Nat.add] in E. fold (down_bytes m top n) in E.
  assert (length (down_bytes m top n) = n) as Hl by (unfold down_bytes; by rewrite length_map, length_seq).
  assert (Forall is_u8 (down_bytes m top n)) as Hu.
  { apply Forall_map, Forall_true. intros; apply code_byte_u8, Hc. }
  eexists. split; [exact E|]. split.
  - pose proof (le_val_range _ (Forall_rev Hu)) as Hr. rewrite length_rev, Hl in Hr.
    assert (0 < 2 ^ (8 * (8 - Z.of_nat n))) by (apply Z.pow_pos_nonneg; lia).
    assert (2 ^ (8 * (8 - Z.of_nat n)) * 2 ^ (8 * Z.of_nat n) = 2 ^ 64)
      by (rewrite <- Z.pow_add_r by lia; f_equal; lia).
    unfold is_u64. nia.
  - rewrite <- Hl at 1. apply bswap64_bytes_pad; [done|lia].
Qed.

Lemma down_bytes_app m top n k :
  down_bytes m top (n + k) = down_bytes m top n ++ down_bytes m (top - Z.of_nat n) k.
Proof.
  unfold down_bytes. rewrite seq_app, map_app. f_equal. cbn [Nat.add].
  assert (seq n k = map (Nat.add n) (seq 0 k)) as ->.
  { change (map (Nat.add n) (seq 0 k)) with (Nat.add n <$> seq 0 k).
    by rewrite fmap_add_seq, Nat.add_0_r. }
  rewrite map_map. apply map_ext. intros i. f_equal. lia.
Qed.

Lemma down_immediate m cnt : be_val (immediate m cnt) = le_val (down_bytes m (Z.of_nat cnt) cnt).
Proof.
  unfold be_val. f_equal. unfold immediate, down_bytes. rewrite <- map_rev.
  apply (nth_ext _ _ 0 0); rewrite !length_map, length_rev, !length_seq; [done|].
  intros i Hi. rewrite nth_map_seq by done.
  rewrite (nth_indep _ 0 (code_byte m (env_pc (cpu m) + 1 + Z.of_nat 0)))
    by (by rewrite length_map, length_rev, length_seq).
  rewrite (map_nth (fun i => code_byte m (env_pc (cpu m) + 1 + Z.of_nat i))).
  rewrite rev_nth, length_seq, seq_nth by (rewrite ?length_seq; lia). f_equal. lia.
Qed.

Lemma push_bytes_indep m m' n i top a :
  env_pc (cpu m') = env_pc (cpu m) -> ram m' = ram m ->
  push_bytes n i top a m' = push_bytes n i top a m.
Proof.
  intros Hp Hr. revert i a; induction n as [|n IH]; intros i a; [done|]. cbn [push_bytes].
  unfold helper_mem_ld8. rewrite Hp, Hr. destruct (ram_byte _ _ _); try done. cbn [obind no_trace]. apply IH.
Qed.

(** A machine that differs from [m] in its stack only. *)
Definition restacked (s : Z) (arr : list Z) (m : machine) : machine :=
  with_cpu (fun c => set_sp s (set_stack_arr arr c)) m.

Lemma stack_set_restacked s arr m i v arr' :
  aset arr (u64 i) v = Ok arr' -> stack_set i v (restacked s arr m) = Ok (restacked s arr' m).
Proof. intros E. unfold stack_set, restacked. cells. by rewrite E. Qed.

Lemma push_blocks_step n j cnt s arr m a arr' :
  push_bytes 8 0 (cnt - 8 * j) 0 m = Ok a -> aset arr (u64 (s + j)) a = Ok arr' ->
  push_blocks (S n) j cnt (restacked s arr m) = push_blocks n (j + 1) cnt (restacked s arr' m).
Proof.
  intros Ea Es. cbn [push_blocks]. rewrite (push_bytes_indep m) by done. rewrite Ea. cbn [obind].
  by rewrite (stack_set_restacked _ _ _ _ _ _ Es).
Qed.

Lemma push_zeros_step n j s arr m arr' :
  j < 4 -> aset arr (u64 (s + j)) 0 = Ok arr' ->
  push_zeros (S n) j (restacked s arr m) = push_zeros n (j + 1) (restacked s arr' m).
Proof.
  intros Hj Es. cbn [push_zeros]. rewrite (proj2 (Z.ltb_lt _ _) Hj).
  by rewrite (stack_set_restacked _ _ _ _ _ _ Es).
Qed.

(** The tail of [PushInst]: the incomplete block. *)
Definition push_rest (cnt : Z) (m : machine) : outcome machine :=
  let rest := Z.land cnt 7 in
  if negb (rest =? 0) then
    let* a := push_bytes (Z.to_nat rest) 0 rest 0 m in
    stack_set (sp (cpu m) + cnt / 8) a m
  else Ok m.

Lemma PushInst_unfold cnt0 m :
  PushInst cnt0 m =
  let cnt := u32 cnt0 in
  let* m := push_blocks (Z.to_nat (cnt / 8)) 0 cnt (move_sp 1 m) in
  let* m := push_rest cnt m in
  let* m := push_zeros 4 (cnt / 8 + 1) m in
  Ok (move_sp 3 m).
Proof. reflexivity. Qed.

Lemma push_rest_step cnt r s arr m a arr' :
  Z.land cnt 7 = r -> 0 < r -> push_bytes (Z.to_nat r) 0 r 0 m = Ok a ->
  aset arr (u64 (s + cnt / 8)) a = Ok arr' ->
  push_rest cnt (restacked s arr m) = Ok (restacked s arr' m).
Proof.
  intros <- Hr Ea Es. unfold push_rest. rewrite (proj2 (Z.eqb_neq _ 0)) by lia. cbn [negb].
  rewrite (push_bytes_indep m) by done. rewrite Ea. cbn [obind].
  by rewrite (stack_set_restacked _ _ _ _ _ _ Es).
Qed.

Section PushInst.
Context (m : machine) (ws : list Z) (cnt b r : Z).
Hypothesis (Hs : stack_is (cpu m) ws) (Hroom : (4 * S (length ws) <= STACK_CELLS)%nat).
Hypothesis (Hcnt : cnt = 8 * b + r) (Hr : 0 <= r < 8) (Hb : 0 <= b <= 4) (Hfull : r = 0 -> b = 4).
Hypothesis (H32 : 1 <= cnt <= 32) (Hcode : code_in_ram m cnt).

Let n := length ws.

(** The value of cell [j]. *)
Definition cell_bytes (j : Z) : list Z :=
  if j <? b then down_bytes m (cnt - 8 * j) 8
  else if j =? b then down_bytes m r (Z.to_nat r) else [].

Lemma code_in_ram_le k : k <= cnt -> code_in_ram m k.
Proof. intros H. destruct Hcode as (H1 & H2 & H3). split_and!; [done|lia|lia]. Qed.

Lemma cell_exists j : 0 <= j < 4 ->
  exists a, is_u64 a /\ bswap64 a = le_val (cell_bytes j) /\
  (j < b -> push_bytes 8 0 (cnt - 8 * j) 0 m = Ok a) /\
  (j = b -> 0 < r -> push_bytes (Z.to_nat r) 0 r 0 m = Ok a) /\ (b < j -> a = 0).
Proof.
  intros Hj. unfold cell_bytes. destruct (Z.ltb_spec j b).
  - destruct (push_bytes_cell 8 (cnt - 8 * j) m) as (a & E & Hu & Hv); [apply code_in_ram_le; lia|lia|lia|].
    exists a. split_and!; auto; lia.
  - destruct (Z.eqb_spec j b) as [->|].
    + destruct (push_bytes_cell (Z.to_nat r) r m) as (a & E & Hu & Hv);
        [apply code_in_ram_le; lia|lia|lia|]. exists a. split_and!; auto; lia.
    + exists 0. split_and!; auto with cint; lia.
Qed.

Lemma PushInst_cells :
  exists v0 v1 v2 v3 arr, 
  PushInst cnt m = Ok (push_to arr (S n) m) /\
  stack_is (cpu (push_to arr (S n) m)) (ws ++ [reg_val [v0; v1; v2; v3]]) /\
  bswap64 v0 = le_val (cell_bytes 0) /\ bswap64 v1 = le_val (cell_bytes 1) /\
  bswap64 v2 = le_val (cell_bytes 2) /\ bswap64 v3 = le_val (cell_bytes 3).
Proof.
  destruct (cell_exists 0) as (v0 & U0 & B0 & F0 & R0 & Z0); [lia|].
  destruct (cell_exists 1) as (v1 & U1 & B1 & F1 & R1 & Z1); [lia|].
  destruct (cell_exists 2) as (v2 & U2 & B2 & F2 & R2 & Z2); [lia|].
  destruct (cell_exists 3) as (v3 & U3 & B3 & F3 & R3 & Z3); [lia|].
  destruct (push_cells m ws v0 v1 v2 v3 Hs Hroom) as (a1 & a2 & a3 & a4 & E1 & E2 & E3 & E4 & H); [all_u|].
  exists v0, v1, v2, v3, a4. split; [|split; [|done]].
  2: { unfold push_to. replace (4 * Z.of_nat (S n) - 1) with (4 * Z.of_nat n + 3) by lia.
       cbn zeta in H. fold n in H. rewrite u64_id in H by (unfold n in *; small). exact H. }
  cbn zeta in *. fold n in E1, E2, E3, E4. clear H.
  assert (Z.land cnt 7 = r) as Hland by (rewrite (land_mask cnt 3) by done; change (2 ^ 3) with 8; dm).
  assert (cnt / 8 = b) as Hdiv by dm.
  rewrite PushInst_unfold. cbn zeta. rewrite u32_id by (unfold is_u32; lia).
  pose proof Hs as (_ & _ & Hn & Hsp & _). fold n in Hn, Hsp.
  assert (move_sp 1 m = restacked (4 * Z.of_nat n) (stack_arr (cpu m)) m) as ->.
  { unfold move_sp, restacked, with_cpu. rewrite Hsp, sp_plus by (unfold n; small).
    replace (4 * Z.of_nat n - 1 + 1) with (4 * Z.of_nat n) by lia. by destruct m as [[] ? ? ? ? ? ?]. }
  assert (forall k, 0 <= k < 4 -> u64 (4 * Z.of_nat n + k) = 4 * Z.of_nat n + k) as Hu
    by (intros; apply u64_id; unfold n in *; small).
  assert (Ok (move_sp 3 (restacked (4 * Z.of_nat n) a4 m)) = Ok (push_to a4 (S n) m)) as Hend.
  { unfold move_sp, restacked, push_to. cells. rewrite Hu by lia.
    by replace (4 * Z.of_nat (S n) - 1) with (4 * Z.of_nat n + 3) by lia. }
  rewrite <- (Z.add_0_r (4 * Z.of_nat n)), <- Hu in E1 by lia.
  rewrite <- Hu in E2, E3, E4 by lia.
  pose proof (push_rest_step cnt r (4 * Z.of_nat n)) as Hrest. rewrite Hdiv in Hrest |- *.
  assert (b = 0 \/ b = 1 \/ b = 2 \/ b = 3 \/ b = 4) as Hcase by lia.
  destruct Hcase as [Eb|[Eb|[Eb|[Eb|Eb]]]]; rewrite Eb in *.
  - change (Z.to_nat 0) with 0%nat. cbn [push_blocks obind].
    rewrite (Hrest _ m v0 a1 Hland ltac:(lia) (R0 eq_refl ltac:(lia)) E1). cbn [obind].
    rewrite Z1 in E2 by lia. rewrite Z2 in E3 by lia. rewrite Z3 in E4 by lia.
    rewrite (push_zeros_step 3 1 _ _ _ _ ltac:(lia) E2), (push_zeros_step 2 2 _ _ _ _ ltac:(lia) E3),
      (push_zeros_step 1 3 _ _ _ _ ltac:(lia) E4). exact Hend.
  - change (Z.to_nat 1) with 1%nat. rewrite (push_blocks_step 0 0 cnt _ _ m v0 a1 (F0 ltac:(lia)) E1). change (0 + 1) with 1. cbn [push_blocks obind].
    rewrite (Hrest _ m v1 a2 Hland ltac:(lia) (R1 eq_refl ltac:(lia)) E2). cbn [obind].
    rewrite Z2 in E3 by lia. rewrite Z3 in E4 by lia.
    rewrite (push_zeros_step 3 2 _ _ _ _ ltac:(lia) E3), (push_zeros_step 2 3 _ _ _ _ ltac:(lia) E4).
    exact Hend.
  - change (Z.to_nat 2) with 2%nat. rewrite (push_blocks_step 1 0 cnt _ _ m v0 a1 (F0 ltac:(lia)) E1). change (0 + 1) with 1.
    rewrite (push_blocks_step 0 1 cnt _ _ m v1 a2 (F1 ltac:(lia)) E2). change (1 + 1) with 2. cbn [push_blocks obind].
    rewrite (Hrest _ m v2 a3 Hland ltac:(lia) (R2 eq_refl ltac:(lia)) E3). cbn [obind].
    rewrite Z3 in E4 by lia. rewrite (push_zeros_step 3 3 _ _ _ _ ltac:(lia) E4). exact Hend.
  - change (Z.to_nat 3) with 3%nat. rewrite (push_blocks_step 2 0 cnt _ _ m v0 a1 (F0 ltac:(lia)) E1). change (0 + 1) with 1.
    rewrite (push_blocks_step 1 1 cnt _ _ m v1 a2 (F1 ltac:(lia)) E2). change (1 + 1) with 2.
    rewrite (push_blocks_step 0 2 cnt _ _ m v2 a3 (F2 ltac:(lia)) E3). change (2 + 1) with 3. cbn [push_blocks obind].
    rewrite (Hrest _ m v3 a4 Hland ltac:(lia) (R3 eq_refl ltac:(lia)) E4). exact Hend.
  - change (Z.to_nat 4) with 4%nat. rewrite (push_blocks_step 3 0 cnt _ _ m v0 a1 (F0 ltac:(lia)) E1). change (0 + 1) with 1.
    rewrite (push_blocks_step 2 1 cnt _ _ m v1 a2 (F1 ltac:(lia)) E2). change (1 + 1) with 2.
    rewrite (push_blocks_step 1 2 cnt _ _ m v2 a3 (F2 ltac:(lia)) E3). change (2 + 1) with 3.
    rewrite (push_blocks_step 0 3 cnt _ _ m v3 a4 (F3 ltac:(lia)) E4). change (3 + 1) with 4. cbn [push_blocks obind].
    unfold push_rest. rewrite Hland. replace r with 0 by lia. exact Hend.
Qed.
Lemma length_down_bytes top k : length (down_bytes m top k) = k.
Proof. unfold down_bytes. by rewrite length_map, length_seq. Qed.

Lemma cells_join :
  down_bytes m cnt (Z.to_nat cnt) = cell_bytes 0 ++ cell_bytes 1 ++ cell_bytes 2 ++ cell_bytes 3 /\
  forall j, 0 <= j < b -> length (cell_bytes j) = 8%nat.
Proof.
  split.
  2: { intros j Hj. unfold cell_bytes. rewrite (proj2 (Z.ltb_lt _ _)) by lia. apply length_down_bytes. }
  assert (forall k top, 0 <= k -> down_bytes m top (Z.to_nat (8 + k)) =
    down_bytes m top 8 ++ down_bytes m (top - 8) (Z.to_nat k)) as Hstep.
  { intros k top Hk. replace (Z.to_nat (8 + k)) with (8 + Z.to_nat k)%nat by lia. apply down_bytes_app. }
  assert (b = 0 \/ b = 1 \/ b = 2 \/ b = 3 \/ b = 4) as Hcase by lia.
  unfold cell_bytes. destruct Hcase as [Eb|[Eb|[Eb|[Eb|Eb]]]]; rewrite Eb in *;
    repeat (case_match; try lia); rewrite ?app_nil_r.
  - by replace cnt with r by lia.
  - replace (Z.to_nat cnt) with (Z.to_nat (8 + r)) by lia. rewrite Hstep by lia.
    replace (cnt - 8 * 0) with cnt by lia. by replace (cnt - 8) with r by lia.
  - replace (Z.to_nat cnt) with (Z.to_nat (8 + (8 + r))) by lia. rewrite !Hstep by lia.
    replace (cnt - 8 * 0) with cnt by lia. replace (cnt - 8 - 8) with r by lia.
    by replace (cnt - 8 * 1) with (cnt - 8) by lia.
  - replace (Z.to_nat cnt) with (Z.to_nat (8 + (8 + (8 + r)))) by lia. rewrite !Hstep by lia.
    replace (cnt - 8 * 0) with cnt by lia. replace (cnt - 8 - 8 - 8) with r by lia.
    replace (cnt - 8 * 1) with (cnt - 8) by lia. by replace (cnt - 8 * 2) with (cnt - 8 - 8) by lia.
  - replace (Z.to_nat cnt) with (Z.to_nat (8 + (8 + (8 + (8 + 0))))) by lia. rewrite !Hstep by lia.
    replace (cnt - 8 * 0) with cnt by lia. replace (cnt - 8 * 1) with (cnt - 8) by lia.
    replace (cnt - 8 * 2) with (cnt - 8 - 8) by lia. replace (cnt - 8 * 3) with (cnt - 8 - 8 - 8) by lia.
    change (Z.to_nat 0) with 0%nat. cbn [down_bytes seq map]. by rewrite ?app_nil_r.
Qed.

Lemma cells_above j : b < j -> cell_bytes j = [].
Proof.
  intros Hj. unfold cell_bytes. rewrite (proj2 (Z.ltb_ge _ _)) by lia.
  by rewrite (proj2 (Z.eqb_neq _ _)) by lia.
Qed.

Lemma cells_sum :
  le_val (cell_bytes 0) + 2 ^ 64 * (le_val (cell_bytes 1) + 2 ^ 64 *
    (le_val (cell_bytes 2) + 2 ^ 64 * (le_val (cell_bytes 3) + 2 ^ 64 * 0)))
  = le_val (down_bytes m cnt (Z.to_nat cnt)).
Proof.
  destruct cells_join as [-> Hl]. rewrite !le_val_app.
  assert (forall j x, 0 <= j -> (b < j + 1 -> x = 0) ->
    2 ^ (8 * Z.of_nat (length (cell_bytes j))) * x = 2 ^ 64 * x) as Hp.
  { intros j x Hj Hx. destruct (Z.lt_ge_cases j b) as [H|H]; [by rewrite Hl by lia|].
    rewrite Hx by lia. lia. }
  rewrite !Hp; try lia; intros Hlt; rewrite !cells_above by lia; done.
Qed.
End PushInst.

Lemma PushInst_ok (cnt : nat) m ws :
  stack_is (cpu m) ws -> (4 * S (length ws) <= STACK_CELLS)%nat ->
  (1 <= cnt <= 32)%nat -> (cnt mod 8 <> 0 \/ cnt = 32)%nat -> code_in_ram m (Z.of_nat cnt) ->
  exists arr, PushInst (Z.of_nat cnt) m = Ok (push_to arr (S (length ws)) m) /\
  stack_is (cpu (push_to arr (S (length ws)) m)) (ws ++ [be_val (immediate m cnt)]).
Proof.
  intros Hs Hroom Hc Hm Hcode. set (c := Z.of_nat cnt).
  assert (c mod 8 <> 0 \/ c = 32) as Hm' 
    by (unfold c; change 8 with (Z.of_nat 8); rewrite <- Nat2Z.inj_mod; lia).
  assert (c = 8 * (c / 8) + c mod 8) as Hc1 by dm.
  assert (0 <= c mod 8 < 8) as Hc2 by (apply Z.mod_pos_bound; lia).
  assert (0 <= c / 8 <= 4) as Hc3 by (unfold c; dm).
  assert (c mod 8 = 0 -> c / 8 = 4) as Hc4 by (intros; destruct Hm' as [|E]; [done|by rewrite E]).
  assert (1 <= c <= 32) as Hc5 by lia.
  destruct (PushInst_cells m ws c (c / 8) (c mod 8) Hs Hroom Hc1 Hc2 Hc3 Hc4 Hc5 Hcode)
    as (v0 & v1 & v2 & v3 & arr & E & Hst & B0 & B1 & B2 & B3).
  exists arr. split; [exact E|]. cbn [reg_val] in Hst. rewrite B0, B1, B2, B3 in Hst.
  rewrite (cells_sum m ws) in Hst by done. rewrite down_immediate.
  unfold c in Hst. by rewrite Nat2Z.id in Hst.
Qed.
