(* ===== verification/KeccakSpec.v ===== *)
(** * Keccak-256: the code against a reference definition

    The reference permutation computes every lane of a step from the lanes
    before it, generates the rotation offsets by the walk of the standard and
    the round constants by its linear feedback shift register; the reference
    sponge pads the message and absorbs it block by block. *)

From stdpp Require Import base numbers list option.
From Stdlib Require Import ZArith Lia.
From S2P Require Import Prelude Words Keccak.

(** ** Reference permutation *)

Definition rol (x n : Z) : Z := (x * 2 ^ n) mod 2 ^ 64 + x / 2 ^ (64 - n).

Definition lane (a : list Z) (x y : nat) : Z := nth (x mod 5 + 5 * (y mod 5)) a 0.
Definition lanes (f : nat -> nat -> Z) : list Z := map (fun i => f (i mod 5)%nat (i / 5)%nat) (seq 0 25).

Definition column (a : list Z) (x : nat) : Z :=
  Z.lxor (Z.lxor (Z.lxor (Z.lxor (lane a x 0) (lane a x 1)) (lane a x 2)) (lane a x 3)) (lane a x 4).

Definition ref_theta (a : list Z) : list Z :=
  lanes (fun x y => Z.lxor (lane a x y) (Z.lxor (column a (x + 4)) (rol (column a (x + 1)) 1))).

(** The offsets: [(x, y)] starts at [(1, 0)] and moves to [(y, 2x + 3y)]; step
    [t] rotates by [(t+1)(t+2)/2]. *)
Fixpoint rho_walk (n t x y : nat) : list (nat * nat * Z) :=
  match n with
  | O => []
  | S n' => (x, y, Z.of_nat ((t + 1) * (t + 2) / 2) mod 64)
            :: rho_walk n' (S t) y ((2 * x + 3 * y) mod 5)
  end.

Definition rho_offset (x y : nat) : Z :=
  match filter (fun '(a, b, _) => a = x /\ b = y) (rho_walk 24 0 1 0) with
  | (_, _, r) :: _ => r
  | [] => 0
  end.

(** Lane [(x, y)] after the steps rho and pi comes from [(x + 3y, x)]. *)
Definition ref_rho_pi (a : list Z) : list Z :=
  lanes (fun x y => let x' := ((x + 3 * y) mod 5)%nat in rol (lane a x' x) (rho_offset x' (x mod 5))).

Definition ref_chi (b : list Z) : list Z :=
  lanes (fun x y => Z.lxor (lane b x y) (Z.land (Z.lxor (2 ^ 64 - 1) (lane b (x + 1) y)) (lane b (x + 2) y))).

(** [rc(t)]: the register starts at 1 and is multiplied by [x] modulo
    [x^8 + x^6 + x^5 + x^4 + 1]. *)
Fixpoint lfsr (t : nat) : Z :=
  match t with
  | O => 1
  | S t' => let r := 2 * lfsr t' in if Z.testbit r 8 then Z.lxor r 0x171 else r
  end.

Definition round_constant (n : nat) : Z :=
  fold_left (fun c j => if Z.testbit (lfsr (j + 7 * n)) 0 then Z.lxor c (2 ^ (2 ^ Z.of_nat j - 1)) else c)
    (seq 0 7) 0.

Definition ref_round (n : nat) (a : list Z) : list Z :=
  let a := ref_chi (ref_rho_pi (ref_theta a)) in
  match a with
  | l :: a' => Z.lxor l (round_constant n) :: a'
  | [] => []
  end.

Definition ref_keccakf (a : list Z) : list Z := fold_left (fun a n => ref_round n a) (seq 0 24) a.

(** ** Reference sponge *)

Definition rate : nat := 136.

Definition absorb (a block : list Z) : list Z :=
  ref_keccakf (map (fun i => if (i <? 17)%nat then Z.lxor (nth i a 0) (buffer_word block i) else nth i a 0)
    (seq 0 25)).

(** The full blocks of [l], absorbed in order, and what is left. *)
Definition msg_block (l : list Z) (i : nat) : list Z := take rate (drop (rate * i) l).
Definition absorb_blocks (a l : list Z) : list Z :=
  fold_left (fun a i => absorb a (msg_block l i)) (seq 0 (length l / rate)) a.

Definition pad (l : list Z) : list Z :=
  let k := (rate - length l mod rate)%nat in
  l ++ (if (k =? 1)%nat then [129] else 1 :: replicate (k - 2) 0 ++ [128]).

Definition ref_keccak256 (msg : list Z) : list Z :=
  take 32 (flat_map (le_bytes 8) (absorb_blocks (replicate 25 0) (pad msg))).

(** ** Rotation *)

Lemma rotateLeft_rol x n : is_u64 x -> 0 <= n < 64 -> rotateLeft x n = rol x n.
Proof.
  intros Hx Hn. unfold rotateLeft, rol. cbn zeta. change (8 * 8 - 1) with 63.
  rewrite !(land_mask _ 6) by done. rewrite (Z.mod_small n) by lia.
  rewrite Z.shiftl_mul_pow2 by lia. unfold u64.
  destruct (Z.eq_dec n 0) as [->|Hn0].
  - change (- 0 mod 2 ^ 6) with 0. rewrite Z.shiftr_0_r, Z.mul_1_r. unfold is_u64 in Hx.
    rewrite Z.mod_small, Z.div_small, Z.lor_diag by (simpl; lia). lia.
  - assert (- n mod 2 ^ 6 = 64 - n) as -> by (symmetry; apply Z.mod_unique with (-1); lia).
    rewrite Z.shiftr_div_pow2 by lia.
    assert (2 ^ 64 = 2 ^ n * 2 ^ (64 - n)) as E by (rewrite <- Z.pow_add_r by lia; f_equal; lia).
    assert (0 < 2 ^ n) by (apply Z.pow_pos_nonneg; lia).
    assert (0 < 2 ^ (64 - n)) by (apply Z.pow_pos_nonneg; lia).
    rewrite E, (Z.mul_comm (2 ^ n)), Z.mul_mod_distr_r by lia.
    rewrite Z.lor_comm, lor_add; [lia|lia|]. split; [apply Z.div_pos; unfold is_u64 in Hx; lia|].
    apply Z.div_lt_upper_bound; [lia|]. unfold is_u64 in Hx. lia.
Qed.

Lemma is_u64_lxor a b : is_u64 a -> is_u64 b -> is_u64 (Z.lxor a b).
Proof. apply lxor_range. lia. Qed.
Lemma is_u64_land a b : is_u64 a -> is_u64 (Z.land a b).
Proof. apply land_range. lia. Qed.
Lemma is_u64_rol x n : is_u64 x -> 0 <= n < 64 -> is_u64 (rol x n).
Proof.
  intros Hx Hn. unfold rol, is_u64 in *.
  assert (2 ^ 64 = 2 ^ n * 2 ^ (64 - n)) as E by (rewrite <- Z.pow_add_r by lia; f_equal; lia).
  assert (0 < 2 ^ n) by (apply Z.pow_pos_nonneg; lia).
  assert (0 < 2 ^ (64 - n)) by (apply Z.pow_pos_nonneg; lia).
  assert ((x * 2 ^ n) mod 2 ^ 64 = x mod 2 ^ (64 - n) * 2 ^ n) as ->
    by (rewrite E, (Z.mul_comm (2 ^ n)); apply Z.mul_mod_distr_r; lia).
  pose proof (Z.mod_pos_bound x (2 ^ (64 - n)) ltac:(lia)).
  assert (0 <= x / 2 ^ (64 - n) < 2 ^ n) by (split; [apply Z.div_pos; lia|apply Z.div_lt_upper_bound; lia]).
  assert (x mod 2 ^ (64 - n) * 2 ^ n <= (2 ^ (64 - n) - 1) * 2 ^ n) by (apply Z.mul_le_mono_nonneg_r; lia).
  lia.
Qed.

(** ** One step at a time *)

Definition state_ok (a : list Z) : Prop := length a = 25%nat /\ Forall is_u64 a.

Lemma lane_u64 a x y : state_ok a -> is_u64 (lane a x y).
Proof.
  intros [Hl Hu]. unfold lane. rewrite nth_lookup.
  destruct (a !! _) eqn:E; simpl; [by eapply Forall_lookup_1|auto with cint].
Qed.

Lemma column_u64 a x : state_ok a -> is_u64 (column a x).
Proof. intros H. unfold column. auto 10 using is_u64_lxor, lane_u64. Qed.

Lemma lanes_ok f : (forall x y, (x < 5)%nat -> (y < 5)%nat -> is_u64 (f x y)) -> state_ok (lanes f).
Proof.
  intros H. split; [done|]. apply Forall_map, Forall_forall. intros i Hi.
  apply in_seq in Hi. apply H; [apply Nat.mod_upper_bound; lia|].
  apply Nat.Div0.div_lt_upper_bound; lia.
Qed.

Ltac lanes25 a Hl :=
  do 25 (destruct a as [|? a]; [discriminate Hl|]); destruct a; [clear Hl|discriminate Hl].

(** The in-place, unrolled steps compute the same expressions lane by lane. *)
Lemma theta_lanes a :
  length a = 25%nat ->
  theta a = lanes (fun x y => Z.lxor (lane a x y)
    (Z.lxor (column a (x + 4)) (rotateLeft (column a (x + 1)) 1))).
Proof. intros Hl. lanes25 a Hl. cbv -[Z.lxor rotateLeft]. reflexivity. Qed.

Lemma rho_pi_lanes a :
  length a = 25%nat ->
  rho_pi a = lanes (fun x y => let x' := ((x + 3 * y) mod 5)%nat in
    rotateLeft (lane a x' x) (rho_offset x' (x mod 5))).
Proof. intros Hl. lanes25 a Hl. cbv -[rotateLeft]. reflexivity. Qed.

Lemma chi_lanes a b : length a = 25%nat -> length b = 25%nat -> chi a b = ref_chi b.
Proof.
  intros Hl Hb. lanes25 a Hl. lanes25 b Hb. cbv -[Z.lxor Z.land Z.sub Z.pow]. reflexivity.
Qed.

Lemma lanes_ext f g : (forall x y, (x < 5)%nat -> (y < 5)%nat -> f x y = g x y) -> lanes f = lanes g.
Proof.
  intros H. apply map_ext_in. intros i Hi. apply in_seq in Hi.
  apply H; [apply Nat.mod_upper_bound; lia|]. apply Nat.Div0.div_lt_upper_bound; lia.
Qed.

Lemma theta_ref a : state_ok a -> theta a = ref_theta a /\ state_ok (ref_theta a).
Proof.
  intros Ha. split.
  - rewrite theta_lanes by apply Ha. apply lanes_ext. intros x y _ _.
    by rewrite rotateLeft_rol by (try lia; by apply column_u64).
  - apply lanes_ok. intros. auto using is_u64_lxor, lane_u64, column_u64, is_u64_rol with lia.
Qed.

Lemma rho_offset_range x y : (x < 5)%nat -> (y < 5)%nat -> 0 <= rho_offset x y < 64.
Proof.
  intros Hx Hy. do 5 (destruct x as [|x]; [do 5 (destruct y as [|y]; [vm_compute; split; congruence|]); lia|]). lia.
Qed.

Lemma rho_pi_ref a : state_ok a -> rho_pi a = ref_rho_pi a /\ state_ok (ref_rho_pi a).
Proof.
  intros Ha. split.
  - rewrite rho_pi_lanes by apply Ha. apply lanes_ext. intros x y _ _. cbn zeta.
    apply rotateLeft_rol; [by apply lane_u64|]. apply rho_offset_range; apply Nat.mod_upper_bound; lia.
  - apply lanes_ok. intros. cbn zeta. apply is_u64_rol; [by apply lane_u64|].
    apply rho_offset_range; apply Nat.mod_upper_bound; lia.
Qed.

Lemma chi_ok b : state_ok b -> state_ok (ref_chi b).
Proof.
  intros Hb. apply lanes_ok. intros x y _ _. apply is_u64_lxor; [by apply lane_u64|].
  apply is_u64_land, is_u64_lxor; [unfold is_u64; lia|by apply lane_u64].
Qed.

(** The table of round constants is the shift register's sequence. *)
Lemma RC_lfsr : RC = map round_constant (seq 0 24).
Proof. vm_compute. reflexivity. Qed.

(** The table of offsets is the walk's. *)
Lemma R_walk : R = map (fun i => rho_offset (i mod 5) (i / 5)) (seq 0 25).
Proof. vm_compute. reflexivity. Qed.

Lemma round_constant_u64 n : (n < 24)%nat -> is_u64 (round_constant n).
Proof. intros Hn. do 24 (destruct n as [|n]; [vm_compute; split; congruence|]). lia. Qed.

Lemma keccak_round_ref n a :
  state_ok a -> (n < 24)%nat -> keccak_round n a = ref_round n a /\ state_ok (ref_round n a).
Proof.
  intros Ha Hn. unfold keccak_round, ref_round. cbn zeta.
  destruct (theta_ref a Ha) as [-> H1]. destruct (rho_pi_ref _ H1) as [-> H2].
  rewrite chi_lanes by (apply H1 || apply H2). pose proof (chi_ok _ H2) as H3.
  assert (nth n RC 0 = round_constant n) as ->.
  { rewrite RC_lfsr. rewrite (nth_map_seq_z round_constant) by done. done. }
  destruct (ref_chi _) as [|l a'] eqn:E; [by destruct H3|]. destruct H3 as [Hl Hu].
  apply Forall_cons_1 in Hu as [Hl0 Hu]. split; [done|]. split; [done|].
  constructor; [|done]. auto using is_u64_lxor, round_constant_u64.
Qed.

Lemma fold_ref (f g : nat -> list Z -> list Z) (P : list Z -> Prop) l a :
  (forall n a, P a -> (n < 24)%nat -> f n a = g n a /\ P (g n a)) ->
  Forall (fun n => n < 24)%nat l -> P a ->
  fold_left (fun a n => f n a) l a = fold_left (fun a n => g n a) l a /\
  P (fold_left (fun a n => g n a) l a).
Proof.
  intros H Hl. revert a. induction Hl as [|n l Hn Hl IH]; intros a Ha; [done|]. cbn [fold_left].
  destruct (H n a Ha Hn) as [-> Hg]. by apply IH.
Qed.

Lemma keccakf_ref a : state_ok a -> keccakf_lanes a = ref_keccakf a /\ state_ok (ref_keccakf a).
Proof.
  intros Ha. apply (fold_ref keccak_round ref_round state_ok (seq 0 24) a); [|clear|done].
  - intros n b Hb Hn. by apply keccak_round_ref.
  - apply Forall_forall. intros n Hn. apply in_seq in Hn. lia.
Qed.

(** ** The sponge *)

Lemma xor_in (w : nat -> Z) a :
  length a = 25%nat ->
  fold_left (fun a i => upd a (Z.of_nat i) (Z.lxor (at_ a (Z.of_nat i)) (w i))) (seq 0 17) a =
  map (fun i => if (i <? 17)%nat then Z.lxor (nth i a 0) (w i) else nth i a 0) (seq 0 25).
Proof. intros Hl. lanes25 a Hl. cbv -[Z.lxor]. reflexivity. Qed.

Lemma buffer_word_u64 buf i : Forall is_u8 buf -> is_u64 (buffer_word buf i).
Proof.
  intros Hu. unfold buffer_word. set (l := take 8 (drop (8 * i) buf)).
  assert (length l <= 8)%nat by (unfold l; rewrite length_take; lia).
  pose proof (le_val_range l ltac:(by apply Forall_take, Forall_drop)) as [H0 H1]. split; [done|].
  eapply Z.lt_le_trans; [exact H1|]. apply Z.pow_le_mono_r; lia.
Qed.

Lemma absorb_ok a buf : state_ok a -> Forall is_u8 buf ->
  keccakf_lanes (map (fun i => if (i <? 17)%nat then Z.lxor (nth i a 0) (buffer_word buf i) else nth i a 0)
    (seq 0 25)) = absorb a buf /\ state_ok (absorb a buf).
Proof.
  intros [Hl Hu] Hb. apply keccakf_ref. split; [done|]. apply Forall_map, Forall_true. intros i.
  assert (is_u64 (nth i a 0)).
  { rewrite nth_lookup. destruct (a !! i) eqn:E; simpl; [by eapply Forall_lookup_1|auto with cint]. }
  destruct (_ <? _)%nat; auto using is_u64_lxor, buffer_word_u64.
Qed.

(** [s] has absorbed into [a] and holds the bytes [p] of the next block. *)
Definition sponge (a p : list Z) (s : keccakState) : Prop :=
  A s = a /\ state_ok a /\ blockLen s = 136 /\ klength s = 256 /\
  length (buffer s) = rate /\ Forall is_u8 (buffer s) /\
  bufferLen s = Z.of_nat (length p) /\ take (length p) (buffer s) = p /\ (length p < rate)%nat.

Lemma process_ok a buf n :
  state_ok a -> Forall is_u8 buf -> length buf = rate ->
  sponge (absorb a buf) [] (keccakProcessBuffer (mkKeccak a 136 buf n 256)).
Proof.
  intros Ha Hu Hl. destruct (absorb_ok a buf Ha Hu) as [E Hok].
  unfold keccakProcessBuffer, keccakf, LittleToNative64.
  cbn [A blockLen buffer bufferLen klength]. change (Z.to_nat (136 / 8)) with 17%nat.
  change littleEndian with true. rewrite xor_in by apply Ha. rewrite E.
  unfold sponge. cbn [A blockLen buffer bufferLen klength length take]. unfold rate. split_and!; auto; lia.
Qed.

Lemma length_copy_in buf pos data :
  (pos + length data <= length buf)%nat -> length (copy_in buf pos data) = length buf.
Proof. intros H. unfold copy_in. rewrite !length_app, length_take, length_drop. lia. Qed.

Lemma copy_in_u8 buf pos data :
  Forall is_u8 buf -> Forall is_u8 data -> Forall is_u8 (copy_in buf pos data).
Proof. intros. unfold copy_in. auto using Forall_app_2, Forall_take, Forall_drop. Qed.

Lemma copy_in_take buf p data :
  take (length p) buf = p -> (length p + length data <= length buf)%nat ->
  take (length (p ++ data)) (copy_in buf (length p) data) = p ++ data.
Proof.
  intros Hp Hl. unfold copy_in. rewrite Hp, app_assoc. by rewrite take_app_length.
Qed.

(** A full block in front is absorbed first. *)
Lemma absorb_blocks_cons a b l :
  length b = rate -> absorb_blocks a (b ++ l) = absorb_blocks (absorb a b) l /\
  drop (rate * (length (b ++ l) / rate)) (b ++ l) = drop (rate * (length l / rate)) l.
Proof.
  intros Hb. assert (length (b ++ l) / rate = S (length l / rate))%nat as E.
  { rewrite length_app, Hb. unfold rate. rewrite Nat.add_comm.
    replace (length l + 136)%nat with (length l + 1 * 136)%nat by lia. rewrite Nat.div_add by lia. lia. }
  assert (forall i, drop (rate * S i) (b ++ l) = drop (rate * i) l) as Hd.
  { intros i. replace (rate * S i)%nat with (length b + rate * i)%nat by lia.
    by rewrite <- drop_drop, drop_app_length. }
  rewrite E. split; [|apply Hd]. unfold absorb_blocks. rewrite E.
  change (seq 0 (S (length l / rate))) with (0%nat :: seq 1 (length l / rate)).
  assert (seq 1 (length l / rate) = map S (seq 0 (length l / rate))) as -> by (by rewrite seq_shift).
  generalize (length l / rate)%nat. intros n.
  assert (msg_block (b ++ l) 0 = b) as Hb0.
  { unfold msg_block. rewrite Nat.mul_0_r, drop_0, <- Hb. apply take_app_length. }
  revert Hb0. generalize absorb. intros f Hb0. cbn [fold_left]. rewrite Hb0.
  generalize (f a b), (seq 0 n). intros c L. revert c.
  induction L as [|i L IH]; intros c; [done|]. cbn [map fold_left].
  assert (msg_block (b ++ l) (S i) = msg_block l i) as -> by (unfold msg_block; by rewrite Hd). apply IH.
Qed.

(** Less than a block is only buffered. *)
Lemma absorb_blocks_short a l : (length l < rate)%nat ->
  absorb_blocks a l = a /\ drop (rate * (length l / rate)) l = l.
Proof. intros H. unfold absorb_blocks. rewrite Nat.div_small by done. by rewrite Nat.mul_0_r. Qed.

Lemma update_ok fuel input a p s :
  sponge a p s -> Forall is_u8 input -> (length input <= fuel)%nat ->
  exists s', keccakUpdate_loop fuel input s = Ok s' /\
  let l := p ++ input in
  sponge (absorb_blocks a l) (drop (rate * (length l / rate)) l) s'.
Proof.
  revert input a p s; induction fuel as [|fuel IH]; intros input a p s Hs Hi Hf.
  - destruct input; [|simpl in Hf; lia]. exists s. split; [done|]. cbn zeta.
    rewrite app_nil_r. destruct (absorb_blocks_short a p) as [-> ->]; [apply Hs|done].
  - pose proof Hs as (EA & Ha & Eb & Ek & Hl & Hu & El & Hp & Hlt).
    destruct input as [|x input'].
    { exists s. split; [done|]. cbn zeta. rewrite app_nil_r.
      destruct (absorb_blocks_short a p) as [-> ->]; done. }
    set (input := x :: input') in *. cbn [keccakUpdate_loop]. fold input.
    destruct s as [a' bl buf bufl kl]. cbn [A blockLen buffer bufferLen klength] in *. subst a' bl kl bufl.
    rewrite Nat2Z.id. unfold rate in Hl, Hlt.
    destruct (Z.ltb_spec (Z.of_nat (length input)) (136 - Z.of_nat (length p))) as [Hc|Hc].
    + rewrite Nat2Z.id, (take_ge input) by lia. rewrite (drop_ge input) by lia.
      rewrite (proj2 (Z.eqb_neq _ 136)) by lia.
      replace (keccakUpdate_loop fuel [] _) with
        (Ok (mkKeccak a 136 (copy_in buf (length p) input)
          (Z.of_nat (length p) + Z.of_nat (length input)) 256)) by (by destruct fuel).
      eexists. split; [done|]. cbn zeta.
      destruct (absorb_blocks_short a (p ++ input)) as [-> ->]; [rewrite length_app; unfold rate; lia|].
      unfold sponge. cbn [A blockLen buffer bufferLen klength].
      split_and!; auto using copy_in_u8; try (rewrite length_app; unfold rate; lia).
      * rewrite length_copy_in by lia. done.
      * apply copy_in_take; [done|lia].
    + replace (Z.to_nat (136 - Z.of_nat (length p))) with (136 - length p)%nat by lia.
      set (n := (136 - length p)%nat) in *. assert (0 < n)%nat by (unfold n; lia).
      rewrite (proj2 (Z.eqb_eq _ 136)) by lia.
      assert (length (take n input) = n) as Hn by (rewrite length_take; lia).
      assert (length (copy_in buf (length p) (take n input)) = 136%nat) as Hcl
        by (rewrite length_copy_in; lia).
      assert (copy_in buf (length p) (take n input) = p ++ take n input) as Hbuf.
      { pose proof (copy_in_take buf p (take n input) Hp ltac:(lia)) as E.
        rewrite take_ge in E; [exact E|]. rewrite Hcl, length_app. lia. }
      pose proof (process_ok a (copy_in buf (length p) (take n input))
        (Z.of_nat (length p) + (136 - Z.of_nat (length p))) Ha
        ltac:(auto using copy_in_u8, Forall_take) Hcl) as Hproc.
      destruct (IH (drop n input) _ _ _ Hproc) as (s' & -> & Hs').
      { by apply Forall_drop. } { rewrite length_drop. lia. }
      exists s'. split; [done|]. cbn zeta in *. cbn [app] in Hs'. rewrite Hbuf in Hs'.
      destruct (absorb_blocks_cons a (p ++ take n input) (drop n input)) as [E1 E2].
      { rewrite length_app. unfold rate. lia. }
      rewrite <- app_assoc, take_drop in E1, E2. by rewrite E1, E2.
Qed.

Lemma absorb_blocks_last a l t :
  let r := drop (rate * (length l / rate)) l in
  length (r ++ t) = rate -> absorb_blocks a (l ++ t) = absorb (absorb_blocks a l) (r ++ t).
Proof.
  cbn zeta. remember (length l) as n eqn:En. revert a l En.
  induction n as [n IH] using lt_wf_ind. intros a l -> Hr.
  destruct (Nat.lt_ge_cases (length l) rate) as [Hs|Hs].
  - destruct (absorb_blocks_short a l Hs) as [E1 E2]. rewrite E1. rewrite E2 in *.
    destruct (absorb_blocks_cons a (l ++ t) [] Hr) as [E _]. rewrite app_nil_r in E. rewrite E.
    apply absorb_blocks_short. simpl. unfold rate. lia.
  - rewrite <- (take_drop rate l) in Hr |- *. set (b := take rate l) in *. set (l' := drop rate l) in *.
    assert (length b = rate) as Hb by (unfold b; rewrite length_take; lia).
    destruct (absorb_blocks_cons a b l' Hb) as [E1 E2]. rewrite E1. rewrite E2 in *.
    rewrite <- app_assoc. destruct (absorb_blocks_cons a b (l' ++ t) Hb) as [E3 _]. rewrite E3.
    apply (IH (length l')); [unfold l'; rewrite length_drop; unfold rate in *; lia|done|done].
Qed.

(** The padding of a block that holds [n] bytes. *)
Definition pad_tail (n : nat) : list Z :=
  if (rate - n =? 1)%nat then [129] else 1 :: replicate (rate - n - 2) 0 ++ [128].

Lemma pad_eq l : pad l = l ++ pad_tail (length l mod rate).
Proof. done. Qed.

Lemma length_pad_tail n : (n < rate)%nat -> length (pad_tail n) = (rate - n)%nat.
Proof.
  intros H. unfold pad_tail. destruct (Nat.eqb_spec (rate - n) 1); [done|].
  cbn [length]. rewrite length_app, length_replicate. simpl. lia.
Qed.

Lemma padding_ok a p s : sponge a p s ->
  keccakAddPadding s =
  mkKeccak a 136 (p ++ pad_tail (length p)) (Z.of_nat (length p)) 256.
Proof.
  intros (EA & Ha & Eb & Ek & Hl & Hu & El & Hp & Hlt). unfold keccakAddPadding.
  rewrite EA, Eb, Ek, El, Nat2Z.id. change (Z.to_nat 136) with rate. f_equal.
  unfold pad_tail. unfold rate in *.
  assert (buffer s = p ++ drop (length p) (buffer s)) as Es by (rewrite <- Hp at 1; by rewrite take_drop).
  set (d := drop (length p) (buffer s)) in *.
  assert (length d = (136 - length p)%nat) as Hd by (unfold d; rewrite length_drop; lia).
  assert (forall q (l : list Z) v, <[length q := v]> (q ++ l) = q ++ <[0%nat := v]> l) as Hins.
  { intros q l v. by rewrite <- (Nat.add_0_r (length q)), insert_app_r at 1. }
  rewrite Es.
  destruct (Z.eqb_spec (Z.of_nat (length p) + 1) 136) as [H1|H1], (Nat.eqb_spec (136 - length p) 1) as [H2|H2];
    try lia.
  - rewrite Hins. destruct d as [|d0 [|]]; simpl in Hd; try lia. done.
  - rewrite Hins. destruct d as [|d0 d']; simpl in Hd; [lia|]. cbn [insert list_insert].
    set (k := (136 - length p - 2)%nat). replace (136 - 1 - S (length p))%nat with k by lia.
    assert (exists x, drop k d' = [x]) as [x Hx].
    { assert (length (drop k d') = 1)%nat as Hk by (rewrite length_drop; lia).
      destruct (drop k d') as [|x [|]]; simpl in Hk; try lia. by exists x. }
    assert (copy_in (p ++ 1 :: d') (S (length p)) (replicate k 0) = (p ++ 1 :: replicate k 0) ++ [x]) as ->.
    { unfold copy_in. replace (p ++ 1 :: d') with ((p ++ [1]) ++ d') by (by rewrite <- app_assoc).
      assert (length (p ++ [1]) = S (length p)) as Hp1 by (rewrite length_app; simpl; lia).
      rewrite <- Hp1, take_app_length, <- drop_drop, drop_app_length, length_replicate, Hx.
      by rewrite <- !app_assoc. }
    replace (136 - 1)%nat with (length (p ++ 1 :: replicate k 0))
      by (rewrite length_app; cbn [length]; rewrite length_replicate; lia).
    rewrite Hins. cbn [insert list_insert]. by rewrite <- app_assoc.
Qed.

Lemma pad_tail_u8 n : Forall is_u8 (pad_tail n).
Proof.
  unfold pad_tail. destruct (_ =? _)%nat; [repeat constructor; unfold is_u8; lia|].
  constructor; [unfold is_u8; lia|]. apply Forall_app_2; [apply Forall_replicate|]; repeat constructor; unfold is_u8; lia.
Qed.

Lemma take_flat_map_32 l r :
  (4 <= length l)%nat -> take 32 (flat_map (le_bytes 8) (l ++ r)) = take 32 (flat_map (le_bytes 8) l).
Proof.
  intros H. destruct l as [|a [|b [|c [|d l]]]]; simpl in H; try lia. reflexivity.
Qed.

(** The whole hash. *)
Lemma create_sponge : sponge (replicate 25 0) [] (keccakCreate 256).
Proof.
  unfold sponge. split_and!; try done.
  - split; [done|]. apply Forall_replicate. auto with cint.
  - apply Forall_replicate. unfold is_u8. lia.
  - unfold rate. simpl. lia.
Qed.

Lemma digest_ok over a p s : sponge a p s -> Forall is_u8 p ->
  take 32 (keccakDigest over s).1 = take 32 (flat_map (le_bytes 8) (absorb a (p ++ pad_tail (length p)))).
Proof.
  intros Hs Hp. unfold keccakDigest. rewrite (padding_ok a p s Hs).
  destruct Hs as (_ & Ha & _ & _ & _ & _ & _ & _ & Hlt).
  destruct (process_ok a (p ++ pad_tail (length p)) (Z.of_nat (length p)) Ha) as (EA & Hok & _ & Ek & _).
  { apply Forall_app_2; [done|apply pad_tail_u8]. }
  { rewrite length_app, length_pad_tail by done. lia. }
  cbn [fst]. rewrite EA, Ek. change (Z.to_nat (256 / 8)) with 32%nat.
  unfold NativeToLittle64. change littleEndian with true. cbv iota.
  destruct Hok as [Hl _]. revert Hl. generalize (absorb a (p ++ pad_tail (length p))). intros l Hl.
  destruct l as [|x0 [|x1 [|x2 [|x3 l]]]]; simpl in Hl; try lia. reflexivity.
Qed.

Lemma keccak256_ref over msg : Forall is_u8 msg -> keccak256 over msg = Ok (ref_keccak256 msg).
Proof.
  intros Hm. unfold keccak256, keccakUpdate.
  destruct (update_ok (length msg) msg _ _ _ create_sponge Hm) as (s & -> & Hs); [done|].
  cbn [obind app] in *. cbn zeta in Hs.
  pose proof (digest_ok over _ _ s Hs) as Hd.
  destruct (keccakDigest over s) as [op s'] eqn:E. cbn [fst] in Hd. f_equal.
  unfold ref_keccak256. rewrite pad_eq. rewrite Hd by (by apply Forall_drop).
  set (r := drop (rate * (length msg / rate)) msg) in *.
  assert (length r = (length msg mod rate)%nat) as Hr.
  { unfold r. rewrite length_drop. pose proof (Nat.div_mod_eq (length msg) rate). lia. }
  rewrite absorb_blocks_last; fold r; [by rewrite Hr|].
  rewrite length_app, length_pad_tail, Hr; [|apply Nat.mod_upper_bound; unfold rate; lia].
  pose proof (Nat.mod_upper_bound (length msg) rate). unfold rate in *. lia.
Qed.
