(* ===== verification/Translate.v ===== *)
(** * Translation and execution of instructions

    [target-ppdl/translate.c] and [target-ppdl/translate_insn.h].
    [genBlock_Main] emits, for one opcode, a fixed sequence of TCG operations;
    the model gives the effect of running that sequence.
    [gen_intermediate_code_internal] strings the sequences of consecutive
    instructions into a translation block and adds the updates of [pc]
    between and after them. *)

From stdpp Require Import base numbers list option strings.
From Stdlib Require Import ZArith Lia.
From S2P Require Import Prelude Words Bignum BignumSpec BignumHeap BignumStr Cpu Arithm ArithmSpec Storage Helpers Keccak.

(** ** SHA3 ([KeccakAlg] of [functions.c], [KeccakAlgStub] of [func_helper.c]) *)

(** [buf[i] = env->data_bus[offs + i]]; [buf] has 255 bytes. *)
Fixpoint read_bus (n : nat) (i offs : Z) (m : machine) : outcome (list Z) :=
  match n with
  | O => Ok []
  | S n' =>
      if 255 <=? i then Undef
      else
        let* b := data_bus_get (u32 (offs + i)) m in
        let* rest := read_bus n' (i + 1) offs m in
        Ok (u8 b :: rest)
  end.

(** [res_reg[i/8] |= byte << 8*(i%8)] over the 32 bytes. *)
Definition res_reg (op : list Z) : list Z :=
  map (fun b => fold_left (fun acc i => Z.lor acc (u64 (Z.shiftl (nth (8 * b + i) op 0) (8 * Z.of_nat i))))
    (seq 0 8) 0) (seq 0 4).

(** [over]: the words in memory after the lanes, which the digest reads. *)
Definition KeccakAlg (over : list Z) (offs size : Z) (m : machine) : outcome machine :=
  let sp0 := i32 (sp (cpu m)) in
  let* buf := read_bus (Z.to_nat size) 0 offs m in
  let* op := keccak256 over buf in
  let* stack := write4 (stack_arr (cpu m)) (sp0 + 1) (rev (res_reg op)) in
  Ok (with_cpu (set_sp (u64 (sp0 + 4))) (with_cpu (set_stack_arr stack) m)).

Definition KeccakAlgStub (over : list Z) (m : machine) : outcome machine :=
  let* (a, m) := GetSingleBlockFromStack m in
  let* (b, m) := GetSingleBlockFromStack m in
  KeccakAlg over (u32 a) (u32 b) m.

(** ** The opcode groups *)

(** [extract32(value, start, length)] *)
Definition extract32 (v start len : Z) : Z := Z.land (Z.shiftr v start) (Z.ones len).

Definition has_mask (insn mask id : Z) : bool := Z.land insn mask =? id.

(** MSTORE8, inlined by the translator. *)
Definition gen_mstore8 (addr_val : Z) (m : machine) : outcome machine :=
  let* m := USEGAS 3 m in
  let* data_val := stack_arr_get (u64 (sp (cpu m) - 3)) m in
  let m := move_sp (-4) m in
  let res_val1 := Z.land (Z.shiftr data_val (7 * 8)) 255 in
  let* m := data_bus_set addr_val res_val1 m in
  if mem_size (cpu m) <? addr_val then Ok (with_cpu (set_mem_size addr_val) m) else Ok m.

(** GAS, inlined by the translator. *)
Definition gen_gas (m : machine) : outcome machine :=
  let* m := USEGAS 2 m in
  let m := move_sp 1 m in
  let* g := gas_available_get 0 m in
  let* m := stack_arr_set (sp (cpu m)) g m in
  let* g := gas_available_get 1 m in
  let* m := stack_arr_set (u64 (sp (cpu m) + 1)) g m in
  let* g := gas_available_get 2 m in
  let* m := stack_arr_set (u64 (sp (cpu m) + 2)) g m in
  let* g := gas_available_get 3 m in
  let* m := stack_arr_set (u64 (sp (cpu m) + 3)) g m in
  Ok (move_sp 3 m).

(** The group 0x50: opcodes 1 to 7 pop an address first. *)
Definition gen_mem_op (opcode : Z) (m : machine) : outcome machine :=
  let* o := MemOps opcode in
  let* (addr_val, m) :=
    if negb (o =? 0) && (o <? 8) then GetSingleBlockFromStack m else Ok (0, m) in
  match o with
  | 0 => let* m := USEGAS 2 m in Ok (Pop m)
  | 1 => let* m := USEGAS 3 m in MloadInst addr_val m
  | 2 => let* m := USEGAS 3 m in MStoreInst addr_val m
  | 3 => gen_mstore8 addr_val m
  | 4 => let* m := USEGAS 50 m in LoadFromStorageStub addr_val m
  | 5 => let* m := USEGAS 0 m in SaveToStorageStub addr_val m
  | 6 =>
      let* m := USEGAS 8 m in
      Ok (with_cpu (fun c => set_is_pc_within_inst 1 (set_pc addr_val c)) m)
  | 7 => USEGAS 10 m
  | 8 => let* m := USEGAS 2 m in PcOp m
  | 9 => let* m := USEGAS 2 m in MSizeOp m
  | 10 => gen_gas m
  | 11 => USEGAS 1 m
  | _ => Ok m
  end.

(** PUSH: the immediate is pushed and [pc] moves past it. *)
Definition gen_push (count : Z) (m : machine) : outcome machine :=
  let* m := USEGAS 3 m in
  let* m := PushInst (count + 1) m in
  let m := with_cpu (set_is_pc_const_changed 1) m in
  Ok (with_cpu (set_pc (u64 (u64 (pc (cpu m) + count) + 2))) m).

Definition is_push (insn : Z) : bool := has_mask insn 0xe0 0x60.

(** The effect of the code emitted for [insn]. *)
Definition genBlock_Main (over : list Z) (insn : Z) (m : machine) : outcome machine :=
  if has_mask insn 0xf0 0xf0 then SystemOps (extract32 insn 0 4) m
  else if has_mask insn 0xff 0xfa then USEGAS 40 m
  else if has_mask insn 0xff 0xfd then let* m := USEGAS 0 m in StopExec m
  else if has_mask insn 0xff 0xff then let* m := USEGAS 0 m in StopExec m
  else if has_mask insn 0xf0 0x40 then BlockChain (extract32 insn 0 4) m
  else if has_mask insn 0xf0 0x30 then AccountsData (extract32 insn 0 4) m
  else if is_push insn then gen_push (extract32 insn 0 5) m
  else if has_mask insn 0xf0 0x80 then
    let* m := USEGAS 3 m in DupOp (extract32 insn 0 4) m
  else if has_mask insn 0xf0 0x90 then
    let* m := USEGAS 3 m in SwapOp (extract32 insn 0 4) m
  else if has_mask insn 0xf8 0xa0 then
    let count := extract32 insn 0 3 in USEGAS (0x177 + count * 0x177) m
  else if has_mask insn 0xf0 0x50 then gen_mem_op (extract32 insn 0 4) m
  else if has_mask insn 0xf0 0x0 then
    let* o := ArithmOps (extract32 insn 0 4) in ArithmStub (Z.land o 0xFFFFFFFF) m
  else if has_mask insn 0xf0 0x10 then
    let* o := CompareLogOps (extract32 insn 0 4) in CompareStub (Z.land o 0xFFFFFFFF) m
  else if has_mask insn 0xff 0x20 then
    let* m := USEGAS 30 m in KeccakAlgStub over m
  else Ok m.

(** ** Translation blocks *)

Definition get_ppdl_shift_pc (insn : Z) : Z :=
  if Z.land insn 0xe0 =? 0x60 then extract32 insn 0 5 + 2 else 1.

(** One translated instruction and whether [pc] is incremented after it. *)
Record tb_insn := mkInsn { ti_insn : Z; ti_add : bool }.

(** [disas_ppdl_insn]: fetch at [dc->pc]; the next [dc->pc]. *)
Definition disas_ppdl_insn (dc_pc : Z) (r : guest_ram) : outcome (Z * Z) :=
  let* b := ram_byte EXCP_IBE dc_pc r in
  let insn := u8 (i8 b) in
  Ok (insn, u64 (dc_pc + get_ppdl_shift_pc insn)).

(** The loop of [gen_intermediate_code_internal], without single stepping and
    breakpoints.  [room n] tells whether the operation buffer has room for
    another instruction after [n]; [changed] is the global [changed_pc], which
    [genBlock_Main] sets for PUSH. *)
Fixpoint gen_loop (fuel : nat) (room : nat -> bool) (end_pc next_page_start max_insns : Z)
    (r : guest_ram) (num : nat) (dc_pc changed : Z) : outcome (list tb_insn * Z * Z) :=
  match fuel with
  | O => Undef
  | S f =>
      let* (insn, npc) := disas_ppdl_insn dc_pc r in
      let changed := if is_push insn then 1 else changed in
      let num := S num in
      if npc =? end_pc then Ok ([mkInsn insn false], npc, changed)
      else
        let add := changed =? 0 in
        let changed := 0 in
        if room num && (npc <? next_page_start) && (Z.of_nat num <? max_insns) then
          let* (l, pc', changed) :=
            gen_loop f room end_pc next_page_start max_insns r num npc changed in
          Ok (mkInsn insn add :: l, pc', changed)
        else Ok ([mkInsn insn add], npc, changed)
  end.

Definition TARGET_PAGE_SIZE : Z := 256.
Definition CF_COUNT_MASK : Z := 0x7fff.

Definition page_start (pc_start : Z) : Z := pc_start / TARGET_PAGE_SIZE * TARGET_PAGE_SIZE.

(** At most one instruction per byte of the page is translated. *)
Definition gen_intermediate_code (room : nat -> bool) (end_pc : Z) (r : guest_ram) (pc_start changed : Z)
  : outcome (list tb_insn * Z * Z) :=
  let next_page_start := page_start pc_start + TARGET_PAGE_SIZE in
  gen_loop 257 room end_pc next_page_start CF_COUNT_MASK r 0 pc_start changed.

(** Running the instructions of a block. *)
Fixpoint run_insns (over : list Z) (l : list tb_insn) (m : machine) : outcome machine :=
  match l with
  | [] => Ok m
  | i :: l' =>
      let* m := genBlock_Main over (ti_insn i) m in
      let m := if ti_add i then with_cpu (fun c => set_pc (u64 (pc c + 1)) c) m else m in
      run_insns over l' m
  end.

(** The end of a block: unless a PUSH has set [is_pc_const_changed], [pc] is
    set to the address of the next instruction. *)
Definition tb_end (dc_pc : Z) (m : machine) : machine :=
  let m := if is_pc_const_changed (cpu m) =? 0 then with_cpu (set_pc dc_pc) m else m in
  with_cpu (set_is_pc_const_changed 0) m.

(** Executing the code of a block. *)
Definition exec_code (over : list Z) (l : list tb_insn) (dc_pc : Z) (m : machine) : outcome machine :=
  let* m := run_insns over l m in Ok (tb_end dc_pc m).

(** Translate the block at [pc] and run it; how many instructions the operation
    buffer has room for depends on the block. *)
Definition exec_tb (room : Z -> nat -> bool) (over : list Z) (end_pc : Z) (m : machine) : outcome machine :=
  let p := env_pc (cpu m) in
  let* (l, dc_pc, changed) := gen_intermediate_code (room p) end_pc (ram m) p (changed_pc m) in
  exec_code over l dc_pc (set_changed_pc changed m).

(** [n] blocks, or until the program exits. *)
Fixpoint run (n : nat) (room : Z -> nat -> bool) (over : list Z) (end_pc : Z) (m : machine) : outcome machine :=
  match n with
  | O => Ok m
  | S n' => let* m := exec_tb room over end_pc m in run n' room over end_pc m
  end.
