(* ===== verification/Disas.v ===== *)
(** * The disassembler

    [target-ppdl/func_disas.c]: the mnemonic lists, the decoder, and the line
    the tracer prints for an instruction. *)

From stdpp Require Import base numbers list option strings.
From Stdlib Require Import ZArith Lia.
From S2P Require Import Prelude Words Bignum BignumSpec BignumHeap BignumStr Cpu Arithm ArithmSpec Storage Helpers Keccak Translate.

(** ["%-<w>s"] *)
Definition pad_right (w : nat) (s : list Z) : list Z := s ++ replicate (w - length s) 32.

(** ** Mnemonics *)

Definition wrong_code : string := "wrong_code".

Definition EVM_DisasmList_ArithmOps (idx : Z) : string :=
  match idx with
  | 0 => "STOP" | 1 => "ADD" | 2 => "MUL" | 3 => "SUB" | 4 => "DIV" | 5 => "SDIV" | 6 => "MOD" | 7 => "SMOD"
  | 8 => "ADDMOD" | 9 => "MULMOD" | 10 => "EXP" | 11 => "SIGNEXTEND" | _ => wrong_code
  end.
Definition EVM_DisasmList_CompareLogOps (idx : Z) : string :=
  match idx with
  | 0 => "LT" | 1 => "GT" | 2 => "SLT" | 3 => "SGT" | 4 => "EQ" | 5 => "ISZERO" | 6 => "AND" | 7 => "OR"
  | 8 => "XOR" | 9 => "NOT" | 10 => "BYTE" | _ => wrong_code
  end.
Definition EVM_DisasmList_MemOps (idx : Z) : string :=
  match idx with
  | 0 => "POP" | 1 => "MLOAD" | 2 => "MSTORE" | 3 => "MSTORE8" | 4 => "SLOAD" | 5 => "SSTORE" | 6 => "JUMP"
  | 7 => "JUMPI" | 8 => "PC" | 9 => "MSIZE" | 10 => "GAS" | 11 => "JUMPDEST" | _ => wrong_code
  end.
Definition EVM_DisasmList_AccountsData (idx : Z) : string :=
  match idx with
  | 0 => "ADDRESS" | 1 => "BALANCE" | 2 => "ORIGIN" | 3 => "CALLER" | 4 => "CALLVALUE" | 5 => "CALLDATALOAD"
  | 6 => "CALLDATASIZE" | 7 => "CALLDATACOPY" | 8 => "CODESIZE" | 9 => "CODECOPY" | 10 => "GASPRICE"
  | 11 => "EXTCODESIZE" | 12 => "EXTCODECOPY" | _ => wrong_code
  end.
Definition EVM_DisasmList_BlockChain (idx : Z) : string :=
  match idx with
  | 0 => "BLOCKHASH" | 1 => "COINBASE" | 2 => "TIMESTAMP" | 3 => "NUMBER" | 4 => "DIFFICULTY" | 5 => "GASLIMIT"
  | _ => wrong_code
  end.
Definition EVM_DisasmList_SystemOps (idx : Z) : string :=
  match idx with
  | 0 => "CREATE" | 1 => "CALL" | 2 => "CALLCODE" | 3 => "RETURN" | 4 => "DELEGATECALL" | _ => wrong_code
  end.

(** The [CheckNull_] functions all return 1. *)
Definition CheckNull (aIdx : Z) : bool := true.

(** ** Decoding *)

Definition EVM_Main_GetInstNum (ocode : Z) : Z :=
  let low := Z.land (Z.shiftr ocode 0) 15 in
  if has_mask ocode 0xf0 0xf0 && CheckNull low then 1
  else if has_mask ocode 0xff 0xfa then 2
  else if has_mask ocode 0xff 0xfd then 3
  else if has_mask ocode 0xff 0xff then 4
  else if has_mask ocode 0xf0 0x40 && CheckNull low then 5
  else if has_mask ocode 0xf0 0x30 && CheckNull low then 6
  else if has_mask ocode 0xe0 0x60 then 7
  else if has_mask ocode 0xf0 0x80 then 8
  else if has_mask ocode 0xf0 0x90 then 9
  else if has_mask ocode 0xf8 0xa0 then 10
  else if has_mask ocode 0xf0 0x50 && CheckNull low then 11
  else if has_mask ocode 0xf0 0x00 && CheckNull low then 12
  else if has_mask ocode 0xf0 0x10 && CheckNull low then 13
  else if has_mask ocode 0xff 0x20 then 14
  else 0.

(** The text and the size the decoder returns. *)
Definition EVM_Main_DisAssembly (ocode : Z) : list Z * Z :=
  let low := Z.land (Z.shiftr ocode 0) 15 in
  if has_mask ocode 0xf0 0xf0 && CheckNull low then (codes (EVM_DisasmList_SystemOps low), 1)
  else if has_mask ocode 0xff 0xfa then (codes "STATICCALL", 1)
  else if has_mask ocode 0xff 0xfd then (codes "REVERT", 1)
  else if has_mask ocode 0xff 0xff then (codes "SUICIDE", 1)
  else if has_mask ocode 0xf0 0x40 && CheckNull low then (codes (EVM_DisasmList_BlockChain low), 1)
  else if has_mask ocode 0xf0 0x30 && CheckNull low then (codes (EVM_DisasmList_AccountsData low), 1)
  else if has_mask ocode 0xe0 0x60 then (codes "PUSH0x" ++ fmt_x hexdig 0 (Z.land (Z.shiftr ocode 0) 31), 1)
  else if has_mask ocode 0xf0 0x80 then (codes "DUP" ++ fmt_d 0 low, 1)
  else if has_mask ocode 0xf0 0x90 then (codes "SWAP" ++ fmt_d 0 low, 1)
  else if has_mask ocode 0xf8 0xa0 then (codes "LOG" ++ fmt_d 0 (Z.land (Z.shiftr ocode 0) 7), 1)
  else if has_mask ocode 0xf0 0x50 && CheckNull low then (codes (EVM_DisasmList_MemOps low), 1)
  else if has_mask ocode 0xf0 0x00 && CheckNull low then (codes (EVM_DisasmList_ArithmOps low), 1)
  else if has_mask ocode 0xf0 0x10 && CheckNull low then (codes (EVM_DisasmList_CompareLogOps low), 1)
  else if has_mask ocode 0xff 0x20 then (codes "SHA3", 1)
  else (codes "undef inst", 4).

Definition EVM_GetInstructNum (wrd : Z) : Z := EVM_Main_GetInstNum (u8 wrd).

(** ["%08X          %08X\t%s\t"] or ["%08X %08X    %-09s"] *)
Definition DevDisasm (aCurPc : Z) (m : machine) : outcome (list Z) :=
  let* b := ram_byte EXCP_IBE aCurPc (ram m) in
  let opcode := u8 (i8 b) in
  let '(text, size) := EVM_Main_DisAssembly opcode in
  if size =? 4
  then Ok (fmt_x HEXDIG 8 aCurPc ++ replicate 10 32 ++ fmt_x HEXDIG 8 opcode ++ [9] ++ text ++ [9])
  else Ok (fmt_x HEXDIG 8 aCurPc ++ [32] ++ fmt_x HEXDIG 8 opcode ++ replicate 4 32 ++ pad_right 9 text).

(** [prev_tick] is the function's static variable; its new value is returned. *)
Definition PrintDisasmLine (aCurPc aTicks prev_tick : Z) (m : machine) : outcome (Z * machine) :=
  let* s := DevDisasm aCurPc m in
  let n := if u32 (prev_tick + 1) <? aTicks
           then u32 (aTicks - u32 (u32 (aTicks - prev_tick) - 1)) else aTicks in
  Ok (i32 aTicks, print (fmt_d 5 (i32 n) ++ [32] ++ s ++ [10]) m).
