(* ===== verification/TraceFilter.v ===== *)
(** * The filters of the tracers

    [qemu-trace.c] parses the register and address lists of [-regtrace] and
    [-memtrace]; [include/qemu/trace.h] looks registers and addresses up in
    them; the table of registers is [include/qemu/trace_regs.h].  Strings are
    lists of character codes without their final NUL; a buffer is a list with
    all its characters.  The option switch is the one of [vl.c]. *)

From stdpp Require Import base numbers list option strings gmap.
From Stdlib Require Import ZArith Lia.
From S2P Require Import Prelude Words Disas.

(** ** C strings *)

Definition NUL : Z := 0.
Definition COMMA : Z := 44.
Definition DASH : Z := 45.

Definition eqs (a b : list Z) : bool := bool_decide (a = b).

(** [strchr]: the offset of the first [c]. *)
Definition strchr (s : list Z) (c : Z) : option nat := fst <$> list_find (c =.) s.

(** The string in a buffer; [None] if it has no end there. *)
Definition c_str (buf : list Z) : option (list Z) :=
  match strchr buf NUL with Some n => Some (take n buf) | None => None end.

(** [strncpy] of [n] characters none of which is NUL. *)
Definition strncpy (buf s : list Z) (n : nat) : outcome (list Z) :=
  if (n <=? length buf)%nat then Ok (take n s ++ drop n buf) else Undef.

Definition strcpy (buf s : list Z) : outcome (list Z) := strncpy buf (s ++ [NUL]) (S (length s)).

Definition is_space (c : Z) : bool := (c =? 32) || (9 <=? c) && (c <=? 13).

(** The value of a character as a digit. *)
Definition digit_of (c : Z) : Z :=
  if (48 <=? c) && (c <=? 57) then c - 48
  else if (97 <=? c) && (c <=? 122) then c - 87
  else if (65 <=? c) && (c <=? 90) then c - 55
  else 99.

Fixpoint digits_val (base acc : Z) (s : list Z) : Z :=
  match s with
  | [] => acc
  | c :: s' => if digit_of c <? base then digits_val base (acc * base + digit_of c) s' else acc
  end.

Fixpoint skip_space (s : list Z) : list Z :=
  match s with c :: s' => if is_space c then skip_space s' else s | [] => [] end.

Definition clamp_long (v : Z) : Z := Z.max (- 2 ^ 63) (Z.min v (2 ^ 63 - 1)).

(** [strtol (s, NULL, 0)] *)
Definition strtol (s : list Z) : Z :=
  let s := skip_space s in
  let '(neg, s) := match s with 45 :: s' => (true, s') | 43 :: s' => (false, s') | _ => (false, s) end in
  let v :=
    match s with
    | 48 :: x :: d :: s' =>
        if ((x =? 120) || (x =? 88)) && (digit_of d <? 16) then digits_val 16 0 (d :: s')
        else digits_val 8 0 (48 :: x :: d :: s')
    | 48 :: _ => digits_val 8 0 s
    | _ => digits_val 10 0 s
    end in
  clamp_long (if neg then - v else v).

(** ** Registers *)

Definition numbered (name : string) (n : nat) : list (list Z) :=
  map (fun i => codes name ++ fmt_d 0 (Z.of_nat i)) (seq 0 n).

(** [qemu_reg_trace_items], in order; the index of an item is its position. *)
Definition reg_names : list (list Z) :=
  map codes ["pc"; "cur_addr"; "caller_addr"; "origin_addr"; "gas_price"; "ext_code_size"; "inp_data_size";
             "log_ptr"; "sp"]%string ++
  numbered "gas_available" 4 ++ numbered "data_bus" 1024 ++ numbered "stack_arr" 2048 ++
  map codes ["CoinBase"; "TimeStamp"; "Number"; "Difficulty"; "GasLimit"]%string.

Definition qemu_reg_trace_items : list (list Z * Z) := imap (fun i n => (n, Z.of_nat i)) reg_names.

Definition REGTRACE_LIST_LEN : nat := 3091.

Definition regmatch (s1 : list Z) (n : nat) (s2 : list Z) : bool :=
  if negb (length s2 =? n)%nat then false else eqs (take n s1) s2.

Definition reg_usage : list Z :=
  codes "Register trace items (comma separated):" ++ [10] ++ codes "all" ++ [10] ++
  flat_map (fun item => pad_right 16 item.1) qemu_reg_trace_items ++
  [10; 10] ++ codes "Example usage:" ++ [10] ++ codes "nmc-qemu -regtrace all" ++ [10] ++
  codes "nmc-qemu -regtrace gr0,ar7,wbuf25" ++ [10].

Definition INVALID : list Z := codes "Invalid trace list values." ++ [10].

(** [qemu_reg_trace_list] as far as it is written: [counter] is its length.  A
    finished list is what stands before its terminator -1. *)
Definition put_index (i : Z) (l : list Z) : outcome (list Z) :=
  if (length l <? REGTRACE_LIST_LEN)%nat then Ok (l ++ [i]) else Undef.

Definition terminate (l : list Z) : outcome (list Z) :=
  if (length l <? REGTRACE_LIST_LEN)%nat then Ok l else Undef.

Fixpoint put_all (items : list (list Z * Z)) (l : list Z) : outcome (list Z) :=
  match items with [] => Ok l | (_, i) :: items' => let* l := put_index i l in put_all items' l end.

Fixpoint find_item (p : list Z) (n : nat) (items : list (list Z * Z)) : option Z :=
  match items with
  | [] => None
  | (name, i) :: items' => if regmatch p n name then Some i else find_item p n items'
  end.

(** The offset of the end of the first item of a list. *)
Definition item_end (p : list Z) : nat := default (length p) (strchr p COMMA).

Fixpoint trace_list_loop (fuel : nat) (p : list Z) (l : list Z) : outcome (list Z) :=
  match fuel with
  | O => Undef
  | S f =>
      let n := item_end p in
      if regmatch p n (codes "help") then Exit (-1) reg_usage
      else if regmatch p n (codes "all") then let* l := put_all qemu_reg_trace_items l in terminate l
      else
        match find_item p n qemu_reg_trace_items with
        | None => Exit (-1) (INVALID ++ reg_usage)
        | Some i =>
            let* l := put_index i l in
            match drop n p with
            | c :: p' => if c =? COMMA then trace_list_loop f p' l else terminate l
            | [] => terminate l
            end
        end
  end.

(** [strchr] stops at a comma or the end, so every round but the last consumes
    a character. *)
Definition qemu_str_to_trace_list (str : list Z) : outcome (list Z) := trace_list_loop (S (length str)) str [].

Definition qemu_reg_mask (use_ctracer : bool) (l : list Z) (reg : string) (idx : Z) : bool :=
  if use_ctracer then true
  else
    let reg_name := if idx =? -1 then codes reg else codes reg ++ fmt_d 0 idx in
    match list_find (fun item => item.1 = reg_name) qemu_reg_trace_items with
    | None => false
    | Some (_, item) => existsb (Z.eqb item.2) l
    end.

(** ** Addresses *)

Definition RAM_BASE_ADDR : Z := 0x0.
Definition RAM_MAX_ADDR : Z := 0xBFFFF.
Definition DDR_BASE_ADDR : Z := 0x20000000.
Definition DDR_MAX_ADDR : Z := 0x3FFFFFFF.

Definition is_hex_digit (c : Z) : bool :=
  (48 <=? c) && (c <=? 57) || (97 <=? c) && (c <=? 102) || (65 <=? c) && (c <=? 70).

(** The copy of the [n] characters at [s] has no NUL of its own: [stack s] is the
    string that follows it on the stack in the call for [s], empty when a NUL
    happens to be there. *)
Definition addrmatch (stack : list Z -> list Z) (s : list Z) (n : nat) : outcome bool :=
  if (n =? 0)%nat then Undef
  else
    let addrstring := take n s in
    if (10 <? length (addrstring ++ stack s))%nat then Ok false
    else if negb (forallb is_hex_digit (drop 2 addrstring)) then Ok false
    else
      let addr := i32 (strtol (addrstring ++ stack s)) in
      Ok ((RAM_BASE_ADDR <=? addr) && ((addr <=? RAM_MAX_ADDR) || (DDR_BASE_ADDR <=? addr)) && (addr <=? DDR_MAX_ADDR)).

Definition mem_usage : list Z :=
  codes "Memory trace items (comma separated):" ++ [10] ++
  [9] ++ codes "all" ++ [10; 9] ++ codes "0x[F...]" ++ [10; 9] ++ codes "0x[F...]-0x[F...]" ++ [10] ++
  [10] ++ codes "Available address spaces:" ++ [10] ++
  [9] ++ codes "1) RAM [ 0x0 - 0xBFFFF ]" ++ [10; 9] ++ codes "2) DDR [ 0x20000000 - 0x3FFFFFFF ]" ++ [10].

(** [qemu_mem_trace_list]: 100 buffers of 22 characters; the first holds NA. *)
Definition mem_list : Type := list (list Z).
Definition mem_list_init : mem_list :=
  (codes "NA" ++ replicate 20 0) :: replicate 99 (replicate 22 0).

Definition put_item (k : nat) (f : list Z -> outcome (list Z)) (t : mem_list) : outcome mem_list :=
  match t !! k with
  | None => Undef
  | Some buf => let* buf := f buf in Ok (<[k := buf]> t)
  end.

Definition item_ok (stack : list Z -> list Z) (p : list Z) (n : nat) : outcome bool :=
  if eqs (take 2 p) (codes "0x") then
    match strchr p DASH with
    | Some d =>
        if (d <? n)%nat && (0 <? d)%nat then
          let* b1 := addrmatch stack p d in
          if b1 then addrmatch stack (drop (S d) p) (n - d - 1) else Ok false
        else addrmatch stack p n
    | None => addrmatch stack p n
    end
  else Ok false.

Fixpoint memtrace_loop (fuel : nat) (stack : list Z -> list Z) (p : list Z) (counter : nat) (t : mem_list) : outcome mem_list :=
  match fuel with
  | O => Undef
  | S f =>
      let n := item_end p in
      if regmatch p n (codes "help") then Exit (-1) mem_usage
      else if regmatch p n (codes "all") then
        let* t := put_item 0 (fun b => strcpy b (codes "0x0-0xBFFFF")) t in
        let* t := put_item 1 (fun b => strcpy b (codes "0x20000000-0x3FFFFFFF")) t in
        put_item 2 (fun b => strcpy b (codes "NA")) t
      else
        let* ok := item_ok stack p n in
        if negb ok then Exit (-1) (INVALID ++ mem_usage)
        else
          let* t := put_item counter (fun b => strncpy b p n) t in
          let counter := S counter in
          match drop n p with
          | c :: p' => if c =? COMMA then memtrace_loop f stack p' counter t
                       else put_item counter (fun b => strcpy b (codes "NA")) t
          | [] => put_item counter (fun b => strcpy b (codes "NA")) t
          end
  end.

Definition qemu_str_to_memtrace_list (stack : list Z -> list Z) (str : list Z) (t : mem_list) : outcome mem_list :=
  memtrace_loop (S (length str)) stack str 0 t.

(** [strtol] of the buffer: reading past it if it has no NUL. *)
Definition buf_int (buf : list Z) : outcome Z :=
  match c_str buf with Some s => Ok (i32 (strtol s)) | None => Undef end.

(** The loop of [qemu_mem_mask]: [addrstring] is not cleared between copies. *)
Fixpoint mem_mask_loop (t : mem_list) (addrstring : list Z) (addr : Z) : outcome bool :=
  match t with
  | [] => Undef
  | buf :: t' =>
      match c_str buf with
      | None => Undef
      | Some p =>
          if eqs p (codes "NA") then Ok false
          else
            let single :=
              let* addrstring := strncpy addrstring p (length p) in
              let* addr_low := buf_int addrstring in
              if addr =? u64 addr_low then Ok true else mem_mask_loop t' addrstring addr in
            match strchr p DASH with
            | Some d =>
                if (0 <? d)%nat then
                  let* addrstring := strncpy addrstring p d in
                  let* addr_low := buf_int addrstring in
                  let* addrstring := strncpy addrstring (drop (S d) p) (length p - d - 1) in
                  let* addr_hi := buf_int addrstring in
                  if (u64 addr_low <=? addr) && (addr <=? u64 addr_hi) then Ok true
                  else mem_mask_loop t' addrstring addr
                else single
            | None => single
            end
      end
  end.

Definition qemu_mem_mask (t : mem_list) (addr : Z) : outcome bool := mem_mask_loop t (replicate 10 0) addr.

(** ** The options *)

Record trace_opts := mkOpts {
  opt_tracer : bool;
  opt_ctracer : bool;
  opt_regtracer : bool;
  opt_memtracer : bool;
  opt_ticks : bool;
  reg_trace_list : list Z;
  mem_trace_list : mem_list
}.

Definition opts_init : trace_opts := mkOpts false false false false false [] mem_list_init.

Inductive trace_option :=
| Opt_tick | Opt_trace | Opt_ctrace | Opt_regtrace (arg : list Z) | Opt_memtrace (arg : list Z).

(** The cases of the option switch; the notes go to [stderr]. *)
Definition parse_option (stack : list Z -> list Z) (o : trace_option) (s : trace_opts) : outcome trace_opts :=
  let '(mkOpts tr ct rt mt tk rl ml) := s in
  match o with
  | Opt_tick => Ok (mkOpts true ct rt mt true rl ml)
  | Opt_trace => Ok (mkOpts true (if ct then false else ct) rt mt tk rl ml)
  | Opt_ctrace => Ok (if negb tr && negb rt then mkOpts tr true rt mt tk rl ml else s)
  | Opt_regtrace arg =>
      let* l := qemu_str_to_trace_list arg in
      if (length l =? 0)%nat then Exit 1 reg_usage
      else Ok (mkOpts tr (if ct then false else ct) true mt tk l ml)
  | Opt_memtrace arg =>
      let* t := qemu_str_to_memtrace_list stack arg ml in
      match t with
      | [] => Undef
      | b :: _ => if bool_decide (c_str b = Some (codes "NA")) then Exit 1 mem_usage
                  else Ok (mkOpts tr ct rt true tk rl t)
      end
  end.

Fixpoint parse_options (stack : list Z -> list Z) (l : list trace_option) (s : trace_opts) : outcome trace_opts :=
  match l with [] => Ok s | o :: l' => let* s := parse_option stack o s in parse_options stack l' s end.

(** A trace of [addr]: [use_memtracer & qemu_mem_mask (addr)]. *)
Definition memtraced (s : trace_opts) (addr : Z) : outcome bool :=
  let* b := qemu_mem_mask (mem_trace_list s) addr in Ok (opt_memtracer s && b).

Example mem_all_ram : (let* t := qemu_str_to_memtrace_list (fun _ => []) (codes "all") mem_list_init in qemu_mem_mask t 0x1234) = Ok true.
Proof. reflexivity. Qed.
Example mem_all_ddr : (let* t := qemu_str_to_memtrace_list (fun _ => []) (codes "all") mem_list_init in qemu_mem_mask t 0x20000000) = Undef.
Proof. reflexivity. Qed.
Example mem_list2 : (let* t := qemu_str_to_memtrace_list (fun _ => []) (codes "0x1000,0x20") mem_list_init in qemu_mem_mask t 0x20) = Ok false.
Proof. reflexivity. Qed.
Example mem_list3 : (let* t := qemu_str_to_memtrace_list (fun _ => []) (codes "0x1000,0x20") mem_list_init in qemu_mem_mask t 0x2000) = Ok true.
Proof. reflexivity. Qed.
