(* ===== verification/TraceFilterSpec.v ===== *)
(** * What the trace filters select

    A list of register names selects exactly the registers it names; a single
    address, or a range of addresses of the RAM, selects exactly its addresses
    or is refused, as the bytes behind an unterminated copy decide. *)

From stdpp Require Import base numbers list option strings gmap.
From Stdlib Require Import ZArith Lia.
From S2P Require Import Prelude Words Disas TraceFilter.

(** [f] of every element and its position. *)
Fixpoint iforall {A} (f : nat -> A -> bool) (i : nat) (l : list A) : bool :=
  match l with [] => true | x :: l' => f i x && iforall f (S i) l' end.

Lemma iforall_at {A} (f : nat -> A -> bool) k l i x : iforall f k l = true -> l !! i = Some x -> f (k + i)%nat x = true.
Proof.
  revert k i; induction l as [|y l IH]; intros k i H Hi; [done|]. apply andb_prop in H as [H1 H2].
  destruct i as [|i]; [injection Hi as <-; by rewrite Nat.add_0_r|]. rewrite Nat.add_succ_r. by apply (IH (S k)).
Qed.

(** ** The table *)

Lemma length_reg_names : length reg_names = 3090%nat.
Proof. by vm_compute. Qed.

(** The position of every name, by a map from names read as numbers. *)
Definition name_key (n : list Z) : Z := fold_left (fun a c => a * 256 + c) n 0.
Definition name_pos : gmap Z nat := list_to_map (imap (fun i n => (name_key n, i)) reg_names).

(** A name has no comma and is neither of the two keywords. *)
Definition plain_name (n : list Z) : bool :=
  forallb (fun c => negb (c =? COMMA)) n && negb (eqs n (codes "help")) && negb (eqs n (codes "all")).

Definition pos_ok (i : nat) (n : list Z) : bool :=
  match name_pos !! name_key n with Some j => (i =? j)%nat | None => false end.
Lemma name_pos_all : iforall pos_ok 0 reg_names = true.
Proof. by vm_compute. Qed.

Lemma reg_names_plain : forallb plain_name reg_names = true.
Proof. by vm_compute. Qed.

#[global] Opaque reg_names name_pos.

Lemma reg_names_inj i j n : reg_names !! i = Some n -> reg_names !! j = Some n -> i = j.
Proof.
  intros Hi Hj. pose proof (iforall_at _ _ _ _ _ name_pos_all Hi) as Pi. pose proof (iforall_at _ _ _ _ _ name_pos_all Hj) as Pj.
  unfold pos_ok in Pi, Pj. destruct (name_pos !! name_key n); [|done].
  apply Nat.eqb_eq in Pi, Pj. simpl in Pi, Pj. congruence.
Qed.


Lemma plain_name_at i n : reg_names !! i = Some n -> plain_name n = true.
Proof.
  intros H. pose proof reg_names_plain as P. rewrite forallb_forall in P. apply P, list_elem_of_In, list_elem_of_lookup.
  by exists i.
Qed.

(** ** Parsing a list of names *)

Fixpoint join (ns : list (list Z)) : list Z :=
  match ns with [] => [] | [n] => n | n :: ns' => n ++ COMMA :: join ns' end.

(** The end of a list: nothing, or a comma and more. *)
Definition list_rest (r : list Z) : Prop := r = [] \/ exists r', r = COMMA :: r'.

Lemma strchr_app s r c : forallb (fun x => negb (x =? c)) s = true ->
  strchr (s ++ r) c = Nat.add (length s) <$> strchr r c.
Proof.
  unfold strchr. induction s as [|x s IH]; intros H; [cbn [app length]; by destruct (list_find _ r) as [[]|]|].
  cbn [forallb] in H. apply andb_prop in H as [H1 H2]. apply negb_true_iff, Z.eqb_neq in H1.
  cbn [app list_find length]. rewrite decide_False by congruence.
  specialize (IH H2). destruct (list_find _ (s ++ r)) as [[]|], (list_find _ r) as [[]|]; cbn in *; try done.
  injection IH as ->. done.
Qed.

Lemma item_end_app n r : forallb (fun x => negb (x =? COMMA)) n = true -> list_rest r -> item_end (n ++ r) = length n.
Proof.
  intros Hn Hr. unfold item_end. rewrite strchr_app by done. destruct Hr as [->|[r' ->]].
  - cbn. by rewrite app_nil_r.
  - change (strchr (COMMA :: r') COMMA) with (Some 0%nat). cbn. lia.
Qed.

Lemma regmatch_app n r s : regmatch (n ++ r) (length n) s = eqs n s.
Proof.
  unfold regmatch, eqs. rewrite take_app_length. destruct (Nat.eqb_spec (length s) (length n)); [done|].
  cbn [negb]. symmetry. apply bool_decide_eq_false. congruence.
Qed.

Lemma find_item_at L k i n r : L !! i = Some n -> (forall j, (j < i)%nat -> L !! j <> Some n) ->
  find_item (n ++ r) (length n) (imap (fun j m => (m, Z.of_nat (k + j))) L) = Some (Z.of_nat (k + i)).
Proof.
  revert k i; induction L as [|m L IH]; intros k i Hi Hf; [done|]. cbn [imap find_item].
  rewrite regmatch_app. unfold eqs. destruct i as [|i].
  - injection Hi as ->. by rewrite bool_decide_true, Nat.add_0_r.
  - rewrite bool_decide_false by (intros ->; by apply (Hf 0%nat); [lia|]).
    replace (k + S i)%nat with (S k + i)%nat by lia. rewrite <- (IH (S k) i); [|done|].
    2:{ intros j Hj. apply (Hf (S j)). lia. }
    f_equal. apply imap_ext. intros j x _. cbn. do 2 f_equal. lia.
Qed.

Lemma find_reg i n r : reg_names !! i = Some n ->
  find_item (n ++ r) (length n) qemu_reg_trace_items = Some (Z.of_nat i).
Proof.
  intros Hi. apply (find_item_at reg_names 0 i n r Hi). intros j Hj E. pose proof (reg_names_inj i j n Hi E). lia.
Qed.

Lemma put_index_ok i l : (length l < REGTRACE_LIST_LEN)%nat -> put_index i l = Ok (l ++ [i]).
Proof. intros H. unfold put_index. by rewrite (proj2 (Nat.ltb_lt _ _)). Qed.

(** The names at the positions [ks]. *)
Definition named (ks : list nat) (ns : list (list Z)) : Prop := Forall2 (fun i n => reg_names !! i = Some n) ks ns.

Lemma trace_list_loop_ok ks ns l fuel : named ks ns -> ns <> [] -> (length (join ns) < fuel)%nat ->
  (length l + length ks < REGTRACE_LIST_LEN)%nat ->
  trace_list_loop fuel (join ns) l = Ok (l ++ map Z.of_nat ks).
Proof.
  intros H. revert l fuel; induction H as [|i n ks ns Hi H IH]; intros l fuel Hne Hf Hl; [done|].
  destruct fuel as [|f]; [lia|]. cbn [trace_list_loop length map] in *.
  pose proof (plain_name_at i n Hi) as Hp. apply andb_prop in Hp as [Hp Ha]. apply andb_prop in Hp as [Hp Hh].
  assert (exists r, join (n :: ns) = n ++ r /\ list_rest r /\ (r = [] /\ ns = [] \/ ns <> [] /\ r = COMMA :: join ns))
    as (r & Ej & Hr & Hc).
  { destruct ns as [|n' ns].
    - exists []. rewrite app_nil_r. split; [done|]. split; [by left|by left].
    - exists (COMMA :: join (n' :: ns)). split; [done|]. split; [right; by eexists|by right]. }
  rewrite Ej in Hf |- *. rewrite item_end_app, !regmatch_app, find_reg with (i := i) by done.
  apply negb_true_iff in Ha, Hh. rewrite Hh, Ha, put_index_ok, drop_app_length by lia. cbn [obind].
  destruct Hc as [[-> ->]|[Hn ->]].
  - unfold terminate. inversion H; subst. rewrite length_app. cbn [length] in *.
    by rewrite (proj2 (Nat.ltb_lt _ _)) by lia.
  - change (COMMA =? COMMA) with true. cbn match. rewrite IH; [by rewrite <- app_assoc|done|..].
    + rewrite length_app in Hf. cbn [length] in Hf. lia.
    + rewrite length_app. cbn [length]. lia.
Qed.

(** ** Looking registers up *)

Definition reg_name (reg : string) (idx : Z) : list Z := if idx =? -1 then codes reg else codes reg ++ fmt_d 0 idx.

Lemma items_find n i x : list_find (fun item => item.1 = n) qemu_reg_trace_items = Some (i, x) ->
  x = (n, Z.of_nat i) /\ reg_names !! i = Some n.
Proof.
  intros H. apply list_find_Some in H as (H & E & _). unfold qemu_reg_trace_items in H.
  rewrite list_lookup_imap in H. destruct (reg_names !! i) as [m|] eqn:Em; [|done]. cbn in H. injection H as <-.
  cbn in E. by subst.
Qed.

Lemma items_find_some n i : reg_names !! i = Some n ->
  list_find (fun item => item.1 = n) qemu_reg_trace_items = Some (i, (n, Z.of_nat i)).
Proof.
  intros H. destruct (list_find _ _) as [[j x]|] eqn:E.
  - apply items_find in E as [-> E]. by rewrite (reg_names_inj i j n).
  - apply list_find_None in E. rewrite Forall_forall in E. exfalso. apply (E (n, Z.of_nat i)); [|done].
    apply list_elem_of_lookup. exists i. unfold qemu_reg_trace_items. by rewrite list_lookup_imap, H.
Qed.

Lemma existsb_index i ks : existsb (Z.eqb (Z.of_nat i)) (map Z.of_nat ks) = true <-> i ∈ ks.
Proof.
  rewrite existsb_exists. split.
  - intros (x & Hx & E). apply Z.eqb_eq in E. apply in_map_iff in Hx as (j & <- & Hj). apply list_elem_of_In.
    by replace i with j by lia.
  - intros Hi. exists (Z.of_nat i). split; [|by apply Z.eqb_eq]. apply in_map, list_elem_of_In, Hi.
Qed.

(** The filter shows a register exactly when its name was asked for. *)
Lemma reg_mask_named ks ns reg idx : named ks ns ->
  qemu_reg_mask false (map Z.of_nat ks) reg idx = true <-> reg_name reg idx ∈ ns.
Proof.
  intros H. unfold qemu_reg_mask. fold (reg_name reg idx). set (n := reg_name reg idx). split.
  - destruct (list_find _ _) as [[i x]|] eqn:E; [|done]. apply items_find in E as [-> E]. cbn [snd].
    rewrite existsb_index, list_elem_of_lookup. intros [k Hk].
    destruct (Forall2_lookup_l _ _ _ _ _ H Hk) as (m & Hm & E'). apply list_elem_of_lookup. exists k. congruence.
  - rewrite list_elem_of_lookup. intros [k Hk]. destruct (Forall2_lookup_r _ _ _ _ _ H Hk) as (i & Hi & E).
    rewrite (items_find_some n i) by done. cbn [snd]. apply existsb_index, list_elem_of_lookup. by exists k.
Qed.

(** ** Every register *)

Definition all_regs : list nat := seq 0 3090.

Lemma put_all_ok L k l : (length l + length L <= REGTRACE_LIST_LEN)%nat ->
  put_all (imap (fun j m => (m, Z.of_nat (k + j))) L) l = Ok (l ++ map Z.of_nat (seq k (length L))).
Proof.
  revert k l; induction L as [|m L IH]; intros k l H; cbn [imap put_all length seq map] in *; [by rewrite app_nil_r|].
  rewrite put_index_ok by lia. cbn [obind].
  assert (imap ((fun j m => (m, Z.of_nat (k + j))) ∘ S) L = imap (fun j m => (m, Z.of_nat (S k + j))) L) as E.
  { apply imap_ext. intros j x _. cbn. do 2 f_equal. lia. }
  rewrite E, IH by (rewrite length_app; cbn [length]; lia). rewrite <- app_assoc, Nat.add_0_r. done.
Qed.

Lemma parse_all : qemu_str_to_trace_list (codes "all") = Ok (map Z.of_nat all_regs).
Proof.
  change (qemu_str_to_trace_list (codes "all")) with
    (let* l := put_all (imap (fun j m => (m, Z.of_nat (0 + j))) reg_names) [] in terminate l).
  rewrite put_all_ok by (rewrite length_reg_names; cbn [length]; unfold REGTRACE_LIST_LEN; lia).
  cbn [obind app]. rewrite length_reg_names. unfold terminate. by rewrite length_map, length_seq.
Qed.

Lemma reg_mask_all ct reg idx : reg_name reg idx ∈ reg_names -> qemu_reg_mask ct (map Z.of_nat all_regs) reg idx = true.
Proof.
  intros H. destruct ct; [done|]. apply list_elem_of_lookup in H as [i Hi]. unfold qemu_reg_mask.
  fold (reg_name reg idx). rewrite (items_find_some _ i Hi). cbn [snd].
  apply existsb_index, elem_of_seq. apply lookup_lt_Some in Hi. rewrite length_reg_names in Hi. lia.
Qed.

Lemma numbered_in name n i : (i < n)%nat -> reg_name name (Z.of_nat i) ∈ numbered name n.
Proof.
  intros H. unfold reg_name. rewrite (proj2 (Z.eqb_neq _ _)) by lia.
  apply list_elem_of_In, (in_map (fun i => codes name ++ fmt_d 0 (Z.of_nat i))), in_seq. lia.
Qed.

#[local] Transparent reg_names.
Lemma reg_names_parts : reg_names =
  map codes ["pc"; "cur_addr"; "caller_addr"; "origin_addr"; "gas_price"; "ext_code_size"; "inp_data_size";
             "log_ptr"; "sp"]%string ++
  numbered "gas_available" 4 ++ numbered "data_bus" 1024 ++ numbered "stack_arr" 2048 ++
  map codes ["CoinBase"; "TimeStamp"; "Number"; "Difficulty"; "GasLimit"]%string.
Proof. exact eq_refl. Qed.
#[global] Opaque reg_names.

(** The names the tracer asks for. *)
Lemma plain_in (name : string) :
  In name ["pc"; "cur_addr"; "caller_addr"; "origin_addr"; "gas_price"; "ext_code_size"; "inp_data_size"; "log_ptr";
           "sp"; "CoinBase"; "TimeStamp"; "Number"; "Difficulty"; "GasLimit"]%string -> reg_name name (-1) ∈ reg_names.
Proof.
  intros H. rewrite reg_names_parts. unfold reg_name. cbn [Z.eqb Pos.eqb]. rewrite !elem_of_app.
  repeat (destruct H as [<-|H]; [first [left; apply list_elem_of_In, in_map; by vm_compute; tauto
    | do 4 right; apply list_elem_of_In, in_map; by vm_compute; tauto]|]). done.
Qed.

Lemma array_in name n i : (i < n)%nat -> In (name, n) [("gas_available", 4%nat); ("data_bus", 1024%nat); ("stack_arr", 2048%nat)]%string ->
  reg_name name (Z.of_nat i) ∈ reg_names.
Proof.
  intros Hi H. rewrite reg_names_parts, !elem_of_app. pose proof (numbered_in name n i Hi) as E.
  destruct H as [H|[H|[H|[]]]]; injection H as <- <-; tauto.
Qed.

#[global] Opaque all_regs.

(** ** Addresses *)

Lemma digit_hexdig d : 0 <= d < 16 -> digit_of (hexdig d) = d.
Proof.
  intros H. unfold digit_of, hexdig. destruct (Z.ltb_spec d 10).
  - rewrite (proj2 (Z.leb_le 48 _)), (proj2 (Z.leb_le _ 57)) by lia. cbn [andb]. lia.
  - rewrite (proj2 (Z.leb_gt _ 57)), (proj2 (Z.leb_le 97 _)), (proj2 (Z.leb_le _ 122)) by lia. rewrite andb_false_r.
    cbn [andb]. lia.
Qed.

(** Characters that are lower-case hexadecimal digits. *)
Definition xdigit (c : Z) : Prop := exists d, 0 <= d < 16 /\ c = hexdig d.

Lemma xdigit_range c : xdigit c -> 48 <= c <= 57 \/ 97 <= c <= 102.
Proof. intros (d & Hd & ->). unfold hexdig. destruct (Z.ltb_spec d 10); lia. Qed.

Lemma digits_val_snoc acc s c : Forall xdigit s -> xdigit c ->
  digits_val 16 acc (s ++ [c]) = digits_val 16 acc s * 16 + digit_of c.
Proof.
  intros Hs (d & Hd & ->). revert acc; induction Hs as [|x s (e & He & ->) _ IH]; intros acc; cbn [app digits_val].
  - by rewrite digit_hexdig, (proj2 (Z.ltb_lt _ _)) by lia.
  - rewrite digit_hexdig, (proj2 (Z.ltb_lt _ _)) by lia. apply IH.
Qed.

Lemma hex_digits_spec f n : 0 <= n < 16 ^ (Z.of_nat f + 1) ->
  Forall xdigit (hex_digits f hexdig n) /\ digits_val 16 0 (hex_digits f hexdig n) = n /\
  (1 <= length (hex_digits f hexdig n))%nat /\
  forall k, (1 <= k)%nat -> n < 16 ^ Z.of_nat k -> (length (hex_digits f hexdig n) <= k)%nat.
Proof.
  revert n; induction f as [|f IH]; intros n Hn; cbn [hex_digits].
  - change (16 ^ (Z.of_nat 0 + 1)) with 16 in Hn. rewrite Z.mod_small by lia.
    split_and!; [apply Forall_singleton; exists n; split; [lia|done]| |cbn; lia|intros; cbn; lia].
    cbn [digits_val]. by rewrite digit_hexdig, (proj2 (Z.ltb_lt _ _)) by lia.
  - destruct (Z.ltb_spec n 16).
    + split_and!; [apply Forall_singleton; exists n; split; [lia|done]| |cbn; lia|intros; cbn; lia].
      cbn [digits_val]. by rewrite digit_hexdig, (proj2 (Z.ltb_lt _ _)) by lia.
    + assert (0 <= n / 16 < 16 ^ (Z.of_nat f + 1)) as Hd.
      { split; [apply Z.div_pos; lia|]. apply Z.div_lt_upper_bound; [lia|].
        rewrite <- Z.pow_succ_r by lia.
        replace (Z.succ (Z.of_nat f + 1)) with (Z.of_nat (S f) + 1) by lia. lia. }
      destruct (IH _ Hd) as (F & V & L & K).
      pose proof (Z.mod_pos_bound n 16 ltac:(lia)) as Hm.
      assert (xdigit (hexdig (n mod 16))) as Hx by (by eexists).
      split_and!.
      * apply Forall_app. split; [done|]. by constructor.
      * rewrite digits_val_snoc, V, digit_hexdig by done. pose proof (Z.div_mod n 16). lia.
      * rewrite length_app. cbn. lia.
      * intros k Hk Hlt. rewrite length_app. cbn [length]. destruct k as [|[|k]]; [lia|cbn in Hlt; lia|].
        assert (length (hex_digits f hexdig (n / 16)) <= S k)%nat; [|lia]. apply K; [lia|].
        apply Z.div_lt_upper_bound; [lia|]. rewrite <- Z.pow_succ_r by lia.
        replace (Z.succ (Z.of_nat (S k))) with (Z.of_nat (S (S k))) by lia. lia.
Qed.

(** ["0x%x"] *)
Definition addr_text (a : Z) : list Z := codes "0x" ++ fmt_x hexdig 0 a.

Lemma addr_text_spec a : 0 <= a < 2 ^ 64 -> exists ds, addr_text a = codes "0x" ++ ds /\ Forall xdigit ds /\
  digits_val 16 0 ds = a /\ (1 <= length ds)%nat /\
  forall k, (1 <= k)%nat -> a < 16 ^ Z.of_nat k -> (length ds <= k)%nat.
Proof.
  intros H. destruct (hex_digits_spec 16 a) as (F & V & L & K).
  { split; [lia|]. apply Z.lt_trans with (2 ^ 64); [lia|by vm_compute]. }
  eexists. split; [|split_and!; [exact F|exact V|exact L|exact K]]. unfold addr_text, fmt_x. done.
Qed.

Lemma strtol_text ds : Forall xdigit ds -> (1 <= length ds)%nat -> 0 <= digits_val 16 0 ds < 2 ^ 63 ->
  strtol (codes "0x" ++ ds) = digits_val 16 0 ds.
Proof.
  intros F L V. destruct ds as [|c ds]; [cbn in L; lia|].
  change (strtol (codes "0x" ++ c :: ds)) with
    (clamp_long (if ((120 =? 120) || (120 =? 88)) && (digit_of c <? 16) then digits_val 16 0 (c :: ds)
     else digits_val 8 0 (48 :: 120 :: c :: ds))).
  apply Forall_cons in F as [(d & Hd & ->) _]. rewrite digit_hexdig, (proj2 (Z.ltb_lt d 16)) by lia.
  cbn [orb andb Z.eqb Pos.eqb]. unfold clamp_long. lia.
Qed.

Lemma digits_val_range ds : Forall xdigit ds -> 0 <= digits_val 16 0 ds < 16 ^ Z.of_nat (length ds).
Proof.
  induction ds as [|c ds IH] using rev_ind; intros F; [by vm_compute|].
  apply Forall_app in F as [F Fc]. apply Forall_inv in Fc. rewrite digits_val_snoc by done.
  destruct Fc as (d & Hd & ->). rewrite digit_hexdig by done. specialize (IH F). rewrite length_app. cbn [length].
  rewrite Nat2Z.inj_add, Z.pow_add_r by lia. change (16 ^ Z.of_nat 1) with 16. lia.
Qed.

(** An address of the RAM as text: its digits. *)
Record ram_text (a : Z) (ds : list Z) : Prop := mkRamText {
  rt_digits : Forall xdigit ds;
  rt_val : digits_val 16 0 ds = a;
  rt_range : 0 <= a <= RAM_MAX_ADDR;
  rt_len : (1 <= length ds <= 5)%nat
}.

Lemma addr_text_ram a : 0 <= a <= RAM_MAX_ADDR -> exists ds, addr_text a = codes "0x" ++ ds /\ ram_text a ds.
Proof.
  intros H. unfold RAM_MAX_ADDR in H. destruct (addr_text_spec a) as (ds & E & F & V & L & K); [lia|].
  exists ds. split; [done|]. split; try done. split; [done|]. apply K; [lia|]. change (16 ^ Z.of_nat 5) with 1048576. lia.
Qed.

Lemma addr_text_mono a b da db : ram_text a da -> ram_text b db -> addr_text a = codes "0x" ++ da ->
  a <= b -> (length da <= length db)%nat.
Proof.
  intros [] [] E Hab. unfold RAM_MAX_ADDR in *.
  destruct (addr_text_spec a) as (ds & E' & _ & _ & _ & K); [lia|]. rewrite E in E'. apply app_inv_head in E'. subst ds.
  apply K; [lia|]. pose proof (digits_val_range db rt_digits1). lia.
Qed.

Lemma text_without c ds : Forall xdigit ds -> c = NUL \/ c = COMMA \/ c = DASH ->
  forallb (fun x => negb (x =? c)) (codes "0x" ++ ds) = true.
Proof.
  intros F Hc. rewrite forallb_app. apply andb_true_intro. split.
  - destruct Hc as [-> | [-> | ->]]; by vm_compute.
  - apply forallb_forall. intros x Hx. apply list_elem_of_In in Hx. rewrite Forall_forall in F.
    apply negb_true_iff, Z.eqb_neq. pose proof (xdigit_range x (F x Hx)). unfold NUL, COMMA, DASH in Hc. lia.
Qed.

Lemma text_int a ds r : ram_text a ds -> (forall x, r = x :: tail r -> x = NUL) -> r <> [] ->
  buf_int (codes "0x" ++ ds ++ r) = Ok a.
Proof.
  intros [] Hr Hn. destruct r as [|x r]; [done|]. rewrite (Hr x eq_refl). unfold buf_int, c_str.
  rewrite app_assoc, strchr_app by (apply text_without; auto). change (strchr (NUL :: r) NUL) with (Some 0%nat).
  cbn [fmap option_fmap option_map]. rewrite Nat.add_0_r, take_app_length, strtol_text; [|done|lia|].
  - rewrite rt_val0. f_equal. apply i32_id. unfold RAM_MAX_ADDR in *. lia.
  - rewrite rt_val0. unfold RAM_MAX_ADDR in *. lia.
Qed.

(** Whatever is behind the copy, the test gives an answer; with a NUL there it
    accepts every address of the RAM. *)
Lemma addrmatch_answers stack s n : (0 < n)%nat -> exists b, addrmatch stack s n = Ok b.
Proof.
  intros Hn. unfold addrmatch. destruct n; [lia|]. cbn [Nat.eqb]. destruct (_ <? _)%nat; [by eexists|].
  destruct (negb _); by eexists.
Qed.

Lemma addrmatch_text stack a ds r : ram_text a ds -> stack ((codes "0x" ++ ds) ++ r) = [] ->
  addrmatch stack ((codes "0x" ++ ds) ++ r) (2 + length ds) = Ok true.
Proof.
  intros [] Hs. unfold addrmatch. rewrite Hs. change (2 + length ds =? 0)%nat with false. cbn match.
  change (2 + length ds)%nat with (length (codes "0x" ++ ds)). rewrite take_app_length, app_nil_r.
  rewrite (proj2 (Nat.ltb_ge _ _)) by (cbn; lia). cbn match.
  change (drop 2 (codes "0x" ++ ds)) with ds.
  assert (forallb is_hex_digit ds = true) as ->.
  { apply forallb_forall. intros x Hx. apply list_elem_of_In in Hx. rewrite Forall_forall in rt_digits0.
    pose proof (xdigit_range x (rt_digits0 x Hx)). unfold is_hex_digit. lia. }
  cbn [negb]. rewrite strtol_text, rt_val0 by (rewrite ?rt_val0; unfold RAM_MAX_ADDR in *; (done || lia)).
  rewrite i32_id by (unfold RAM_MAX_ADDR in *; lia). f_equal. unfold RAM_BASE_ADDR, RAM_MAX_ADDR, DDR_BASE_ADDR, DDR_MAX_ADDR in *.
  lia.
Qed.

(** ** One item *)

(** A list of one item [s] of at most 21 characters. *)
Definition one_item (s : list Z) : mem_list :=
  (s ++ drop (length s) (codes "NA" ++ replicate 20 0)) :: (codes "NA" ++ replicate 20 0) :: replicate 98 (replicate 22 0).

Lemma parse_one_item stack s b : item_ok stack s (length s) = Ok b -> take 2 s = codes "0x" -> (length s <= 21)%nat ->
  forallb (fun x => negb (x =? COMMA)) s = true ->
  qemu_str_to_memtrace_list stack s mem_list_init = if b then Ok (one_item s) else Exit (-1) (INVALID ++ mem_usage).
Proof.
  intros Hok H2 Hl Hc. unfold qemu_str_to_memtrace_list. cbn [memtrace_loop].
  assert (item_end s = length s) as En by (rewrite <- (app_nil_r s) at 1; apply item_end_app; [done|by left]).
  assert (forall k, eqs (take 2 k) (codes "0x") = false -> regmatch s (length s) k = false) as Hr.
  { intros k Hk. rewrite <- (app_nil_r s) at 1. rewrite regmatch_app. apply bool_decide_eq_false. intros ->.
    unfold eqs in Hk. by rewrite H2 in Hk. }
  rewrite En, !Hr, Hok by done. cbn [obind]. destruct b; [|done]. cbn [negb]. rewrite drop_all.
  unfold put_item, mem_list_init, strncpy. cbn [lookup list_lookup].
  rewrite (proj2 (Nat.leb_le _ _)) by (cbn; lia). cbn [obind insert list_insert]. rewrite firstn_all. done.
Qed.

Lemma one_item_str s : (length s <= 21)%nat -> (2 <= length s)%nat -> forallb (fun x => negb (x =? NUL)) s = true ->
  c_str (s ++ drop (length s) (codes "NA" ++ replicate 20 0)) = Some s.
Proof.
  intros Hl H2 Hn. rewrite drop_app_ge by done. rewrite drop_replicate. unfold c_str.
  rewrite strchr_app by done. destruct (20 - (length s - length (codes "NA")))%nat as [|k] eqn:Ek; [cbn in Ek; lia|].
  change (strchr (replicate (S k) 0) NUL) with (Some 0%nat). cbn [fmap option_fmap option_map].
  by rewrite Nat.add_0_r, take_app_length.
Qed.

Lemma not_NA s : take 2 s = codes "0x" -> eqs s (codes "NA") = false.
Proof. intros H. apply bool_decide_eq_false. intros ->. done. Qed.

(** What is copied over the start of the buffer [addrstring]. *)
Lemma copy_text a ds old : ram_text a ds -> length old = 10%nat ->
  (forall x, drop (2 + length ds) old = x :: tail (drop (2 + length ds) old) -> x = NUL) ->
  exists buf, strncpy old (codes "0x" ++ ds) (length (codes "0x" ++ ds)) = Ok buf /\ buf_int buf = Ok a /\
    buf = codes "0x" ++ ds ++ drop (2 + length ds) old.
Proof.
  intros Ht Ho Hd. pose proof Ht as []. eexists. unfold strncpy. rewrite (proj2 (Nat.leb_le _ _)) by (cbn; lia).
  split; [reflexivity|]. rewrite firstn_all, <- app_assoc. split; [|done].
  apply text_int; [done|exact Hd|]. intros E. apply (f_equal length) in E. rewrite length_drop in E. cbn in E. lia.
Qed.

Lemma drop_zeros n k x : drop n (replicate k NUL) = x :: tail (drop n (replicate k NUL)) -> x = NUL.
Proof. rewrite drop_replicate. destruct (k - n)%nat; cbn; [done|]. by intros [= <-]. Qed.

(** The item that ends the list. *)
Lemma mem_mask_end t buf addr : mem_mask_loop ((codes "NA" ++ replicate 20 0) :: t) buf addr = Ok false.
Proof. reflexivity. Qed.

(** The two kinds of item. *)
Lemma mem_mask_addr s b t old buf v addr : c_str b = Some s -> eqs s (codes "NA") = false -> strchr s DASH = None ->
  strncpy old s (length s) = Ok buf -> buf_int buf = Ok v ->
  mem_mask_loop (b :: t) old addr = if addr =? u64 v then Ok true else mem_mask_loop t buf addr.
Proof. intros H1 H2 H3 H4 H5. cbn [mem_mask_loop]. rewrite H1, H2, H3, H4. cbn [obind]. by rewrite H5. Qed.

Lemma mem_mask_span s b t old d buf buf' v w addr : c_str b = Some s -> eqs s (codes "NA") = false ->
  strchr s DASH = Some d -> (0 < d)%nat ->
  strncpy old s d = Ok buf -> buf_int buf = Ok v ->
  strncpy buf (drop (S d) s) (length s - d - 1) = Ok buf' -> buf_int buf' = Ok w ->
  mem_mask_loop (b :: t) old addr =
  if (u64 v <=? addr) && (addr <=? u64 w) then Ok true else mem_mask_loop t buf' addr.
Proof.
  intros H1 H2 H3 H4 H5 H6 H7 H8. cbn [mem_mask_loop]. rewrite H1, H2, H3, (proj2 (Nat.ltb_lt _ _) H4), H5.
  cbn [obind]. rewrite H6. cbn [obind]. rewrite H7. cbn [obind]. by rewrite H8.
Qed.

(** An argument of [-memtrace] is refused with a message, or the addresses in
    [P] are traced and no others; it is accepted when a NUL is behind every copy
    the test makes. *)
Definition traces (stack : list Z -> list Z) (s : list Z) (P : Z -> bool) : Prop :=
  exists (ok : bool) t, qemu_str_to_memtrace_list stack s mem_list_init = (if ok then Ok t else Exit (-1) (INVALID ++ mem_usage)) /\
    (forall addr, qemu_mem_mask t addr = Ok (P addr)) /\ ((forall s, stack s = []) -> ok = true).

Lemma traces_item stack s P b : item_ok stack s (length s) = Ok b -> take 2 s = codes "0x" -> (length s <= 21)%nat ->
  forallb (fun x => negb (x =? COMMA)) s = true -> ((forall s, stack s = []) -> b = true) ->
  (forall addr, qemu_mem_mask (one_item s) addr = Ok (P addr)) -> traces stack s P.
Proof. intros H1 H2 H3 H4 H5 H6. exists b, (one_item s). split; [by apply parse_one_item|]. by split. Qed.

Lemma mem_single stack a : 0 <= a <= RAM_MAX_ADDR -> traces stack (addr_text a) (fun addr => addr =? a).
Proof.
  intros H. destruct (addr_text_ram a H) as (ds & -> & Ht). pose proof Ht as [F V R L].
  pose proof (text_without NUL ds F ltac:(auto)) as N0. pose proof (text_without COMMA ds F ltac:(auto)) as N1.
  pose proof (text_without DASH ds F ltac:(auto)) as N2.
  assert (strchr (codes "0x" ++ ds) DASH = None) as Ed.
  { rewrite <- (app_nil_r (codes "0x" ++ ds)). by rewrite strchr_app. }
  destruct (addrmatch_answers stack (codes "0x" ++ ds) (length (codes "0x" ++ ds))) as (ok & Eok); [cbn; lia|].
  apply (traces_item stack _ _ ok); [|done|cbn; lia|done| |].
  { unfold item_ok. change (eqs (take 2 (codes "0x" ++ ds)) (codes "0x")) with true. cbn match. by rewrite Ed. }
  { intros Hs. pose proof (addrmatch_text stack a ds [] Ht (Hs _)) as E. rewrite app_nil_r in E.
    change (2 + length ds)%nat with (length (codes "0x" ++ ds)) in E. congruence. }
  intros addr. destruct (copy_text a ds (replicate 10 0) Ht) as (buf & E1 & E2 & _); [done|apply drop_zeros|].
  unfold qemu_mem_mask, one_item.
  rewrite (mem_mask_addr (codes "0x" ++ ds) _ _ _ buf a), mem_mask_end
    by (done || (by apply not_NA) || (apply one_item_str; [cbn; lia|cbn; lia|done])).
  rewrite u64_id by (unfold is_u64, RAM_MAX_ADDR in *; lia). by destruct (addr =? a).
Qed.

(** A range; its two ends are written without leading zeros. *)
Lemma mem_range stack a b : 0 <= a <= b -> b <= RAM_MAX_ADDR ->
  traces stack (addr_text a ++ DASH :: addr_text b) (fun addr => (a <=? addr) && (addr <=? b)).
Proof.
  intros Hab Hb. destruct (addr_text_ram a ltac:(lia)) as (da & Ea & Ha). destruct (addr_text_ram b ltac:(lia)) as (db & Eb & Hb').
  pose proof (addr_text_mono a b da db Ha Hb' Ea ltac:(lia)) as Hlen. rewrite Ea, Eb. clear Ea Eb.
  pose proof Ha as [F V R L]. pose proof Hb' as [F' V' R' L'].
  set (sa := codes "0x" ++ da). set (sb := codes "0x" ++ db).
  assert (strchr (sa ++ DASH :: sb) DASH = Some (length sa)) as Ed.
  { rewrite strchr_app by (apply text_without; auto). change (strchr (DASH :: sb) DASH) with (Some 0%nat).
    cbn [fmap option_fmap option_map]. by rewrite Nat.add_0_r. }
  assert (drop (S (length sa)) (sa ++ DASH :: sb) = sb) as Edr.
  { rewrite drop_app_ge by lia. by replace (S (length sa) - length sa)%nat with 1%nat by lia. }
  assert (length (sa ++ DASH :: sb) - length sa - 1 = length sb)%nat as El.
  { rewrite length_app. cbn [length]. lia. }
  assert (forall c, c = NUL \/ c = COMMA -> forallb (fun x => negb (x =? c)) (sa ++ DASH :: sb) = true) as Hno.
  { intros c Hc. rewrite forallb_app. cbn [forallb]. unfold sa, sb.
    rewrite (text_without c da), (text_without c db) by (done || tauto). destruct Hc as [-> | ->]; done. }
  destruct (addrmatch_answers stack (sa ++ DASH :: sb) (length sa)) as (ok1 & E1); [cbn; lia|].
  destruct (addrmatch_answers stack sb (length sb)) as (ok2 & E2); [cbn; lia|].
  apply (traces_item stack _ _ (ok1 && ok2)); [|done|rewrite length_app; cbn; lia|apply Hno; by right| |].
  { unfold item_ok. change (eqs (take 2 (sa ++ DASH :: sb)) (codes "0x")) with true. cbn match. rewrite Ed, Edr, El.
    rewrite (proj2 (Nat.ltb_lt _ _)) by (rewrite length_app; cbn; lia). cbn [andb].
    change (0 <? length sa)%nat with true. cbn match. rewrite E1. cbn [obind]. by destruct ok1. }
  { intros Hs. pose proof (addrmatch_text stack a da (DASH :: sb) Ha (Hs _)) as T1.
    pose proof (addrmatch_text stack b db [] Hb' (Hs _)) as T2. rewrite app_nil_r in T2.
    change (addrmatch stack (sa ++ DASH :: sb) (length sa) = Ok true) in T1.
    change (addrmatch stack sb (length sb) = Ok true) in T2. rewrite T1 in E1. rewrite T2 in E2.
    injection E1 as <-. by injection E2 as <-. }
  clear E1 E2.
  intros addr.
  assert (strncpy (replicate 10 0) (sa ++ DASH :: sb) (length sa) = strncpy (replicate 10 0) sa (length sa)) as Ec.
  { unfold strncpy. by rewrite take_app_length, firstn_all. }
  destruct (copy_text a da (replicate 10 0) Ha) as (buf & E1 & E2 & Eb); [done|apply drop_zeros|].
  destruct (copy_text b db buf Hb') as (buf' & E3 & E4 & _).
  { rewrite Eb, !length_app, length_drop. cbn. lia. }
  { rewrite Eb, app_assoc, drop_app_ge by (rewrite length_app; cbn; lia). rewrite drop_drop. apply drop_zeros. }
  unfold qemu_mem_mask, one_item.
  rewrite (mem_mask_span (sa ++ DASH :: sb) _ _ _ (length sa) buf buf' a b), mem_mask_end.
  - rewrite !u64_id by (unfold is_u64, RAM_MAX_ADDR in *; lia). by destruct (_ && _).
  - apply one_item_str; [rewrite length_app; cbn; lia|rewrite length_app; cbn; lia|apply Hno; by left].
  - by apply not_NA.
  - done.
  - cbn. lia.
  - by rewrite Ec.
  - done.
  - by rewrite Edr, El.
  - done.
Qed.

(** Five characters behind the array are enough to have an address refused. *)
Lemma address_refused :
  qemu_str_to_memtrace_list (fun _ => codes "abcde") (codes "0x1000") mem_list_init = Exit (-1) (INVALID ++ mem_usage).
Proof. vm_compute. reflexivity. Qed.

(** ** The options *)

(** The compact tracer is never on together with the others. *)
Definition exclusive (s : trace_opts) : Prop := opt_ctracer s = true -> opt_tracer s = false /\ opt_regtracer s = false.

Lemma parse_option_exclusive stack o s s' : o <> Opt_tick -> parse_option stack o s = Ok s' -> exclusive s -> exclusive s'.
Proof.
  unfold exclusive. destruct s as [tr ct rt mt tk rl ml]. intros Ho H He. destruct o; cbn [parse_option] in H; try done.
  - injection H as <-. cbn. by destruct ct.
  - destruct tr, rt; injection H as <-; cbn in *; auto.
  - apply obind_ok in H as (l & _ & H). destruct (_ =? _)%nat; [done|]. injection H as <-. cbn. by destruct ct.
  - apply obind_ok in H as (t & _ & H). destruct t; [done|]. destruct (bool_decide _); [done|]. by injection H as <-.
Qed.

Lemma parse_options_exclusive stack l s s' : Forall (fun o => o <> Opt_tick) l -> parse_options stack l s = Ok s' ->
  exclusive s -> exclusive s'.
Proof.
  intros Hl. revert s; induction Hl as [|o l Ho _ IH]; intros s H He; cbn [parse_options] in H; [by injection H as <-|].
  apply obind_ok in H as (s1 & H1 & H). eauto using parse_option_exclusive.
Qed.
