(* ===== verification/Trace.v ===== *)
(** * The register tracer

    [compareState] of [target-ppdl/translate_cpu.c] prints the registers that
    changed since [saveState]; [helper_tracer] of [target-ppdl/op_helper.c]
    calls both before every instruction. *)

From stdpp Require Import base numbers list option strings.
From Stdlib Require Import ZArith Lia.
From S2P Require Import Prelude Words Bignum BignumSpec BignumHeap BignumStr Cpu Arithm ArithmSpec Storage Helpers Keccak Translate Disas TraceFilter TraceFilterSpec.

(** The command line: the tracers in use and the registers selected
    ([qemu_reg_trace_list]). *)
Record trace_cfg := mkCfg {
  use_tracer : bool;
  use_regtracer : bool;
  use_ctracer : bool;
  print_ticks : Z;
  selected : list Z
}.

Definition masked (cfg : trace_cfg) (name : string) (idx : Z) : bool :=
  qemu_reg_mask (use_ctracer cfg) (selected cfg) name idx.

(** ["%016lx"] *)
Definition hex16 (v : Z) : list Z := fmt_x hexdig 16 v.

Definition reg_line (label : list Z) (before after : Z) : list Z :=
  label ++ codes ": " ++ hex16 before ++ codes " -> " ++ hex16 after ++ [10].
Definition c_line (label : list Z) (after : Z) : list Z := label ++ codes " = " ++ hex16 after ++ [10].

(** One [if] of [compareState]: [label] and [clabel] name the register for
    the two tracers. *)
Definition compare_reg (cfg : trace_cfg) (name : string) (idx : Z) (label clabel : list Z) (before after : Z) : list Z :=
  if negb (before =? after) && masked cfg name idx then
    (if use_regtracer cfg then reg_line label before after else []) ++
    (if use_ctracer cfg then c_line clabel after else [])
  else [].

(** [pc] is only shown by the register tracer. *)
Definition compare_pc (cfg : trace_cfg) (before after : Z) : list Z :=
  if negb (before =? after) && masked cfg "pc" (-1) then
    if use_regtracer cfg then reg_line (codes "pc") before after else []
  else [].

Definition compare_array (cfg : trace_cfg) (name : string) (n : nat) (before after : list Z) : list Z :=
  flat_map (fun i =>
    let label := codes name ++ fmt_d 0 (Z.of_nat i) in
    compare_reg cfg name (Z.of_nat i) label label (nth i before 0) (nth i after 0)) (seq 0 n).

(** [i0]: the value of the variable [i] before it is set, which the line for
    [sp] prints. *)
Definition compareState (cfg : trace_cfg) (i0 : Z) (b c : CPUPPDLState) : list Z :=
  let plain name f := compare_reg cfg name (-1) (codes name) (codes name) (f b) (f c) in
  let numbered name f :=
    compare_reg cfg name (-1) (codes name ++ fmt_d 0 2048) (codes name) (f b) (f c) in
  compare_pc cfg (env_pc b) (env_pc c) ++
  plain "cur_addr" cur_addr ++ plain "caller_addr" caller_addr ++ plain "origin_addr" origin_addr ++
  plain "gas_price" gas_price ++ plain "ext_code_size" ext_code_size ++ plain "inp_data_size" inp_data_size ++
  plain "log_ptr" log_ptr ++
  compare_reg cfg "sp" (-1) (codes "sp" ++ fmt_d 0 i0) (codes "sp") (sp b) (sp c) ++
  compare_array cfg "gas_available" 4 (gas_available b) (gas_available c) ++
  compare_array cfg "data_bus" 1024 (data_bus b) (data_bus c) ++
  compare_array cfg "stack_arr" 2048 (stack_arr b) (stack_arr c) ++
  numbered "CoinBase" CoinBase ++ numbered "TimeStamp" TimeStamp ++ numbered "Number" Number ++
  numbered "Difficulty" Difficulty ++ numbered "GasLimit" GasLimit.

(** The static variables and the global [tick]. *)
Record tracer_state := mkTracer { tick : Z; prev_tick : Z; line_tick : Z }.

Definition helper_tracer (cfg : trace_cfg) (i0 : Z) (t : tracer_state) (m : machine)
  : outcome (tracer_state * machine) :=
  if print_ticks cfg =? 0 then
    let m := if use_regtracer cfg || use_ctracer cfg
             then print (compareState cfg i0 (envSaved m) (cpu m)) m else m in
    let m := set_envSaved (saveState (envSaved m) (cpu m)) m in
    if use_tracer cfg || use_ctracer cfg then
      let* (line, m) := PrintDisasmLine (env_pc (cpu m)) (u32 (tick t)) (line_tick t) m in
      let m := if u64 (prev_tick t + 1) <? tick t
               then print (codes "      +" ++ fmt_d 0 (u64 (tick t - prev_tick t - 1)) ++ codes " wait" ++ [10]) m
               else m in
      Ok (mkTracer (u64 (tick t + 1)) (i32 (tick t)) line, m)
    else Ok (mkTracer (u64 (tick t + 1)) (prev_tick t) (line_tick t), m)
  else Ok (mkTracer (u64 (tick t + 1)) (prev_tick t) (line_tick t), m).

Lemma masked_all cfg name i : qemu_str_to_trace_list (codes "all") = Ok (selected cfg) ->
  reg_name name i ∈ reg_names -> masked cfg name i = true.
Proof. rewrite parse_all. intros [= E]. unfold masked. rewrite <- E. apply reg_mask_all. Qed.

(** ** A change is reported exactly when there is something to save *)

Section Report.
Context (cfg : trace_cfg) (i0 : Z).
Context (Hall : forall name i, reg_name name i ∈ reg_names -> masked cfg name i = true).
Context (Hreg : use_regtracer cfg = true).

Lemma reg_line_nonempty label b a : reg_line label b a <> [].
Proof. unfold reg_line. intros H. apply (f_equal length) in H. rewrite !length_app in H. simpl in H. lia. Qed.

Lemma compare_reg_nil name i l1 l2 b a : reg_name name i ∈ reg_names ->
  compare_reg cfg name i l1 l2 b a = [] <-> b = a.
Proof.
  intros Hin. unfold compare_reg. rewrite (Hall _ _ Hin), Hreg, andb_true_r. clear Hin. destruct (Z.eqb_spec b a); cbn [negb]; [done|].
  split; [|done]. intros H. apply app_eq_nil in H as [H _]. by apply reg_line_nonempty in H.
Qed.

Lemma compare_pc_nil b a : compare_pc cfg b a = [] <-> b = a.
Proof.
  unfold compare_pc. rewrite (Hall _ _ (plain_in _ (or_introl eq_refl))), Hreg, andb_true_r. destruct (Z.eqb_spec b a); cbn [negb]; [done|].
  split; [|done]. intros H. by apply reg_line_nonempty in H.
Qed.

Lemma compare_reg_same name i l1 l2 a : compare_reg cfg name i l1 l2 a a = [].
Proof. unfold compare_reg. by rewrite Z.eqb_refl. Qed.

(** The arrays the tracer shows. *)
Definition traced_array (name : string) (n : nat) : Prop :=
  In (name, n) [("gas_available", 4%nat); ("data_bus", 1024%nat); ("stack_arr", 2048%nat)]%string.

Lemma compare_array_nil name n b a : traced_array name n -> length b = n -> length a = n ->
  (compare_array cfg name n b a = [] <-> b = a).
Proof.
  intros Hn Hb Ha. unfold compare_array. split.
  - intros H. apply (nth_ext b a 0 0); [congruence|]. intros i Hi.
    assert (forall (l : list nat) f, flat_map f l = ([] : list Z) -> forall x, In x l -> f x = []) as Hf.
    { induction l as [|x l IH]; intros f Hnil y Hy; [done|]. cbn in Hnil. apply app_eq_nil in Hnil as [H1 H2].
      destruct Hy as [<-|Hy]; [done|by apply (IH f)]. }
    specialize (Hf _ _ H i ltac:(apply in_seq; lia)). cbn beta zeta in Hf. apply compare_reg_nil in Hf; [done|].
    apply (array_in name n); [lia|done].
  - intros ->. assert (forall l : list nat, flat_map (fun i => compare_reg cfg name (Z.of_nat i)
      (codes name ++ fmt_d 0 (Z.of_nat i)) (codes name ++ fmt_d 0 (Z.of_nat i)) (nth i a 0) (nth i a 0)) l = []) as E.
    { induction l as [|x l IH]; [done|]. cbn [flat_map]. by rewrite IH, compare_reg_same. }
    apply E.
Qed.

Lemma app_nil (x y : list Z) : x ++ y = [] <-> x = [] /\ y = [].
Proof. split; [apply app_eq_nil|by intros [-> ->]]. Qed.

Definition traced_sizes (c : CPUPPDLState) : Prop :=
  length (gas_available c) = 4%nat /\ length (data_bus c) = 1024%nat /\ length (stack_arr c) = 2048%nat.

(** The fields [saveState] copies. *)
Lemma saveState_fields b c : saveState b c =
  mkCPU (pc b / 2 ^ 32 * 2 ^ 32 + u32 (env_pc c)) (input_data b) (caller_addr c) (inp_data_size c) (gas_price c)
    (log_ptr c) (cur_addr c) (log_bus b) (origin_addr c) (ext_code_size c) (stack_arr c) (counter b) (mem_size b)
    (sp c) (GasLimit c) (Number c) (is_pc_const_changed b) (Difficulty c) (gas_available c) (TimeStamp c)
    (CoinBase c) (data_bus c) (is_pc_within_inst b) (elfSize b) (sr b) (eear b).
Proof. reflexivity. Qed.

Lemma pc_saved p q : p / 2 ^ 32 * 2 ^ 32 + u32 (u32 q) = p <-> u32 p = u32 q.
Proof. unfold u32. rewrite Z.mod_mod by lia. pose proof (Z.div_mod p (2 ^ 32)). lia. Qed.

Lemma compareState_nil b c : traced_sizes b -> traced_sizes c ->
  (compareState cfg i0 b c = [] <-> saveState b c = b).
Proof.
  intros (B1 & B2 & B3) (C1 & C2 & C3). unfold compareState. cbn zeta.
  rewrite !app_nil, !compare_reg_nil, compare_pc_nil, !compare_array_nil
    by first [assumption | apply plain_in; cbn [In]; tauto | unfold traced_array; cbn [In]; tauto].
  rewrite saveState_fields. unfold env_pc. rewrite <- pc_saved. split.
  - intros (-> & E1 & E2 & E3 & E4 & E5 & E6 & E7 & E8 & E9 & E10 & E11 & E12 & E13 & E14 & E15 & E16).
    rewrite <- E1, <- E2, <- E3, <- E4, <- E5, <- E6, <- E7, <- E8, <- E9, <- E10, <- E11, <- E12, <- E13,
      <- E14, <- E15, <- E16. by destruct b.
  - intros E. split_and!; [exact (f_equal pc E)|symmetry..].
    1: exact (f_equal cur_addr E). 1: exact (f_equal caller_addr E). 1: exact (f_equal origin_addr E).
    1: exact (f_equal gas_price E). 1: exact (f_equal ext_code_size E). 1: exact (f_equal inp_data_size E).
    1: exact (f_equal log_ptr E). 1: exact (f_equal sp E). 1: exact (f_equal gas_available E).
    1: exact (f_equal data_bus E). 1: exact (f_equal stack_arr E). 1: exact (f_equal CoinBase E).
    1: exact (f_equal TimeStamp E). 1: exact (f_equal Number E). 1: exact (f_equal Difficulty E).
    exact (f_equal GasLimit E).
Qed.

(** Saving is idempotent: a second comparison reports nothing. *)
Lemma saveState_idem b c : saveState (saveState b c) c = saveState b c.
Proof.
  rewrite !saveState_fields. f_equal. cbn [pc].
  unfold env_pc, u32. rewrite Z.mod_mod by lia. pose proof (Z.mod_pos_bound (pc c) (2 ^ 32)).
  rewrite Z.div_add_l, (Z.div_small (_ mod _)) by lia. lia.
Qed.
End Report.
