(* ===== verification/TranslateSpec.v ===== *)
(** * What translated code does

    The instructions leave the program counter, the flag
    [is_pc_const_changed], the global [changed_pc] and the guest's memory
    alone, apart from PUSH and JUMP; from this a translation block without
    JUMP is the sequential execution of its instructions. *)

From stdpp Require Import base numbers list option strings.
From Stdlib Require Import ZArith Lia.
From S2P Require Import Prelude Words Bignum BignumSpec BignumHeap BignumStr Cpu Arithm ArithmSpec Storage Helpers HelpersSpec MemSpec PushSpec Keccak KeccakSpec Translate.

(** ** The part of the state control flow depends on *)

Record keeps (m m' : machine) : Prop := mkKeeps {
  keeps_pc : pc (cpu m') = pc (cpu m);
  keeps_const : is_pc_const_changed (cpu m') = is_pc_const_changed (cpu m);
  keeps_changed : changed_pc m' = changed_pc m;
  keeps_ram : ram m' = ram m
}.

#[export] Instance keeps_preorder : PreOrder keeps.
Proof.
  split; [by intros m|]. intros a b c [] []. split; congruence.
Qed.

Create HintDb flow.
#[export] Hint Extern 1 (keeps ?m ?m) => reflexivity : flow.

Lemma keeps_cpu f m :
  (forall c, pc (f c) = pc c /\ is_pc_const_changed (f c) = is_pc_const_changed c) ->
  keeps m (with_cpu f m).
Proof. intros H. destruct (H (cpu m)). by split. Qed.

Lemma keeps_bn h m : keeps m (set_bn h m).
Proof. by split. Qed.
Lemma keeps_print s m : keeps m (print s m).
Proof. by split. Qed.
Lemma keeps_storage s m : keeps m (set_storage s m).
Proof. by split. Qed.
#[export] Hint Resolve keeps_bn keeps_print keeps_storage : flow.
#[export] Hint Extern 2 (keeps ?m (with_cpu _ ?m)) => (apply keeps_cpu; by intros []) : flow.

(** [flow] walks through a computation that ended normally; each step either
    changes nothing of interest in place or is one the hints know of. *)
Lemma Ok_inj {A} (x y : A) : Ok x = Ok y -> x = y.
Proof. congruence. Qed.

Ltac inv_ok :=
  repeat match goal with
  | H : obind ?x _ = Ok _ |- _ =>
      let E := fresh "E" in let a := fresh "a" in apply obind_ok in H; destruct H as (a & E & H)
  | H : Ok _ = Ok _ |- _ => apply Ok_inj in H
  | H : (_, _) = (_, _) |- _ => apply pair_equal_spec in H; destruct H
  | H : _ = ?m' |- _ => is_var m'; subst m'
  | H : (let '(_, _) := ?p in _) = Ok _ |- _ => destruct p
  | H : Undef = Ok _ |- _ => discriminate H
  | H : Raise _ = Ok _ |- _ => discriminate H
  | H : Exit _ _ = Ok _ |- _ => discriminate H
  | H : (if ?b then _ else _) = Ok _ |- _ => destruct b
  end.

Ltac keeps_chain :=
  repeat match goal with
  | |- keeps ?m ?m => reflexivity
  | |- keeps ?m (with_cpu ?f ?m') => transitivity m'; [|apply keeps_cpu; by intros []]
  | |- keeps ?m (set_bn ?f ?m') => transitivity m'; [|apply keeps_bn]
  | |- keeps ?m (set_storage ?f ?m') => transitivity m'; [|apply keeps_storage]
  | |- keeps ?m (print ?f ?m') => transitivity m'; [|apply keeps_print]
  | H : keeps ?m' ?m'' |- keeps ?m ?m'' => transitivity m'; [|exact H]
  end.

Lemma load_reg_keeps reg m a m' : load_reg reg m = Ok (a, m') -> keeps m m'.
Proof. intros H. unfold load_reg in H. inv_ok. keeps_chain. Qed.

Lemma UseGas_keeps v m m' : UseGas v m = Ok m' -> keeps m m'.
Proof.
  intros H. unfold UseGas, helper_error_message in H. inv_ok;
    match goal with E : load_reg _ _ = _ |- _ => apply load_reg_keeps in E end; keeps_chain.
Qed.

Lemma stack_set_keeps i v m m' : stack_set i v m = Ok m' -> keeps m m'.
Proof. intros H. unfold stack_set in H. inv_ok. keeps_chain. Qed.
Lemma stack_arr_set_keeps i v m m' : stack_arr_set i v m = Ok m' -> keeps m m'.
Proof. intros H. unfold stack_arr_set in H. inv_ok. keeps_chain. Qed.
Lemma data_bus_set_keeps i v m m' : data_bus_set i v m = Ok m' -> keeps m m'.
Proof. intros H. unfold data_bus_set in H. inv_ok. keeps_chain. Qed.

Ltac use_keeps :=
  repeat match goal with
  | E : load_reg _ _ = Ok _ |- _ => apply load_reg_keeps in E
  | E : UseGas _ _ = Ok _ |- _ => apply UseGas_keeps in E
  | E : USEGAS _ _ = Ok _ |- _ => apply UseGas_keeps in E
  | E : stack_set _ _ _ = Ok _ |- _ => apply stack_set_keeps in E
  | E : stack_arr_set _ _ _ = Ok _ |- _ => apply stack_arr_set_keeps in E
  | E : data_bus_set _ _ _ = Ok _ |- _ => apply data_bus_set_keeps in E
  end.
Ltac flow := inv_ok; use_keeps; unfold move_sp in *; keeps_chain.

Lemma push4_keeps a b c d m m' : push4 a b c d m = Ok m' -> keeps m m'.
Proof. intros H. unfold push4 in H. flow. Qed.
Lemma PushSingle_keeps v m m' : PushSingleBlockToStack v m = Ok m' -> keeps m m'.
Proof. apply push4_keeps. Qed.
Lemma GetSingle_keeps m v m' : GetSingleBlockFromStack m = Ok (v, m') -> keeps m m'.
Proof. intros H. unfold GetSingleBlockFromStack in H. flow. Qed.

Ltac use_keeps ::=
  repeat match goal with
  | E : load_reg _ _ = Ok _ |- _ => apply load_reg_keeps in E
  | E : UseGas _ _ = Ok _ |- _ => apply UseGas_keeps in E
  | E : USEGAS _ _ = Ok _ |- _ => apply UseGas_keeps in E
  | E : stack_set _ _ _ = Ok _ |- _ => apply stack_set_keeps in E
  | E : stack_arr_set _ _ _ = Ok _ |- _ => apply stack_arr_set_keeps in E
  | E : data_bus_set _ _ _ = Ok _ |- _ => apply data_bus_set_keeps in E
  | E : push4 _ _ _ _ _ = Ok _ |- _ => apply push4_keeps in E
  | E : PushSingleBlockToStack _ _ = Ok _ |- _ => apply PushSingle_keeps in E
  | E : GetSingleBlockFromStack _ = Ok _ |- _ => apply GetSingle_keeps in E
  end.

Lemma put_result_keeps i a m m' : put_result i a m = Ok m' -> keeps m m'.
Proof. intros H. unfold put_result in H. flow. Qed.

Lemma arithm_args_keeps o s m r m' : arithm_args o s m = Ok (r, m') -> keeps m m'.
Proof. intros H. unfold arithm_args in H. flow. Qed.

Lemma compare_args_keeps o s m r m' : compare_args o s m = Ok (r, m') -> keeps m m'.
Proof. intros H. unfold compare_args in H. flow. Qed.

Lemma arithm_op_keeps o a b c w m r m' : arithm_op o a b c w m = Ok (r, m') -> keeps m m'.
Proof.
  intros H. unfold arithm_op, lift_heap, helper_error_message in H.
  destruct o as [|p|p]; [flow| |flow].
  do 4 (destruct p as [p|p|]; try solve [flow]).
Qed.

Lemma DoArithm_keeps o m m' : DoArithm o m = Ok m' -> keeps m m'.
Proof.
  intros H. unfold DoArithm in H. inv_ok. apply arithm_args_keeps in E.
  apply arithm_op_keeps in E0. apply put_result_keeps in H. keeps_chain.
Qed.

Lemma DoCompare_keeps o m m' : DoCompare o m = Ok m' -> keeps m m'.
Proof.
  intros H. unfold DoCompare in H. inv_ok; apply compare_args_keeps in E; apply put_result_keeps in H;
  [|flow].
  all: flow.
Qed.

Lemma SaveToStorage_keeps a m m' : SaveToStorage a m = Ok m' -> keeps m m'.
Proof.
  intros H. unfold SaveToStorage in H. inv_ok.
  destruct (mainStorage _) in H; inv_ok. keeps_chain.
Qed.
Lemma LoadFromStorage_keeps a m m' : LoadFromStorage a m = Ok m' -> keeps m m'.
Proof.
  intros H. unfold LoadFromStorage in H. destruct (find_node _ _) in H; inv_ok. keeps_chain.
Qed.
Lemma result_message_not_ok m m' : result_message m <> Ok m'.
Proof. intros H. unfold result_message, exit in H. inv_ok. Qed.
Lemma StopExec_not_ok m m' : StopExec m <> Ok m'.
Proof. intros H. unfold StopExec in H. inv_ok. by apply result_message_not_ok in E. Qed.

Lemma mstore_word_keeps n i w a m m' : mstore_word n i w a m = Ok m' -> keeps m m'.
Proof.
  revert i a m; induction n as [|n IH]; intros i a m H; cbn [mstore_word] in H; inv_ok; [reflexivity|].
  apply IH in H. flow.
Qed.
Lemma if_keeps (b : bool) f m m' :
  (forall c, pc (f c) = pc c /\ is_pc_const_changed (f c) = is_pc_const_changed c) ->
  (if b then Ok (with_cpu f m) else Ok m) = Ok m' -> keeps m m'.
Proof. intros Hf H. destruct b; inv_ok; [by apply keeps_cpu|reflexivity]. Qed.

Lemma MStoreInst_keeps a m m' : MStoreInst a m = Ok m' -> keeps m m'.
Proof.
  intros H. unfold MStoreInst in H. inv_ok;
  repeat match goal with E : mstore_word _ _ _ _ _ = _ |- _ => apply mstore_word_keeps in E end; flow.
Qed.
Lemma MloadInst_keeps a m m' : MloadInst a m = Ok m' -> keeps m m'.
Proof. intros H. unfold MloadInst in H. flow. Qed.
Lemma DupOp_keeps a m m' : DupOp a m = Ok m' -> keeps m m'.
Proof. intros H. unfold DupOp in H. flow. Qed.
Lemma swap_round_keeps c i f m m' : swap_round c i f m = Ok m' -> keeps m m'.
Proof. intros H. unfold swap_round in H. flow. Qed.
Lemma SwapOp_keeps a m m' : SwapOp a m = Ok m' -> keeps m m'.
Proof.
  intros H. unfold SwapOp in H. inv_ok.
  repeat match goal with E : swap_round _ _ _ _ = _ |- _ => apply swap_round_keeps in E end. flow.
Qed.
Lemma push_blocks_keeps n j c m m' : push_blocks n j c m = Ok m' -> keeps m m'.
Proof.
  revert j m; induction n as [|n IH]; intros j m H; cbn [push_blocks] in H; inv_ok; [reflexivity|].
  apply IH in H. flow.
Qed.
Lemma push_zeros_keeps n j m m' : push_zeros n j m = Ok m' -> keeps m m'.
Proof.
  revert j m; induction n as [|n IH]; intros j m H; cbn [push_zeros] in H; inv_ok; try reflexivity.
  apply IH in H. flow.
Qed.
Lemma PushInst_keeps c m m' : PushInst c m = Ok m' -> keeps m m'.
Proof.
  intros H. unfold PushInst in H. inv_ok; apply push_blocks_keeps in E; apply push_zeros_keeps in E1; flow.
Qed.
Lemma KeccakAlg_keeps over a b m m' : KeccakAlg over a b m = Ok m' -> keeps m m'.
Proof. intros H. unfold KeccakAlg in H. flow. Qed.
Lemma KeccakAlgStub_keeps over m m' : KeccakAlgStub over m = Ok m' -> keeps m m'.
Proof. intros H. unfold KeccakAlgStub in H. inv_ok. apply KeccakAlg_keeps in H. flow. Qed.

(** Opcode lists: the case analysis on the four-bit operand. *)
Ltac by_opcode o tac :=
  destruct o as [|p|p]; [tac| |tac]; do 4 (destruct p as [p|p|]; try solve [tac]).

Lemma AccountsData_keeps o m m' : AccountsData o m = Ok m' -> keeps m m'.
Proof.
  intros H. unfold AccountsData, GetAddress, GetBalance, GetOrigin, GetCaller, CallValue, GetInputData,
    CallDataSize, CallDataCopy, GetCodeSize, CodeCopy, GetGasPrice, ExtCodeSize, ExtCodeCopy, gas_push in H.
  by_opcode o ltac:(idtac; flow).
Qed.
Lemma BlockChain_keeps o m m' : BlockChain o m = Ok m' -> keeps m m'.
Proof.
  intros H. unfold BlockChain, BlockChainHash, GetCoinBase, GetTimeStamp, GetNumber, GetDifficulty,
    GetGasLimit, gas_push in H.
  by_opcode o ltac:(idtac; flow).
Qed.
Lemma SystemOps_keeps o m m' : SystemOps o m = Ok m' -> keeps m m'.
Proof.
  intros H. unfold SystemOps, CreateAccount, MakeCall, MakeCallCode, DelegateCall in H.
  by_opcode o ltac:(idtac; first [unfold Return in H; inv_ok; by apply StopExec_not_ok in H | flow]).
Qed.

Lemma gen_mstore8_keeps a m m' : gen_mstore8 a m = Ok m' -> keeps m m'.
Proof. intros H. unfold gen_mstore8 in H. flow. Qed.
Lemma gen_gas_keeps m m' : gen_gas m = Ok m' -> keeps m m'.
Proof. intros H. unfold gen_gas in H. flow. Qed.

Lemma gen_mem_op_keeps o m m' : o <> 6 -> gen_mem_op o m = Ok m' -> keeps m m'.
Proof.
  intros Ho H. unfold gen_mem_op, MemOps in H.
  destruct (_ && _) in H; [cbn [obind] in H|discriminate H].
  apply obind_ok in H as ([a m1] & E & H).
  assert (keeps m m1) as K by (destruct (_ && _) in E; flow). clear E.
  etransitivity; [exact K|]. clear K.
  unfold Pop, LoadFromStorageStub, SaveToStorageStub, PcOp, MSizeOp in H.
  by_opcode o ltac:(idtac; first [lia | inv_ok;
    try match goal with
    | H : MloadInst _ _ = _ |- _ => apply MloadInst_keeps in H
    | H : MStoreInst _ _ = _ |- _ => apply MStoreInst_keeps in H
    | H : LoadFromStorage _ _ = _ |- _ => apply LoadFromStorage_keeps in H
    | H : SaveToStorage _ _ = _ |- _ => apply SaveToStorage_keeps in H
    | H : gen_mstore8 _ _ = _ |- _ => apply gen_mstore8_keeps in H
    | H : gen_gas _ = _ |- _ => apply gen_gas_keeps in H
    end; flow]).
Qed.

(** The JUMP opcode. *)
Definition JUMP : Z := 0x56.

Lemma extract_jump insn : has_mask insn 0xf0 0x50 = true -> 0 <= insn < 256 ->
  extract32 insn 0 4 = 6 -> insn = JUMP.
Proof.
  unfold has_mask, extract32. intros H1 Hr H2. apply Z.eqb_eq in H1.
  rewrite Z.shiftr_0_r in H2. rewrite Z.land_ones in H2 by lia.
  assert (insn = Z.land insn 0xf0 + insn mod 2 ^ 4) as ->; [|by rewrite H1, H2].
  change 0xf0 with (Z.shiftl (Z.ones 4) 4). rewrite <- Z.land_ones by lia.
  rewrite Z.add_nocarry_lxor, Z.lxor_lor; try (rewrite <- Z.land_lor_distr_r; change (Z.lor (Z.shiftl (Z.ones 4) 4) (Z.ones 4)) with (Z.ones 8); rewrite Z.land_ones by lia; rewrite Z.mod_small by lia; reflexivity);
  rewrite Z.land_assoc, <- (Z.land_assoc insn), (Z.land_comm _ insn), Z.land_assoc, Z.land_diag, <- Z.land_assoc; apply Z.land_0_r.
Qed.

(** The effect on control flow of every instruction but JUMP. *)
Lemma genBlock_Main_keeps over insn m m' :
  is_u8 insn -> insn <> JUMP -> is_push insn = false ->
  genBlock_Main over insn m = Ok m' -> keeps m m'.
Proof.
  intros Hu Hj Hp H. unfold genBlock_Main in H. rewrite Hp in H.
  repeat match type of H with
  | (if has_mask ?i ?a ?b then _ else _) = _ => destruct (has_mask i a b) eqn:?
  end; unfold ArithmStub, CompareStub in H; inv_ok;
  repeat match goal with
  | H : SystemOps _ _ = _ |- _ => apply SystemOps_keeps in H
  | H : BlockChain _ _ = _ |- _ => apply BlockChain_keeps in H
  | H : AccountsData _ _ = _ |- _ => apply AccountsData_keeps in H
  | H : StopExec _ = Ok _ |- _ => by apply StopExec_not_ok in H
  | H : DupOp _ _ = _ |- _ => apply DupOp_keeps in H
  | H : SwapOp _ _ = _ |- _ => apply SwapOp_keeps in H
  | H : DoArithm _ _ = _ |- _ => apply DoArithm_keeps in H
  | H : DoCompare _ _ = _ |- _ => apply DoCompare_keeps in H
  | H : KeccakAlgStub _ _ = _ |- _ => apply KeccakAlgStub_keeps in H
  | H : gen_mem_op _ _ = _ |- _ => apply gen_mem_op_keeps in H; [|by intros ?; apply Hj, extract_jump]
  end; flow.
Qed.

Lemma genBlock_Main_push over insn m : is_push insn = true ->
  genBlock_Main over insn m = gen_push (extract32 insn 0 5) m.
Proof.
  intros Hp. unfold genBlock_Main. rewrite Hp. unfold is_push, has_mask in *.
  apply Z.eqb_eq in Hp.
  assert (forall mk id, Z.land mk 0xe0 = 0xe0 -> Z.land id 0xe0 <> 0x60 -> (Z.land insn mk =? id) = false) as D.
  { intros mk id Hm Hid. apply Z.eqb_neq. intros E. apply Hid. rewrite <- E, <- Z.land_assoc, Hm. done. }
  rewrite (D 0xff 0xfa), (D 0xff 0xfd), (D 0xff 0xff), (D 0xf0 0xf0), (D 0xf0 0x40), (D 0xf0 0x30) by done.
  done.
Qed.

Lemma gen_push_flow count m m' : gen_push count m = Ok m' ->
  pc (cpu m') = u64 (u64 (pc (cpu m) + count) + 2) /\ is_pc_const_changed (cpu m') = 1 /\
  changed_pc m' = changed_pc m /\ ram m' = ram m.
Proof.
  intros H. unfold gen_push in H. inv_ok. apply UseGas_keeps in E. apply PushInst_keeps in E0.
  destruct E, E0. cbn. repeat split; congruence.
Qed.

(** ** What no instruction changes *)

(** The memory of the guest and the translator's [changed_pc]. *)
Record fixed (m m' : machine) : Prop := mkFixed {
  fixed_changed : changed_pc m' = changed_pc m;
  fixed_ram : ram m' = ram m
}.

#[export] Instance fixed_preorder : PreOrder fixed.
Proof. split; [by intros m|]. intros a b c [] []. split; congruence. Qed.

Lemma keeps_fixed m m' : keeps m m' -> fixed m m'.
Proof. intros []. by split. Qed.

(** JUMP sets [pc] to the popped address, and nothing else of control flow. *)
Lemma genBlock_Main_jump over m m' : genBlock_Main over JUMP m = Ok m' ->
  exists addr m1, keeps m m1 /\ m' = with_cpu (fun c => set_is_pc_within_inst 1 (set_pc addr c)) m1.
Proof.
  intros H. change (genBlock_Main over JUMP m) with (gen_mem_op 6 m) in H. unfold gen_mem_op in H.
  change (MemOps 6) with (Ok 6) in H. cbn [obind] in H.
  change (negb (6 =? 0) && (6 <? 8)) with true in H. cbn match in H.
  apply obind_ok in H as ([a m1] & E & H). apply obind_ok in H as (m2 & E2 & H). inv_ok.
  exists a, m2. split; [|done]. apply UseGas_keeps in E2. apply GetSingle_keeps in E.
  by transitivity m1.
Qed.

Lemma genBlock_Main_fixed over insn m m' : is_u8 insn -> genBlock_Main over insn m = Ok m' -> fixed m m'.
Proof.
  intros Hu H. destruct (decide (insn = JUMP)) as [->|Hj].
  - apply genBlock_Main_jump in H as (a & m1 & [] & ->). by split.
  - destruct (is_push insn) eqn:Hp.
    + rewrite genBlock_Main_push in H by done. apply gen_push_flow in H as (_ & _ & ? & ?). by split.
    + by eapply keeps_fixed, genBlock_Main_keeps.
Qed.

Lemma run_insns_fixed over l m m' : Forall (fun i => is_u8 (ti_insn i)) l -> run_insns over l m = Ok m' -> fixed m m'.
Proof.
  revert m; induction l as [|i l IH]; intros m Hl H; cbn [run_insns] in H; [inv_ok; reflexivity|].
  apply obind_ok in H as (m1 & H1 & H). apply (IH _ (Forall_inv_tail Hl)) in H.
  apply genBlock_Main_fixed in H1; [|apply (Forall_inv Hl)].
  etransitivity; [exact H1|]. etransitivity; [|exact H]. by destruct (ti_add i).
Qed.

Lemma exec_code_fixed over l npc m m' : Forall (fun i => is_u8 (ti_insn i)) l -> exec_code over l npc m = Ok m' -> fixed m m'.
Proof.
  intros Hl H. unfold exec_code in H. apply obind_ok in H as (m1 & H1 & H). inv_ok.
  apply run_insns_fixed in H1; [|done]. etransitivity; [exact H1|]. unfold tb_end. by destruct (_ =? _).
Qed.

Lemma gen_loop_u8 f room e s k r num p c l npc ch :
  gen_loop f room e s k r num p c = Ok (l, npc, ch) -> Forall (fun i => is_u8 (ti_insn i)) l.
Proof.
  revert num p c l; induction f as [|f IH]; intros num p c l H; cbn [gen_loop] in H; [done|].
  apply obind_ok in H as ([insn np] & Hd & H).
  assert (is_u8 insn) as Hi by (unfold disas_ppdl_insn in Hd; inv_ok; auto with cint).
  destruct (np =? e); [|destruct (_ && _)]; [inv_ok; by apply Forall_singleton| |inv_ok; by apply Forall_singleton].
  apply obind_ok in H as ([[l1 pc1] ch1] & Hg & H). inv_ok. constructor; eauto.
Qed.

(** ** Sequential execution *)

(** The reference semantics: fetch the instruction at [pc], perform it, and
    move [pc] past it, which PUSH does by itself. *)
Definition seq_exec (over : list Z) (m : machine) : outcome (Z * machine) :=
  let* (insn, _) := disas_ppdl_insn (pc (cpu m)) (ram m) in
  let* m := genBlock_Main over insn m in Ok (insn, m).

Definition bump (m : machine) : machine := with_cpu (fun c => set_pc (u64 (pc c + 1)) c) m.

Definition seq_step (over : list Z) (m : machine) : outcome machine :=
  let* (insn, m) := seq_exec over m in
  Ok (if is_push insn then m else bump m).

Fixpoint seq_run (over : list Z) (n : nat) (m : machine) : outcome machine :=
  match n with
  | O => Ok m
  | S n' => let* m := seq_step over m in seq_run over n' m
  end.

Lemma disas_insn p r insn npc : disas_ppdl_insn p r = Ok (insn, npc) ->
  is_u8 insn /\ npc = u64 (p + get_ppdl_shift_pc insn).
Proof. intros H. unfold disas_ppdl_insn in H. inv_ok. split; [apply u8_range|done]. Qed.

Lemma shift_pc_range insn : 1 <= get_ppdl_shift_pc insn <= 33.
Proof.
  unfold get_ppdl_shift_pc, extract32. destruct (_ =? _); [|lia].
  rewrite Z.land_ones by lia. pose proof (Z.mod_pos_bound (Z.shiftr insn 0) (2 ^ 5)). lia.
Qed.

Lemma disas_next p r insn npc : disas_ppdl_insn p r = Ok (insn, npc) -> 0 <= p < 2 ^ 33 ->
  p < npc <= p + 33 /\ npc = p + get_ppdl_shift_pc insn.
Proof.
  intros H Hp. apply disas_insn in H as [_ ->]. pose proof (shift_pc_range insn).
  rewrite u64_id by (unfold is_u64; lia). lia.
Qed.

(** One instruction executed at its address, before and after the update of
    [pc]. *)
Lemma exec_flow over m m' insn npc :
  disas_ppdl_insn (pc (cpu m)) (ram m) = Ok (insn, npc) -> 0 <= pc (cpu m) < 2 ^ 33 -> insn <> JUMP ->
  genBlock_Main over insn m = Ok m' ->
  pc (cpu m') = (if is_push insn then npc else pc (cpu m)) /\
  is_pc_const_changed (cpu m') = (if is_push insn then 1 else is_pc_const_changed (cpu m)) /\
  changed_pc m' = changed_pc m /\ ram m' = ram m.
Proof.
  intros Hd Hp Hj H. pose proof (disas_next _ _ _ _ Hd Hp) as [_ Hn]. apply disas_insn in Hd as [Hu _].
  destruct (is_push insn) eqn:E.
  - rewrite genBlock_Main_push in H by done. apply gen_push_flow in H as (Hpc & ? & ? & ?).
    repeat split; try done. rewrite Hpc, Hn. unfold get_ppdl_shift_pc. unfold is_push, has_mask in E. rewrite E.
    unfold extract32. rewrite Z.land_ones by lia. pose proof (Z.mod_pos_bound (Z.shiftr insn 0) (2 ^ 5)).
    rewrite !u64_id by (rewrite ?u64_id; unfold is_u64; lia). lia.
  - by destruct (genBlock_Main_keeps over insn m m').
Qed.

Lemma seq_step_flow over m m' insn npc :
  disas_ppdl_insn (pc (cpu m)) (ram m) = Ok (insn, npc) -> 0 <= pc (cpu m) < 2 ^ 33 -> insn <> JUMP ->
  seq_step over m = Ok m' ->
  pc (cpu m') = npc /\
  is_pc_const_changed (cpu m') = (if is_push insn then 1 else is_pc_const_changed (cpu m)) /\
  changed_pc m' = changed_pc m /\ ram m' = ram m.
Proof.
  intros Hd Hp Hj H. unfold seq_step, seq_exec in H. rewrite Hd in H. cbn [obind] in H. inv_ok.
  pose proof (exec_flow _ _ _ _ _ Hd Hp Hj E0) as F. pose proof (disas_next _ _ _ _ Hd Hp) as Hn.
  destruct (is_push insn) eqn:Ep; [exact F|]. destruct F as (F1 & F2 & F3 & F4).
  repeat split; try done. cbn. rewrite F1.
  unfold get_ppdl_shift_pc in Hn. unfold is_push, has_mask in Ep. rewrite Ep in Hn.
  rewrite u64_id by (unfold is_u64; lia). lia.
Qed.

Definition no_jump (l : list tb_insn) : Prop := Forall (fun i => ti_insn i <> JUMP) l.
Definition has_push (l : list tb_insn) : bool := existsb (fun i => is_push (ti_insn i)) l.
Definition last_push (l : list tb_insn) : bool :=
  match last l with Some i => is_push (ti_insn i) | None => false end.

(** The run of a block from its first address: all instructions in sequence,
    except that the last one is not followed by an update of [pc] when the
    block stops at the end of the program. *)
Definition seq_block (over : list Z) (at_end : bool) (n : nat) (m : machine) : outcome machine :=
  if at_end then
    let* m := seq_run over (n - 1) m in let* (_, m) := seq_exec over m in Ok m
  else seq_run over n m.

Lemma seq_block_cons over e n m : (1 <= n)%nat ->
  seq_block over e (S n) m = let* m := seq_step over m in seq_block over e n m.
Proof.
  intros Hn. destruct e; simpl; [|done]. destruct n as [|n]; [lia|]. simpl.
  rewrite Nat.sub_0_r. destruct (seq_step over m); reflexivity.
Qed.

Lemma gen_loop_nonempty f room e s k r num p c l npc ch :
  gen_loop f room e s k r num p c = Ok (l, npc, ch) -> (1 <= length l)%nat.
Proof. destruct f; intros H; cbn [gen_loop] in H; [done|]. inv_ok; simpl; lia. Qed.

Lemma run_insns_step over insn np l m : disas_ppdl_insn (pc (cpu m)) (ram m) = Ok (insn, np) ->
  run_insns over (mkInsn insn ((if is_push insn then 1 else 0) =? 0) :: l) m =
  let* m := seq_step over m in run_insns over l m.
Proof.
  intros Hd. cbn [run_insns ti_insn ti_add]. unfold seq_step, seq_exec. rewrite Hd. cbn [obind].
  destruct (genBlock_Main over insn m); [|done..]. cbn [obind]. by destruct (is_push insn).
Qed.

Lemma run_insns_last over insn np m : disas_ppdl_insn (pc (cpu m)) (ram m) = Ok (insn, np) ->
  run_insns over [mkInsn insn false] m = let* (_, m) := seq_exec over m in Ok m.
Proof.
  intros Hd. cbn [run_insns ti_insn ti_add]. unfold seq_exec. rewrite Hd. cbn [obind].
  by destruct (genBlock_Main over insn m).
Qed.

Lemma not_push_shift insn : is_push insn = false -> get_ppdl_shift_pc insn = 1.
Proof. unfold is_push, has_mask, get_ppdl_shift_pc. by intros ->. Qed.

Lemma last_push_cons i l : (1 <= length l)%nat -> last_push (i :: l) = last_push l.
Proof. by destruct l; simpl; [lia|]. Qed.

(** Running a translated block is running its instructions in sequence. *)
Lemma gen_loop_seq over f room e s k r num p l npc ch m :
  gen_loop f room e s k r num p 0 = Ok (l, npc, ch) ->
  ram m = r -> pc (cpu m) = p -> 0 <= p < s -> s <= 2 ^ 32 -> no_jump l ->
  run_insns over l m = seq_block over (npc =? e) (length l) m /\
  (forall m', seq_block over (npc =? e) (length l) m = Ok m' ->
    pc (cpu m') = (if (npc =? e) && negb (last_push l) then npc - 1 else npc) /\
    is_pc_const_changed (cpu m') = (if has_push l then 1 else is_pc_const_changed (cpu m))).
Proof.
  revert num p m l; induction f as [|f IH]; intros num p m l H Hr Hpc Hp Hs Hj; cbn [gen_loop] in H; [done|].
  apply obind_ok in H as ([insn np] & Hd & H).
  pose proof (disas_next _ _ _ _ Hd ltac:(lia)) as Hn.
  rewrite <- Hpc, <- Hr in Hd.
  destruct (np =? e) eqn:Ee; [|destruct (_ && _) eqn:Ew].
  - inv_ok. rewrite Ee. pose proof (Forall_inv Hj) as Hi; simpl in Hi.
    rewrite (run_insns_last _ _ _ _ Hd). unfold seq_block. cbn [length Nat.sub seq_run obind].
    split; [done|]. intros m' H. apply obind_ok in H as ([i m1] & H & ?). unfold seq_exec in H.
    rewrite Hd in H. inv_ok. destruct (exec_flow _ _ _ _ _ Hd ltac:(lia) Hi E) as (F1 & F2 & _).
    unfold last_push, has_push; simpl. rewrite F1, F2, orb_false_r.
    destruct (is_push insn) eqn:Ep; simpl; [done|].
    apply not_push_shift in Ep. split; [lia|done].
  - apply obind_ok in H as ([[l1 pc1] ch1] & Hg & H). inv_ok.
    pose proof (Forall_inv Hj) as Hi; pose proof (Forall_inv_tail Hj) as Hj'; simpl in Hi. pose proof (gen_loop_nonempty _ _ _ _ _ _ _ _ _ _ _ _ Hg) as Hl.
    apply andb_prop in Ew as [Ew _]. apply andb_prop in Ew as [_ Ew]. apply Z.ltb_lt in Ew.
    rewrite (run_insns_step _ _ _ _ _ Hd). cbn [length]. rewrite seq_block_cons, last_push_cons by done.
    destruct (seq_step over m) as [m1| | |] eqn:Es; cbn [obind]; try (split; done).
    destruct (seq_step_flow _ _ _ _ _ Hd ltac:(lia) Hi Es) as (F1 & F2 & F3 & F4).
    destruct (IH (S num) np m1 l1 Hg) as [R1 R2]; [done|done|lia|lia|done|].
    split; [done|]. intros m' H. destruct (R2 m' H) as [-> ->]. split; [done|].
    unfold has_push; simpl. rewrite F2. by destruct (is_push insn), (existsb _ l1).
  - inv_ok. rewrite Ee. pose proof (Forall_inv Hj) as Hi; simpl in Hi.
    rewrite (run_insns_step _ _ _ _ _ Hd). cbn [length seq_block seq_run run_insns].
    split; [done|]. intros m' H. apply obind_ok in H as (m1 & H & ?). inv_ok.
    destruct (seq_step_flow _ _ _ _ _ Hd ltac:(lia) Hi H) as (F1 & F2 & _).
    rewrite F1, F2. unfold has_push; simpl. by rewrite orb_false_r.
Qed.

(** In sequence, the instructions of a block lead to the address after it. *)
Lemma gen_loop_next over f room e s k r num p l npc ch m m' :
  gen_loop f room e s k r num p 0 = Ok (l, npc, ch) ->
  ram m = r -> pc (cpu m) = p -> 0 <= p < s -> s <= 2 ^ 32 -> no_jump l ->
  seq_run over (length l) m = Ok m' -> pc (cpu m') = npc /\ changed_pc m' = changed_pc m /\ ram m' = ram m.
Proof.
  revert num p m l; induction f as [|f IH]; intros num p m l H Hr Hpc Hp Hs Hj Hm'; cbn [gen_loop] in H; [done|].
  apply obind_ok in H as ([insn np] & Hd & H).
  pose proof (disas_next _ _ _ _ Hd ltac:(lia)) as Hn. rewrite <- Hpc, <- Hr in Hd.
  destruct (np =? e) eqn:Ee; [|destruct (_ && _) eqn:Ew].
  1, 3: inv_ok; pose proof (Forall_inv Hj) as Hi; simpl in Hi; cbn [length seq_run] in Hm';
    apply obind_ok in Hm' as (m1 & Hm1 & ?); inv_ok;
    destruct (seq_step_flow _ _ _ _ _ Hd ltac:(lia) Hi Hm1) as (F1 & F2 & F3 & F4); done.
  apply obind_ok in H as ([[l1 pc1] ch1] & Hg & H). inv_ok.
  pose proof (Forall_inv Hj) as Hi; pose proof (Forall_inv_tail Hj) as Hj'; simpl in Hi.
  apply andb_prop in Ew as [Ew _]. apply andb_prop in Ew as [_ Ew]. apply Z.ltb_lt in Ew.
  cbn [length seq_run] in Hm'. apply obind_ok in Hm' as (m1 & Hm1 & Hm').
  destruct (seq_step_flow _ _ _ _ _ Hd ltac:(lia) Hi Hm1) as (F1 & F2 & F3 & F4).
  destruct (IH (S num) np m1 l1 Hg F4 F1 ltac:(lia) Hs Hj' Hm') as (-> & -> & ->). done.
Qed.

Lemma seq_run_snoc over n m :
  seq_run over (S n) m = let* m := seq_run over n m in seq_step over m.
Proof.
  revert m; induction n as [|n IH]; intros m.
  - simpl. by destruct (seq_step over m).
  - change (seq_run over (S (S n)) m) with (let* m := seq_step over m in seq_run over (S n) m).
    cbn [seq_run]. destruct (seq_step over m); [apply IH|done..].
Qed.

(** The state a block leaves: [pc] at [p] and the flag cleared. *)
Definition tb_exit (p : Z) (m : machine) : machine :=
  with_cpu (set_is_pc_const_changed 0) (with_cpu (set_pc p) m).

Lemma tb_exit_bump p m : tb_exit p (bump m) = tb_exit p m.
Proof. reflexivity. Qed.
Lemma tb_exit_own p m : pc (cpu m) = p -> tb_exit p m = with_cpu (set_is_pc_const_changed 0) m.
Proof. intros <-. by destruct m as [[]]. Qed.

Lemma tb_end_exit npc m :
  tb_end npc m = tb_exit (if is_pc_const_changed (cpu m) =? 0 then npc else pc (cpu m)) m.
Proof. unfold tb_end. destruct (_ =? _); [done|]. by rewrite tb_exit_own. Qed.

(** A block that stops at the end of the program with an instruction other
    than PUSH after a PUSH does not move past its last instruction. *)
Definition repeats_last (e npc : Z) (l : list tb_insn) : bool :=
  (npc =? e) && has_push l && negb (last_push l).

Lemma page_bounds p : 0 <= p < 2 ^ 32 ->
  0 <= p < page_start p + TARGET_PAGE_SIZE /\ page_start p + TARGET_PAGE_SIZE <= 2 ^ 32.
Proof. intros H. unfold page_start, TARGET_PAGE_SIZE. dm. Qed.

Lemma seq_block_exit over e n p m : (1 <= n)%nat ->
  (let* m := seq_block over e n m in Ok (tb_exit p m)) = let* m := seq_run over n m in Ok (tb_exit p m).
Proof.
  intros Hn. destruct e; [|done]. unfold seq_block. destruct n as [|n]; [lia|].
  rewrite seq_run_snoc. simpl. rewrite Nat.sub_0_r. destruct (seq_run over n m); [|done..]. simpl.
  unfold seq_step. destruct (seq_exec over a) as [[i m1]| | |]; [|done..]. simpl. by destruct (is_push i).
Qed.

Lemma obind_ext {A B} (x : outcome A) (f g : A -> outcome B) :
  (forall a, x = Ok a -> f a = g a) -> obind x f = obind x g.
Proof. destruct x; simpl; auto. Qed.

(** The code of a block, whatever the translator has left in [changed_pc]. *)
Lemma exec_code_seq room over e m l npc ch v :
  0 <= pc (cpu m) < 2 ^ 32 -> is_pc_const_changed (cpu m) = 0 ->
  gen_intermediate_code room e (ram m) (pc (cpu m)) 0 = Ok (l, npc, ch) -> no_jump l ->
  exec_code over l npc (set_changed_pc v m) =
  let* m' := seq_run over (length l) (set_changed_pc v m) in
  Ok (tb_exit (if repeats_last e npc l then npc - 1 else npc) m').
Proof.
  intros Hp Hf Hg Hj. pose proof (page_bounds _ Hp) as [B1 B2]. unfold exec_code.
  unfold gen_intermediate_code in Hg.
  pose proof (gen_loop_nonempty _ _ _ _ _ _ _ _ _ _ _ _ Hg) as Hn.
  destruct (gen_loop_seq over _ _ _ _ _ _ _ _ _ _ _ (set_changed_pc v m) Hg) as [-> R]; [done|done|lia|lia|done|].
  rewrite <- (seq_block_exit over (npc =? e)) by done.
  apply obind_ext. intros m' Hm'. destruct (R m' Hm') as [Rp Rf].
  rewrite tb_end_exit, Rf, Rp. cbn [cpu set_changed_pc]. rewrite Hf. unfold repeats_last.
  by destruct (npc =? e), (has_push l), (last_push l).
Qed.

Lemma exec_tb_code room over e m l npc ch :
  0 <= pc (cpu m) < 2 ^ 32 -> changed_pc m = 0 ->
  gen_intermediate_code (room (pc (cpu m))) e (ram m) (pc (cpu m)) 0 = Ok (l, npc, ch) ->
  exec_tb room over e m = exec_code over l npc (set_changed_pc ch m).
Proof. intros Hp Hc Hg. unfold exec_tb, env_pc. by rewrite Hc, (u32_id (pc (cpu m))), Hg. Qed.

Lemma exec_tb_seq room over e m l npc ch :
  0 <= pc (cpu m) < 2 ^ 32 -> changed_pc m = 0 -> is_pc_const_changed (cpu m) = 0 ->
  gen_intermediate_code (room (pc (cpu m))) e (ram m) (pc (cpu m)) 0 = Ok (l, npc, ch) -> no_jump l ->
  exec_tb room over e m =
  let* m' := seq_run over (length l) (set_changed_pc ch m) in
  Ok (tb_exit (if repeats_last e npc l then npc - 1 else npc) m').
Proof. intros Hp Hc Hf Hg Hj. rewrite (exec_tb_code room over e m l npc ch) by done. by eapply exec_code_seq. Qed.

(** ** What a translation depends on *)

(** A block ends behind its first address and near its page; its code depends on
    the bytes of memory from the one to the other only. *)
Lemma gen_loop_local room e s k r f num p c l npc ch :
  gen_loop f room e s k r num p c = Ok (l, npc, ch) -> 0 <= p < s -> s <= 2 ^ 32 ->
  p < npc < s + 33 /\
  forall r', ram_size r' = ram_size r ->
    (forall a, p <= a < npc -> nth (Z.to_nat a) (ram_bytes r') 0 = nth (Z.to_nat a) (ram_bytes r) 0) ->
    gen_loop f room e s k r' num p c = Ok (l, npc, ch).
Proof.
  revert num p c l; induction f as [|f IH]; intros num p c l H Hp Hs; cbn [gen_loop] in *; [done|].
  apply obind_ok in H as ([insn np] & Hd & H). pose proof (disas_next _ _ _ _ Hd ltac:(lia)) as [Hn _].
  assert (forall r', ram_size r' = ram_size r -> nth (Z.to_nat p) (ram_bytes r') 0 = nth (Z.to_nat p) (ram_bytes r) 0 ->
    disas_ppdl_insn p r' = Ok (insn, np)) as Hd'.
  { intros r' Hr Hb. rewrite <- Hd. unfold disas_ppdl_insn, ram_byte. by rewrite Hr, Hb. }
  destruct (np =? e) eqn:Ee.
  { injection H as <- <- <-. split; [lia|]. intros r' Hr Ha. rewrite Hd' by (done || apply Ha; lia). cbn [obind]. by rewrite Ee. }
  destruct (_ && _) eqn:E.
  2:{ injection H as <- <- <-. split; [lia|]. intros r' Hr Ha. rewrite Hd' by (done || apply Ha; lia). cbn [obind]. by rewrite Ee, E. }
  apply obind_ok in H as ([[l1 p1] c1] & Hg & H). injection H as <- <- <-.
  destruct (IH _ _ _ _ Hg) as [Hr1 Hloc]; [lia|done|]. split; [lia|].
  intros r' Hr Ha. rewrite Hd' by (done || apply Ha; lia). cbn [obind]. rewrite Ee, E.
  rewrite (Hloc r' Hr) by (intros a Ha'; apply Ha; lia). done.
Qed.

Lemma gen_code_local room e r p c l npc ch : gen_intermediate_code room e r p c = Ok (l, npc, ch) -> 0 <= p < 2 ^ 32 ->
  p < npc < page_start p + TARGET_PAGE_SIZE + 33 /\
  forall r', ram_size r' = ram_size r ->
    (forall a, p <= a < npc -> nth (Z.to_nat a) (ram_bytes r') 0 = nth (Z.to_nat a) (ram_bytes r) 0) ->
    gen_intermediate_code room e r' p c = Ok (l, npc, ch).
Proof. intros H Hp. pose proof (page_bounds _ Hp) as [B1 B2]. unfold gen_intermediate_code in *. by apply gen_loop_local. Qed.

(** ** Translation always ends *)

Lemma gen_loop_total room e s k r f num p c :
  0 <= p < s -> s <= ram_size r -> s <= 2 ^ 32 -> s - p < Z.of_nat f ->
  exists l npc ch, gen_loop f room e s k r num p c = Ok (l, npc, ch) /\ p < npc < s + 33.
Proof.
  revert num p c; induction f as [|f IH]; intros num p c Hp Hs H32 Hf; [lia|]. cbn [gen_loop].
  assert (exists insn np, disas_ppdl_insn p r = Ok (insn, np)) as (insn & np & Hd).
  { unfold disas_ppdl_insn, ram_byte. rewrite (proj2 (Z.leb_le 0 p)), (proj2 (Z.ltb_lt p _)) by lia. simpl. eauto. }
  rewrite Hd. cbn [obind]. pose proof (disas_next _ _ _ _ Hd ltac:(lia)) as [Hn _].
  destruct (np =? e); [eexists _, _, _; split; [done|lia]|].
  destruct (_ && _) eqn:E; [|eexists _, _, _; split; [done|lia]].
  apply andb_prop in E as [E _]. apply andb_prop in E as [_ E]. apply Z.ltb_lt in E.
  destruct (IH (S num) np 0) as (l & q & ch & -> & Hq); [lia..|]. cbn [obind].
  eexists _, _, _. split; [done|lia].
Qed.

Lemma gen_intermediate_code_total room e r p c :
  0 <= p < 2 ^ 32 -> page_start p + TARGET_PAGE_SIZE <= ram_size r ->
  exists l npc ch, gen_intermediate_code room e r p c = Ok (l, npc, ch) /\
    p < npc < page_start p + TARGET_PAGE_SIZE + 33.
Proof.
  intros Hp Hr. pose proof (page_bounds _ Hp) as [B1 B2]. apply gen_loop_total; try lia.
  unfold page_start, TARGET_PAGE_SIZE in *. dm.
Qed.

(** ** The opcode map *)

Lemma byte_forall (P : Z -> bool) :
  forallb P (map Z.of_nat (seq 0 256)) = true -> forall i, is_u8 i -> P i = true.
Proof.
  intros H i Hi. rewrite forallb_forall in H. apply H. apply in_map_iff. exists (Z.to_nat i).
  unfold is_u8 in Hi. split; [lia|]. apply in_seq. lia.
Qed.

Lemma has_mask_f0 i : is_u8 i -> forall h, has_mask i 0xf0 (16 * h) = (i / 16 =? h).
Proof.
  intros Hi h. unfold has_mask.
  assert (Z.land i 0xf0 = 16 * (i / 16)) as ->; [|lia].
  apply Z.eqb_eq. revert i Hi. apply byte_forall. by vm_compute.
Qed.

Lemma has_mask_ff i : is_u8 i -> forall h, has_mask i 0xff h = (i =? h).
Proof.
  intros Hi h. unfold has_mask. change 0xff with (Z.ones 8). rewrite Z.land_ones, Z.mod_small by done || lia. done.
Qed.

Lemma is_push_row i : is_u8 i -> is_push i = (i / 16 =? 6) || (i / 16 =? 7).
Proof. intros Hi. apply eqb_prop. revert i Hi. apply byte_forall. by vm_compute. Qed.

Lemma has_mask_log i : is_u8 i -> has_mask i 0xf8 0xa0 = (i / 16 =? 10) && (i mod 16 <? 8).
Proof. intros Hi. apply eqb_prop. revert i Hi. apply byte_forall. by vm_compute. Qed.

Lemma extract_low i n : 0 <= n -> extract32 i 0 n = i mod 2 ^ n.
Proof. intros Hn. unfold extract32. by rewrite Z.shiftr_0_r, Z.land_ones. Qed.

(** What is executed, by the row of the opcode table. *)
Definition row_effect (over : list Z) (insn : Z) (m : machine) : outcome machine :=
  match insn / 16 with
  | 0 => let* o := ArithmOps (insn mod 16) in ArithmStub (Z.land o 0xFFFFFFFF) m
  | 1 => let* o := CompareLogOps (insn mod 16) in CompareStub (Z.land o 0xFFFFFFFF) m
  | 2 => if insn =? 0x20 then let* m := USEGAS 30 m in KeccakAlgStub over m else Ok m
  | 3 => AccountsData (insn mod 16) m
  | 4 => BlockChain (insn mod 16) m
  | 5 => gen_mem_op (insn mod 16) m
  | 6 | 7 => gen_push (insn mod 32) m
  | 8 => let* m := USEGAS 3 m in DupOp (insn mod 16) m
  | 9 => let* m := USEGAS 3 m in SwapOp (insn mod 16) m
  | 10 => if insn mod 16 <? 8 then USEGAS (0x177 + insn mod 8 * 0x177) m else Ok m
  | 15 => SystemOps (insn mod 16) m
  | _ => Ok m
  end.

Lemma row_cases h : 0 <= h < 16 -> h = 0 \/ h = 1 \/ h = 2 \/ h = 3 \/ h = 4 \/ h = 5 \/ h = 6 \/ h = 7 \/
  h = 8 \/ h = 9 \/ h = 10 \/ h = 11 \/ h = 12 \/ h = 13 \/ h = 14 \/ h = 15.
Proof. lia. Qed.

Lemma genBlock_Main_row over insn m : is_u8 insn ->
  genBlock_Main over insn m = row_effect over insn m.
Proof.
  intros Hi. unfold genBlock_Main. rewrite !has_mask_ff, is_push_row, has_mask_log, !extract_low by done || lia.
  pose proof (has_mask_f0 insn Hi) as F.
  rewrite (F 15 : has_mask insn 0xf0 0xf0 = _), (F 4 : has_mask insn 0xf0 0x40 = _),
    (F 3 : has_mask insn 0xf0 0x30 = _), (F 8 : has_mask insn 0xf0 0x80 = _),
    (F 9 : has_mask insn 0xf0 0x90 = _), (F 5 : has_mask insn 0xf0 0x50 = _),
    (F 0 : has_mask insn 0xf0 0x0 = _), (F 1 : has_mask insn 0xf0 0x10 = _). clear F.
  unfold row_effect. unfold is_u8 in Hi.
  assert (0 <= insn / 16 < 16) as Hh by dm.
  assert (insn / 16 <> 15 -> (insn =? 0xfa) = false /\ (insn =? 0xfd) = false /\ (insn =? 0xff) = false) as N15.
  { intros H. split_and!; apply Z.eqb_neq; intros ->; by apply H. }
  assert (insn / 16 <> 2 -> (insn =? 0x20) = false) as N2.
  { intros H. apply Z.eqb_neq; intros ->; by apply H. }
  destruct (Z.eq_dec (insn / 16) 15) as [E|E]; [by rewrite E|]. destruct (N15 E) as (-> & -> & ->).
  destruct (Z.eq_dec (insn / 16) 2) as [E2|E2]; [by rewrite E2|]. rewrite (N2 E2).
  destruct (row_cases _ Hh) as [H|[H|[H|[H|[H|[H|[H|[H|[H|[H|[H|[H|[H|[H|[H|H]]]]]]]]]]]]]]]; rewrite H; try done.
Qed.

(** ** Jumps *)

Lemma run_insns_app over l l' m :
  run_insns over (l ++ l') m = let* m := run_insns over l m in run_insns over l' m.
Proof.
  revert m; induction l as [|i l IH]; intros m; [done|]. cbn [app run_insns].
  destruct (genBlock_Main over (ti_insn i) m); [|done..]. cbn [obind]. apply IH.
Qed.

Lemma run_insns_flag over l m m' : Forall (fun i => is_u8 (ti_insn i)) l -> no_jump l ->
  run_insns over l m = Ok m' ->
  is_pc_const_changed (cpu m') = if has_push l then 1 else is_pc_const_changed (cpu m).
Proof.
  intros Hu. revert m; induction Hu as [|i l Hi Hu IH]; intros m Hj H; cbn [run_insns] in H; [by apply Ok_inj in H as <-|].
  apply obind_ok in H as (m1 & E & H). apply IH in H; [|by inversion Hj]. rewrite H. clear H IH.
  pose proof (Forall_inv Hj) as Hni. cbn beta in Hni. unfold has_push. cbn [existsb].
  assert (is_pc_const_changed (cpu (if ti_add i then with_cpu (fun c => set_pc (u64 (pc c + 1)) c) m1 else m1)) =
    is_pc_const_changed (cpu m1)) as -> by (by destruct (ti_add i)).
  destruct (is_push (ti_insn i)) eqn:Ep; cbn [orb].
  - rewrite genBlock_Main_push in E by done. apply gen_push_flow in E as (_ & -> & _). by destruct (existsb _ l).
  - by rewrite (keeps_const _ _ (genBlock_Main_keeps over (ti_insn i) m m1 Hi Hni Ep E)).
Qed.

(** A block that ends with JUMP: behind a PUSH of the same block the run goes on
    one byte after the popped address, or at it when the program ends there;
    without a PUSH the jump is lost. *)
Lemma block_jump over l add npc m m' :
  Forall (fun i => is_u8 (ti_insn i)) l -> no_jump l -> is_pc_const_changed (cpu m) = 0 ->
  exec_code over (l ++ [mkInsn JUMP add]) npc m = Ok m' ->
  exists m1 addr m2, run_insns over l m = Ok m1 /\ GetSingleBlockFromStack m1 = Ok (addr, m2) /\
  pc (cpu m') = if has_push l then (if add then u64 (addr + 1) else addr) else npc.
Proof.
  intros Hu Hj Hf H. unfold exec_code in H. rewrite run_insns_app in H.
  apply obind_ok in H as (m4 & H & H'). apply Ok_inj in H' as <-. apply obind_ok in H as (m1 & E1 & H).
  pose proof (run_insns_flag over l m m1 Hu Hj E1) as Hfl. rewrite Hf in Hfl.
  cbn [run_insns ti_insn ti_add] in H. apply obind_ok in H as (m3 & E & H). apply Ok_inj in H as <-.
  change (genBlock_Main over JUMP m1) with (let* (a, m) := GetSingleBlockFromStack m1 in
    let* m := USEGAS 8 m in Ok (with_cpu (fun c => set_is_pc_within_inst 1 (set_pc a c)) m)) in E.
  apply obind_ok in E as ([a m2] & Eg & E). apply obind_ok in E as (m5 & E5 & E). apply Ok_inj in E as <-.
  exists m1, a, m2. split; [done|]. split; [exact Eg|].
  apply GetSingle_keeps in Eg. apply UseGas_keeps in E5.
  assert (is_pc_const_changed (cpu m5) = if has_push l then 1 else 0) as Hf5
    by (by rewrite (keeps_const _ _ E5), (keeps_const _ _ Eg), Hfl).
  unfold tb_end. destruct add; cbn [cpu with_cpu is_pc_const_changed set_pc set_is_pc_within_inst];
    rewrite Hf5; by destruct (has_push l).
Qed.
