(* ===== verification/Typing.v ===== *)
(** * Types of the machine state

    The invariant a C compiler takes for granted: every array of
    [CPUPPDLState] has its declared size and every cell and register a value of
    its declared type.  Every instruction, block and run keeps it. *)

From stdpp Require Import base numbers list option strings.
From Stdlib Require Import ZArith Lia.
From S2P Require Import Prelude Words Bignum BignumSpec BignumHeap BignumStr Cpu Arithm ArithmSpec Storage Helpers HelpersSpec MemSpec PushSpec Keccak KeccakSpec Translate TranslateSpec.

(** [uint64_t a[n]] *)
Definition words (n : nat) (a : list Z) : Prop := length a = n /\ Forall is_u64 a.

(** The fields no instruction computes with; [GasLimit] and [elfSize], which
    come from the command line and the loader, satisfy [G]. *)
Definition rest_ok (G : Z -> Prop) (c : CPUPPDLState) : Prop :=
  words 1024 (input_data c) /\ words 1024 (log_bus c) /\
  Forall is_u64 [caller_addr c; inp_data_size c; gas_price c; log_ptr c; cur_addr c; origin_addr c;
    ext_code_size c; counter c; Number c; Difficulty c; TimeStamp c; CoinBase c; eear c] /\
  is_u32 (sr c) /\ G (GasLimit c) /\ G (elfSize c).

(** Every field of [CPUPPDLState] and the values of the storage.  [pc] is what
    generated code sees, the 64-bit global over [uint32_t pc] and the four bytes
    of padding behind it; [env->pc] is its low half ([env_pc]). *)
Record typed_with (G : Z -> Prop) (m : machine) : Prop := mkTyped {
  ty_pc : is_u64 (pc (cpu m));
  ty_sp : is_u64 (sp (cpu m));
  ty_msize : is_u64 (mem_size (cpu m));
  ty_stack : words 2048 (stack_arr (cpu m));
  ty_bus : words 1024 (data_bus (cpu m));
  ty_gas : words 4 (gas_available (cpu m));
  ty_const : is_u64 (is_pc_const_changed (cpu m));
  ty_within : is_u64 (is_pc_within_inst (cpu m));
  ty_rest : rest_ok G (cpu m);
  ty_store : storage_wf (default [] (mainStorage m))
}.

(** Every value of its declared type. *)
Definition typed (m : machine) : Prop := typed_with is_u64 m.

Create HintDb typing.
#[export] Hint Resolve ty_pc ty_sp ty_msize ty_stack ty_bus ty_gas ty_store u64_range : typing.

(** ** Arrays *)

Lemma aget_u64 n a i v : words n a -> aget a i = Ok v -> is_u64 v.
Proof.
  intros [_ Hf] H. unfold aget in H. destruct (_ && _) eqn:E; [|done]. injection H as <-.
  apply andb_prop in E as [E1 E2]. apply Z.leb_le in E1. apply Z.ltb_lt in E2.
  rewrite Forall_forall in Hf. apply Hf. apply list_elem_of_In, nth_In. lia.
Qed.

Lemma aset_words n a i v b : words n a -> is_u64 v -> aset a i v = Ok b -> words n b.
Proof.
  intros [Hl Hf] Hv H. unfold aset in H. destruct (_ && _); [|done]. injection H as <-.
  split; [by rewrite length_insert|]. by apply Forall_insert.
Qed.

Lemma read4_words n a i b : words n a -> read4 a i = Ok b -> words 4 b.
Proof.
  intros [Hl Hf] H. unfold read4 in H. destruct (_ && _) eqn:E; [|done]. injection H as <-.
  apply andb_prop in E as [E1 E2]. apply Z.leb_le in E1, E2. split.
  - rewrite length_take, length_drop. lia.
  - by apply Forall_take, Forall_drop.
Qed.

Lemma write4_words n a i r b : words n a -> words 4 r -> write4 a i r = Ok b -> words n b.
Proof.
  intros [Hl Hf] [Hr Hu] H. unfold write4 in H. destruct (_ && _) eqn:E; [|done]. injection H as <-.
  apply andb_prop in E as [E1 E2]. apply Z.leb_le in E1, E2. split.
  - rewrite !length_app, !length_take, length_drop. lia.
  - repeat apply Forall_app_2; auto using Forall_take, Forall_drop.
Qed.

(** ** Values *)

Lemma lor_u64 a b : is_u64 a -> is_u64 b -> is_u64 (Z.lor a b).
Proof. by apply lor_range. Qed.
Lemma land_u8 a : is_u64 (Z.land a 255).
Proof. rewrite land_ff. pose proof (Z.mod_pos_bound a (2 ^ 8)). unfold is_u64. lia. Qed.
Lemma pd_lsh_u64 a k : is_u64 (pd_lsh a k).
Proof. unfold pd_lsh. destruct (_ <=? _); [done|apply u64_range]. Qed.
Lemma zero_u64 : is_u64 0.
Proof. done. Qed.
Lemma one_u64 : is_u64 1.
Proof. done. Qed.
#[export] Hint Resolve lor_u64 land_u8 pd_lsh_u64 zero_u64 one_u64 : typing.

Lemma push_loop_u64 n i a v : is_u64 v -> is_u64 (push_loop n i a v).
Proof. revert i v; induction n as [|n IH]; intros i v Hv; cbn [push_loop]; auto with typing. Qed.
Lemma get_loop_u64 n i a v : is_u64 v -> is_u64 (get_loop n i a v).
Proof. revert i v; induction n as [|n IH]; intros i v Hv; cbn [get_loop]; auto with typing. Qed.
Lemma mload_word_u64 n i a v m w : is_u64 v -> mload_word n i a v m = Ok w -> is_u64 w.
Proof.
  revert i a v; induction n as [|n IH]; intros i a v Hv H; cbn [mload_word] in H; [by injection H as <-|].
  apply obind_ok in H as (b & _ & H). eapply IH; [|exact H]. auto with typing.
Qed.
Lemma push_bytes_u64 n i t a m w : is_u64 a -> push_bytes n i t a m = Ok w -> is_u64 w.
Proof.
  revert i a m; induction n as [|n IH]; intros i a m Ha H; cbn [push_bytes] in H; [by injection H as <-|].
  apply obind_ok in H as ([b m1] & _ & H). eapply IH; [|exact H]. auto with typing.
Qed.

Lemma xval_nonneg c : isxdigit c = true -> 0 <= xval c.
Proof.
  unfold isxdigit, xval, tolower. destruct (isdigit c) eqn:E; [unfold isdigit in E; lia|]. cbn [orb].
  destruct (Z.leb_spec 97 c), (Z.leb_spec 65 c), (Z.leb_spec c 90); cbn [andb orb]; intros H'; lia.
Qed.
Lemma strtoull_u64 s : is_u64 (strtoull16 s).
Proof.
  unfold strtoull16, is_u64. assert (forall l a, 0 <= a -> 0 <= strtoull16_loop l a) as H.
  { induction l as [|c l IH]; intros a Ha; cbn [strtoull16_loop]; [done|]. destruct (isxdigit c) eqn:E; [|done].
    apply IH. pose proof (xval_nonneg c E). lia. }
  specialize (H s 0 ltac:(lia)). lia.
Qed.
Lemma bignum_to_reg_words x r : v_bignum_bignum_to_reg x = Ok r -> words 4 r.
Proof.
  unfold v_bignum_bignum_to_reg. destruct (_ <? _)%nat; [|done]. intros H. apply Ok_inj in H as <-. split; [by rewrite length_map, length_seq|].
  apply List.Forall_forall. intros w Hw. apply in_map_iff in Hw as (i & <- & _). apply strtoull_u64.
Qed.

(** ** Computations that end normally *)

(** The value of a computation that ends normally satisfies [P]. *)
Definition gives {A} (P : A -> Prop) (x : outcome A) : Prop := forall a, x = Ok a -> P a.

Lemma gives_ok {A} (P : A -> Prop) a : P a -> gives P (Ok a).
Proof. by intros H ? [= <-]. Qed.
Lemma gives_bind {A B} (Q : A -> Prop) (P : B -> Prop) (x : outcome A) (f : A -> outcome B) :
  gives Q x -> (forall a, Q a -> gives P (f a)) -> gives P (obind x f).
Proof. intros Hx Hf b H. apply obind_ok in H as (a & E & H). exact (Hf a (Hx a E) b H). Qed.
Lemma gives_any {A} (x : outcome A) : gives (fun _ => True) x.
Proof. by intros a _. Qed.
Lemma gives_if {A} (P : A -> Prop) (b : bool) (x y : outcome A) :
  gives P x -> gives P y -> gives P (if b then x else y).
Proof. by destruct b. Qed.
Lemma gives_no {A} (P : A -> Prop) (x : outcome A) : (forall a, x <> Ok a) -> gives P x.
Proof. intros H a E. by apply H in E. Qed.

#[export] Hint Resolve gives_ok gives_if : typing.

(** What a computation that also returns the machine gives. *)
Definition both {A} (P : A -> Prop) (Q : machine -> Prop) (r : A * machine) : Prop := P r.1 /\ Q r.2.
#[export] Hint Extern 1 (both _ _ (_, _)) => (split; cbn [fst snd]) : typing.

(** [walk tac] goes through a computation step by step: [tac] knows what an
    operation gives, or its result does not matter. *)
Ltac walk_step tac :=
  lazymatch goal with
  | H : both _ _ (_, _) |- _ => destruct H; cbn [fst snd] in *
  | |- gives _ (Ok _) => apply gives_ok
  | |- gives _ Undef => by intros ? [=]
  | |- gives _ (Raise _) => by intros ? [=]
  | |- gives _ (if _ then _ else _) => apply gives_if
  | |- gives _ (let '(_, _) := ?p in _) => destruct p
  | |- gives _ (obind _ _) =>
      first [ eapply gives_bind; [solve [tac] | intros ? ?]
            | eapply gives_bind; [apply gives_any | intros ? _] ]
  end.
Ltac walk tac := cbv zeta; repeat walk_step tac; tac.
Ltac ty_step := walk_step ltac:(eauto 8 with typing).
Ltac ty := walk ltac:(eauto 8 with typing).

Section Typed.
Context (G : Z -> Prop).
#[local] Abbreviation typed := (typed_with G).

(** ** Assignments *)

Section assignments.
Context (m : machine) (Hm : typed m).

Lemma typed_stack a : words 2048 a -> typed (with_cpu (set_stack_arr a) m).
Proof. by destruct Hm. Qed.
Lemma typed_bus a : words 1024 a -> typed (with_cpu (set_data_bus a) m).
Proof. by destruct Hm. Qed.
Lemma typed_gas a : words 4 a -> typed (with_cpu (set_gas_available a) m).
Proof. by destruct Hm. Qed.
Lemma typed_sp v : is_u64 v -> typed (with_cpu (set_sp v) m).
Proof. by destruct Hm. Qed.
Lemma typed_pc v : is_u64 v -> typed (with_cpu (set_pc v) m).
Proof. by destruct Hm. Qed.
Lemma typed_msize v : is_u64 v -> typed (with_cpu (set_mem_size v) m).
Proof. by destruct Hm. Qed.
Lemma typed_const v : is_u64 v -> typed (with_cpu (set_is_pc_const_changed v) m).
Proof. by destruct Hm. Qed.
Lemma typed_bn h : typed (set_bn h m).
Proof. by destruct Hm. Qed.
Lemma typed_changed v : typed (set_changed_pc v m).
Proof. by destruct Hm. Qed.
Lemma typed_print s : typed (print s m).
Proof. by destruct Hm. Qed.
Lemma typed_storage s : storage_wf s -> typed (set_storage (Some s) m).
Proof. by destruct Hm. Qed.
Lemma typed_move d : typed (move_sp d m).
Proof. apply typed_sp, u64_range. Qed.
End assignments.
#[local] Hint Resolve typed_stack typed_bus typed_gas typed_sp typed_pc typed_msize typed_const
  typed_bn typed_changed typed_print typed_storage typed_move : typing.

Lemma gives_aget n a i : words n a -> gives is_u64 (aget a i).
Proof. intros H v E. by eapply aget_u64. Qed.
Lemma gives_aset n a i v : words n a -> is_u64 v -> gives (words n) (aset a i v).
Proof. intros H Hv b E. by eapply aset_words. Qed.
Lemma gives_read4 n a i : words n a -> gives (words 4) (read4 a i).
Proof. intros H b E. by eapply read4_words. Qed.
Lemma gives_write4 n a i r : words n a -> words 4 r -> gives (words n) (write4 a i r).
Proof. intros H Hr b E. by eapply write4_words. Qed.
Lemma gives_reg x : gives (words 4) (v_bignum_bignum_to_reg x).
Proof. intros r. apply bignum_to_reg_words. Qed.
#[local] Hint Resolve gives_aget gives_aset gives_read4 gives_write4 gives_reg : typing.

Lemma swap_reg_words r : words 4 r -> words 4 (swap_reg r).
Proof. apply swap_reg_wf. Qed.
Lemma save_node_words s k v : storage_wf s -> words 4 v -> storage_wf (save_node s k v).
Proof. apply save_node_wf. Qed.
#[local] Hint Resolve swap_reg_words save_node_words : typing.

(** ** The helpers *)

Section helpers.
Context (m : machine) (Hm : typed m).

Lemma typed_load_reg r : gives (both (fun _ => True) typed) (load_reg r m).
Proof. unfold load_reg. ty. Qed.
Lemma typed_stack_get i : gives is_u64 (stack_get i m).
Proof. unfold stack_get. ty. Qed.
Lemma typed_stack_arr_get i : gives is_u64 (stack_arr_get i m).
Proof. unfold stack_arr_get. ty. Qed.
Lemma typed_gas_get i : gives is_u64 (gas_available_get i m).
Proof. unfold gas_available_get. ty. Qed.
Lemma typed_stack_set i v : is_u64 v -> gives typed (stack_set i v m).
Proof. intros. unfold stack_set. ty. Qed.
Lemma typed_stack_arr_set i v : is_u64 v -> gives typed (stack_arr_set i v m).
Proof. intros. unfold stack_arr_set. ty. Qed.
Lemma typed_data_bus_set i v : is_u64 v -> gives typed (data_bus_set i v m).
Proof. intros. unfold data_bus_set. ty. Qed.
End helpers.
#[local] Hint Resolve typed_load_reg typed_stack_get typed_stack_arr_get typed_gas_get typed_stack_set
  typed_stack_arr_set typed_data_bus_set : typing.

Lemma typed_UseGas m v : typed m -> gives typed (UseGas v m).
Proof. intros Hm. unfold UseGas, helper_error_message. ty. Qed.
Lemma typed_USEGAS m v : typed m -> gives typed (USEGAS v m).
Proof. apply typed_UseGas. Qed.
#[local] Hint Resolve typed_UseGas typed_USEGAS : typing.

Lemma typed_push4 m a b c d : typed m -> is_u64 a -> is_u64 b -> is_u64 c -> is_u64 d ->
  gives typed (push4 a b c d m).
Proof. intros. unfold push4. ty. Qed.
#[local] Hint Resolve typed_push4 push_loop_u64 get_loop_u64 : typing.
Lemma typed_PushSingle m v : typed m -> gives typed (PushSingleBlockToStack v m).
Proof. intros Hm. unfold PushSingleBlockToStack. ty. Qed.
Lemma typed_GetSingle m : typed m -> gives (both is_u64 typed) (GetSingleBlockFromStack m).
Proof. intros Hm. unfold GetSingleBlockFromStack. ty. Qed.
Lemma typed_put_result m i a : typed m -> gives typed (put_result i a m).
Proof. intros Hm. unfold put_result. ty. Qed.
#[local] Hint Resolve typed_PushSingle typed_GetSingle typed_put_result : typing.

(** ** Arithmetic and comparison *)

Lemma typed_arithm_args m o s : typed m -> gives (both (fun _ => True) typed) (arithm_args o s m).
Proof. intros Hm. unfold arithm_args. ty. Qed.
Lemma typed_compare_args m o s : typed m -> gives (both (fun _ => True) typed) (compare_args o s m).
Proof. intros Hm. unfold compare_args. ty. Qed.
Lemma typed_lift_heap m r : typed m -> gives (both (fun _ => True) typed) (lift_heap r m).
Proof. intros Hm. unfold lift_heap. ty. Qed.
#[local] Hint Resolve typed_arithm_args typed_compare_args typed_lift_heap : typing.

Lemma typed_arithm_op m o a b c w : typed m -> gives (both (fun _ => True) typed) (arithm_op o a b c w m).
Proof.
  intros Hm. unfold arithm_op, helper_error_message. by_opcode o ltac:(idtac; ty).
Qed.
#[local] Hint Resolve typed_arithm_op : typing.
Lemma typed_DoArithm m o : typed m -> gives typed (DoArithm o m).
Proof. intros Hm. unfold DoArithm. ty. Qed.
Lemma typed_DoCompare m o : typed m -> gives typed (DoCompare o m).
Proof. intros Hm. unfold DoCompare. ty. Qed.
#[local] Hint Resolve typed_DoArithm typed_DoCompare : typing.

(** ** Storage and memory *)

Lemma typed_SaveToStorage m k : typed m -> gives typed (SaveToStorage k m).
Proof.
  intros Hm. unfold SaveToStorage. pose proof (ty_store G m Hm) as Hs.
  cbn [mainStorage with_cpu]. destruct (mainStorage m) as [s|]; cbn [default] in Hs; ty.
Qed.
Lemma typed_LoadFromStorage m k : typed m -> gives typed (LoadFromStorage k m).
Proof.
  intros Hm. unfold LoadFromStorage. destruct (find_node _ _) eqn:E; [|ty].
  apply find_node_wf in E; [|eauto with typing]. change (words 4 l) in E. ty.
Qed.
Lemma u8_u64 v : is_u64 (u8 v).
Proof. unfold u8, is_u64. pose proof (Z.mod_pos_bound v (2 ^ 8)). lia. Qed.
#[local] Hint Resolve typed_SaveToStorage typed_LoadFromStorage u8_u64 : typing.

Lemma typed_mstore_word n i w a m : typed m -> gives typed (mstore_word n i w a m).
Proof. revert i a m; induction n as [|n IH]; intros i a m Hm; cbn [mstore_word]; ty. Qed.
#[local] Hint Resolve typed_mstore_word : typing.
Lemma typed_MStoreInst m a : typed m -> gives typed (MStoreInst a m).
Proof. intros Hm. unfold MStoreInst. ty. Qed.

Lemma gives_mload_word n i a v m : is_u64 v -> gives is_u64 (mload_word n i a v m).
Proof. intros Hv w. by apply mload_word_u64. Qed.
#[local] Hint Resolve gives_mload_word : typing.
Lemma typed_MloadInst m a : typed m -> gives typed (MloadInst a m).
Proof. intros Hm. unfold MloadInst. ty. Qed.
#[local] Hint Resolve typed_MStoreInst typed_MloadInst : typing.

(** ** The stack *)

Lemma typed_DupOp m c : typed m -> gives typed (DupOp c m).
Proof. intros Hm. unfold DupOp. ty. Qed.
Lemma typed_swap_round m c i f : typed m -> is_u64 f -> gives typed (swap_round c i f m).
Proof. intros Hm Hf. unfold swap_round. ty. Qed.
#[local] Hint Resolve typed_DupOp typed_swap_round : typing.
Lemma typed_SwapOp m c : typed m -> gives typed (SwapOp c m).
Proof. intros Hm. unfold SwapOp. ty. Qed.

Lemma gives_push_bytes n i t a m : is_u64 a -> gives is_u64 (push_bytes n i t a m).
Proof. intros Ha w. by apply push_bytes_u64. Qed.
#[local] Hint Resolve gives_push_bytes : typing.
Lemma typed_push_blocks n j c m : typed m -> gives typed (push_blocks n j c m).
Proof. revert j m; induction n as [|n IH]; intros j m Hm; cbn [push_blocks]; ty. Qed.
Lemma typed_push_zeros n j m : typed m -> gives typed (push_zeros n j m).
Proof. revert j m; induction n as [|n IH]; intros j m Hm; cbn [push_zeros]; ty. Qed.
#[local] Hint Resolve typed_push_blocks typed_push_zeros : typing.
Lemma typed_PushInst m c : typed m -> gives typed (PushInst c m).
Proof.
  intros Hm. unfold PushInst. cbv zeta. ty_step. eapply gives_bind; [|intros ? ?; ty].
  apply gives_if; ty.
Qed.
#[local] Hint Resolve typed_SwapOp typed_PushInst : typing.

(** ** SHA3 *)

Lemma fold_lor_u64 (f : nat -> Z) l acc : is_u64 acc ->
  is_u64 (fold_left (fun a i => Z.lor a (u64 (f i))) l acc).
Proof. revert acc; induction l as [|i l IH]; intros acc Ha; cbn [fold_left]; auto with typing. Qed.
Lemma res_reg_words op : words 4 (rev (res_reg op)).
Proof.
  unfold res_reg. split; [by rewrite length_rev, length_map, length_seq|]. apply Forall_rev.
  apply List.Forall_forall. intros w Hw. apply in_map_iff in Hw as (b & <- & _). by apply fold_lor_u64.
Qed.
#[local] Hint Resolve res_reg_words : typing.
Lemma typed_KeccakAlg m over a b : typed m -> gives typed (KeccakAlg over a b m).
Proof. intros Hm. unfold KeccakAlg. ty. Qed.
#[local] Hint Resolve typed_KeccakAlg : typing.
Lemma typed_KeccakAlgStub m over : typed m -> gives typed (KeccakAlgStub over m).
Proof. intros Hm. unfold KeccakAlgStub. ty. Qed.
#[local] Hint Resolve typed_KeccakAlgStub : typing.

(** ** The opcode groups *)

Lemma gives_StopExec P m : gives P (StopExec m).
Proof. apply gives_no. intros a. apply StopExec_not_ok. Qed.
#[local] Hint Resolve gives_StopExec : typing.

Lemma typed_AccountsData m o : typed m -> gives typed (AccountsData o m).
Proof.
  intros Hm. unfold AccountsData, GetAddress, GetBalance, GetOrigin, GetCaller, CallValue, GetInputData,
    CallDataSize, CallDataCopy, GetCodeSize, CodeCopy, GetGasPrice, ExtCodeSize, ExtCodeCopy, gas_push.
  by_opcode o ltac:(idtac; ty).
Qed.
Lemma typed_BlockChain m o : typed m -> gives typed (BlockChain o m).
Proof.
  intros Hm. unfold BlockChain, BlockChainHash, GetCoinBase, GetTimeStamp, GetNumber, GetDifficulty,
    GetGasLimit, gas_push.
  by_opcode o ltac:(idtac; ty).
Qed.
Lemma typed_SystemOps m o : typed m -> gives typed (SystemOps o m).
Proof.
  intros Hm. unfold SystemOps, CreateAccount, MakeCall, MakeCallCode, DelegateCall, Return.
  by_opcode o ltac:(idtac; ty).
Qed.

Lemma shifted_byte_u64 v k : is_u64 (Z.land (Z.shiftr v k) 255).
Proof. apply land_u8. Qed.
#[local] Hint Resolve typed_AccountsData typed_BlockChain typed_SystemOps shifted_byte_u64 : typing.
Lemma typed_gen_mstore8 m a : typed m -> is_u64 a -> gives typed (gen_mstore8 a m).
Proof. intros Hm Ha. unfold gen_mstore8. ty. Qed.
Lemma typed_gen_gas m : typed m -> gives typed (gen_gas m).
Proof. intros Hm. unfold gen_gas. ty. Qed.
Lemma typed_jump m v : typed m -> is_u64 v ->
  typed (with_cpu (fun c => set_is_pc_within_inst 1 (set_pc v c)) m).
Proof. by intros [] ?. Qed.
#[local] Hint Resolve typed_gen_mstore8 typed_gen_gas typed_jump : typing.

Lemma typed_gen_mem_op m o : typed m -> gives typed (gen_mem_op o m).
Proof.
  intros Hm. unfold gen_mem_op. apply (gives_bind (fun _ => True)); [apply gives_any|intros q _].
  apply (gives_bind (both is_u64 typed)); [apply gives_if; ty|intros [a m1] [Ha H1]; cbn [fst snd] in *].
  unfold Pop, LoadFromStorageStub, SaveToStorageStub, PcOp, MSizeOp. by_opcode q ltac:(idtac; ty).
Qed.
Lemma typed_gen_push m c : typed m -> gives typed (gen_push c m).
Proof. intros Hm. unfold gen_push. ty. Qed.
#[local] Hint Resolve typed_gen_mem_op typed_gen_push : typing.

Lemma typed_genBlock_Main over insn m : typed m -> gives typed (genBlock_Main over insn m).
Proof. intros Hm. unfold genBlock_Main, ArithmStub, CompareStub. ty. Qed.
#[local] Hint Resolve typed_genBlock_Main : typing.

(** ** Blocks and runs *)

Lemma typed_run_insns over l m : typed m -> gives typed (run_insns over l m).
Proof.
  revert m; induction l as [|i l IH]; intros m Hm; cbn [run_insns]; [by apply gives_ok|].
  ty_step. cbv zeta. apply IH. destruct (ti_add i); [|done]. destruct H. split; try done. apply u64_range.
Qed.
Lemma gen_loop_npc f room e s k r num p c l npc ch :
  gen_loop f room e s k r num p c = Ok (l, npc, ch) -> is_u64 npc.
Proof.
  revert num p c l npc ch; induction f as [|f IH]; intros num p c l npc ch H; cbn [gen_loop] in H; [done|].
  apply obind_ok in H as ([insn np] & E & H). unfold disas_ppdl_insn in E. cbv zeta in H.
  apply obind_ok in E as (b & _ & E). apply Ok_inj in E. apply pair_equal_spec in E as [_ <-].
  destruct (_ =? e); [injection H as <- <- <-; apply u64_range|].
  destruct (room _ && _ && _); [|injection H as <- <- <-; apply u64_range].
  apply obind_ok in H as ([[l' p'] c'] & E & H). injection H as <- <- <-. by eapply IH.
Qed.
Lemma typed_tb_end p m : typed m -> is_u64 p -> typed (tb_end p m).
Proof. intros Hm Hp. unfold tb_end. destruct (_ =? 0); auto with typing. Qed.
#[local] Hint Resolve typed_run_insns typed_tb_end : typing.
Lemma typed_exec_code over l p m : typed m -> is_u64 p -> gives typed (exec_code over l p m).
Proof. intros Hm Hp. unfold exec_code. ty. Qed.
#[local] Hint Resolve typed_exec_code : typing.
Lemma typed_exec_tb room over e m : typed m -> gives typed (exec_tb room over e m).
Proof.
  intros Hm m' H. unfold exec_tb in H. apply obind_ok in H as ([[l p] ch] & E & H).
  apply gen_loop_npc in E. eapply typed_exec_code; [| |exact H]; auto with typing.
Qed.
#[local] Hint Resolve typed_exec_tb : typing.
Lemma typed_run n room over e m : typed m -> gives typed (run n room over e m).
Proof. revert m; induction n as [|n IH]; intros m Hm; cbn [run]; ty. Qed.

(** ** Reset *)

Lemma swap_loop_u64 n j w acc : is_u64 acc -> is_u64 (swap_loop n j w acc).
Proof. revert j acc; induction n as [|n IH]; intros j acc Ha; cbn [swap_loop]; auto with typing. Qed.

Lemma clear_bus_words n c c' : clear_bus n c = Ok c' -> words 1024 (data_bus c) -> is_u64 (counter c) ->
  exists b k, c' = set_counter k (set_data_bus b c) /\ words 1024 b /\ is_u64 k.
Proof.
  assert (forall c, c = set_counter (counter c) (set_data_bus (data_bus c) c)) as Ec by (by intros []).
  revert c; induction n as [|n IH]; intros c H Hb Hk; cbn [clear_bus] in H;
    [injection H as <-; exists (data_bus c), (counter c); by split|].
  destruct (_ <? _); [|injection H as <-; exists (data_bus c), (counter c); by split].
  apply obind_ok in H as (b & E & H).
  apply IH in H as (b' & k & -> & Hb' & Hk'); [|eapply aset_words; [exact Hb|exact zero_u64|exact E]|apply u64_range]. by exists b', k.
Qed.

Lemma reset_gas_words gas : words 4 [swap_loop 8 0 gas 0; 0; 0; 0].
Proof. split; [done|]. repeat (apply Forall_cons_2; [by apply swap_loop_u64 || done|]). done. Qed.

Lemma env_pc_u64 v p : is_u64 p -> is_u64 (p / 2 ^ 32 * 2 ^ 32 + u32 v).
Proof.
  intros Hp. unfold is_u64, u32 in *. pose proof (Z.mod_pos_bound v (2 ^ 32) ltac:(lia)).
  pose proof (Z.div_lt_upper_bound p (2 ^ 32) (2 ^ 32) ltac:(lia) ltac:(lia)).
  pose proof (Z.div_pos p (2 ^ 32) ltac:(lia) ltac:(lia)). lia.
Qed.

Lemma typed_initialize m : typed m -> typed (initialize m).
Proof.
  intros Hm. unfold initialize. destruct (mainStorage m); [done|]. apply typed_storage; [done|].
  apply Forall_singleton. split; [done|]. by apply (Forall_replicate is_u64 4 0).
Qed.

#[local] Strategy 100 [obind clear_bus].

(** After a reset only the registers it does not write have to be well typed
    already. *)
Lemma typed_RESET entry gas e m m' : typed m -> G gas -> G e ->
  RESET entry gas e m = Ok m' -> typed m'.
Proof.
  intros [Hp _ Hs Ha Hb _ Hc Hw (Hi & Hl & Hr & Hsr & _ & _) Hst] Hg He H. unfold RESET in H. cbv zeta in H.
  destruct (clear_bus 1025 _) as [c| | |] eqn:E in H; [|discriminate H..].
  apply Ok_inj in H as <-. apply typed_initialize.
  apply clear_bus_words in E as (b & k & -> & Eb & Ek); [|exact Hb|exact zero_u64].
  split; cbn [cpu with_cpu set_envSaved mainStorage]; try assumption.
  - by apply env_pc_u64.
  - apply u64_range.
  - apply reset_gas_words.
  - rewrite !Forall_cons in Hr. unfold rest_ok. rewrite !Forall_cons. split_and!; try assumption; try apply Hr. exact zero_u64.
Qed.
End Typed.
