(* ===== verification/Bounds.v ===== *)
(** * Bounds: the bignum heap, the instructions a run can execute

    Every register a helper loads takes 65 cells of the bignum heap and none is
    ever given back, so that the position of the heap counts the registers
    loaded since reset: a run loads at most 32 of them.  Every jump loads one,
    and a block without a jump moves forward, so every run ends. *)

From stdpp Require Import base numbers list option strings.
From Stdlib Require Import ZArith Lia.
From S2P Require Import Prelude Words Bignum BignumSpec BignumHeap BignumStr Cpu Arithm ArithmSpec Storage Helpers HelpersSpec MemSpec PushSpec Keccak KeccakSpec Translate TranslateSpec Typing.

(** ** The heap *)

(** The heap has its declared size and the position is [k]. *)
Definition heap_at (k : Z) (h : heap) : Prop :=
  Z.of_nat (length (cells h)) = HEAP_SIZE /\ heap_pos h = k /\ 0 <= k <= HEAP_SIZE.

(** Below [p] two heaps agree. *)
Definition agree (p : Z) (h h' : heap) : Prop :=
  forall i, 0 <= i < p -> nth (Z.to_nat i) (cells h') 0 = nth (Z.to_nat i) (cells h) 0.

Lemma agree_trans p q h1 h2 h3 : agree p h1 h2 -> agree q h2 h3 -> p <= q -> agree p h1 h3.
Proof. intros A B Hq i Hi. rewrite B by lia. by apply A. Qed.

(** A block of [n] cells that was allocated and could be read. *)
Lemma alloc_load k n h p h1 x : heap_at k h -> 0 <= n < 2 ^ 16 -> alloc n h = Ok (p, h1) -> load h1 p = Ok x ->
  p = k /\ heap_at (k + (n + 1)) h1 /\ nth (Z.to_nat k) (cells h1) 0 = n /\ agree k h h1.
Proof.
  intros (Hl & Hp & Hk) Hn Ha Hx. unfold alloc, bignum_alloc in Ha. destruct (_ <? _) eqn:E; [done|].
  apply Z.ltb_ge in E. rewrite Hp in *. unfold aset in Ha. destruct (_ && _) eqn:Eb; [|done].
  cbn [obind] in Ha. apply Ok_inj, pair_equal_spec in Ha as [<- <-]. apply andb_prop in Eb as [_ Eb]. apply Z.ltb_lt in Eb.
  unfold HEAP_SIZE in *. unfold u32 in E. rewrite Z.mod_small in E by lia.
  assert (nth (Z.to_nat k) (<[Z.to_nat k := u16 n]> (cells h)) 0 = n) as En.
  { rewrite nth_lookup, list_lookup_insert_eq by lia. by apply u16_id. }
  unfold load in Hx. cbn [cells] in Hx. unfold aget in Hx. rewrite length_insert in Hx.
  rewrite (proj2 (Z.leb_le 0 k)), (proj2 (Z.ltb_lt k _)) in Hx by lia. cbn [andb obind] in Hx.
  rewrite En in Hx. destruct (_ <? _) eqn:E2 in Hx; [|done]. apply Z.ltb_lt in E2.
  split; [done|]. split; [|split; [exact En|]].
  - unfold heap_at, u32, HEAP_SIZE. cbn [cells heap_pos]. rewrite length_insert, Z.mod_small by lia. lia.
  - intros i Hi. cbn [cells]. rewrite !nth_lookup, list_lookup_insert_ne by lia. done.
Qed.

Lemma store_at k h p x h1 : heap_at k h -> store h p x = Ok h1 -> 0 <= p -> heap_at k h1 /\ agree (p + 1) h h1.
Proof.
  intros (Hl & Hp & Hk) H Hp0. unfold store in H. destruct (_ <? _) eqn:E; [|done]. apply Z.ltb_lt in E.
  apply Ok_inj in H as <-. split.
  - split_and!; cbn [cells heap_pos]; try lia. rewrite !length_app, length_take, length_drop. lia.
  - intros i Hi. cbn [cells]. rewrite app_nth1 by (rewrite length_take; lia).
    rewrite !nth_lookup. by rewrite lookup_take_lt by lia.
Qed.

Lemma free_at k n h p h1 : heap_at (k + (n + 1)) h -> bignum_free p h = Ok h1 -> 0 <= k -> 0 <= n ->
  nth (Z.to_nat p) (cells h) 0 = n -> heap_at k h1 /\ cells h1 = cells h.
Proof.
  intros (Hl & Hp & Hk) H Hk0 Hn En. unfold bignum_free, aget in H. destruct (_ && _) in H; [|done].
  cbn [obind] in H. apply Ok_inj in H as <-. rewrite En, Hp. unfold HEAP_SIZE in *.
  replace (k + (n + 1) - (n + 1)) with k by lia. split; [|done].
  split_and!; cbn [cells heap_pos]; unfold HEAP_SIZE, u32; rewrite ?Z.mod_small; lia.
Qed.

(** ** The routines that use the heap *)

Lemma reg_to_bignum_at k reg h p h1 : heap_at k h -> v_bignum_reg_to_bignum reg h = Ok (p, h1) -> heap_at (k + 65) h1.
Proof.
  intros Hh H. unfold v_bignum_reg_to_bignum in H. apply obind_ok in H as ([q h2] & Ea & H).
  apply obind_ok in H as (x & El & H). apply obind_ok in H as (h3 & Es & H). apply Ok_inj, pair_equal_spec in H as [_ <-].
  destruct (alloc_load k 64 h q h2 x Hh ltac:(lia) Ea El) as (-> & H2 & _ & _).
  by destruct (store_at _ _ _ _ _ H2 Es (proj1 (proj2 (proj2 Hh)))).
Qed.

(** Division gives back both of its temporaries and leaves the cells below
    them alone. *)
Lemma div_at k h x y rem h1 x1 rem1 : heap_at k h -> Z.of_nat (length x) < 2 ^ 16 ->
  v_bignum_div h x y rem = Ok (h1, x1, rem1) -> heap_at k h1 /\ agree k h h1.
Proof.
  intros Hh Hx H. pose proof (proj2 (proj2 Hh)) as Hk. unfold v_bignum_div in H. cbv zeta in H. destruct (_ <? _) in H.
  { apply Ok_inj, pair_equal_spec in H as [H _]. apply pair_equal_spec in H as [<- _]. by split. }
  destruct (_ <? _) in H.
  { apply Ok_inj, pair_equal_spec in H as [H _]. apply pair_equal_spec in H as [<- _]. by split. }
  apply obind_ok in H as ([pq h2] & E2 & H). apply obind_ok in H as (q & Eq & H).
  apply obind_ok in H as (h3 & E3 & H). apply obind_ok in H as ([pw h4] & E4 & H).
  apply obind_ok in H as (work & Ew & H). destruct (div_loop _ _ _ _ _ _) as [q' w'].
  apply obind_ok in H as (h5 & E5 & H). apply obind_ok in H as (h6 & E6 & H).
  apply obind_ok in H as (h7 & E7 & H). apply obind_ok in H as (h8 & E8 & H).
  apply Ok_inj, pair_equal_spec in H as [H _]. apply pair_equal_spec in H as [<- _].
  set (n := Z.of_nat (length x)) in *. assert (0 <= n) by lia.
  destruct (alloc_load k n h pq h2 q Hh ltac:(lia) E2 Eq) as (-> & H2 & N2 & A2).
  destruct (store_at _ _ _ _ _ H2 E3 ltac:(lia)) as [H3 A3].
  destruct (alloc_load _ n h3 pw h4 work H3 ltac:(lia) E4 Ew) as (-> & H4 & N4 & A4).
  destruct (store_at _ _ _ _ _ H4 E5 ltac:(lia)) as [H5 A5].
  destruct (free_at _ n _ _ _ H5 E6 ltac:(lia) ltac:(lia) ltac:(rewrite A5 by lia; exact N4)) as [H6 C6].
  destruct (store_at _ _ _ _ _ H6 E7 ltac:(lia)) as [H7 A7].
  assert (agree (k + 1) h2 h7) as A.
  { intros i Hi. rewrite A7, C6, A5, A4, A3 by lia. done. }
  destruct (free_at k n _ _ _ H7 E8 ltac:(lia) ltac:(lia) ltac:(rewrite A by lia; exact N2)) as [H8 C8].
  split; [done|]. intros i Hi. rewrite C8, A, A2 by lia. done.
Qed.

Lemma mod_at k h x y h1 x1 : heap_at k h -> Z.of_nat (length x) < 2 ^ 16 -> Z.of_nat (length y) < 2 ^ 16 ->
  v_bignum_mod h x y = Ok (h1, x1) -> heap_at k h1.
Proof.
  intros Hh Hx Hy H. pose proof (proj2 (proj2 Hh)) as Hk. unfold v_bignum_mod in H. cbv zeta in H.
  set (n := if _ <? _ then _ else _) in H. assert (0 <= n < 2 ^ 16) as Hn by (unfold n; destruct (_ <? _); lia).
  apply obind_ok in H as ([p h2] & E2 & H). apply obind_ok in H as (t & Et & H).
  apply obind_ok in H as ([[h3 x3] t3] & E3 & H). apply obind_ok in H as (h4 & E4 & H).
  apply obind_ok in H as (h5 & E5 & H). apply Ok_inj, pair_equal_spec in H as [<- _].
  destruct (alloc_load k n h p h2 t Hh Hn E2 Et) as (-> & H2 & N2 & _).
  destruct (div_at _ _ _ _ _ _ _ _ H2 Hx E3) as [H3 A3].
  destruct (store_at _ _ _ _ _ H3 E4 ltac:(lia)) as [H4 A4].
  by destruct (free_at k n _ _ _ H4 E5 ltac:(lia) ltac:(lia) ltac:(rewrite A4, A3 by lia; exact N2)).
Qed.

(** ** Instructions *)

Definition at_pos (k : Z) (m : machine) : Prop := heap_at k (bn m).

Create HintDb counting.
Ltac hp := walk ltac:(eauto 8 with counting).
#[export] Hint Resolve gives_ok gives_if gives_StopExec : counting.
#[export] Hint Extern 1 (both _ _ (_, _)) => (split; cbn [fst snd]) : counting.

(** Only [set_bn] moves the heap. *)
Lemma pos_cpu k f m : at_pos k m -> at_pos k (with_cpu f m).
Proof. done. Qed.
Lemma pos_print k s m : at_pos k m -> at_pos k (print s m).
Proof. done. Qed.
Lemma pos_storage k s m : at_pos k m -> at_pos k (set_storage s m).
Proof. done. Qed.
Lemma pos_move k d m : at_pos k m -> at_pos k (move_sp d m).
Proof. done. Qed.
#[export] Hint Resolve pos_cpu pos_print pos_storage pos_move : counting.

Lemma gives_mono {A} (P Q : A -> Prop) x : gives P x -> (forall a, P a -> Q a) -> gives Q x.
Proof. intros H HPQ a E. by apply HPQ, H. Qed.
Lemma gives_at k j x : gives (at_pos j) x -> j = k -> gives (at_pos k) x.
Proof. by intros H <-. Qed.

Section charging.
Context (k : Z) (m : machine) (Hm : at_pos k m).

(** A loaded register has sixteen digits. *)
Lemma pos_load_reg r : gives (both (fun a => length a = 16%nat) (at_pos (k + 65))) (load_reg r m).
Proof.
  intros [a m1] H. unfold load_reg in H. apply obind_ok in H as ([p h] & E & H).
  apply obind_ok in H as (y & _ & H). apply Ok_inj, pair_equal_spec in H as [<- <-].
  split; cbn [fst snd]; [by rewrite length_set_bignum|]. by eapply reg_to_bignum_at.
Qed.
Lemma pos_UseGas v : gives (at_pos (k + 65)) (UseGas v m).
Proof.
  intros m1 H. unfold UseGas, helper_error_message in H. apply obind_ok in H as ([x m2] & E & H).
  apply pos_load_reg in E as [_ E]. cbn [fst snd] in E.
  destruct (v_bignum_gt _ _) in H; apply obind_ok in H as (g & _ & H); by apply Ok_inj in H as <-.
Qed.
Lemma pos_USEGAS v : gives (at_pos (k + 65)) (USEGAS v m).
Proof. apply pos_UseGas. Qed.

Lemma pos_stack_set i v : gives (at_pos k) (stack_set i v m).
Proof. unfold stack_set. hp. Qed.
Lemma pos_stack_arr_set i v : gives (at_pos k) (stack_arr_set i v m).
Proof. unfold stack_arr_set. hp. Qed.
Lemma pos_data_bus_set i v : gives (at_pos k) (data_bus_set i v m).
Proof. unfold data_bus_set. hp. Qed.
Lemma pos_put_result i a : gives (at_pos k) (put_result i a m).
Proof. unfold put_result. hp. Qed.
Lemma pos_GetSingle : gives (both (fun _ => True) (at_pos k)) (GetSingleBlockFromStack m).
Proof. unfold GetSingleBlockFromStack. hp. Qed.
Lemma pos_SaveToStorage a : gives (at_pos k) (SaveToStorage a m).
Proof. unfold SaveToStorage. cbn [mainStorage with_cpu]. destruct (mainStorage m); hp. Qed.
Lemma pos_LoadFromStorage a : gives (at_pos k) (LoadFromStorage a m).
Proof. unfold LoadFromStorage. destruct (find_node _ _); hp. Qed.
Lemma pos_KeccakAlg over a b : gives (at_pos k) (KeccakAlg over a b m).
Proof. unfold KeccakAlg. hp. Qed.
Lemma pos_mod x y : Z.of_nat (length x) < 2 ^ 16 -> Z.of_nat (length y) < 2 ^ 16 ->
  gives (both (fun _ => True) (at_pos k)) (lift_heap (v_bignum_mod (bn m) x y) m).
Proof.
  intros Hx Hy [a m1] H. unfold lift_heap in H. apply obind_ok in H as ([h a'] & E & H).
  apply Ok_inj, pair_equal_spec in H as [<- <-]. split; [done|].
  exact (mod_at _ _ _ _ _ _ Hm Hx Hy E).
Qed.
Lemma pos_div x y rem : Z.of_nat (length x) < 2 ^ 16 ->
  gives (both (fun _ => True) (at_pos k)) (let* (h, a, _) := v_bignum_div (bn m) x y rem in Ok (a, set_bn h m)).
Proof.
  intros Hx [a m1] H. apply obind_ok in H as ([[h a'] r] & E & H).
  apply Ok_inj, pair_equal_spec in H as [<- <-]. split; [done|].
  exact (proj1 (div_at _ _ _ _ _ _ _ _ Hm Hx E)).
Qed.
End charging.
#[export] Hint Extern 1 (Z.of_nat (length _) < _) => lia : counting.
#[export] Hint Resolve pos_load_reg pos_UseGas pos_USEGAS pos_stack_set pos_stack_arr_set pos_data_bus_set
  pos_put_result pos_GetSingle pos_SaveToStorage pos_LoadFromStorage pos_KeccakAlg pos_mod : counting.

Lemma pos_push4 k m a b c d : at_pos k m -> gives (at_pos k) (push4 a b c d m).
Proof. intros. unfold push4. hp. Qed.
#[export] Hint Resolve pos_push4 : counting.
Lemma pos_PushSingle k m v : at_pos k m -> gives (at_pos k) (PushSingleBlockToStack v m).
Proof. intros. unfold PushSingleBlockToStack. hp. Qed.
Lemma pos_mstore_word k n i w a m : at_pos k m -> gives (at_pos k) (mstore_word n i w a m).
Proof. revert i a m; induction n as [|n IH]; intros i a m Hm; cbn [mstore_word]; hp. Qed.
Lemma pos_push_blocks k n j c m : at_pos k m -> gives (at_pos k) (push_blocks n j c m).
Proof. revert j m; induction n as [|n IH]; intros j m Hm; cbn [push_blocks]; hp. Qed.
Lemma pos_push_zeros k n j m : at_pos k m -> gives (at_pos k) (push_zeros n j m).
Proof. revert j m; induction n as [|n IH]; intros j m Hm; cbn [push_zeros]; hp. Qed.
Lemma pos_swap_round k m c i f : at_pos k m -> gives (at_pos k) (swap_round c i f m).
Proof. intros. unfold swap_round. hp. Qed.
#[export] Hint Resolve pos_PushSingle pos_mstore_word pos_push_blocks pos_push_zeros pos_swap_round : counting.

Lemma pos_MStoreInst k m a : at_pos k m -> gives (at_pos k) (MStoreInst a m).
Proof. intros. unfold MStoreInst. hp. Qed.
Lemma pos_MloadInst k m a : at_pos k m -> gives (at_pos k) (MloadInst a m).
Proof. intros. unfold MloadInst. hp. Qed.
Lemma pos_DupOp k m c : at_pos k m -> gives (at_pos k) (DupOp c m).
Proof. intros. unfold DupOp. hp. Qed.
Lemma pos_SwapOp k m c : at_pos k m -> gives (at_pos k) (SwapOp c m).
Proof. intros. unfold SwapOp. hp. Qed.
Lemma pos_PushInst k m c : at_pos k m -> gives (at_pos k) (PushInst c m).
Proof.
  intros. unfold PushInst. cbv zeta. walk_step ltac:(eauto 8 with counting).
  eapply gives_bind; [|intros ? ?; hp]. apply gives_if; hp.
Qed.
Lemma pos_KeccakAlgStub k over m : at_pos k m -> gives (at_pos k) (KeccakAlgStub over m).
Proof. intros. unfold KeccakAlgStub. hp. Qed.
#[export] Hint Resolve pos_MStoreInst pos_MloadInst pos_DupOp pos_SwapOp pos_PushInst pos_KeccakAlgStub : counting.

(** ** Arithmetic and comparison *)

Lemma length_add_carry x c : length (add_carry x c) = length x.
Proof. revert c; induction x as [|d x IH]; intros c; cbn [add_carry]; [done|]. destruct (_ =? _); cbn [length]; by rewrite ?IH. Qed.
Lemma length_add_any x y : length (v_bignum_add x y) = length x.
Proof.
  unfold v_bignum_add. generalize 0. revert y; induction x as [|d x IH]; intros y c; [by destruct y|].
  destruct y as [|e y]; cbn [add_loop]; [apply length_add_carry|]. cbn [length]. by rewrite IH.
Qed.
Lemma length_mul_any x y : gives (fun p => (length p <= length x)%nat) (v_bignum_mul x y).
Proof. unfold v_bignum_mul. destruct (_ <? _)%nat; [by intros ? [=]|]. apply gives_ok. unfold mul_digits. rewrite length_map, length_take. lia. Qed.

(** Registers the two switches of [DoArithm] and [DoCompare] load. *)
Definition arithm_loads (o : Z) : Z :=
  if ((1 <=? o) && (o <=? 7)) || (o =? 10) || (o =? 11) then 3
  else if (o =? 8) || (o =? 9) then 4 else 0.
Definition compare_loads (o : Z) : Z :=
  if (o =? 5) || (o =? 9) then 2
  else if ((0 <=? o) && (o <=? 4)) || ((6 <=? o) && (o <=? 8)) || (o =? 10) then 3 else 0.

Definition sized (r : list Z * list Z * list Z * Z * Z) : Prop :=
  let '(a, b, c, _, _) := r in length a = 16%nat /\ length b = 16%nat /\ length c = 16%nat.

Lemma charged_op o : arithm_loads o = 0 \/ 1 <= o <= 11 /\ 3 <= arithm_loads o.
Proof. unfold arithm_loads. repeat match goal with |- context [if ?b then _ else _] => destruct b eqn:? end; lia. Qed.

Lemma pos_arithm_args k m o s : at_pos k m ->
  gives (both sized (at_pos (k + 65 * Z.max 0 (arithm_loads o - 1)))) (arithm_args o s m).
Proof.
  intros Hm. unfold arithm_args, arithm_loads. cbv zeta. destruct (_ || _); [|destruct (_ || _)].
  - change (65 * Z.max 0 (3 - 1)) with (65 + 65). rewrite Z.add_assoc. hp. all: by split_and!.
  - change (65 * Z.max 0 (4 - 1)) with (65 + 65 + 65). rewrite !Z.add_assoc. hp. all: by split_and!.
  - apply gives_ok. split; [done|]. by rewrite Z.add_0_r.
Qed.

Section op.
Context (k : Z) (m : machine) (Hm : at_pos k m) (a b c : list Z) (w : Z).
Context (Ha : length a = 16%nat) (Hb : length b = 16%nat) (Hc : length c = 16%nat).

Lemma pos_arithm_op o :
  gives (both (fun _ => True) (at_pos (k + 65 * (if arithm_loads o =? 0 then 0 else 1)))) (arithm_op o a b c w m).
Proof.
  assert (length (v_bignum_add a b) = 16)%nat as Hs by (by rewrite length_add_any).
  pose proof (length_mul_any a b) as Hp. rewrite Ha in Hp.
  destruct (Z.eqb_spec (arithm_loads o) 0) as [E|E].
  - rewrite Z.mul_0_r, Z.add_0_r. unfold arithm_loads in E. unfold arithm_op, helper_error_message.
    by_opcode o ltac:(idtac; first [discriminate E | hp]).
  - rewrite Z.mul_1_r. destruct (charged_op o) as [?|[Ho _]]; [lia|]. clear E.
    assert (forall g (f : machine -> outcome (list Z * machine)),
      (forall m1, at_pos (k + 65) m1 -> gives (both (fun _ => True) (at_pos (k + 65))) (f m1)) ->
      gives (both (fun _ => True) (at_pos (k + 65))) (obind (UseGas g m) f)) as Hg.
    { intros g f Hf. eapply gives_bind; [by apply pos_UseGas|done]. }
    unfold arithm_op. by_opcode o ltac:(idtac; first [exfalso; lia
      | apply Hg; intros m1 H1; clear Hg; first [apply pos_div; [done|lia] | by hp
        | eapply gives_bind; [exact Hp | intros p Hlp; cbn beta in Hlp; apply pos_mod; [done|lia|lia]]]]).
Qed.
End op.

Lemma pos_DoArithm k m o : at_pos k m -> gives (at_pos (k + 65 * arithm_loads o)) (DoArithm o m).
Proof.
  intros Hm. unfold DoArithm. cbv zeta. eapply gives_bind; [by apply pos_arithm_args|].
  intros [[[[[a b] c] w] s] m1] [(Ha & Hb & Hc) H1]. cbn [fst snd] in H1.
  eapply gives_bind; [exact (pos_arithm_op _ _ (pos_cpu _ _ _ H1) a b c w Ha Hb Hc o)|].
  intros [r m2] [_ H2]. cbn [fst snd] in H2. eapply gives_at; [by apply pos_put_result|].
  destruct (charged_op o) as [->|[_ ?]]; [cbn [Z.eqb]; lia|]. destruct (Z.eqb_spec (arithm_loads o) 0); lia.
Qed.

Lemma pos_compare_args k m o s : at_pos k m ->
  gives (both (fun _ => True) (at_pos (k + 65 * Z.max 0 (compare_loads o - 1)))) (compare_args o s m).
Proof.
  intros Hm. unfold compare_args, compare_loads. cbv zeta.
  destruct ((o =? 5) || (o =? 9)); [|match goal with |- context [if ?b then _ else _] => destruct b end].
  - change (65 * Z.max 0 (2 - 1)) with 65. hp.
  - change (65 * Z.max 0 (3 - 1)) with (65 + 65). rewrite Z.add_assoc. hp.
  - apply gives_ok. split; [done|]. by rewrite Z.add_0_r.
Qed.

Lemma compare_op_range o :
  (0 <=? o) && (o <=? 10) = negb (compare_loads o =? 0) /\ (compare_loads o = 0 \/ 2 <= compare_loads o).
Proof. unfold compare_loads. repeat match goal with |- context [if ?b then _ else _] => destruct b eqn:? end; lia. Qed.

Lemma pos_DoCompare k m o : at_pos k m -> gives (at_pos (k + 65 * compare_loads o)) (DoCompare o m).
Proof.
  intros Hm. unfold DoCompare. cbv zeta. eapply gives_bind; [by apply pos_compare_args|].
  intros [[[[a b] w] s] m1] [_ H1]. cbn [fst snd] in H1. destruct (compare_op_range o) as [-> Ho].
  eapply (gives_bind (at_pos (k + 65 * compare_loads o))); [|intros; by apply pos_put_result].
  destruct (Z.eqb_spec (compare_loads o) 0) as [E|E]; cbn [negb].
  - rewrite E in *. by apply gives_ok.
  - eapply gives_at; [eapply pos_UseGas, pos_cpu, H1|lia].
Qed.
#[export] Hint Resolve pos_DoArithm pos_DoCompare : counting.

(** ** All opcodes *)

Definition between (lo hi o : Z) : Z := if (lo <=? o) && (o <=? hi) then 1 else 0.

Lemma pos_AccountsData k m o : at_pos k m -> gives (at_pos (k + 65 * between 0 12 o)) (AccountsData o m).
Proof.
  intros Hm. unfold AccountsData, GetAddress, GetBalance, GetOrigin, GetCaller, CallValue, GetInputData,
    CallDataSize, CallDataCopy, GetCodeSize, CodeCopy, GetGasPrice, ExtCodeSize, ExtCodeCopy, gas_push, between.
  by_opcode o ltac:(idtac; cbn [Z.leb Z.compare Pos.compare Pos.compare_cont andb]; first
    [by apply (gives_at _ (k + 65)); [hp|lia] | by apply (gives_at _ k); [hp|lia]]).
Qed.
Lemma pos_BlockChain k m o : at_pos k m -> gives (at_pos (k + 65 * between 0 5 o)) (BlockChain o m).
Proof.
  intros Hm. unfold BlockChain, BlockChainHash, GetCoinBase, GetTimeStamp, GetNumber, GetDifficulty,
    GetGasLimit, gas_push, between.
  by_opcode o ltac:(idtac; cbn [Z.leb Z.compare Pos.compare Pos.compare_cont andb]; first
    [by apply (gives_at _ (k + 65)); [hp|lia] | by apply (gives_at _ k); [hp|lia]]).
Qed.
Lemma pos_SystemOps k m o : at_pos k m -> gives (at_pos (k + 65 * between 0 4 o)) (SystemOps o m).
Proof.
  intros Hm. unfold SystemOps, CreateAccount, MakeCall, MakeCallCode, DelegateCall, Return, between.
  by_opcode o ltac:(idtac; cbn [Z.leb Z.compare Pos.compare Pos.compare_cont andb]; first
    [by apply (gives_at _ (k + 65)); [hp|lia] | by apply (gives_at _ k); [hp|lia]]).
Qed.
Lemma pos_gen_mstore8 k m a : at_pos k m -> gives (at_pos (k + 65)) (gen_mstore8 a m).
Proof. intros. unfold gen_mstore8. hp. Qed.
Lemma pos_gen_gas k m : at_pos k m -> gives (at_pos (k + 65)) (gen_gas m).
Proof. intros. unfold gen_gas. hp. Qed.
Lemma pos_gen_push k m c : at_pos k m -> gives (at_pos (k + 65)) (gen_push c m).
Proof. intros. unfold gen_push. hp. Qed.
#[export] Hint Resolve pos_AccountsData pos_BlockChain pos_SystemOps pos_gen_mstore8 pos_gen_gas pos_gen_push : counting.
Lemma pos_gen_mem_op k m o : at_pos k m -> gives (at_pos (k + 65)) (gen_mem_op o m).
Proof.
  intros Hm. unfold gen_mem_op, MemOps. destruct ((0 <=? o) && (o <=? 11)) eqn:E; [cbn [obind]|by intros ? [=]].
  apply (gives_bind (both (fun _ => True) (at_pos k))); [apply gives_if; hp|intros [a m1] [_ H1]; cbn [fst snd] in *].
  unfold Pop, LoadFromStorageStub, SaveToStorageStub, PcOp, MSizeOp.
  by_opcode o ltac:(idtac; first [discriminate E | by hp]).
Qed.
#[export] Hint Resolve pos_gen_mem_op : counting.

(** How many registers the code of an instruction loads, by the row of the
    opcode table. *)
Definition reg_loads (insn : Z) : Z :=
  let o := insn mod 16 in
  match insn / 16 with
  | 0 => arithm_loads o
  | 1 => compare_loads o
  | 2 => between 0 0 o
  | 3 => between 0 12 o
  | 4 => between 0 5 o
  | 5 | 6 | 7 | 8 | 9 => 1
  | 10 => between 0 7 o
  | 15 => between 0 4 o
  | _ => 0
  end.

Lemma mask_opcode o : 0 <= o < 16 -> u32 (Z.land o 0xFFFFFFFF) = o.
Proof. intros Ho. change 0xFFFFFFFF with (Z.ones 32). rewrite Z.land_ones by lia. unfold u32. rewrite !(Z.mod_small o) by lia. done. Qed.

Lemma pos_genBlock_Main k over insn m : is_u8 insn -> at_pos k m ->
  gives (at_pos (k + 65 * reg_loads insn)) (genBlock_Main over insn m).
Proof.
  intros Hu Hm. rewrite genBlock_Main_row by done. unfold row_effect, reg_loads, ArithmStub, CompareStub. cbv zeta.
  assert (0 <= insn / 16 < 16) as Hh by (unfold is_u8 in Hu; dm).
  assert (0 <= insn mod 16 < 16) as Ho by dm. pose proof (mask_opcode _ Ho) as Em.
  assert (insn / 16 = 2 -> (insn =? 0x20) = (insn mod 16 <=? 0)) as E2 by (intros; apply Bool.eq_iff_eq_true; rewrite Z.eqb_eq, Z.leb_le; dm).
  assert (forall (x : outcome machine), gives (at_pos (k + 65)) x -> gives (at_pos (k + 65 * 1)) x) as H1 by done.
  assert (forall (x : outcome machine), gives (at_pos k) x -> gives (at_pos (k + 65 * 0)) x) as H0
    by (intros x; by rewrite Z.add_0_r).
  destruct (row_cases _ Hh) as [H|[H|[H|[H|[H|[H|[H|[H|[H|[H|[H|[H|[H|[H|[H|H]]]]]]]]]]]]]]]; rewrite H.
  all: try solve [apply H1; hp | apply H0; hp | eauto with counting].
  - unfold ArithmOps. destruct (_ && _); [|by intros ? [=]]. cbn [obind]. rewrite Em. by apply pos_DoArithm.
  - unfold CompareLogOps. destruct (_ && _); [|by intros ? [=]]. cbn [obind]. rewrite Em. by apply pos_DoCompare.
  - rewrite (E2 H). unfold between. replace (0 <=? insn mod 16) with true by lia. cbn [andb].
    destruct (_ <=? 0); [apply H1; hp|apply H0; hp].
  - unfold between. replace ((0 <=? insn mod 16) && (insn mod 16 <=? 7)) with (insn mod 16 <? 8) by lia.
    destruct (_ <? 8); [apply H1; hp|apply H0; hp].
Qed.
#[export] Hint Resolve pos_genBlock_Main : counting.

(** ** Blocks and runs *)

Fixpoint total (l : list Z) : Z :=
  match l with [] => 0 | i :: l' => reg_loads i + total l' end.
Fixpoint jumps (l : list Z) : Z :=
  match l with [] => 0 | i :: l' => (if i =? JUMP then 1 else 0) + jumps l' end.

Lemma total_app l l' : total (l ++ l') = total l + total l'.
Proof. induction l; simpl; lia. Qed.
Lemma jumps_app l l' : jumps (l ++ l') = jumps l + jumps l'.
Proof. induction l; simpl; lia. Qed.

Lemma between_range lo hi o : 0 <= between lo hi o <= 1.
Proof. unfold between. destruct (_ && _); lia. Qed.
Lemma loads_nonneg insn : 0 <= reg_loads insn.
Proof.
  unfold reg_loads, arithm_loads, compare_loads. cbv zeta. pose proof between_range as B.
  repeat case_match; try lia; apply B.
Qed.
Lemma jumps_total l : 0 <= jumps l <= total l.
Proof.
  induction l as [|i l IH]; [done|]. cbn [jumps total]. pose proof (loads_nonneg i).
  destruct (Z.eqb_spec i JUMP) as [->|]; [|lia]. change (reg_loads JUMP) with 1. lia.
Qed.

Lemma pos_run_insns k over l m : Forall (fun i => is_u8 (ti_insn i)) l -> at_pos k m ->
  gives (at_pos (k + 65 * total (map ti_insn l))) (run_insns over l m).
Proof.
  intros Hl. revert k m; induction Hl as [|i l Hi Hl IH]; intros k m Hm; cbn [run_insns map total].
  { apply gives_ok. by rewrite Z.add_0_r. }
  eapply gives_bind; [by apply pos_genBlock_Main|]. intros m1 H1. cbv zeta.
  replace (k + 65 * (reg_loads (ti_insn i) + total (map ti_insn l)))
    with (k + 65 * reg_loads (ti_insn i) + 65 * total (map ti_insn l)) by lia.
  apply IH. by destruct (ti_add i).
Qed.

(** [n] blocks lead from [m] to [m'], executing the instructions [l]. *)
Inductive executes (room : Z -> nat -> bool) (over : list Z) (e : Z) : nat -> machine -> list Z -> machine -> Prop :=
| executes_done m : executes room over e 0 m [] m
| executes_block n m l npc ch m1 ls m2 :
    gen_intermediate_code (room (env_pc (cpu m))) e (ram m) (env_pc (cpu m)) (changed_pc m) = Ok (l, npc, ch) ->
    exec_code over l npc (set_changed_pc ch m) = Ok m1 ->
    executes room over e n m1 ls m2 ->
    executes room over e (S n) m (map ti_insn l ++ ls) m2.

Lemma run_executes n room over e m m' :
  run n room over e m = Ok m' <-> exists ls, executes room over e n m ls m'.
Proof.
  split.
  - revert m; induction n as [|n IH]; intros m H; cbn [run] in H.
    { apply Ok_inj in H as <-. eexists. constructor. }
    apply obind_ok in H as (m1 & E & H). apply IH in H as (ls & H). unfold exec_tb in E.
    apply obind_ok in E as ([[l npc] ch] & Eg & E). eexists. by econstructor.
  - intros (ls & H). induction H as [|n m l npc ch m1 ls m2 Eg E _ IH]; [done|]. cbn [run].
    unfold exec_tb. rewrite Eg. cbn [obind]. by rewrite E.
Qed.

(** The registers loaded in a run are counted by the position of the heap. *)
Lemma executes_pos room over e n m ls m' k : executes room over e n m ls m' -> at_pos k m ->
  at_pos (k + 65 * total ls) m'.
Proof.
  intros H. revert k; induction H as [|n m l npc ch m1 ls m2 Eg E _ IH]; intros k Hm.
  { by rewrite Z.add_0_r. }
  rewrite total_app. replace (k + 65 * (total (map ti_insn l) + total ls))
    with (k + 65 * total (map ti_insn l) + 65 * total ls) by lia.
  apply IH. apply gen_loop_u8 in Eg. unfold exec_code in E. apply obind_ok in E as (m0 & E & H).
  apply Ok_inj in H as <-. pose proof (pos_run_insns k over l (set_changed_pc ch m) Eg Hm m0 E).
  unfold tb_end. by destruct (_ =? _).
Qed.

Lemma executes_bound room over e n m ls m' k : executes room over e n m ls m' -> at_pos k m ->
  k + 65 * total ls <= HEAP_SIZE.
Proof. intros H Hm. by destruct (executes_pos _ _ _ _ _ _ _ _ H Hm) as (_ & _ & _ & ?). Qed.

(** ** Progress *)

Lemma u64_add_u64 a b : u64 (u64 a + b) = u64 (a + b).
Proof. unfold u64. by rewrite Z.add_mod_idemp_l by done. Qed.

(** An instruction other than JUMP adds to [pc] at most its length, and a PUSH
    at least two. *)
Lemma insn_advance over insn m m' : is_u8 insn -> insn <> JUMP -> is_u64 (pc (cpu m)) ->
  genBlock_Main over insn m = Ok m' -> exists d,
  pc (cpu m') = u64 (pc (cpu m) + d) /\
  (if is_push insn then d = get_ppdl_shift_pc insn /\ 2 <= d else d = 0) /\
  is_pc_const_changed (cpu m') = if is_push insn then 1 else is_pc_const_changed (cpu m).
Proof.
  intros Hu Hj Hp H. destruct (is_push insn) eqn:E.
  - rewrite genBlock_Main_push in H by done. apply gen_push_flow in H as (Hpc & Hf & _).
    exists (extract32 insn 0 5 + 2). split_and!; try done.
    + rewrite Hpc, u64_add_u64. f_equal. lia.
    + unfold get_ppdl_shift_pc. unfold is_push, has_mask in E. by rewrite E.
    + rewrite extract_low by lia. pose proof (Z.mod_pos_bound insn (2 ^ 5)). lia.
  - apply genBlock_Main_keeps in H as [Hpc Hf _ _]; try done. exists 0. rewrite Z.add_0_r, Hpc, u64_id by done. done.
Qed.

(** One instruction of a block and the increment after it. *)
Lemma block_step over insn add l m m' : is_u8 insn -> insn <> JUMP -> is_u64 (pc (cpu m)) ->
  run_insns over (mkInsn insn add :: l) m = Ok m' -> (is_push insn = true -> add = false) ->
  exists m1 d, run_insns over l m1 = Ok m' /\ is_u64 (pc (cpu m1)) /\ pc (cpu m1) = u64 (pc (cpu m) + d) /\
  0 <= d <= get_ppdl_shift_pc insn /\
  (if is_push insn then 2 <= d /\ is_pc_const_changed (cpu m1) = 1
   else is_pc_const_changed (cpu m1) = is_pc_const_changed (cpu m)).
Proof.
  intros Hu Hj Hp H Ha. cbn [run_insns ti_insn ti_add] in H. apply obind_ok in H as (m1 & E & H). cbv zeta in H.
  destruct (insn_advance over insn m m1 Hu Hj Hp E) as (d & Hd & Hs & Hf). pose proof (shift_pc_range insn).
  destruct add.
  - destruct (is_push insn); [by specialize (Ha eq_refl)|]. subst d. eexists _, 1. split; [exact H|].
    cbn [cpu with_cpu pc set_pc is_pc_const_changed]. rewrite Hd, Z.add_0_r, u64_add_u64.
    split_and!; try done; try lia; apply u64_range.
  - exists m1, d. split_and!; try done; try (rewrite Hd; apply u64_range); destruct (is_push insn); try lia; by destruct Hs.
Qed.

(** The instructions of a block without JUMP add to [pc] no more than the size
    of the block; with a PUSH among them, at least two. *)
Lemma block_advance over f room e s k r num p c l npc ch m m' :
  gen_loop f room e s k r num p c = Ok (l, npc, ch) -> 0 <= p -> ram_size r < 2 ^ 32 -> no_jump l ->
  is_u64 (pc (cpu m)) -> run_insns over l m = Ok m' ->
  p < ram_size r /\ p < npc <= ram_size r + 32 /\ exists d,
  pc (cpu m') = u64 (pc (cpu m) + d) /\ 0 <= d <= npc - p /\
  (if has_push l then 2 <= d /\ is_pc_const_changed (cpu m') = 1
   else is_pc_const_changed (cpu m') = is_pc_const_changed (cpu m)).
Proof.
  revert num p c l m; induction f as [|f IH]; intros num p c l m H Hp Hr Hj Hm Hrun; cbn [gen_loop] in H; [done|].
  apply obind_ok in H as ([insn np] & Hd & H).
  assert (p < ram_size r) as Hpr.
  { unfold disas_ppdl_insn, ram_byte in Hd. destruct (_ && _) eqn:E in Hd; [|done]. lia. }
  destruct (disas_next _ _ _ _ Hd ltac:(lia)) as [Hn En]. pose proof (disas_insn _ _ _ _ Hd) as [Hu _].
  assert (exists add l1, l = mkInsn insn add :: l1 /\ (is_push insn = true -> add = false) /\
    (l1 = [] /\ npc = np \/
     exists num' c', gen_loop f room e s k r num' np c' = Ok (l1, npc, ch))) as (add & l1 & -> & Ha & Hl1).
  { destruct (np =? e); [inv_ok; eexists _, _; split_and!; try done; by left|].
    assert (is_push insn = true -> ((if is_push insn then 1 else c) =? 0) = false) by (by intros ->).
    destruct (_ && _); [|inv_ok; eexists _, _; split_and!; try done; by left].
    apply obind_ok in H as ([[l2 p2] c2] & E & H). inv_ok. eexists _, _. split_and!; try done. right. eauto. }
  destruct (block_step over insn add l1 m m' Hu (Forall_inv Hj) Hm Hrun Ha) as (m1 & d & H1 & H2 & H3 & H4 & H5).
  split; [done|]. destruct Hl1 as [[-> ->]|(num' & c' & Hg)].
  - apply Ok_inj in H1 as <-. split; [lia|]. exists d. split_and!; try done; try lia.
    unfold has_push. cbn [existsb ti_insn]. by rewrite orb_false_r.
  - destruct (IH _ _ _ _ _ Hg ltac:(lia) Hr (Forall_inv_tail Hj) H2 H1) as (_ & Hnp & d' & D1 & D2 & D3).
    split; [lia|]. exists (d + d'). split_and!; try lia.
    + rewrite D1, H3, u64_add_u64. f_equal. lia.
    + unfold has_push in *. cbn [existsb ti_insn]. destruct (is_push insn); cbn [orb].
      * split; [lia|]. destruct (existsb _ l1); [tauto|]. rewrite D3. tauto.
      * destruct (existsb _ l1); [split; [lia|tauto]|congruence].
Qed.

(** A block without JUMP moves the program counter forward. *)
Lemma block_progress room over e m l npc ch m' :
  gen_intermediate_code room e (ram m) (env_pc (cpu m)) (changed_pc m) = Ok (l, npc, ch) ->
  ram_size (ram m) + 32 < 2 ^ 32 -> is_u64 (pc (cpu m)) -> is_pc_const_changed (cpu m) = 0 -> no_jump l ->
  exec_code over l npc (set_changed_pc ch m) = Ok m' -> env_pc (cpu m) < env_pc (cpu m').
Proof.
  intros Hg Hr Hm Hf Hj H. unfold exec_code in H. apply obind_ok in H as (m1 & H1 & H). apply Ok_inj in H as <-.
  pose proof (env_pc_range (cpu m)) as Hp.
  destruct (block_advance over _ _ _ _ _ _ _ _ _ _ _ _ (set_changed_pc ch m) m1 Hg ltac:(lia) ltac:(lia) Hj Hm H1)
    as (Hpr & Hn & d & D1 & D2 & D3). cbn [cpu set_changed_pc] in D1, D3.
  assert (env_pc (cpu (tb_end npc m1)) = if has_push l then u32 (u64 (pc (cpu m) + d)) else u32 npc) as ->.
  { unfold tb_end. destruct (has_push l).
    - destruct D3 as [_ D3]. rewrite D3. cbn [Z.eqb]. unfold env_pc. cbn [cpu with_cpu pc set_is_pc_const_changed]. by rewrite D1.
    - rewrite D3, Hf. done. }
  unfold env_pc in *. destruct (has_push l).
  - unfold u64. assert (u32 ((pc (cpu m) + d) mod 2 ^ 64) = u32 (pc (cpu m)) + d) as ->; [|lia].
    unfold u32. rewrite Z.mod_mod_divide by (exists (2 ^ 32); lia).
    rewrite <- Z.add_mod_idemp_l by lia. fold (u32 (pc (cpu m))). apply Z.mod_small. lia.
  - rewrite (u32_id npc) by (unfold is_u32; lia). lia.
Qed.

Lemma no_jump_jumps l : no_jump l \/ 1 <= jumps (map ti_insn l).
Proof.
  induction l as [|i l IH]; [left; constructor|]. cbn [map jumps]. pose proof (jumps_total (map ti_insn l)).
  destruct (Z.eqb_spec (ti_insn i) JUMP); [right; lia|]. destruct IH; [left; by constructor|right; lia].
Qed.

Lemma exec_code_flag over l npc m m' : exec_code over l npc m = Ok m' -> is_pc_const_changed (cpu m') = 0.
Proof. intros H. unfold exec_code in H. apply obind_ok in H as (m1 & _ & H). by apply Ok_inj in H as <-. Qed.

Lemma gen_first f room e s k r num p c l npc ch :
  gen_loop f room e s k r num p c = Ok (l, npc, ch) -> p < ram_size r.
Proof.
  destruct f; intros H; cbn [gen_loop] in H; [done|]. apply obind_ok in H as ([insn np] & Hd & _).
  unfold disas_ppdl_insn, ram_byte in Hd. destruct (_ && _) eqn:E in Hd; [|done]. lia.
Qed.

(** Between two jumps a run has at most one block per byte of memory. *)
Lemma executes_blocks G room over e n m ls m' :
  executes room over e n m ls m' -> typed_with G m -> ram_size (ram m) + 32 < 2 ^ 32 ->
  is_pc_const_changed (cpu m) = 0 -> (1 <= n)%nat ->
  Z.of_nat n + env_pc (cpu m) <= ram_size (ram m) * (1 + jumps ls).
Proof.
  intros H. induction H as [|n m l npc ch m1 ls m2 Eg E H IH]; intros Hm Hr Hf Hn; [lia|].
  pose proof (gen_first _ _ _ _ _ _ _ _ _ _ _ _ Eg) as Hp.
  pose proof (env_pc_range (cpu m)) as Hp0.
  pose proof (env_pc_range (cpu m1)) as Hp1.
  assert (ram m1 = ram m) as Er by (by apply exec_code_fixed in E as [_ ?]; [|by eapply gen_loop_u8]).
  assert (typed_with G m1) as Hm1.
  { eapply typed_exec_code; [| |exact E]; [by apply typed_changed|by eapply gen_loop_npc]. }
  rewrite jumps_app. pose proof (jumps_total ls). pose proof (jumps_total (map ti_insn l)).
  destruct n as [|n]. { nia. }
  specialize (IH Hm1 ltac:(by rewrite Er) (exec_code_flag _ _ _ _ _ E) ltac:(lia)). rewrite Er in IH.
  destruct (no_jump_jumps l) as [Hj|Hj].
  - pose proof (block_progress _ _ _ _ _ _ _ _ Eg Hr (ty_pc G _ Hm) Hf Hj E). nia.
  - nia.
Qed.

(** Every run ends: at most 32 jumps are made, as each loads a register. *)
Lemma run_length G room over e n m m' : at_pos 0 m -> typed_with G m -> ram_size (ram m) + 32 < 2 ^ 32 ->
  is_pc_const_changed (cpu m) = 0 -> run n room over e m = Ok m' -> Z.of_nat n <= 33 * ram_size (ram m) \/ n = 0%nat.
Proof.
  intros Hk Hm Hr Hf H. apply run_executes in H as (ls & H). destruct n as [|n]; [by right|]. left.
  pose proof (executes_bound _ _ _ _ _ _ _ _ H Hk). pose proof (jumps_total ls).
  pose proof (executes_blocks G _ _ _ _ _ _ _ H Hm Hr Hf ltac:(lia)) as Hn.
  pose proof (env_pc_range (cpu m)) as Hp0.
  assert (total ls <= 32) by (unfold HEAP_SIZE in *; lia). nia.
Qed.
