(* ===== verification/Evm.v ===== *)
(** * The abstract machine the emulator implements

    A machine on 256-bit words: a stack, a byte memory, a storage map and a
    gas counter.  [estep] is its step function; [models] relates a state of the
    emulator to a state of it.  [e_regs] counts the registers that can still be
    loaded into the bignum heap, which the emulator never gives back.

    [EvmSpec] shows that the translated code of every instruction implements
    the step. *)

From stdpp Require Import base numbers list option strings gmap.
From Stdlib Require Import ZArith Lia.
From S2P Require Import Prelude Words Bignum BignumSpec BignumHeap BignumStr Cpu Arithm ArithmSpec Storage Helpers HelpersSpec MemSpec PushSpec Keccak KeccakSpec Translate TranslateSpec.

Record evm := mkEvm {
  e_pc : Z;
  e_stack : list Z;       (* top first *)
  e_gas : Z;
  e_mem : list Z;         (* 1024 bytes *)
  e_msize : Z;
  e_store : gmap Z Z;
  e_out : list Z;
  e_regs : Z
}.

Definition put_stack (st : list Z) (s : evm) : evm :=
  mkEvm (e_pc s) st (e_gas s) (e_mem s) (e_msize s) (e_store s) (e_out s) (e_regs s).
Definition put_pc (p : Z) (s : evm) : evm :=
  mkEvm p (e_stack s) (e_gas s) (e_mem s) (e_msize s) (e_store s) (e_out s) (e_regs s).
Definition put_mem (b : list Z) (n : Z) (s : evm) : evm :=
  mkEvm (e_pc s) (e_stack s) (e_gas s) b n (e_store s) (e_out s) (e_regs s).
Definition put_store (st : gmap Z Z) (s : evm) : evm :=
  mkEvm (e_pc s) (e_stack s) (e_gas s) (e_mem s) (e_msize s) st (e_out s) (e_regs s).

(** Gas stops at zero and the shortage is only reported; [k] registers are
    used up on the way. *)
Definition charge (v k : Z) (s : evm) : evm :=
  mkEvm (e_pc s) (e_stack s) (gas_left (e_gas s) v) (e_mem s) (e_msize s) (e_store s)
    (e_out s ++ (if e_gas s <? v then out_of_gas else [])) (e_regs s - k).

(** ** Steps *)

Inductive eres := Next (s : evm) | Halt (code : Z) (out : list Z).

(** A stack word as an address, as [GetSingleBlockFromStack] reads it: of its
    low 64 bits, byte [k] is or-ed in at bit [k] (and not at bit [8 * k]). *)
Definition eaddr (w : Z) : Z := block_value (w mod 2 ^ 64).

Definition STACK_WORDS : nat := 512.
Definition epush (w : Z) (s : evm) : option evm :=
  if (length (e_stack s) <? STACK_WORDS)%nat then Some (put_stack (w :: e_stack s) s) else None.

Definition emem (a n : Z) (s : evm) : list Z := take (Z.to_nat n) (drop (Z.to_nat a) (e_mem s)).

(** One register for the charge. *)
Definition echarge (v : Z) (s : evm) : option evm :=
  if 1 <=? e_regs s then Some (charge v 1 s) else None.

(** Arithmetic, comparison and bit operations. *)
Definition earith (o : Z) (s : evm) : option evm :=
  match e_stack s with
  | a :: b :: st =>
      if ((1 <=? o) && (o <=? 7)) || (o =? 10) || (o =? 11) then
        if 4 <=? e_regs s then Some (put_stack (arith_result o a b 0 :: st) (charge (arith_gas o) 3 s)) else None
      else if (o =? 8) || (o =? 9) then
        match st with
        | c :: st =>
            if 5 <=? e_regs s then Some (put_stack (arith_result o a b c :: st) (charge (arith_gas o) 4 s)) else None
        | [] => None
        end
      else None
  | _ => None
  end.

Definition ecompare (o : Z) (s : evm) : option evm :=
  if (o =? 5) || (o =? 9) then
    match e_stack s with
    | a :: st => if 2 <=? e_regs s then Some (put_stack (compare_result o a 0 :: st) (charge 3 2 s)) else None
    | _ => None
    end
  else if (0 <=? o) && (o <=? 10) then
    match e_stack s with
    | a :: b :: st => if 3 <=? e_regs s then Some (put_stack (compare_result o a b :: st) (charge 3 3 s)) else None
    | _ => None
    end
  else None.

(** Memory and storage. *)
Definition emload (a : Z) (s : evm) : option evm :=
  if a + 32 <=? 1024 then epush (be_val (emem a 32 s)) s else None.
Definition emstore (a : Z) (s : evm) : option evm :=
  match e_stack s with
  | w :: st =>
      if a + 32 <=? 1024 then
        Some (put_stack st (put_mem (splice (Z.to_nat a) (be32 w) (e_mem s)) (Z.max (e_msize s) (a + 32)) s))
      else None
  | [] => None
  end.
Definition emstore8 (a : Z) (s : evm) : option evm :=
  match e_stack s with
  | w :: st =>
      if a <? 1024 then
        Some (put_stack st (put_mem (<[Z.to_nat a := w mod 256]> (e_mem s)) (Z.max (e_msize s) a) s))
      else None
  | [] => None
  end.
Definition esload (k : Z) (s : evm) : option evm := w ← e_store s !! k; epush w s.
Definition esstore (k : Z) (s : evm) : option evm :=
  match e_stack s with
  | w :: st => Some (put_stack st (put_store (<[k := w]> (e_store s)) s))
  | [] => None
  end.

(** SHA3 of at most 255 bytes. *)
Definition esha3 (s : evm) : option evm :=
  match e_stack s with
  | a :: b :: st =>
      if (eaddr b <=? 255) && (eaddr a + eaddr b <=? 1024)
      then epush (be_val (ref_keccak256 (emem (eaddr a) (eaddr b) s))) (put_stack st s)
      else None
  | _ => None
  end.

(** The group 0x50; JUMP is not a step of the abstract machine. *)
Definition emem_op (o : Z) (s : evm) : option evm :=
  let with_addr (g : Z) (f : Z -> evm -> option evm) :=
    match e_stack s with
    | a :: st => s ← echarge g (put_stack st s); f (eaddr a) s
    | [] => None
    end in
  match o with
  | 0 => match e_stack s with _ :: st => s ← echarge 2 s; Some (put_stack st s) | [] => None end
  | 1 => with_addr 3 emload
  | 2 => with_addr 3 emstore
  | 3 => with_addr 3 emstore8
  | 4 => with_addr 50 esload
  | 5 => with_addr 0 esstore
  | 7 => with_addr 10 (fun _ s => Some s)
  | 8 => s ← echarge 2 s; epush (e_pc s) s
  | 9 => s ← echarge 2 s; epush (e_msize s) s
  | 10 => s ← echarge 2 s; epush (e_gas s) s
  | 11 => echarge 1 s
  | _ => None
  end.

(** The environment opcodes: their cost and, for most, the register pushed. *)
Definition env_ops (c : CPUPPDLState) (insn : Z) : option (Z * option Z) :=
  match insn with
  | 0x30 => Some (2, Some (cur_addr c))
  | 0x31 => Some (20, None)
  | 0x32 => Some (2, Some (origin_addr c))
  | 0x33 => Some (2, Some (caller_addr c))
  | 0x34 => Some (2, None)
  | 0x35 => Some (3, None)
  | 0x36 => Some (2, Some (inp_data_size c))
  | 0x37 => Some (3, None)
  | 0x38 => Some (2, Some (elfSize c))
  | 0x39 => Some (3, None)
  | 0x3a => Some (2, Some (gas_price c))
  | 0x3b => Some (20, Some (ext_code_size c))
  | 0x3c => Some (20, None)
  | 0x40 => Some (20, Some 0)
  | 0x41 => Some (2, Some (CoinBase c))
  | 0x42 => Some (2, Some (TimeStamp c))
  | 0x43 => Some (2, Some (Number c))
  | 0x44 => Some (2, Some (Difficulty c))
  | 0x45 => Some (2, Some (GasLimit c))
  | _ => None
  end.

Definition eenv (env : Z -> option (Z * option Z)) (insn : Z) (s : evm) : option evm :=
  match env insn with
  | Some (g, Some v) => s ← echarge g s; epush v s
  | Some (g, None) => echarge g s
  | None => Some s
  end.

(** PUSH of the [n] bytes after the opcode; for 8, 16 and 24 bytes the
    emulator leaves part of the word unset. *)
Definition code_at (code : list Z) (a : Z) (n : nat) : list Z :=
  map (fun i => nth (Z.to_nat (a + Z.of_nat i)) code 0) (seq 0 n).
Definition epushn (code : list Z) (n : nat) (s : evm) : option evm :=
  if (n mod 8 =? 0)%nat && negb (n =? 32)%nat then None
  else s ← echarge 3 s; epush (be_val (code_at code (e_pc s + 1) n)) s.

Definition edup (k : nat) (s : evm) : option evm :=
  s ← echarge 3 s; w ← e_stack s !! k; epush w s.
Definition eswap (k : nat) (s : evm) : option evm :=
  s ← echarge 3 s;
  t ← e_stack s !! 0%nat; w ← e_stack s !! S k;
  Some (put_stack (<[0%nat := w]> (<[S k := t]> (e_stack s))) s).

Definition esystem (o : Z) (s : evm) : option evm :=
  match o with
  | 0 => echarge 32000 s
  | 1 | 2 | 4 => echarge 40 s
  | 3 => None
  | _ => Some s
  end.

(** RETURN ends the run: the result, or a message when the low word of the gas
    counter is zero. *)
Definition ereturn (s : evm) : option eres :=
  s ← echarge 0 s;
  if e_gas s mod 2 ^ 64 =? 0
  then Some (Halt (-1) (e_out s ++ [10] ++ codes "gas limit error" ++ [10]))
  else
    match e_stack s with
    | offs :: size :: _ =>
        if offs mod 2 ^ 64 + size mod 2 ^ 64 <=? 1024
        then Some (Halt 0 (e_out s ++ codes "0x" ++ hex_bytes (emem (offs mod 2 ^ 64) (size mod 2 ^ 64) s) ++ [10]))
        else None
    | _ => None
    end.

Definition eexec (env : Z -> option (Z * option Z)) (code : list Z) (insn : Z) (s : evm) : option evm :=
  if insn <? 0x10 then earith insn s
  else if insn <? 0x20 then ecompare (insn - 0x10) s
  else if insn =? 0x20 then s ← echarge 30 s; esha3 s
  else if insn <? 0x30 then Some s
  else if insn <? 0x50 then eenv env insn s
  else if insn <? 0x60 then emem_op (insn - 0x50) s
  else if insn <? 0x80 then epushn code (Z.to_nat (insn - 0x5f)) s
  else if insn <? 0x90 then edup (Z.to_nat (insn - 0x80)) s
  else if insn <? 0xa0 then eswap (Z.to_nat (insn - 0x90)) s
  else if insn <? 0xa8 then echarge (0x177 + (insn - 0xa0) * 0x177) s
  else if insn <? 0xf0 then Some s
  else esystem (insn - 0xf0) s.

(** The length of an instruction. *)
Definition insn_len (insn : Z) : Z := if (0x60 <=? insn) && (insn <? 0x80) then insn - 0x5e else 1.

Definition estep (env : Z -> option (Z * option Z)) (code : list Z) (s : evm) : option eres :=
  insn ← code !! Z.to_nat (e_pc s);
  if insn =? 0xf3 then ereturn s
  else s' ← eexec env code insn s; Some (Next (put_pc (e_pc s' + insn_len insn) s')).

(** [n] steps at most. *)
Fixpoint erun (env : Z -> option (Z * option Z)) (code : list Z) (n : nat) (s : evm) : option eres :=
  match n with
  | O => Some (Next s)
  | S n' =>
      r ← estep env code s;
      match r with
      | Next s => erun env code n' s
      | Halt c o => Some (Halt c o)
      end
  end.

(** ** The abstraction relation *)

Record models (env : Z -> option (Z * option Z)) (code : list Z) (m : machine) (s : evm) : Prop := mkModels {
  mo_pc : pc (cpu m) = e_pc s /\ 0 <= e_pc s;
  mo_stack : stack_is (cpu m) (rev (e_stack s));
  mo_gas : reg_wf (gas_available (cpu m)) /\ gas_of (cpu m) = e_gas s;
  mo_heap : bn_inv (bn m) /\ heap_pos (bn m) + 65 * e_regs s <= HEAP_SIZE;
  mo_mem : data_bus (cpu m) = e_mem s /\ length (e_mem s) = 1024%nat /\ Forall is_u8 (e_mem s);
  mo_msize : mem_size (cpu m) = e_msize s /\ is_u64 (e_msize s);
  mo_store : exists st, mainStorage m = Some st /\ storage_wf st /\ storage_map st = e_store s;
  mo_out : stdout m = e_out s;
  mo_code : ram_bytes (ram m) = code /\ Forall is_u8 code /\
    Z.of_nat (length code) + 33 <= ram_size (ram m) /\ Z.of_nat (length code) + 33 < 2 ^ 32;
  mo_env : forall i, env i = env_ops (cpu m) i;
  mo_env_u64 : forall i g v, env i = Some (g, Some v) -> is_u64 v
}.
