(* ===== verification/EvmSpec.v ===== *)
(** * The emulator implements the abstract machine

    One lemma per operation: from states related by [models], the translated
    code and the step of the abstract machine lead to related states.  Their
    union is the simulation [exec_refines] for one instruction and [run_refines]
    for a whole program. *)

From stdpp Require Import base numbers list option strings gmap.
From Stdlib Require Import ZArith Lia.
From S2P Require Import Prelude Words Bignum BignumSpec BignumHeap BignumStr Cpu Arithm ArithmSpec Storage Helpers HelpersSpec MemSpec PushSpec Keccak KeccakSpec Translate TranslateSpec Evm.

Section Refinement.
Context (env : Z -> option (Z * option Z)) (code : list Z) (over : list Z).
Abbreviation models := (models env code).

(** [f] takes every state related to [s] to one related to [s']. *)
Definition refines (f : machine -> outcome machine) (s s' : evm) : Prop :=
  forall m, models m s -> exists m', f m = Ok m' /\ models m' s'.

Lemma refines_bind f g s1 s2 s3 :
  refines f s1 s2 -> refines g s2 s3 -> refines (fun m => let* m := f m in g m) s1 s3.
Proof.
  intros Hf Hg m Hm. destruct (Hf m Hm) as (m1 & E & H1). destruct (Hg m1 H1) as (m2 & E2 & H2).
  exists m2. rewrite E. done.
Qed.

(** ** Rebuilding the relation *)

(** Only the stack changes. *)
Lemma models_restack m s c' st :
  models m s -> c' = set_sp (sp c') (set_stack_arr (stack_arr c') (cpu m)) -> stack_is c' (rev st) ->
  models (with_cpu (fun _ => c') m) (put_stack st s).
Proof.
  intros [] E Hs. set (a := sp c') in *. set (b := stack_arr c') in *. clearbody a b. subst c'.
  by split.
Qed.

Lemma models_push arr m s w :
  models m s -> stack_is (cpu (push_to arr (S (length (rev (e_stack s)))) m)) (rev (e_stack s) ++ [w]) ->
  models (push_to arr (S (length (rev (e_stack s)))) m) (put_stack (w :: e_stack s) s).
Proof. intros Hm Hs. apply (models_restack m s _ (w :: e_stack s) Hm); [by destruct m as [[]]|done]. Qed.

Lemma models_pop m s w st :
  models m s -> e_stack s = w :: st ->
  models (with_cpu (set_sp (u64 (4 * Z.of_nat (length (rev st)) - 1))) m) (put_stack st s).
Proof.
  intros Hm E. apply (models_restack m s _ st Hm); [by destruct m as [[]]|].
  pose proof (mo_stack _ _ _ _ Hm) as Hs. rewrite E in Hs. by eapply stack_pop.
Qed.

(** Gas is charged and the stack may change. *)
Lemma models_effect m m' s v k st :
  models m s -> effect v k m m' -> 0 <= v -> stack_is (cpu m') (rev st) ->
  models m' (put_stack st (charge v k s)).
Proof.
  intros Hm [Eg Eb Ep Eo (Es & Er & _ & _) Ec] Hv Hs.
  destruct Hm as [mo_pc0 _ mo_gas0 mo_heap0 mo_mem0 mo_msize0 mo_store0 mo_out0 mo_code0 mo_env0 mo_u0].
  destruct mo_gas0 as [Hg Hge]. destruct mo_heap0 as [_ Hroom].
  assert (0 <= gas_left (gas_of (cpu m)) v < 2 ^ 256) as Hr.
  { pose proof (reg_val_256 _ Hg). unfold gas_left, gas_of in *. destruct (_ <? _) eqn:?; lia. }
  remember (sp (cpu m')) as a eqn:Ea; remember (stack_arr (cpu m')) as b eqn:Eb';
  remember (gas_available (cpu m')) as g eqn:Eg'.
  assert (forall i, env_ops (cpu m') i = env_ops (cpu m) i) as Henv by (by rewrite Ec).
  split; rewrite ?Eo, ?Es, ?Er, <- ?Eb', <- ?Eg', ?Hge; cbn [e_pc e_stack e_gas e_mem e_msize e_store e_out e_regs charge put_stack];
    try (rewrite Ec; done); auto.
  - unfold gas_of. rewrite <- Eg', Eg, <- Hge. split; [apply reg_of_wf|by apply reg_val_of].
  - split; [done|lia].
  - by rewrite mo_out0.
Qed.

Lemma usegas_refines v s : is_u64 v -> 1 <= e_regs s -> refines (USEGAS v) s (charge v 1 s).
Proof.
  intros Hv Hk m Hm. pose proof Hm as [_ Hs [Hg _] [Hb Hr] _ _ _ _ _ _ _].
  destruct (UseGas_ok v m Hb Hg Hv) as (h & E & Hc & Hp); [lia|].
  exists (charged v h m). split; [done|].
  replace (charge v 1 s) with (put_stack (e_stack s) (charge v 1 s)) by done.
  apply (models_effect m); [done| |unfold is_u64 in Hv; lia|by unfold charged; destruct (_ <? _)].
  unfold charged. split; try (destruct (_ <? _); by cbn).
  - destruct (_ <? _); by apply bn_clean_inv.
  - destruct (_ <? _); cbn; by rewrite ?app_nil_r.
Qed.

Lemma echarge_refines v s s' : is_u64 v -> echarge v s = Some s' -> refines (USEGAS v) s s'.
Proof.
  unfold echarge. intros Hv H. destruct (Z.leb_spec 1 (e_regs s)); [|done]. injection H as <-.
  by apply usegas_refines.
Qed.

Lemma echarge_stack v s s' : echarge v s = Some s' -> e_stack s' = e_stack s /\ e_pc s' = e_pc s.
Proof. unfold echarge. intros H. destruct (_ <=? _); [|done]. by injection H as <-. Qed.

Lemma epush_room w s s' : epush w s = Some s' ->
  (4 * S (length (rev (e_stack s))) <= STACK_CELLS)%nat /\ s' = put_stack (w :: e_stack s) s.
Proof.
  unfold epush, STACK_WORDS, STACK_CELLS. intros H. destruct (Nat.ltb_spec (length (e_stack s)) 512); [|done].
  injection H as <-. rewrite length_rev. split; [lia|done].
Qed.

(** ** Pushes *)

Lemma push_refines v s s' : is_u64 v -> epush v s = Some s' -> refines (PushSingleBlockToStack v) s s'.
Proof.
  intros Hv H m Hm. apply epush_room in H as [Hr ->].
  destruct (PushSingleBlock_ok v m _ (mo_stack _ _ _ _ Hm) Hr Hv) as (arr & E & Hs).
  eexists. split; [exact E|]. by apply models_push.
Qed.

Lemma refines_charge v f s s1 s2 :
  is_u64 v -> echarge v s = Some s1 -> refines f s1 s2 ->
  refines (fun m => let* m := USEGAS v m in f m) s s2.
Proof. intros Hv H Hf. eapply refines_bind; [by eapply echarge_refines|done]. Qed.

(** ** Arithmetic *)

Lemma rev_pair (st : list Z) a b : rev st ++ [b; a] = rev (a :: b :: st).
Proof. simpl. by rewrite <- app_assoc. Qed.
Lemma rev_triple (st : list Z) a b c : rev st ++ [c; b; a] = rev (a :: b :: c :: st).
Proof. simpl. by rewrite <- !app_assoc. Qed.

Lemma models_ready m s k ws : models m s -> k <= e_regs s -> rev (e_stack s) = ws -> ready k m ws.
Proof. intros [] Hk <-. destruct mo_gas, mo_heap. split; auto. lia. Qed.

Lemma arith_gas_pos o : 0 <= arith_gas o.
Proof. unfold arith_gas. by_opcode o ltac:(idtac; lia). Qed.

Lemma arith_refines o s s' : earith o s = Some s' -> refines (DoArithm o) s s'.
Proof.
  unfold earith. intros H m Hm. destruct (e_stack s) as [|a [|b st]] eqn:Es; try done.
  destruct ((_ && _) || _ || _) eqn:Eo.
  - destruct (Z.leb_spec 4 (e_regs s)); [|done]. injection H as <-.
    destruct (DoArithm_binary o m (rev st) a b) as (m' & E & Hs & He); [lia| |].
    + eapply models_ready; [exact Hm|done|]. by rewrite Es, rev_pair.
    + exists m'. split; [done|]. apply (models_effect m); auto using arith_gas_pos.
  - destruct ((o =? 8) || (o =? 9)) eqn:Eo2; [|done]. destruct st as [|c st]; [done|].
    destruct (Z.leb_spec 5 (e_regs s)); [|done]. injection H as <-.
    destruct (DoArithm_ternary o m (rev st) a b c) as (m' & E & Hs & He); [lia| |].
    + eapply models_ready; [exact Hm|done|]. by rewrite Es, rev_triple.
    + exists m'. split; [done|]. apply (models_effect m); auto using arith_gas_pos.
Qed.

Lemma compare_refines o s s' : ecompare o s = Some s' -> refines (DoCompare o) s s'.
Proof.
  unfold ecompare. intros H m Hm. destruct ((o =? 5) || _) eqn:Eo.
  - destruct (e_stack s) as [|a st] eqn:Es; [done|].
    destruct (Z.leb_spec 2 (e_regs s)); [|done]. injection H as <-.
    destruct (DoCompare_unary o m (rev st) a) as (m' & E & Hs & He); [lia| |].
    + eapply models_ready; [exact Hm|done|]. by rewrite Es.
    + exists m'. split; [done|]. apply (models_effect m); auto. lia.
  - destruct (_ && _) eqn:Eo2; [|done]. destruct (e_stack s) as [|a [|b st]] eqn:Es; try done.
    destruct (Z.leb_spec 3 (e_regs s)); [|done]. injection H as <-.
    destruct (DoCompare_binary o m (rev st) a b) as (m' & E & Hs & He); [lia| |].
    + eapply models_ready; [exact Hm|done|]. by rewrite Es, rev_pair.
    + exists m'. split; [done|]. apply (models_effect m); auto. lia.
Qed.

(** ** Addresses *)

Lemma eaddr_byte w : 0 <= w < 256 -> eaddr w = w.
Proof. intros H. unfold eaddr. rewrite Z.mod_small by lia. by apply block_value_small. Qed.

Lemma eaddr_range w : 0 <= eaddr w < 2 ^ 15.
Proof.
  unfold eaddr, block_value. assert (forall a k, 0 <= a < 2 ^ 15 -> (k < 8)%nat ->
    0 <= Z.lor a (Z.shiftl (nth k (le_bytes 8 (w mod 2 ^ 64)) 0) (Z.of_nat k)) < 2 ^ 15) as H.
  { intros a k Ha Hk.
    assert (is_u8 (nth k (le_bytes 8 (w mod 2 ^ 64)) 0)) as Hb.
    { rewrite le_bytes_map, nth_map_seq by lia. apply (u8_range (_ / _)). }
    unfold is_u8 in Hb. rewrite Z.shiftl_mul_pow2 by lia.
    assert (0 < 2 ^ Z.of_nat k <= 2 ^ 7).
    { split; [apply Z.pow_pos_nonneg; lia|apply Z.pow_le_mono_r; lia]. }
    split; [apply Z.lor_nonneg; nia|]. apply lor_lt_pow2; [lia|lia|nia]. }
  cbn [seq fold_left]. repeat (apply H; [|lia]). lia.
Qed.

Lemma pop_refines m s w st : models m s -> e_stack s = w :: st ->
  exists m', GetSingleBlockFromStack m = Ok (eaddr w, m') /\ models m' (put_stack st s).
Proof.
  intros Hm E. pose proof (mo_stack _ _ _ _ Hm) as Hs. rewrite E in Hs.
  destruct (GetSingleBlock_ok m (rev st) w Hs) as [-> _]. eexists. split; [done|].
  by eapply models_pop.
Qed.

(** ** Memory *)

Lemma mload_refines a s s' : 0 <= a -> emload a s = Some s' -> refines (MloadInst a) s s'.
Proof.
  unfold emload. intros Ha H m Hm. destruct (Z.leb_spec (a + 32) 1024); [|done].
  apply epush_room in H as [Hr ->]. pose proof Hm as [_ Hs _ _ (Hb & Hl & Hu) _ _ _ _ _ _].
  destruct (MloadInst_ok (Z.to_nat a) m _ Hs Hr) as (arr & E & Hp); [by rewrite Hb..|lia|].
  rewrite Z2Nat.id in E by lia. eexists. split; [exact E|]. rewrite Hb in Hp. by apply models_push.
Qed.

Lemma models_mem m s c' st bus n :
  models m s ->
  c' = set_mem_size n (set_data_bus bus (set_sp (sp c') (cpu m))) ->
  stack_is c' (rev st) -> length bus = 1024%nat -> Forall is_u8 bus -> is_u64 n ->
  models (with_cpu (fun _ => c') m) (put_stack st (put_mem bus n s)).
Proof.
  intros [] E Hs Hl Hu Hn. set (a := sp c') in *. clearbody a. subst c'. by split.
Qed.

Lemma splice_bytes k x l : Forall is_u8 x -> Forall is_u8 l -> Forall is_u8 (splice k x l).
Proof. intros. unfold splice. apply Forall_app; split; [by apply Forall_take|]. apply Forall_app; split; [done|by apply Forall_drop]. Qed.

Lemma be32_bytes w : length (be32 w) = 32%nat /\ Forall is_u8 (be32 w).
Proof.
  unfold be32. rewrite length_rev, length_le_bytes. split; [done|]. apply Forall_rev.
  rewrite le_bytes_map. apply Forall_map, Forall_forall. intros i _. apply (u8_range (_ / _)).
Qed.

Lemma mstore_refines a s s' : 0 <= a -> emstore a s = Some s' -> refines (MStoreInst a) s s'.
Proof.
  unfold emstore. intros Ha H m Hm. destruct (e_stack s) as [|w st] eqn:Es; [done|].
  destruct (Z.leb_spec (a + 32) 1024); [|done]. injection H as <-.
  pose proof Hm as [_ Hs _ _ (Hb & Hl & Hu) [Hn Hn64] _ _ _ _ _]. rewrite Es in Hs.
  pose proof (MStoreInst_ok (Z.to_nat a) m (rev st) w Hs) as E. cbn zeta in E.
  rewrite Hb, Z2Nat.id in E by lia. eexists. split; [apply E; [done|lia]|].
  destruct (be32_bytes w). rewrite <- Hn.
  apply (models_mem m s _ st _ (Z.max (mem_size (cpu m)) (a + 32)) Hm); auto.
  - change (stack_is (set_sp (u64 (4 * Z.of_nat (length (rev st)) - 1)) (cpu m)) (rev st)). by eapply stack_pop.
  - rewrite length_splice_at; lia.
  - by apply splice_bytes.
  - rewrite Hn. unfold is_u64 in *. lia.
Qed.

Lemma mstore8_refines a s s' s1 : 0 <= a -> echarge 3 s = Some s1 -> emstore8 a s1 = Some s' ->
  refines (gen_mstore8 a) s s'.
Proof.
  intros Ha Hc H. eapply refines_charge; [by vm_compute|exact Hc|]. clear Hc s. intros m Hm.
  unfold emstore8 in H. destruct (e_stack s1) as [|w st] eqn:Es; [done|].
  destruct (Z.ltb_spec a 1024); [|done]. injection H as <-.
  pose proof Hm as [_ Hs _ _ (Hb & Hl & Hu) [Hn Hn64] _ _ _ _ _]. rewrite Es in Hs.
  change (rev (w :: st)) with (rev st ++ [w]) in Hs.
  destruct (operand_cell _ _ 0 w Hs) as (v & E & Hv & Hbv);
    [apply lookup_snoc_from; [done|simpl; lia]|rewrite length_app; simpl; lia|].
  unfold stack_arr_get. change (4 * Z.of_nat 0 + 3) with 3 in E. rewrite E. cbn [obind].
  rewrite (pop_sp _ _ _ Hs), top_byte by done. rewrite Hbv.
  replace ((w mod 2 ^ 64) mod 256) with (w mod 256) by dm.
  unfold data_bus_set. cbn [cpu with_cpu data_bus set_sp]. rewrite Hb, aset_ok by lia. cbn [obind].
  cbn [cpu with_cpu mem_size set_sp set_data_bus]. rewrite Hn.
  set (bus := <[_ := _]> (e_mem s1)). set (n := length (rev st)).
  assert (length bus = 1024%nat) as Hlb by (unfold bus; by rewrite length_insert).
  assert (Forall is_u8 bus) as Hub by (apply Forall_insert; [done|apply (u8_range w)]).
  assert (forall k, is_u64 k -> models (with_cpu (fun c => set_mem_size k (set_data_bus bus
    (set_sp (u64 (4 * Z.of_nat n - 1)) c))) m) (put_stack st (put_mem bus k s1))) as H.
  { intros k Hk. apply (models_mem m s1 _ st _ k Hm); auto.
    change (stack_is (set_sp (u64 (4 * Z.of_nat n - 1)) (cpu m)) (rev st)). by eapply stack_pop. }
  destruct (Z.ltb_spec (e_msize s1) a); eexists; (split; [done|]).
  - rewrite Z.max_r by lia. apply H. unfold is_u64 in *. lia.
  - rewrite Z.max_l by lia. specialize (H (e_msize s1) Hn64).
    replace (with_cpu _ _) with (with_cpu (fun c => set_mem_size (e_msize s1) (set_data_bus bus
      (set_sp (u64 (4 * Z.of_nat n - 1)) c))) m); [done|]. rewrite <- Hn. by destruct m as [[]].
Qed.

(** ** Storage *)

Lemma eaddr_key w : u32 (eaddr w) = eaddr w /\ eaddr w <> EMPTY.
Proof. pose proof (eaddr_range w). unfold EMPTY. split; [apply u32_id; unfold is_u32; lia|lia]. Qed.

Lemma sload_refines w s s' : esload (eaddr w) s = Some s' -> refines (LoadFromStorageStub (eaddr w)) s s'.
Proof.
  unfold esload. intros H m Hm. destruct (e_store s !! eaddr w) as [x|] eqn:El; [|done]. simpl in H.
  apply epush_room in H as [Hr ->]. pose proof Hm as [_ Hs _ _ _ _ (st & Em & Hwf & Hst) _ _ _ _].
  pose proof (eaddr_key w) as [Ek Hk]. unfold LoadFromStorageStub.
  destruct (LoadFromStorage_ok (u32 (eaddr w)) m _ st x Hs Hr Em Hwf) as (arr & E & Hp); [by rewrite !Ek..|by rewrite !Ek, Hst|].
  eexists. split; [exact E|]. by apply (models_restack m s _ (x :: e_stack s) Hm); [destruct m as [[]]|].
Qed.

Lemma models_storage m s st map :
  models m s -> storage_wf st -> storage_map st = map ->
  models (set_storage (Some st) m) (put_store map s).
Proof. intros [] Hwf <-. split; try done. by exists st. Qed.

Lemma sstore_refines w s s' : esstore (eaddr w) s = Some s' -> refines (SaveToStorageStub (eaddr w)) s s'.
Proof.
  unfold esstore. intros H m Hm. destruct (e_stack s) as [|x l] eqn:Es; [done|]. injection H as <-.
  pose proof Hm as [_ Hs _ _ _ _ (st & Em & Hwf & Hst) _ _ _ _]. rewrite Es in Hs.
  pose proof (eaddr_key w) as [Ek Hk]. unfold SaveToStorageStub.
  destruct (SaveToStorage_ok (u32 (eaddr w)) m (rev l) x st Hs Em) as (st' & E & Hm' & Hwf'); [by rewrite !Ek|done|].
  eexists. split; [exact E|]. rewrite !Ek, Hst in Hm'.
  change (put_stack l (put_store (<[eaddr w := x]> (e_store s)) s))
    with (put_store (<[eaddr w := x]> (e_store s)) (put_stack l s)).
  apply models_storage; [|done|done]. by eapply models_pop.
Qed.

(** ** DUP, SWAP and PUSH *)

Lemma rev_reverse (l : list Z) : rev l = reverse l.
Proof. apply rev_alt. Qed.

Lemma rev_lookup_top (st : list Z) k w : st !! k = Some w ->
  rev st !! (length (rev st) - S k)%nat = Some w /\ (k < length (rev st))%nat.
Proof.
  intros H. pose proof (lookup_lt_Some _ _ _ H) as Hk. rewrite length_rev. split; [|done].
  rewrite rev_reverse, reverse_lookup by lia.
  by replace (length st - S (length st - S k))%nat with k by lia.
Qed.

Lemma dup_refines k s s' : (k < 16)%nat -> edup k s = Some s' ->
  refines (fun m => let* m := USEGAS 3 m in DupOp (Z.of_nat k) m) s s'.
Proof.
  unfold edup. intros Hk H. destruct (echarge 3 s) as [s1|] eqn:Ec; [|done]. simpl in H.
  eapply refines_charge; [by vm_compute|exact Ec|]. intros m Hm.
  destruct (e_stack s1 !! k) as [w|] eqn:Ew; [|done]. simpl in H. apply epush_room in H as [Hr ->].
  apply rev_lookup_top in Ew as [Ew Hlt].
  destruct (DupOp_ok k m _ w (mo_stack _ _ _ _ Hm) Ew Hlt Hk Hr) as (arr & E & Hs).
  eexists. split; [exact E|]. by apply models_push.
Qed.

Lemma rev_insert_top (st : list Z) k w : (k < length st)%nat ->
  <[(length (rev st) - S k)%nat := w]> (rev st) = rev (<[k := w]> st).
Proof.
  intros Hk. apply list_eq. intros i. destruct (decide (i < length st)%nat) as [Hi|Hi].
  - rewrite !rev_reverse, length_reverse.
    destruct (decide (i = length st - S k)%nat) as [->|Hne].
    + rewrite list_lookup_insert_eq by (rewrite length_reverse; lia).
      rewrite reverse_lookup by (rewrite length_insert; lia). rewrite length_insert.
      replace (length st - S (length st - S k))%nat with k by lia. by rewrite list_lookup_insert_eq.
    + rewrite list_lookup_insert_ne by lia. rewrite !reverse_lookup by (rewrite ?length_insert; lia).
      rewrite length_insert, list_lookup_insert_ne by lia. done.
  - rewrite !lookup_ge_None_2; [done| |]; rewrite ?length_insert, length_rev, ?length_insert; lia.
Qed.

Lemma swap_refines k s s' : (k < 16)%nat -> eswap k s = Some s' ->
  refines (fun m => let* m := USEGAS 3 m in SwapOp (Z.of_nat k) m) s s'.
Proof.
  unfold eswap. intros Hk H. destruct (echarge 3 s) as [s1|] eqn:Ec; [|done]. cbn [mbind option_bind] in H.
  eapply refines_charge; [by vm_compute|exact Ec|]. intros m Hm.
  destruct (e_stack s1 !! 0%nat) as [t|] eqn:Et; [|done]. cbn [mbind option_bind] in H.
  destruct (e_stack s1 !! S k) as [w|] eqn:Ew; [|done]. cbn [mbind option_bind] in H. injection H as <-.
  pose proof (lookup_lt_Some _ _ _ Ew) as Hlt.
  apply rev_lookup_top in Et as [Et _]. apply rev_lookup_top in Ew as [Ew Hlt'].
  destruct (SwapOp_ok k m _ t w (mo_stack _ _ _ _ Hm) Hlt' Hk Et Ew) as (arr & E & Hs).
  eexists. split; [exact E|].
  apply (models_restack m s1 _ (<[0%nat := w]> (<[S k := t]> (e_stack s1))) Hm); [by destruct m as [[]]|].
  rewrite rev_insert_top in Hs by lia.
  pose proof (rev_insert_top (<[S k := t]> (e_stack s1)) 0 w) as R. rewrite !length_rev, length_insert in *.
  rewrite R in Hs by lia. exact Hs.
Qed.

Lemma models_pc_range m s : models m s -> e_pc s < Z.of_nat (length code) ->
  env_pc (cpu m) = e_pc s /\ 0 <= e_pc s < 2 ^ 32.
Proof.
  intros [[Hp H0] _ _ _ _ _ _ _ (_ & _ & _ & Hc) _ _] Hlt. split; [|lia].
  unfold env_pc. rewrite Hp. apply u32_id. unfold is_u32. lia.
Qed.

Lemma models_immediate m s n : models m s -> e_pc s < Z.of_nat (length code) ->
  immediate m n = code_at code (e_pc s + 1) n.
Proof.
  intros Hm Hp. destruct (models_pc_range m s Hm Hp) as [E _].
  destruct Hm as [_ _ _ _ _ _ _ _ (Hc & _) _ _]. unfold immediate, code_at, code_byte. by rewrite E, Hc.
Qed.

Lemma pushn_refines n s1 s' : (1 <= n <= 32)%nat -> (n mod 8 <> 0 \/ n = 32)%nat ->
  e_pc s1 < Z.of_nat (length code) ->
  epush (be_val (code_at code (e_pc s1 + 1) n)) s1 = Some s' ->
  refines (PushInst (Z.of_nat n)) s1 s'.
Proof.
  intros Hn Hn8 Hp H m Hm. apply epush_room in H as [Hr ->].
  destruct (models_pc_range m s1 Hm Hp) as [Epc Hpc].
  destruct (PushInst_ok n m _ (mo_stack _ _ _ _ Hm) Hr Hn Hn8) as (arr & E & Hs).
  { unfold code_in_ram. destruct (mo_code _ _ _ _ Hm) as (-> & Hu & Hz & Hz'). rewrite Epc. split; [done|lia]. }
  rewrite (models_immediate m s1) in Hs by done. eexists. split; [exact E|]. by apply models_push.
Qed.

(** ** PC, MSIZE and GAS *)

Lemma msize_refines s s' : epush (e_msize s) s = Some s' -> refines MSizeOp s s'.
Proof.
  intros H m Hm. destruct (mo_msize _ _ _ _ Hm) as [E Hu].
  unfold MSizeOp. rewrite E. by apply (push_refines _ s s').
Qed.

Lemma pc_refines s s' : e_pc s < Z.of_nat (length code) -> epush (e_pc s) s = Some s' -> refines PcOp s s'.
Proof.
  intros Hp H m Hm. destruct (models_pc_range m s Hm Hp) as [E Hr].
  unfold PcOp. rewrite E. apply (push_refines _ s s'); [unfold is_u64; lia|done|done].
Qed.

Lemma u64_u64 x : u64 (u64 x) = u64 x.
Proof. apply u64_id, u64_range. Qed.

Lemma gas_cells m : reg_wf (gas_available (cpu m)) ->
  (let m := move_sp 1 m in
   let* g := gas_available_get 0 m in
   let* m := stack_arr_set (sp (cpu m)) g m in
   let* g := gas_available_get 1 m in
   let* m := stack_arr_set (u64 (sp (cpu m) + 1)) g m in
   let* g := gas_available_get 2 m in
   let* m := stack_arr_set (u64 (sp (cpu m) + 2)) g m in
   let* g := gas_available_get 3 m in
   let* m := stack_arr_set (u64 (sp (cpu m) + 3)) g m in
   Ok (move_sp 3 m)) =
  match gas_available (cpu m) with
  | [g0; g1; g2; g3] => push4 g0 g1 g2 g3 m
  | _ => Undef
  end.
Proof.
  intros [Hl _]. destruct (gas_available (cpu m)) as [|g0 [|g1 [|g2 [|g3 [|]]]]] eqn:Eg; try done.
  unfold push4, stack_set, stack_arr_set, gas_available_get, move_sp. cbn zeta.
  cbn [cpu with_cpu gas_available set_sp sp stack_arr]. rewrite !Eg.
  rewrite u64_u64. change (aget [g0; g1; g2; g3] 0) with (Ok g0). cbn [obind].
  destruct (aset _ _ g0) as [a0| | |]; [|done..]. cbn [obind]. cbn [cpu with_cpu gas_available set_sp set_stack_arr sp stack_arr].
  rewrite Eg. change (aget [g0; g1; g2; g3] 1) with (Ok g1). cbn [obind].
  destruct (aset _ _ g1) as [a1| | |]; [|done..]. cbn [obind]. cbn [cpu with_cpu gas_available set_sp set_stack_arr sp stack_arr].
  rewrite Eg. change (aget [g0; g1; g2; g3] 2) with (Ok g2). cbn [obind].
  destruct (aset _ _ g2) as [a2| | |]; [|done..]. cbn [obind]. cbn [cpu with_cpu gas_available set_sp set_stack_arr sp stack_arr].
  rewrite Eg. change (aget [g0; g1; g2; g3] 3) with (Ok g3). done.
Qed.

Lemma gas_refines s s1 s' : echarge 2 s = Some s1 -> epush (e_gas s1) s1 = Some s' ->
  refines gen_gas s s'.
Proof.
  intros Hc H. eapply refines_charge; [by vm_compute|exact Hc|]. intros m Hm.
  destruct (mo_gas _ _ _ _ Hm) as [Hg Hge]. rewrite gas_cells by done.
  unfold gas_of in Hge. destruct Hg as [Hl Hu].
  destruct (gas_available (cpu m)) as [|g0 [|g1 [|g2 [|g3 [|]]]]] eqn:Eg; try done.
  apply epush_room in H as [Hr ->].
  destruct (push4_ok m _ g0 g1 g2 g3 (mo_stack _ _ _ _ Hm) Hr Hu) as (arr & E & Hs).
  rewrite Hge in Hs. eexists. split; [exact E|]. by apply models_push.
Qed.

(** ** SHA3 *)

Lemma read_bus_ok n i offs m :
  length (data_bus (cpu m)) = 1024%nat -> Forall is_u8 (data_bus (cpu m)) ->
  0 <= i -> 0 <= offs -> i + Z.of_nat n <= 255 -> offs + i + Z.of_nat n <= 1024 ->
  read_bus n i offs m = Ok (take n (drop (Z.to_nat (offs + i)) (data_bus (cpu m)))).
Proof.
  intros Hl Hu. revert i; induction n as [|n IH]; intros i Hi Ho Hn Hb; [done|].
  cbn [read_bus]. rewrite (proj2 (Z.leb_gt 255 i)) by lia.
  rewrite (u32_id (offs + i)) by (unfold is_u32; lia). unfold data_bus_get. rewrite aget_ok by lia.
  cbn [obind]. rewrite IH by lia. cbn [obind].
  assert (exists b, data_bus (cpu m) !! Z.to_nat (offs + i) = Some b) as [b Eb].
  { apply lookup_lt_is_Some_2. lia. }
  rewrite (drop_S _ b _ Eb). cbn [take].
  replace (Z.to_nat (offs + (i + 1))) with (S (Z.to_nat (offs + i))) by lia.
  rewrite (nth_lookup_Some _ _ _ _ Eb). rewrite u8_id; [done|]. by eapply Forall_lookup_1 in Hu.
Qed.

Lemma word_fold op k n : Forall is_u8 op -> (n <= 8)%nat -> (k + n <= length op)%nat ->
  fold_left (fun acc i => Z.lor acc (u64 (Z.shiftl (nth (k + i) op 0) (8 * Z.of_nat i)))) (seq 0 n) 0 =
  le_val (take n (drop k op)).
Proof.
  intros Hu. induction n as [|n IH]; intros Hn Hk; [done|].
  rewrite seq_S, fold_left_app, IH by lia. cbn [fold_left Nat.add].
  assert (exists b, op !! (k + n)%nat = Some b) as [b Eb] by (apply lookup_lt_is_Some_2; lia).
  rewrite (nth_lookup_Some _ _ _ _ Eb). rewrite (take_S_r _ n b) by (by rewrite lookup_drop).
  assert (is_u8 b) as Hb by (by eapply Forall_lookup_1 in Hu).
  assert (length (take n (drop k op)) = n) as Hln by (rewrite length_take, length_drop; lia).
  pose proof (le_val_range (take n (drop k op))) as Hr. rewrite Hln in Hr.
  rewrite le_val_app, Hln. cbn [le_val].
  assert (0 < 2 ^ (8 * Z.of_nat n) <= 2 ^ 56).
  { split; [apply Z.pow_pos_nonneg; lia|apply Z.pow_le_mono_r; lia]. }
  unfold is_u8 in Hb. rewrite Z.shiftl_mul_pow2, u64_id by (unfold is_u64; nia).
  rewrite lor_add by (try lia; apply Hr; by apply Forall_take, Forall_drop). lia.
Qed.

Lemma res_reg_val op : length op = 32%nat -> Forall is_u8 op ->
  reg_wf (rev (res_reg op)) /\ reg_val (rev (res_reg op)) = be_val op.
Proof.
  intros Hl Hu. unfold res_reg. cbn [seq map]. fold (seq 0 8).
  change [0%nat; 1%nat; 2%nat; 3%nat; 4%nat; 5%nat; 6%nat; 7%nat] with (seq 0 8).
  rewrite !word_fold by (done || lia). cbn [rev app].
  set (w := fun k => take 8 (drop k op)).
  assert (forall k, (k + 8 <= 32)%nat -> length (w k) = 8%nat /\ Forall is_u8 (w k)) as Hw.
  { intros k Hk. unfold w. split; [rewrite length_take, length_drop; lia|by apply Forall_take, Forall_drop]. }
  assert (forall k, (k + 8 <= 32)%nat -> is_u64 (le_val (w k))) as Hv.
  { intros k Hk. destruct (Hw k Hk) as [Hlk Huk]. pose proof (le_val_range _ Huk) as R. by rewrite Hlk in R. }
  split.
  - split; [done|]. repeat constructor; apply (Hv (8 * _)%nat); lia.
  - change (reg_val [le_val (w 24%nat); le_val (w 16%nat); le_val (w 8%nat); le_val (w 0%nat)] = be_val op).
    rewrite (be_val_cells (w 24%nat) (w 16%nat) (w 8%nat) (w 0%nat)) by (apply Hw; lia).
    f_equal. unfold w. symmetry. transitivity (take 32 (drop 0 op)); [rewrite drop_0, firstn_all2 by lia; done|].
    pose proof (take_drop_split op 0 8 24) as E1. pose proof (take_drop_split op 8 8 16) as E2.
    pose proof (take_drop_split op 16 8 8) as E3. cbn [Nat.add] in E1, E2, E3. by rewrite E1, E2, E3.
Qed.

Lemma length_fold {A} (f : list Z -> A -> list Z) l a :
  (forall a x, length a = 25%nat -> length (f a x) = 25%nat) -> length a = 25%nat ->
  length (fold_left f l a) = 25%nat.
Proof. intros Hf. revert a; induction l as [|x l IH]; intros a Ha; simpl; auto. Qed.

Lemma length_lanes f : length (lanes f) = 25%nat.
Proof. reflexivity. Qed.

Lemma length_ref_round n a : length (ref_round n a) = 25%nat.
Proof.
  unfold ref_round. pose proof (length_lanes (fun x y => Z.lxor (lane (ref_rho_pi (ref_theta a)) x y)
    (Z.land (Z.lxor (2 ^ 64 - 1) (lane (ref_rho_pi (ref_theta a)) (x + 1) y)) (lane (ref_rho_pi (ref_theta a)) (x + 2) y)))) as H.
  fold (ref_chi (ref_rho_pi (ref_theta a))) in H. by destruct (ref_chi _).
Qed.

Lemma length_absorb a b : length (absorb a b) = 25%nat.
Proof. unfold absorb, ref_keccakf. apply length_fold; [|by rewrite length_map]. intros. apply length_ref_round. Qed.

Lemma length_flat_bytes l : length (flat_map (le_bytes 8) l) = (8 * length l)%nat.
Proof. induction l as [|w l IH]; [done|]. cbn [flat_map]. rewrite length_app, length_le_bytes, IH. simpl. lia. Qed.

Lemma flat_bytes_u8 l : Forall is_u8 (flat_map (le_bytes 8) l).
Proof.
  induction l as [|w l IH]; [constructor|]. cbn [flat_map]. apply Forall_app. split; [|done].
  rewrite le_bytes_map. apply Forall_map, Forall_forall. intros i _. apply (u8_range (_ / _)).
Qed.

Lemma ref_keccak256_bytes msg : length (ref_keccak256 msg) = 32%nat /\ Forall is_u8 (ref_keccak256 msg).
Proof.
  unfold ref_keccak256, absorb_blocks. set (a := fold_left _ _ _).
  assert (length a = 25%nat) as Ha.
  { apply length_fold; [intros; apply length_absorb|by rewrite length_replicate]. }
  clearbody a. rewrite length_take, length_flat_bytes, Ha. split; [done|]. apply Forall_take, flat_bytes_u8.
Qed.

Lemma sha3_refines s s' : esha3 s = Some s' -> refines (KeccakAlgStub over) s s'.
Proof.
  unfold esha3. intros H m Hm. destruct (e_stack s) as [|a [|b st]] eqn:Es; try done.
  destruct (Z.leb_spec (eaddr b) 255); [|done]. destruct (Z.leb_spec (eaddr a + eaddr b) 1024); [|done].
  cbn [andb] in H. unfold KeccakAlgStub.
  destruct (pop_refines m s a _ Hm Es) as (m1 & -> & Hm1). cbn [obind].
  destruct (pop_refines m1 _ b st Hm1 eq_refl) as (m2 & -> & Hm2). cbn [obind].
  rewrite !(proj1 (eaddr_key _)).
  pose proof (eaddr_range a). pose proof (eaddr_range b).
  pose proof Hm2 as [_ Hs _ _ (Hb & Hl & Hu) _ _ _ _ _ _]. apply epush_room in H as [Hr ->].
  unfold KeccakAlg. rewrite read_bus_ok by (rewrite ?Hb; (done || lia)). cbn [obind].
  rewrite keccak256_ref by (rewrite Hb; by apply Forall_take, Forall_drop). cbn [obind].
  rewrite Hb, Z.add_0_r. change (take (Z.to_nat (eaddr b)) (drop (Z.to_nat (eaddr a)) (e_mem (put_stack st (put_stack (b :: st) s)))))
    with (emem (eaddr a) (eaddr b) s).
  destruct (ref_keccak256_bytes (emem (eaddr a) (eaddr b) s)) as [Hkl Hku].
  destruct (res_reg_val _ Hkl Hku) as [Hwf Hv].
  destruct (stack_push _ _ _ Hs Hr Hwf) as (arr & Ew & Hp).
  assert (i32 (sp (cpu m2)) = 4 * Z.of_nat (length (rev st)) - 1) as Esp.
  { destruct Hs as (_ & _ & Hn & -> & _). by apply sp_i32_any. }
  rewrite Esp. cbn [e_stack put_stack] in Ew, Hp.
  replace (4 * Z.of_nat (length (rev st)) - 1 + 1) with (4 * Z.of_nat (length (rev st))) by lia.
  rewrite Ew. cbn [obind]. eexists. split; [reflexivity|]. rewrite Hv in Hp.
  replace (4 * Z.of_nat (length (rev st)) - 1 + 4) with (4 * Z.of_nat (length (rev st)) + 3) by lia.
  set (w := be_val _) in *. clearbody w.
  apply (models_restack m2 (put_stack st s) _ (w :: st) Hm2); [by destruct m2 as [[]]|]. by apply Hp.
Qed.

(** ** The group 0x50 *)

Lemma refines_ext f g s s' : (forall m, f m = g m) -> refines g s s' -> refines f s s'.
Proof. intros E H m Hm. rewrite E. by apply H. Qed.

Lemma refines_id s : refines Ok s s.
Proof. intros m Hm. by exists m. Qed.

(** Opcodes 1 to 7: an address is popped, gas is charged. *)
Lemma with_addr_refines g f fc s s' :
  is_u64 g ->
  match e_stack s with
  | a :: st => s ← echarge g (put_stack st s); f (eaddr a) s
  | [] => None
  end = Some s' ->
  (forall w s1, f (eaddr w) s1 = Some s' -> refines (fc (eaddr w)) s1 s') ->
  refines (fun m => let* (a, m) := GetSingleBlockFromStack m in let* m := USEGAS g m in fc a m) s s'.
Proof.
  intros Hg H Hr m Hm. destruct (e_stack s) as [|w st] eqn:Es; [done|].
  destruct (echarge g (put_stack st s)) as [s1|] eqn:Hc; [|done]. cbn [mbind option_bind] in H.
  destruct (pop_refines m s w st Hm Es) as (m1 & -> & Hm1). cbn [obind].
  by apply (refines_charge g (fc (eaddr w)) _ _ _ Hg Hc (Hr _ _ H)).
Qed.

(** The others: gas is charged. *)
Lemma charge_refines g f fc s s' :
  is_u64 g -> (s ← echarge g s; f s) = Some s' ->
  (forall s1, echarge g s = Some s1 -> f s1 = Some s' -> refines fc s1 s') ->
  refines (fun m => let* m := USEGAS g m in fc m) s s'.
Proof.
  intros Hg H Hr. destruct (echarge g s) as [s1|] eqn:Hc; [|done]. cbn [mbind option_bind] in H.
  by apply (refines_charge g fc _ _ _ Hg Hc); apply Hr.
Qed.

Lemma pop_word_refines s s1 st : e_stack s1 = st -> 
  match st with _ :: st => Some (put_stack st s1) | [] => None end = Some s -> refines (fun m => Ok (Pop m)) s1 s.
Proof.
  intros Es H m Hm. destruct st as [|w st]; [done|]. injection H as <-. eexists. split; [done|].
  pose proof (mo_stack _ _ _ _ Hm) as Hs. rewrite Es in Hs. unfold Pop. rewrite (pop_sp m (rev st) w Hs).
  by eapply models_pop.
Qed.

Lemma mem_op_refines o s s' : e_pc s < Z.of_nat (length code) -> emem_op o s = Some s' ->
  refines (gen_mem_op o) s s'.
Proof.
  intros Hpc H. unfold emem_op in H.
  assert (forall g s1, echarge g s = Some s1 -> e_pc s1 < Z.of_nat (length code)) as Hpc1.
  { intros g s1 E. by rewrite (proj2 (echarge_stack _ _ _ E)). }
  assert (0 <= o <= 5 \/ 7 <= o <= 11) as Ho.
  { by_opcode o ltac:(idtac; (lia || discriminate H)). }
  assert (o = 0 \/ o = 1 \/ o = 2 \/ o = 3 \/ o = 4 \/ o = 5 \/ o = 7 \/ o = 8 \/ o = 9 \/ o = 10 \/ o = 11) as Hc by lia.
  clear Ho. pose proof (fun w => proj1 (eaddr_range w)) as Ha.
  destruct Hc as [->|[->|[->|[->|[->|[->|[->|[->|[->|[->| ->]]]]]]]]]].
  - apply refines_ext with (fun m => let* m := USEGAS 2 m in Ok (Pop m)); [done|].
    destruct (e_stack s) as [|w st] eqn:Es; [done|].
    eapply (charge_refines 2 _ (fun m => Ok (Pop m)) _ _ ltac:(by vm_compute) H). intros s1 E1 E2.
    apply (pop_word_refines _ _ (w :: st)); [|done]. by rewrite (proj1 (echarge_stack _ _ _ E1)).
  - refine (with_addr_refines 3 _ MloadInst s s' ltac:(by vm_compute) H _). intros; by apply mload_refines.
  - refine (with_addr_refines 3 _ MStoreInst s s' ltac:(by vm_compute) H _). intros; by apply mstore_refines.
  - intros m Hm. destruct (e_stack s) as [|w st] eqn:Es; [done|].
    destruct (echarge 3 (put_stack st s)) as [s1|] eqn:Hc; [|done]. cbn [mbind option_bind] in H.
    destruct (pop_refines m s w st Hm Es) as (m1 & E & Hm1).
    change (gen_mem_op 3 m) with (let* (a, m) := GetSingleBlockFromStack m in gen_mstore8 a m).
    rewrite E. cbn [obind]. by apply (mstore8_refines (eaddr w) (put_stack st s) s' s1).
  - refine (with_addr_refines 50 _ LoadFromStorageStub s s' ltac:(by vm_compute) H _). intros; by apply sload_refines.
  - refine (with_addr_refines 0 _ SaveToStorageStub s s' ltac:(by vm_compute) H _). intros; by apply sstore_refines.
  - apply refines_ext with (fun m => let* (a, m) := GetSingleBlockFromStack m in let* m := USEGAS 10 m in Ok m).
    { intros m. change (gen_mem_op 7 m) with (let* (a, m) := GetSingleBlockFromStack m in USEGAS 10 m).
      destruct (GetSingleBlockFromStack m) as [[]| | |]; try done. cbn [obind]. by destruct (USEGAS 10 _). }
    refine (with_addr_refines 10 (fun _ s => Some s) (fun _ => Ok) s s' ltac:(by vm_compute) H _). intros w s1 E. injection E as ->.
    apply refines_id.
  - refine (charge_refines 2 _ PcOp s s' ltac:(by vm_compute) H _). intros s1 E1 E2. apply pc_refines; eauto.
  - refine (charge_refines 2 _ MSizeOp s s' ltac:(by vm_compute) H _). intros s1 E1 E2. by apply msize_refines.
  - destruct (echarge 2 s) as [s1|] eqn:Hc; [|done]. by apply (gas_refines s s1 s').
  - by apply (echarge_refines 1 s s').
Qed.

(** ** Environment and system opcodes *)

Definition env_effect (e : option (Z * option Z)) (m : machine) : outcome machine :=
  match e with
  | Some (g, Some v) => let* m := USEGAS g m in PushSingleBlockToStack v m
  | Some (g, None) => USEGAS g m
  | None => Ok m
  end.

Lemma accounts_effect k m : (k < 16)%nat ->
  AccountsData (Z.of_nat k) m = env_effect (env_ops (cpu m) (0x30 + Z.of_nat k)) m.
Proof. intros Hk. do 16 (destruct k as [|k]; [reflexivity|]). lia. Qed.

Lemma blockchain_effect k m : (k < 16)%nat ->
  BlockChain (Z.of_nat k) m = env_effect (env_ops (cpu m) (0x40 + Z.of_nat k)) m.
Proof. intros Hk. do 16 (destruct k as [|k]; [reflexivity|]). lia. Qed.

Lemma env_ops_gas c i g v : env_ops c i = Some (g, v) -> is_u64 g.
Proof.
  unfold env_ops. intros H. destruct i as [|p|p]; try discriminate H.
  do 7 (destruct p as [p|p|]; try discriminate H; try (injection H as <- _; by vm_compute)).
Qed.

Lemma env_refines insn s s' f :
  (forall m, f m = env_effect (env_ops (cpu m) insn) m) -> eenv env insn s = Some s' -> refines f s s'.
Proof.
  intros Hf H m Hm. rewrite Hf. pose proof (mo_env _ _ _ _ Hm insn) as He. rewrite <- He.
  unfold eenv in H. unfold env_effect. destruct (env insn) as [[g [v|]]|] eqn:E.
  - refine (charge_refines g _ (PushSingleBlockToStack v) s s' _ H _ m Hm); [by eapply env_ops_gas|].
    intros s1 _ E1. apply push_refines; [by eapply mo_env_u64|done].
  - apply (echarge_refines g s s'); [by eapply env_ops_gas|done|done].
  - injection H as ->. by exists m.
Qed.

Lemma system_refines o s s' : 0 <= o < 16 -> esystem o s = Some s' -> refines (SystemOps o) s s'.
Proof.
  intros Ho H. unfold esystem in H.
  assert (o = 0 \/ o = 1 \/ o = 2 \/ o = 3 \/ o = 4 \/ 5 <= o) as Hc by lia.
  assert (is_u64 40 /\ is_u64 32000) as [U1 U2] by (by vm_compute).
  destruct Hc as [->|[->|[->|[->|[->|Hc]]]]].
  - exact (echarge_refines 32000 s s' U2 H).
  - exact (echarge_refines 40 s s' U1 H).
  - exact (echarge_refines 40 s s' U1 H).
  - discriminate H.
  - exact (echarge_refines 40 s s' U1 H).
  - assert (s' = s /\ forall m, SystemOps o m = Ok m) as [-> E].
    { by_opcode o ltac:(idtac; first [lia | split; [congruence|done]]). }
    intros m Hm. rewrite E. by exists m.
Qed.

(** ** One instruction *)

Lemma land_opcode o : 0 <= o < 16 -> u32 (Z.land o 0xFFFFFFFF) = o.
Proof.
  intros Ho. change 0xFFFFFFFF with (Z.ones 32). rewrite Z.land_ones by lia.
  rewrite (Z.mod_small o) by lia. apply u32_id. unfold is_u32. lia.
Qed.

Lemma earith_range o s s' : earith o s = Some s' -> 0 <= o -> 1 <= o <= 11.
Proof.
  unfold earith. intros H Ho. destruct (e_stack s) as [|a [|b st]]; try done.
  destruct ((_ && _) || _ || _) eqn:E; [lia|]. destruct ((o =? 8) || (o =? 9)) eqn:E2; [lia|done].
Qed.
Lemma ecompare_range o s s' : ecompare o s = Some s' -> 0 <= o <= 10.
Proof.
  unfold ecompare. intros H. destruct ((o =? 5) || (o =? 9)) eqn:E; [lia|].
  destruct ((0 <=? o) && (o <=? 10)) eqn:E2; [lia|done].
Qed.

Lemma row_of insn h : h * 16 <= insn < h * 16 + 16 -> insn / 16 = h /\ insn mod 16 = insn - h * 16.
Proof. intros H. dm. Qed.

(** Every instruction but PUSH. *)
Lemma exec_refines insn s s' :
  is_u8 insn -> is_push insn = false -> e_pc s < Z.of_nat (length code) ->
  eexec env code insn s = Some s' -> refines (genBlock_Main over insn) s s'.
Proof.
  intros Hi Hp Hpc H. apply refines_ext with (row_effect over insn); [intros; by apply genBlock_Main_row|].
  rewrite is_push_row in Hp by done. unfold is_u8 in Hi. unfold eexec in H. unfold row_effect.
  destruct (Z.ltb_spec insn 0x10).
  { destruct (row_of insn 0 ltac:(lia)) as [-> ->]. rewrite Z.sub_0_r.
    pose proof (earith_range _ _ _ H ltac:(lia)) as Ho. unfold ArithmOps, ArithmStub.
    replace ((0 <=? insn) && (insn <=? 11)) with true by lia. cbn [obind]. rewrite land_opcode by lia.
    by apply arith_refines. }
  destruct (Z.ltb_spec insn 0x20).
  { destruct (row_of insn 1 ltac:(lia)) as [-> ->]. change (1 * 16) with 0x10.
    pose proof (ecompare_range _ _ _ H) as Ho. unfold CompareLogOps, CompareStub.
    replace ((0 <=? insn - 16) && (insn - 16 <=? 10)) with true by lia. cbn [obind]. rewrite land_opcode by lia.
    by apply compare_refines. }
  destruct (Z.eqb_spec insn 0x20) as [->|].
  { refine (charge_refines 30 _ (KeccakAlgStub over) s s' ltac:(by vm_compute) H _). intros; by apply sha3_refines. }
  destruct (Z.ltb_spec insn 0x30).
  { destruct (row_of insn 2 ltac:(lia)) as [-> _]. injection H as <-. apply refines_id. }
  destruct (Z.ltb_spec insn 0x50).
  { destruct (Z.ltb_spec insn 0x40).
    - destruct (row_of insn 3 ltac:(lia)) as [-> ->]. change (3 * 16) with 48. apply (env_refines insn); [|done]. intros m.
      pose proof (accounts_effect (Z.to_nat (insn - 48)) m ltac:(lia)) as E. rewrite Z2Nat.id in E by lia.
      rewrite E. do 2 f_equal. lia.
    - destruct (row_of insn 4 ltac:(lia)) as [-> ->]. change (4 * 16) with 64. apply (env_refines insn); [|done]. intros m.
      pose proof (blockchain_effect (Z.to_nat (insn - 64)) m ltac:(lia)) as E. rewrite Z2Nat.id in E by lia.
      rewrite E. do 2 f_equal. lia. }
  destruct (Z.ltb_spec insn 0x60).
  { destruct (row_of insn 5 ltac:(lia)) as [-> ->]. by apply mem_op_refines. }
  destruct (Z.ltb_spec insn 0x80).
  { exfalso. destruct (Z.ltb_spec insn 0x70); [destruct (row_of insn 6 ltac:(lia)) as [E _]|destruct (row_of insn 7 ltac:(lia)) as [E _]];
    rewrite E in Hp; discriminate Hp. }
  destruct (Z.ltb_spec insn 0x90).
  { destruct (row_of insn 8 ltac:(lia)) as [-> ->]. rewrite <- (Z2Nat.id (insn - 8 * 16)) by lia.
    apply dup_refines; [lia|done]. }
  destruct (Z.ltb_spec insn 0xa0).
  { destruct (row_of insn 9 ltac:(lia)) as [-> ->]. rewrite <- (Z2Nat.id (insn - 9 * 16)) by lia.
    apply swap_refines; [lia|done]. }
  destruct (Z.ltb_spec insn 0xa8).
  { destruct (row_of insn 10 ltac:(lia)) as [-> ->]. rewrite (proj2 (Z.ltb_lt _ _)) by lia.
    replace (insn mod 8) with (insn - 0xa0) by dm. apply echarge_refines; [unfold is_u64; lia|done]. }
  destruct (Z.ltb_spec insn 0xf0).
  { injection H as <-. destruct (Z.ltb_spec insn 0xb0).
    - destruct (row_of insn 10 ltac:(lia)) as [-> ->]. rewrite (proj2 (Z.ltb_ge _ _)) by lia. apply refines_id.
    - assert (insn / 16 = 11 \/ insn / 16 = 12 \/ insn / 16 = 13 \/ insn / 16 = 14) as Hh by dm.
      destruct Hh as [->|[->|[->| ->]]]; apply refines_id. }
  destruct (row_of insn 15 ltac:(lia)) as [-> ->]. apply system_refines; [lia|done].
Qed.

(** ** One step *)

Lemma models_put_pc m s p : models m s -> 0 <= p -> models (with_cpu (set_pc p) m) (put_pc p s).
Proof. intros [] Hp. by split. Qed.

Lemma models_flag m s v : models m s -> models (with_cpu (set_is_pc_const_changed v) m) s.
Proof. intros []. by split. Qed.

Lemma models_fetch m s insn : models m s -> code !! Z.to_nat (e_pc s) = Some insn ->
  e_pc s < Z.of_nat (length code) /\ is_u8 insn /\
  disas_ppdl_insn (pc (cpu m)) (ram m) = Ok (insn, u64 (pc (cpu m) + get_ppdl_shift_pc insn)).
Proof.
  intros [[Hp H0] _ _ _ _ _ _ _ (Hc & Hu & Hz & _) _ _] Hl.
  pose proof (lookup_lt_Some _ _ _ Hl) as Hlt.
  assert (is_u8 insn) as Hi by (by eapply Forall_lookup_1 in Hu).
  split; [lia|]. split; [done|]. unfold disas_ppdl_insn, ram_byte.
  rewrite Hp, (proj2 (Z.leb_le 0 _)), (proj2 (Z.ltb_lt _ _)) by lia. cbn [andb obind].
  rewrite Hc, (nth_lookup_Some _ _ _ _ Hl). unfold is_u8 in Hi.
  replace (u8 (i8 insn)) with insn; [done|]. unfold u8, i8. dm.
Qed.

Lemma insn_len_shift insn : is_u8 insn -> get_ppdl_shift_pc insn = insn_len insn.
Proof. intros Hi. apply Z.eqb_eq. revert insn Hi. apply byte_forall. by vm_compute. Qed.

Lemma push_step_refines insn s s' m :
  is_u8 insn -> is_push insn = true -> e_pc s < Z.of_nat (length code) -> models m s ->
  eexec env code insn s = Some s' ->
  exists m', genBlock_Main over insn m = Ok m' /\ models m' (put_pc (e_pc s' + insn_len insn) s').
Proof.
  intros Hi Hp Hpc Hm H. rewrite genBlock_Main_push, extract_low by done || lia.
  rewrite is_push_row in Hp by done. unfold is_u8 in Hi.
  assert (0x60 <= insn < 0x80) as Hr by (apply orb_prop in Hp as [Hp|Hp]; apply Z.eqb_eq in Hp; dm).
  replace (insn mod 2 ^ 5) with (insn - 0x60) by dm.
  assert (insn_len insn = insn - 0x60 + 2) as ->.
  { unfold insn_len. replace ((96 <=? insn) && (insn <? 128)) with true by lia. lia. }
  unfold eexec in H. repeat (rewrite (proj2 (Z.ltb_ge _ _)) in H by lia).
  rewrite (proj2 (Z.eqb_neq _ _)), (proj2 (Z.ltb_lt insn 128)) in H by lia.
  unfold epushn in H. destruct (_ && _) eqn:E8 in H; [done|].
  destruct (echarge 3 s) as [s1|] eqn:Ec; [|done]. cbn [mbind option_bind] in H.
  destruct (echarge_stack _ _ _ Ec) as [_ Epc]. pose proof (epush_room _ _ _ H) as [_ Es'].
  destruct (refines_charge 3 (PushInst (insn - 0x60 + 1)) s s1 s' ltac:(by vm_compute) Ec) with m as (m1 & E & Hm1); [|done|].
  { replace (insn - 0x60 + 1) with (Z.of_nat (Z.to_nat (insn - 0x5f))) by lia.
    apply pushn_refines; [lia| |by rewrite Epc|done].
    apply andb_false_iff in E8 as [E8|E8]; [left; by apply Nat.eqb_neq|right].
    apply Nat.eqb_eq. by apply negb_false_iff in E8. }
  unfold gen_push. destruct (USEGAS 3 m) as [m0| | |]; try discriminate E. cbn [obind] in E |- *. rewrite E. cbn [obind].
  eexists. split; [reflexivity|].
  pose proof (models_pc_range m s Hm Hpc) as [_ R].
  assert (e_pc s' = e_pc s) as Epc' by (by rewrite Es').
  destruct (mo_pc _ _ _ _ Hm1) as [Hq _]. cbn [cpu with_cpu pc set_is_pc_const_changed].
  rewrite Hq, Epc', (u64_id (e_pc s + _)), u64_id by (unfold is_u64; lia).
  rewrite <- Z.add_assoc. apply models_put_pc; [by apply models_flag|lia].
Qed.

Lemma step_refines m s s' : models m s -> estep env code s = Some (Next s') ->
  exists m', seq_step over m = Ok m' /\ models m' s'.
Proof.
  intros Hm H. unfold estep in H.
  destruct (code !! Z.to_nat (e_pc s)) as [insn|] eqn:El; [|done]. cbn [mbind option_bind] in H.
  destruct (models_fetch m s insn Hm El) as (Hpc & Hi & Hd). unfold seq_step, seq_exec. rewrite Hd. cbn [obind].
  destruct (insn =? 243) eqn:E3.
  { unfold ereturn in H. destruct (echarge 0 s); [|done]. cbn [mbind option_bind] in H.
    destruct (_ =? 0); [done|]. destruct (e_stack _) as [|? [|? ?]]; try done. by destruct (_ <=? _). }
  destruct (eexec env code insn s) as [s1|] eqn:Ee; [|done]. cbn [mbind option_bind] in H. injection H as <-.
  destruct (is_push insn) eqn:Ep.
  - destruct (push_step_refines insn s s1 m Hi Ep Hpc Hm Ee) as (m' & -> & Hm'). cbn [obind]. rewrite Ep. eauto.
  - destruct (exec_refines insn s s1 Hi Ep Hpc Ee m Hm) as (m' & E & Hm'). rewrite E. cbn [obind]. rewrite Ep.
    eexists. split; [done|].
    assert (insn <> JUMP) as Hj by (intros ->; discriminate Ee).
    destruct (genBlock_Main_keeps _ _ _ _ Hi Hj Ep E) as [K _ _ _].
    pose proof (models_pc_range m s Hm Hpc) as [_ R]. destruct (mo_pc _ _ _ _ Hm) as [Hq _].
    destruct (mo_pc _ _ _ _ Hm') as [Hq' _].
    rewrite <- insn_len_shift, not_push_shift by done.
    replace (bump m') with (with_cpu (set_pc (e_pc s1 + 1)) m'); [apply models_put_pc; [done|lia]|].
    unfold bump, with_cpu. by rewrite Hq', u64_id by (unfold is_u64; lia).
Qed.

Lemma return_refines m s c o : models m s -> ereturn s = Some (Halt c o) ->
  genBlock_Main over 0xf3 m = Exit c o.
Proof.
  intros Hm H. change (genBlock_Main over 0xf3 m) with (Return m). unfold Return. unfold ereturn in H.
  destruct (echarge 0 s) as [s1|] eqn:Ec; [|done]. cbn [mbind option_bind] in H.
  destruct (echarge_refines 0 s s1 ltac:(by vm_compute) Ec m Hm) as (m1 & -> & Hm1). cbn [obind].
  unfold StopExec, helper_error_message. destruct Hm1 as [_ Hs [Hg Hge] _ (Hb & Hl & Hu) _ _ Ho _ _ _].
  destruct (Z.eqb_spec (e_gas s1 mod 2 ^ 64) 0) as [E|E].
  - injection H as <- <-. rewrite result_message_no_gas by (rewrite ?Hge; done). by rewrite Ho.
  - destruct (e_stack s1) as [|offs [|size st]] eqn:Es; try done.
    destruct (Z.leb_spec (offs mod 2 ^ 64 + size mod 2 ^ 64) 1024); [|done]. injection H as <- <-.
    rewrite <- rev_pair in Hs.
    rewrite (result_message_ok m1 (rev st) offs size) by (rewrite ?Hge, ?Hb; done). cbn [obind].
    by rewrite Hb, Ho.
Qed.

Lemma halt_refines m s c o : models m s -> estep env code s = Some (Halt c o) -> seq_step over m = Exit c o.
Proof.
  intros Hm H. unfold estep in H.
  destruct (code !! Z.to_nat (e_pc s)) as [insn|] eqn:El; [|done]. cbn [mbind option_bind] in H.
  destruct (models_fetch m s insn Hm El) as (Hpc & Hi & Hd). unfold seq_step, seq_exec. rewrite Hd. cbn [obind].
  destruct (Z.eqb_spec insn 243) as [->|]; [|by destruct (eexec env code insn s)].
  by rewrite (return_refines m s c o).
Qed.

(** ** Runs *)

Lemma run_refines n m s s' : models m s -> erun env code n s = Some (Next s') ->
  exists m', seq_run over n m = Ok m' /\ models m' s'.
Proof.
  revert m s; induction n as [|n IH]; intros m s Hm H; cbn [erun seq_run] in *; [injection H as <-; eauto|].
  destruct (estep env code s) as [[s1|]|] eqn:E; cbn [mbind option_bind] in H; try done.
  destruct (step_refines m s s1 Hm E) as (m1 & -> & Hm1). cbn [obind]. eauto.
Qed.

Lemma run_halts n m s c o : models m s -> erun env code n s = Some (Halt c o) ->
  seq_run over n m = Exit c o.
Proof.
  revert m s; induction n as [|n IH]; intros m s Hm H; cbn [erun seq_run] in *; [done|].
  destruct (estep env code s) as [[s1|c1 o1]|] eqn:E; cbn [mbind option_bind] in H; try done.
  - destruct (step_refines m s s1 Hm E) as (m1 & -> & Hm1). cbn [obind]. eauto.
  - injection H as <- <-. by rewrite (halt_refines m s c1 o1 Hm E).
Qed.
End Refinement.
