(* ===== verification/RunSpec.v ===== *)
(** * Whole programs

    Translation blocks put together: a program without JUMP that the abstract
    machine runs to its end is run by the emulator to the same end, whatever the
    room in the operation buffer makes of its division into blocks. *)

From stdpp Require Import base numbers list option strings gmap.
From Stdlib Require Import ZArith Lia.
From S2P Require Import Prelude Words Bignum BignumSpec BignumHeap BignumStr Cpu Arithm ArithmSpec Storage Helpers HelpersSpec MemSpec PushSpec Keccak KeccakSpec Translate TranslateSpec Evm EvmSpec.

Lemma models_changed env code m s v : models env code m s -> models env code (set_changed_pc v m) s.
Proof. intros []. by split. Qed.

Lemma models_tb_exit env code m s p : models env code m s -> pc (cpu m) = p -> models env code (tb_exit p m) s.
Proof. intros Hm Hp. rewrite tb_exit_own by done. by apply models_flag. Qed.

(** No instruction fetched from [r] is JUMP. *)
Definition jump_free (r : guest_ram) : Prop := Forall (fun b => b <> JUMP) (ram_bytes r).

Lemma disas_jump_free p r insn npc : jump_free r -> Forall is_u8 (ram_bytes r) ->
  disas_ppdl_insn p r = Ok (insn, npc) -> insn <> JUMP.
Proof.
  intros Hj Hu H. unfold disas_ppdl_insn, ram_byte in H. inv_ok.
  rewrite nth_lookup. destruct (ram_bytes r !! Z.to_nat p) as [b|] eqn:E; [|done].
  pose proof (Forall_lookup_1 _ _ _ _ Hj E) as Hb. pose proof (Forall_lookup_1 _ _ _ _ Hu E) as Hbu.
  simpl in *. replace (u8 (i8 b)) with b; [done|]. unfold is_u8, u8, i8 in *. dm.
Qed.

Lemma gen_loop_jump_free f room e s k r num p c l npc ch :
  jump_free r -> Forall is_u8 (ram_bytes r) ->
  gen_loop f room e s k r num p c = Ok (l, npc, ch) -> no_jump l /\ (npc <> e -> ch = 0).
Proof.
  intros Hj Hu. revert num p c l; induction f as [|f IH]; intros num p c l H; cbn [gen_loop] in H; [done|].
  apply obind_ok in H as ([insn np] & Hd & H). pose proof (disas_jump_free _ _ _ _ Hj Hu Hd) as Hi.
  destruct (Z.eqb_spec np e); [|destruct (_ && _)].
  - inv_ok. split; [by repeat constructor|done].
  - apply obind_ok in H as ([[l1 p1] c1] & Hg & H). inv_ok. apply IH in Hg as [Hl Hc].
    split; [by constructor|done].
  - inv_ok. split; [by repeat constructor|done].
Qed.

Lemma seq_run_exit over n k m c o : seq_run over n m = Exit c o -> (n <= k)%nat -> seq_run over k m = Exit c o.
Proof.
  revert m k; induction n as [|n IH]; intros m k H Hk; [done|]. destruct k as [|k]; [lia|].
  cbn [seq_run] in *. destruct (seq_step over m); try done. cbn [obind] in *. apply IH; [done|lia].
Qed.

Lemma erun_app env code n k s r : erun env code (n + k) s = Some (Halt r.1 r.2) ->
  (exists s', erun env code n s = Some (Next s') /\ erun env code k s' = Some (Halt r.1 r.2)) \/
  erun env code n s = Some (Halt r.1 r.2).
Proof.
  revert s; induction n as [|n IH]; intros s H; [left; by exists s|]. cbn [Nat.add erun] in *.
  destruct (estep env code s) as [[s1|c1 o1]|]; cbn [mbind option_bind] in *; try done; auto.
Qed.

Section Program.
Context (env : Z -> option (Z * option Z)) (code : list Z) (over : list Z) (room : Z -> nat -> bool).
Let e : Z := Z.of_nat (length code).

(** The code of one block, run with any value of [changed_pc]: the run ends in
    it, or it leads to a later state of the run. *)
Lemma code_refines n m s c o :
  models env code m s -> is_pc_const_changed (cpu m) = 0 ->
  jump_free (ram m) -> e + TARGET_PAGE_SIZE <= ram_size (ram m) ->
  erun env code n s = Some (Halt c o) -> (0 < n)%nat ->
  0 <= pc (cpu m) < 2 ^ 32 /\
  exists l npc ch, gen_intermediate_code (room (pc (cpu m))) e (ram m) (pc (cpu m)) 0 = Ok (l, npc, ch) /\
  forall v, exec_code over l npc (set_changed_pc v m) = Exit c o \/
  ch = 0 /\ exists k m' s', exec_code over l npc (set_changed_pc v m) = Ok m' /\ models env code m' s' /\
    changed_pc m' = v /\ is_pc_const_changed (cpu m') = 0 /\ ram m' = ram m /\
    erun env code k s' = Some (Halt c o) /\ (k < n)%nat.
Proof.
  intros Hm Hf Hj Hram Hrun Hn.
  assert (e_pc s < e) as Hpc.
  { destruct n as [|n]; [lia|]. cbn [erun] in Hrun. unfold estep in Hrun.
    destruct (code !! Z.to_nat (e_pc s)) eqn:El; [|done]. apply lookup_lt_Some in El. unfold e.
    destruct (mo_pc _ _ _ _ Hm). lia. }
  destruct (models_pc_range env code m s Hm Hpc) as [_ R]. destruct (mo_pc _ _ _ _ Hm) as [Hp _].
  split; [by rewrite Hp|].
  destruct (mo_code _ _ _ _ Hm) as (Ecode & Hu & _ & _).
  destruct (gen_intermediate_code_total (room (pc (cpu m))) e (ram m) (pc (cpu m)) 0) as (l & npc & ch & Hg & _).
  { lia. } { rewrite Hp. unfold page_start, TARGET_PAGE_SIZE in *. dm. }
  exists l, npc, ch. split; [done|]. intros v.
  rewrite <- Ecode in Hu. destruct (gen_loop_jump_free _ _ _ _ _ _ _ _ _ _ _ _ Hj Hu Hg) as [Hl Hch].
  pose proof (gen_loop_nonempty _ _ _ _ _ _ _ _ _ _ _ _ Hg) as Hlen.
  rewrite (exec_code_seq (room (pc (cpu m))) over e m l npc ch v) by (first [done | rewrite Hp; lia]).
  set (m0 := set_changed_pc v m). assert (models env code m0 s) as Hm0 by (by apply models_changed).
  destruct (Nat.le_gt_cases n (length l)) as [Hle|Hgt].
  { left. by rewrite (seq_run_exit over n _ m0 c o) by (eauto using run_halts). }
  replace n with (length l + (n - length l))%nat in Hrun by lia.
  destruct (erun_app env code _ _ _ (c, o) Hrun) as [(s1 & E1 & E2)|E1]; cbn [fst snd] in *.
  2:{ left. by rewrite (run_halts env code over _ m0 s c o Hm0 E1). }
  destruct (run_refines env code over _ m0 s s1 Hm0 E1) as (m1 & Em1 & Hm1). right.
  pose proof (page_bounds _ R) as [B1 B2]. rewrite <- Hp in B1, B2.
  destruct (gen_loop_next over _ _ _ _ _ _ _ _ _ _ _ m0 m1 Hg) as (N1 & N2 & N3); try done.
  assert (npc <> e) as Hne.
  { intros ->. destruct (n - length l)%nat as [|k] eqn:Ek; [lia|]. cbn [erun] in E2. unfold estep in E2.
    destruct (mo_pc _ _ _ _ Hm1) as [Hq _]. rewrite lookup_ge_None_2 in E2; [done|]. unfold e in N1. lia. }
  split; [by apply Hch|].
  rewrite Em1. cbn [obind]. unfold repeats_last. rewrite (proj2 (Z.eqb_neq _ _) Hne). cbn [andb].
  exists (n - length l)%nat, (tb_exit npc m1), s1. split_and!; try done.
  - by apply models_tb_exit.
  - lia.
Qed.

Lemma block_refines n m s c o :
  models env code m s -> changed_pc m = 0 -> is_pc_const_changed (cpu m) = 0 ->
  jump_free (ram m) -> e + TARGET_PAGE_SIZE <= ram_size (ram m) ->
  erun env code n s = Some (Halt c o) -> (0 < n)%nat ->
  exec_tb room over e m = Exit c o \/
  exists k m' s', exec_tb room over e m = Ok m' /\ models env code m' s' /\ changed_pc m' = 0 /\
    is_pc_const_changed (cpu m') = 0 /\ ram m' = ram m /\
    erun env code k s' = Some (Halt c o) /\ (k < n)%nat.
Proof.
  intros Hm Hc Hf Hj Hram Hrun Hn.
  destruct (code_refines n m s c o Hm Hf Hj Hram Hrun Hn) as (Hp & l & npc & ch & Hg & H).
  rewrite (exec_tb_code room over e m l npc ch) by done.
  destruct (H ch) as [?|(-> & ?)]; [by left|by right].
Qed.

(** The program ends as the abstract machine says, after at most [n] blocks. *)
Lemma program_refines n m s c o :
  models env code m s -> changed_pc m = 0 -> is_pc_const_changed (cpu m) = 0 ->
  jump_free (ram m) -> e + TARGET_PAGE_SIZE <= ram_size (ram m) ->
  erun env code n s = Some (Halt c o) -> run n room over e m = Exit c o.
Proof.
  revert m s; induction n as [n IH] using lt_wf_ind; intros m s Hm Hc Hf Hj Hr Hrun.
  destruct n as [|n]; [done|]. cbn [run].
  destruct (block_refines (S n) m s c o Hm Hc Hf Hj Hr Hrun ltac:(lia))
    as [E|(k & m' & s' & -> & Hm' & Hc' & Hf' & Er & Hrun' & Hk)]; [by rewrite E|]. cbn [obind].
  assert (run k room over e m' = Exit c o) as E by (apply (IH k Hk m' s'); rewrite ?Er; done).
  revert E. assert (k <= n)%nat as Hkn by lia. clear -Hkn. revert m' n Hkn.
  induction k as [|k IH]; intros m' n Hkn E; [done|]. destruct n as [|n]; [lia|]. cbn [run] in *.
  destruct (exec_tb room over e m'); try done. cbn [obind] in *. apply IH; [lia|done].
Qed.
End Program.

(** ** From reset *)

(** The CPU object is allocated zeroed; the loader has filled the memory. *)
Definition zero_cpu : CPUPPDLState :=
  mkCPU 0 (replicate 1024 0) 0 0 0 0 0 (replicate 1024 0) 0 0 (replicate 2048 0) 0 0 0 0 0 0 0
    [0; 0; 0; 0] 0 0 (replicate 1024 0) 0 0 0 0.
Definition power_on (r : guest_ram) : machine := mkMachine zero_cpu heap_init None r zero_cpu 0 [].

Lemma clear_bus_ok (n k : nat) c :
  counter c = Z.of_nat k -> (k + n = 1025)%nat -> (k <= 1024)%nat -> length (data_bus c) = 1024%nat ->
  take k (data_bus c) = replicate k 0 ->
  clear_bus n c = Ok (set_counter 1024 (set_data_bus (replicate 1024 0) c)).
Proof.
  revert k c; induction n as [|n IH]; intros k c Hc Hn Hk Hl Ht; [lia|]. cbn [clear_bus]. rewrite Hc.
  destruct (Z.ltb_spec (Z.of_nat k) 1024).
  - rewrite aset_ok by lia. cbn [obind]. rewrite Nat2Z.id.
    rewrite (IH (S k)); cbn [counter data_bus set_counter set_data_bus].
    + done.
    + rewrite u64_id by (unfold is_u64; lia). lia.
    + lia.
    + lia.
    + by rewrite length_insert.
    + rewrite (take_S_r _ k 0) by (apply list_lookup_insert_eq; lia).
      rewrite take_insert_ge, Ht by lia. by rewrite <- replicate_S_end.
  - assert (k = 1024)%nat as -> by lia. rewrite firstn_all2 in Ht by lia. rewrite <- Ht.
    change 1024 with (Z.of_nat 1024). rewrite <- Hc. by destruct c.
Qed.

(** The abstract machine at the start of a program. *)
Definition einit (entry gas : Z) : evm := mkEvm entry [] gas (replicate 1024 0) 0 ∅ [] 32.
Definition boot_env (gas size : Z) : Z -> option (Z * option Z) :=
  env_ops (set_elfSize size (set_GasLimit gas zero_cpu)).

Lemma boot_env_u64 gas size i g v : is_u64 gas -> is_u64 size ->
  boot_env gas size i = Some (g, Some v) -> is_u64 v.
Proof.
  intros Hg Hs H. unfold boot_env, env_ops in H. cbn in H.
  destruct i as [|p|p]; try discriminate H.
  do 7 (destruct p as [p|p|]; try discriminate H; try (injection H as _ <-; (done || by vm_compute))).
Qed.

Lemma bn_inv_init : bn_inv heap_init.
Proof.
  split; [apply heap_wf_init|]. unfold zero_from, heap_init. cbn [cells heap_pos].
  apply Forall_drop, Forall_replicate. done.
Qed.

Lemma reset_models code gas entry r :
  is_u64 gas -> ram_bytes r = code -> Forall is_u8 code -> is_u32 entry ->
  Z.of_nat (length code) + 33 <= ram_size r -> Z.of_nat (length code) + 33 < 2 ^ 32 ->
  let size := Z.of_nat (length code) in
  exists m, RESET entry gas size (power_on r) = Ok m /\ models (boot_env gas size) code m (einit entry gas) /\
  changed_pc m = 0 /\ is_pc_const_changed (cpu m) = 0 /\ ram m = r.
Proof.
  intros Hg Hc Hu He Hr Hz size. unfold RESET, power_on. cbn [cpu].
  rewrite (clear_bus_ok 1025 0) by (reflexivity || lia). cbn [obind]. eexists. split; [reflexivity|].
  split; [|done]. unfold initialize. cbn [mainStorage set_envSaved with_cpu].
  split; cbn [cpu set_storage set_envSaved with_cpu bn mainStorage stdout ram einit e_pc e_stack e_gas e_mem
    e_msize e_store e_out e_regs].
  - change (pc zero_cpu / 2 ^ 32 * 2 ^ 32 + u32 entry = entry /\ 0 <= entry).
    rewrite u32_id by done. unfold is_u32 in He. change (pc zero_cpu) with 0. split; [|lia]. by rewrite Z.div_0_l by done.
  - split_and!; try done; [by apply Forall_replicate|simpl; lia].
  - unfold gas_of. cbn [gas_available set_counter set_data_bus set_log_ptr set_sp set_elfSize set_gas_available].
    rewrite swap_loop_bswap, reg_val_single by done. split; [|done]. split; [done|].
    repeat constructor; try (apply is_u64_0). all: apply bswap64_range.
  - split; [apply bn_inv_init|by vm_compute].
  - split; [done|]. split; [done|]. apply Forall_replicate. by vm_compute.
  - done.
  - eexists. split; [reflexivity|]. split; [|done].
    repeat constructor; apply is_u64_0.
  - done.
  - done.
  - intros i. reflexivity.
  - intros i g v. apply boot_env_u64; [done|]. unfold is_u64, size. lia.
Qed.

(** The whole run: reset, then blocks until the program ends. *)
Definition emulate (room : Z -> nat -> bool) (over : list Z) (entry gas : Z) (r : guest_ram) (n : nat) : outcome machine :=
  let size := Z.of_nat (length (ram_bytes r)) in
  let* m := RESET entry gas size (power_on r) in run n room over size m.

Lemma emulate_refines room over entry gas r n c o :
  let code := ram_bytes r in
  let size := Z.of_nat (length code) in
  is_u64 gas -> is_u32 entry -> Forall is_u8 code -> jump_free r ->
  size + TARGET_PAGE_SIZE <= ram_size r -> size + 33 < 2 ^ 32 ->
  erun (boot_env gas size) code n (einit entry gas) = Some (Halt c o) ->
  emulate room over entry gas r n = Exit c o.
Proof.
  intros code size Hg He Hu Hj Hr Hz Hrun. unfold emulate. fold code size. unfold TARGET_PAGE_SIZE in Hr.
  destruct (reset_models code gas entry r Hg eq_refl Hu He ltac:(unfold size in Hr; lia) Hz)
    as (m & E & Hm & H1 & H2 & H3).
  cbn zeta in E. fold size in E. rewrite E. cbn [obind]. rewrite <- H3 in Hj, Hr.
  exact (program_refines _ code over room n m (einit entry gas) c o Hm H1 H2 Hj Hr Hrun).
Qed.
