(* ===== verification/TbCache.v ===== *)
(** * The translation cache and the CPU loop

    [cpu-exec.c] ([tb_find_fast], [tb_find_slow] and the loop of [cpu_exec]) and
    the part of [translate-all.c] that allocates, links, flushes and invalidates
    translation blocks.  Blocks live in the array [tbs] and are referred to by
    their index, as the code refers to them by pointers into it; the collision
    lists of the hash table and the lists of the blocks of a page run through
    the blocks themselves ([phys_hash_next], [page_next]).  The generated host
    code of a block is what it does: the translated instructions and the address
    behind them.

    A block of this target ends with [exit_tb(0)], so [next_tb] is 0 whenever
    the loop looks for the next block, no block is patched to jump to another,
    and the lists of such jumps stay empty; they are left out.  So are requests
    to leave the loop, interrupts and the instruction counter. *)

From stdpp Require Import base numbers list option gmap fin_maps.
From Stdlib Require Import ZArith Lia.
From S2P Require Import Prelude Words Cpu Helpers Translate TranslateSpec.

(** ** Hash functions *)

Definition TB_JMP_PAGE_BITS : Z := 6.
Definition TB_JMP_PAGE_SIZE : Z := 64.
Definition TB_JMP_ADDR_MASK : Z := 63.
Definition TB_JMP_PAGE_MASK : Z := 4032.
Definition CODE_GEN_PHYS_HASH_SIZE : Z := 2 ^ 15.
Definition CODE_GEN_ALIGN : Z := 16.

(** [pc & TARGET_PAGE_MASK] *)
Definition page_of (pc : Z) : Z := Z.land pc (u64 (- TARGET_PAGE_SIZE)).

Definition tb_jmp_cache_hash_page (pc : Z) : Z :=
  let tmp := Z.lxor pc (Z.shiftr pc (8 - TB_JMP_PAGE_BITS)) in
  Z.land (Z.shiftr tmp (8 - TB_JMP_PAGE_BITS)) TB_JMP_PAGE_MASK.

Definition tb_jmp_cache_hash_func (pc : Z) : Z :=
  let tmp := Z.lxor pc (Z.shiftr pc (8 - TB_JMP_PAGE_BITS)) in
  Z.lor (Z.land (Z.shiftr tmp (8 - TB_JMP_PAGE_BITS)) TB_JMP_PAGE_MASK) (Z.land tmp TB_JMP_ADDR_MASK).

Definition tb_phys_hash_func (pc : Z) : Z := Z.land (Z.shiftr pc 2) (CODE_GEN_PHYS_HASH_SIZE - 1).

(** ** Blocks *)

(** A link of a page list: a block and which of its two pages it is linked for. *)
Abbreviation page_link := (nat * nat)%type.

Record TranslationBlock := mkTB {
  tb_pc : Z;
  tb_cs_base : Z;
  tb_flags : Z;
  tb_cflags : Z;
  tb_size : Z;
  tb_tc_ptr : Z;               (* offset in the code buffer *)
  page_addr0 : Z;
  page_addr1 : Z;              (* -1: the block lies in one page *)
  page_next0 : option page_link;
  page_next1 : option page_link;
  phys_hash_next : option nat;
  tb_code : list tb_insn;
  tb_exit_pc : Z
}.

Definition no_tb : TranslationBlock := mkTB 0 0 0 0 0 0 0 0 None None None [] 0.

(** [TBContext] with the code buffer of [TCGContext], the page table
    ([first_tb] of each [PageDesc]), the pages write-protected for the code they
    hold, and [tb_jmp_cache] of the CPU.  An absent key is a NULL pointer. *)
Record tb_ctx := mkCtx {
  tbs : gmap nat TranslationBlock;
  nb_tbs : nat;
  tb_phys_hash : gmap Z nat;
  first_tb : gmap Z page_link;
  code_protected : gset Z;
  tb_jmp_cache : gmap Z nat;
  code_gen_ptr : Z;
  tb_flush_count : Z;
  tb_phys_invalidate_count : Z;
  tb_invalidated_flag : Z
}.

Definition ctx_init : tb_ctx := mkCtx ∅ 0 ∅ ∅ ∅ ∅ 0 0 0 0.

Definition tb_at (c : tb_ctx) (i : nat) : TranslationBlock := default no_tb (tbs c !! i).

Definition with_tbs (f : gmap nat TranslationBlock -> gmap nat TranslationBlock) (c : tb_ctx) : tb_ctx :=
  mkCtx (f (tbs c)) (nb_tbs c) (tb_phys_hash c) (first_tb c) (code_protected c) (tb_jmp_cache c)
    (code_gen_ptr c) (tb_flush_count c) (tb_phys_invalidate_count c) (tb_invalidated_flag c).
Definition set_hash (h : gmap Z nat) (c : tb_ctx) : tb_ctx :=
  mkCtx (tbs c) (nb_tbs c) h (first_tb c) (code_protected c) (tb_jmp_cache c)
    (code_gen_ptr c) (tb_flush_count c) (tb_phys_invalidate_count c) (tb_invalidated_flag c).
Definition set_first_tb (p : gmap Z page_link) (c : tb_ctx) : tb_ctx :=
  mkCtx (tbs c) (nb_tbs c) (tb_phys_hash c) p (code_protected c) (tb_jmp_cache c)
    (code_gen_ptr c) (tb_flush_count c) (tb_phys_invalidate_count c) (tb_invalidated_flag c).
Definition set_protected (p : gset Z) (c : tb_ctx) : tb_ctx :=
  mkCtx (tbs c) (nb_tbs c) (tb_phys_hash c) (first_tb c) p (tb_jmp_cache c)
    (code_gen_ptr c) (tb_flush_count c) (tb_phys_invalidate_count c) (tb_invalidated_flag c).
Definition set_jmp_cache (j : gmap Z nat) (c : tb_ctx) : tb_ctx :=
  mkCtx (tbs c) (nb_tbs c) (tb_phys_hash c) (first_tb c) (code_protected c) j
    (code_gen_ptr c) (tb_flush_count c) (tb_phys_invalidate_count c) (tb_invalidated_flag c).
Definition set_nb (n : nat) (c : tb_ctx) : tb_ctx :=
  mkCtx (tbs c) n (tb_phys_hash c) (first_tb c) (code_protected c) (tb_jmp_cache c)
    (code_gen_ptr c) (tb_flush_count c) (tb_phys_invalidate_count c) (tb_invalidated_flag c).
Definition set_ptr (p : Z) (c : tb_ctx) : tb_ctx :=
  mkCtx (tbs c) (nb_tbs c) (tb_phys_hash c) (first_tb c) (code_protected c) (tb_jmp_cache c)
    p (tb_flush_count c) (tb_phys_invalidate_count c) (tb_invalidated_flag c).
Definition set_counts (fl inv : Z) (c : tb_ctx) : tb_ctx :=
  mkCtx (tbs c) (nb_tbs c) (tb_phys_hash c) (first_tb c) (code_protected c) (tb_jmp_cache c)
    (code_gen_ptr c) fl inv (tb_invalidated_flag c).
Definition set_invalidated (v : Z) (c : tb_ctx) : tb_ctx :=
  mkCtx (tbs c) (nb_tbs c) (tb_phys_hash c) (first_tb c) (code_protected c) (tb_jmp_cache c)
    (code_gen_ptr c) (tb_flush_count c) (tb_phys_invalidate_count c) v.

(** A store through the pointer to block [i]. *)
Definition upd_tb (i : nat) (f : TranslationBlock -> TranslationBlock) (c : tb_ctx) : tb_ctx :=
  with_tbs <[i := f (tb_at c i)]> c.

Definition set_hash_next (n : option nat) (t : TranslationBlock) : TranslationBlock :=
  mkTB (tb_pc t) (tb_cs_base t) (tb_flags t) (tb_cflags t) (tb_size t) (tb_tc_ptr t) (page_addr0 t)
    (page_addr1 t) (page_next0 t) (page_next1 t) n (tb_code t) (tb_exit_pc t).
Definition set_page (n : nat) (a : Z) (l : option page_link) (t : TranslationBlock) : TranslationBlock :=
  match n with
  | O => mkTB (tb_pc t) (tb_cs_base t) (tb_flags t) (tb_cflags t) (tb_size t) (tb_tc_ptr t) a
           (page_addr1 t) l (page_next1 t) (phys_hash_next t) (tb_code t) (tb_exit_pc t)
  | _ => mkTB (tb_pc t) (tb_cs_base t) (tb_flags t) (tb_cflags t) (tb_size t) (tb_tc_ptr t) (page_addr0 t)
           a (page_next0 t) l (phys_hash_next t) (tb_code t) (tb_exit_pc t)
  end.
Definition page_addr (n : nat) (t : TranslationBlock) : Z :=
  match n with O => page_addr0 t | _ => page_addr1 t end.
Definition page_next (n : nat) (t : TranslationBlock) : option page_link :=
  match n with O => page_next0 t | _ => page_next1 t end.

(** The status with which [cpu_abort] ends the process. *)
Definition ABORTED : Z := 134.

(** [p] as the new value of an entry of a table of pointers. *)
Definition put {A} (k : Z) (p : option A) (t : gmap Z A) : gmap Z A := partial_alter (fun _ => p) k t.

(** ** Pointers to pointers *)

(** [ptb1]: the head of a bucket, or the link of a block. *)
Inductive slot := Head | Link (i : nat).

Definition deref (h : Z) (s : slot) (c : tb_ctx) : option nat :=
  match s with Head => tb_phys_hash c !! h | Link i => phys_hash_next (tb_at c i) end.
Definition store (h : Z) (s : slot) (p : option nat) (c : tb_ctx) : tb_ctx :=
  match s with
  | Head => set_hash (put h p (tb_phys_hash c)) c
  | Link i => upd_tb i (set_hash_next p) c
  end.

(** What the cache uses of the rest of the translator: the size of the array of
    blocks and of the code buffer, the size of the host code the back end emits
    for a block, and the address in RAM that the soft MMU gives for code at a
    virtual address. *)
Record tcg := mkTcg {
  code_gen_max_blocks : nat;
  code_gen_buffer_size : Z;
  code_gen_buffer_max_size : Z;
  tcg_gen_code : list tb_insn -> Z;
  get_page_addr_code : Z -> Z
}.

(** ** Allocation and flushing *)

Definition tb_alloc (g : tcg) (pc : Z) (c : tb_ctx) : option (nat * tb_ctx) :=
  if (code_gen_max_blocks g <=? nb_tbs c)%nat || (code_gen_buffer_max_size g <=? code_gen_ptr c) then None
  else
    let i := nb_tbs c in
    let c := set_nb (S i) c in
    Some (i, upd_tb i (fun t =>
      mkTB pc (tb_cs_base t) (tb_flags t) 0 (tb_size t) (tb_tc_ptr t) (page_addr0 t) (page_addr1 t)
        (page_next0 t) (page_next1 t) (phys_hash_next t) (tb_code t) (tb_exit_pc t)) c).

Definition tb_free (i : nat) (c : tb_ctx) : tb_ctx :=
  if (0 <? nb_tbs c)%nat && (i =? nb_tbs c - 1)%nat
  then set_nb (nb_tbs c - 1) (set_ptr (tb_tc_ptr (tb_at c i)) c)
  else c.

(** The blocks themselves are not cleared. *)
Definition tb_flush (g : tcg) (c : tb_ctx) : outcome tb_ctx :=
  if code_gen_buffer_size g <? code_gen_ptr c then Exit ABORTED []
  else Ok (mkCtx (tbs c) 0 ∅ ∅ (code_protected c) ∅ 0 (tb_flush_count c + 1)
             (tb_phys_invalidate_count c) (tb_invalidated_flag c)).

(** Bits [i .. i+63] of the jump cache are cleared. *)
Definition clear_jmp_page (i : Z) (j : gmap Z nat) : gmap Z nat :=
  filter (fun kv => ~ (i <= kv.1 < i + TB_JMP_PAGE_SIZE)) j.

Definition tb_flush_jmp_cache (addr : Z) (c : tb_ctx) : tb_ctx :=
  let j := clear_jmp_page (tb_jmp_cache_hash_page (u64 (addr - TARGET_PAGE_SIZE))) (tb_jmp_cache c) in
  set_jmp_cache (clear_jmp_page (tb_jmp_cache_hash_page addr) j) c.

(** ** Linking *)

(** A page that had no block is protected against writes. *)
Definition tb_alloc_page (i n : nat) (page_addr : Z) (c : tb_ctx) : tb_ctx :=
  let p := Z.shiftr page_addr 8 in
  let first := first_tb c !! p in
  let c := upd_tb i (set_page n page_addr first) c in
  let c := set_first_tb (<[p := (i, n)]> (first_tb c)) c in
  if first is Some _ then c else set_protected ({[ page_addr ]} ∪ code_protected c) c.

Definition tb_link_page (i : nat) (phys_pc phys_page2 : Z) (c : tb_ctx) : tb_ctx :=
  let h := tb_phys_hash_func phys_pc in
  let c := upd_tb i (set_hash_next (tb_phys_hash c !! h)) c in
  let c := set_hash (<[h := i]> (tb_phys_hash c)) c in
  let c := tb_alloc_page i 0 (page_of phys_pc) c in
  if negb (phys_page2 =? -1) then tb_alloc_page i 1 phys_page2 c
  else upd_tb i (fun t => set_page 1 (-1) (page_next1 t) t) c.

(** ** Unlinking *)

(** [tb_hash_remove]: a block that is not in the list makes the code follow a
    NULL pointer. *)
Fixpoint tb_hash_remove (fuel : nat) (h : Z) (ptb : slot) (i : nat) (c : tb_ctx) : outcome tb_ctx :=
  match fuel with
  | O => Undef
  | S f =>
      match deref h ptb c with
      | None => Undef
      | Some j => if (j =? i)%nat then Ok (store h ptb (phys_hash_next (tb_at c j)) c)
                  else tb_hash_remove f h (Link j) i c
      end
  end.

(** Where a page list link is stored: the head of the list of page [p], or a
    block's link. *)
Definition page_deref (p : Z) (s : option page_link) (c : tb_ctx) : option page_link :=
  match s with None => first_tb c !! p | Some (j, n) => page_next n (tb_at c j) end.
Definition page_store (p : Z) (s : option page_link) (v : option page_link) (c : tb_ctx) : tb_ctx :=
  match s with
  | None => set_first_tb (put p v (first_tb c)) c
  | Some (j, n) => upd_tb j (fun t => set_page n (page_addr n t) v t) c
  end.

Fixpoint tb_page_remove (fuel : nat) (p : Z) (ptb : option page_link) (i : nat) (c : tb_ctx) : outcome tb_ctx :=
  match fuel with
  | O => Undef
  | S f =>
      match page_deref p ptb c with
      | None => Undef
      | Some (j, n) => if (j =? i)%nat then Ok (page_store p ptb (page_next n (tb_at c j)) c)
                       else tb_page_remove f p (Some (j, n)) i c
      end
  end.

(** [page_addr] is the page whose list the caller drops itself, or -1. *)
Definition tb_phys_invalidate (i : nat) (page : Z) (c : tb_ctx) : outcome tb_ctx :=
  let t := tb_at c i in
  let phys_pc := u64 (page_addr0 t + Z.land (tb_pc t) (TARGET_PAGE_SIZE - 1)) in
  let fuel := S (nb_tbs c) in
  let* c := tb_hash_remove fuel (tb_phys_hash_func phys_pc) Head i c in
  let* c := if negb (page_addr0 t =? page) then tb_page_remove (2 * fuel) (Z.shiftr (page_addr0 t) 8) None i c
            else Ok c in
  let* c := if negb (page_addr1 t =? -1) && negb (page_addr1 t =? page)
            then tb_page_remove (2 * fuel) (Z.shiftr (page_addr1 t) 8) None i c else Ok c in
  let c := set_invalidated 1 c in
  let h := tb_jmp_cache_hash_func (tb_pc t) in
  let c := match tb_jmp_cache c !! h with
           | Some j => if (j =? i)%nat then set_jmp_cache (delete h (tb_jmp_cache c)) c else c
           | None => c
           end in
  Ok (set_counts (tb_flush_count c) (tb_phys_invalidate_count c + 1) c).

(** Whether the part of a block's code that link [n] stands for meets the
    range: [!(tb_end <= start || tb_start >= end)]. *)
Definition block_hit (t : TranslationBlock) (n : nat) (start end_ : Z) : bool :=
  let '(tb_start, tb_end) :=
    match n with
    | O =>
        let tb_start := u64 (page_addr0 t + Z.land (tb_pc t) (TARGET_PAGE_SIZE - 1)) in
        (tb_start, u64 (tb_start + tb_size t))
    | _ =>
        let tb_start := page_addr1 t in
        (tb_start, u64 (tb_start + Z.land (u64 (tb_pc t + tb_size t)) (TARGET_PAGE_SIZE - 1)))
    end in
  negb ((tb_end <=? start) || (end_ <=? tb_start)).

(** The loop of [tb_invalidate_phys_page_range] over the blocks of a page from
    link [tb] on; the next link is read before the block is invalidated. *)
Fixpoint invalidate_loop (fuel : nat) (start end_ : Z) (tb : option page_link) (c : tb_ctx) : outcome tb_ctx :=
  match fuel with
  | O => Undef
  | S f =>
      match tb with
      | None => Ok c
      | Some (i, n) =>
          let t := tb_at c i in
          let tb_next := page_next n t in
          let* c := if block_hit t n start end_ then tb_phys_invalidate i (-1) c else Ok c in
          invalidate_loop f start end_ tb_next c
      end
  end.

(** [is_cpu_write_access] is 0: the bitmap of the page is not built and the
    page stays protected. *)
Definition tb_invalidate_phys_page_range (start end_ : Z) (c : tb_ctx) : outcome tb_ctx :=
  invalidate_loop (S (2 * nb_tbs c)) start end_ (first_tb c !! Z.shiftr start 8) c.

(** [other]: whether the page is clean for the display or for migration. *)
Definition cpu_physical_memory_is_clean (other : Z -> bool) (addr : Z) (c : tb_ctx) : bool :=
  bool_decide (page_of addr ∈ code_protected c) || other (page_of addr).

Definition invalidate_and_set_dirty (other : Z -> bool) (addr length : Z) (c : tb_ctx) : outcome tb_ctx :=
  if cpu_physical_memory_is_clean other addr c
  then tb_invalidate_phys_page_range addr (u64 (addr + length)) c else Ok c.

(** ** Translation into the cache *)

Section Loop.
Context (g : tcg) (room : Z -> nat -> bool) (over : list Z) (end_pc : Z).

Definition alloc_or_flush (pc : Z) (c : tb_ctx) : outcome (nat * tb_ctx) :=
  match tb_alloc g pc c with
  | Some r => Ok r
  | None =>
      let* c := tb_flush g c in
      match tb_alloc g pc c with
      | None => Undef
      | Some (i, c) => Ok (i, set_invalidated 1 c)
      end
  end.

(** The block, the cache, and the value of [changed_pc] after translation.  Code
    outside the RAM, for which [get_page_addr_code] aborts or raises, is not
    distinguished here: the bytes themselves are read from [r], and reading
    beyond it is not [Ok]. *)
Definition tb_gen_code (pc cs_base flags : Z) (r : guest_ram) (changed : Z) (c : tb_ctx)
  : outcome (nat * tb_ctx * Z) :=
  let phys_pc := get_page_addr_code g pc in
  let* (i, c) := alloc_or_flush pc c in
  let* (l, dc_pc, changed) := gen_intermediate_code (room pc) end_pc r pc changed in
  let size := u16 (dc_pc - pc) in
  let c := upd_tb i (fun t =>
    mkTB (tb_pc t) cs_base flags 0 size (code_gen_ptr c) (page_addr0 t) (page_addr1 t) (page_next0 t)
      (page_next1 t) (phys_hash_next t) l dc_pc) c in
  let c := set_ptr (Z.land (code_gen_ptr c + tcg_gen_code g l + CODE_GEN_ALIGN - 1) (- CODE_GEN_ALIGN)) c in
  let virt_page2 := page_of (u64 (pc + size - 1)) in
  let phys_page2 := if negb (page_of pc =? virt_page2) then get_page_addr_code g virt_page2 else -1 in
  Ok (i, tb_link_page i phys_pc phys_page2 c, changed).

(** ** Lookup *)

Definition tb_matches (pc cs_base flags phys_page1 : Z) (t : TranslationBlock) : bool :=
  (tb_pc t =? pc) && (page_addr0 t =? phys_page1) && (tb_cs_base t =? cs_base) && (tb_flags t =? flags) &&
  (if negb (page_addr1 t =? -1)
   then page_addr1 t =? get_page_addr_code g (u64 (page_of pc + TARGET_PAGE_SIZE))
   else true).

(** The search loop of [tb_find_slow]: the final [ptb1] and the block found. *)
Fixpoint find_loop (fuel : nat) (h pc cs_base flags phys_page1 : Z) (ptb1 : slot) (c : tb_ctx)
  : outcome (slot * option nat) :=
  match fuel with
  | O => Undef
  | S f =>
      match deref h ptb1 c with
      | None => Ok (ptb1, None)
      | Some i =>
          if tb_matches pc cs_base flags phys_page1 (tb_at c i) then Ok (ptb1, Some i)
          else find_loop f h pc cs_base flags phys_page1 (Link i) c
      end
  end.

(** The block found last is moved to the head of its list. *)
Definition move_to_head (h : Z) (ptb1 : slot) (i : nat) (c : tb_ctx) : tb_ctx :=
  match deref h ptb1 c with
  | None => c
  | Some _ =>
      let c := store h ptb1 (phys_hash_next (tb_at c i)) c in
      let c := upd_tb i (set_hash_next (tb_phys_hash c !! h)) c in
      set_hash (<[h := i]> (tb_phys_hash c)) c
  end.

Definition tb_find_slow (pc cs_base flags : Z) (r : guest_ram) (changed : Z) (c : tb_ctx)
  : outcome (nat * tb_ctx * Z) :=
  let c := set_invalidated 0 c in
  let phys_pc := get_page_addr_code g pc in
  let h := tb_phys_hash_func phys_pc in
  let* (ptb1, found) := find_loop (S (nb_tbs c)) h pc cs_base flags (page_of phys_pc) Head c in
  let* (i, c, changed) :=
    match found with
    | Some i => Ok (i, c, changed)
    | None => tb_gen_code pc cs_base flags r changed c
    end in
  let c := move_to_head h ptb1 i c in
  Ok (i, set_jmp_cache (<[tb_jmp_cache_hash_func pc := i]> (tb_jmp_cache c)) c, changed).

(** [cpu_get_tb_cpu_state] leaves [flags] as it was: the value the local
    variable of [tb_find_fast] happens to have. *)
Definition tb_find_fast (flags : Z) (m : machine) (c : tb_ctx) : outcome (nat * tb_ctx * Z) :=
  let pc := env_pc (cpu m) in
  let cs_base := 0 in
  match tb_jmp_cache c !! tb_jmp_cache_hash_func pc with
  | Some i =>
      let t := tb_at c i in
      if negb (tb_pc t =? pc) || negb (tb_cs_base t =? cs_base) || negb (tb_flags t =? flags)
      then tb_find_slow pc cs_base flags (ram m) (changed_pc m) c
      else Ok (i, c, changed_pc m)
  | None => tb_find_slow pc cs_base flags (ram m) (changed_pc m) c
  end.

(** ** The loop of [cpu_exec] *)

Definition cpu_exec_step (flags : Z) (m : machine) (c : tb_ctx) : outcome (machine * tb_ctx) :=
  let* (i, c, changed) := tb_find_fast flags m c in
  let c := if negb (tb_invalidated_flag c =? 0) then set_invalidated 0 c else c in
  let t := tb_at c i in
  let* m := exec_code over (tb_code t) (tb_exit_pc t) (set_changed_pc changed m) in
  Ok (m, c).

(** [n] rounds of the loop; [flags k] is the garbage in [flags] with [k] rounds
    to go.  In single-step mode the loop of the code leaves after one round with
    [EXCP_DEBUG]: that round is [debug_round] in [Debug]. *)
Fixpoint cpu_exec (n : nat) (flags : nat -> Z) (m : machine) (c : tb_ctx) : outcome (machine * tb_ctx) :=
  match n with
  | O => Ok (m, c)
  | S n' => let* (m, c) := cpu_exec_step (flags n) m c in cpu_exec n' flags m c
  end.
End Loop.
