(* ===== verification/TbCacheSpec.v ===== *)
(** * The translation cache is transparent

    The lists of the hash table as paths through the blocks, the invariant of
    the cache, and the refinement: the CPU loop with its cache of blocks runs a
    program as translating every block anew does. *)

From stdpp Require Import base numbers option gmap fin_maps functions list.
From Stdlib Require Import ZArith Lia.
From S2P Require Import Prelude Words Cpu Helpers Translate TranslateSpec TbCache.

(** ** Paths *)

(** [l] is the path from pointer [p] to pointer [q] along the links [f]. *)
Fixpoint seg {A} (f : A -> option A) (p : option A) (l : list A) (q : option A) : Prop :=
  match l with [] => p = q | i :: l' => p = Some i /\ seg f (f i) l' q end.

Lemma seg_app {A} (f : A -> option A) p l1 l2 q : seg f p (l1 ++ l2) q <-> exists s, seg f p l1 s /\ seg f s l2 q.
Proof.
  revert p; induction l1 as [|i l1 IH]; intros p; simpl.
  - split; [by exists p|]. by intros (? & -> & ?).
  - rewrite IH. split; [intros (? & s & ? & ?)|intros (s & [? ?] & ?)]; eauto.
Qed.

Lemma seg_ext {A} (f f' : A -> option A) p l q : (forall i, i ∈ l -> f' i = f i) -> seg f p l q -> seg f' p l q.
Proof.
  revert p; induction l as [|i l IH]; intros p H; simpl; [done|]. intros [-> Hs]. split; [done|].
  rewrite H by set_solver. apply IH; set_solver.
Qed.

Lemma seg_fun {A} (f : A -> option A) p l q l' : seg f p l None -> seg f p l' q -> exists l2, l = l' ++ l2.
Proof.
  revert p l; induction l' as [|i l' IH]; intros p l H1 H2; [by exists l|].
  destruct H2 as [-> H2]. destruct l as [|j l]; simpl in H1; [done|]. destruct H1 as [E H1].
  injection E as <-. destruct (IH _ _ H1 H2) as [l2 ->]. by exists l2.
Qed.

(** Redirecting the last link of a path. *)
Lemma seg_last `{EqDecision A} (f : A -> option A) p l j q q' : j ∉ l -> seg f p (l ++ [j]) q ->
  seg (<[j := q']> f) p (l ++ [j]) q'.
Proof.
  intros Hj. rewrite !seg_app. intros (s & H1 & H2 & H3). exists s. split.
  - eapply seg_ext; [|done]. intros i Hi. rewrite fn_lookup_insert_ne; [done|]. set_solver.
  - simpl. split; [done|]. by rewrite fn_lookup_insert.
Qed.

(** The position of a pointer after the blocks [l] of a list. *)
Definition slot_after (l : list nat) : slot := match last l with Some j => Link j | None => Head end.

Definition nxt (c : tb_ctx) (i : nat) : option nat := phys_hash_next (tb_at c i).

Lemma slot_after_deref h c l q : seg (nxt c) (tb_phys_hash c !! h) l q -> deref h (slot_after l) c = q.
Proof.
  unfold slot_after. destruct l as [|j l _] using rev_ind; [done|]. rewrite last_snoc, seg_app.
  intros (s & _ & _ & H). exact H.
Qed.

(** ** Effects of the stores *)

Lemma tb_at_upd i f c j : tb_at (upd_tb i f c) j = if decide (i = j) then f (tb_at c i) else tb_at c j.
Proof.
  unfold tb_at, upd_tb, with_tbs. cbn [tbs]. destruct (decide (i = j)) as [->|]; [by rewrite lookup_insert_eq|].
  by rewrite lookup_insert_ne.
Qed.

(** A change of links only. *)
Record same_blocks (c c' : tb_ctx) : Prop := mkSame {
  sb_nb : nb_tbs c' = nb_tbs c;
  sb_pc : forall i, tb_pc (tb_at c' i) = tb_pc (tb_at c i);
  sb_code : forall i, tb_code (tb_at c' i) = tb_code (tb_at c i);
  sb_exit : forall i, tb_exit_pc (tb_at c' i) = tb_exit_pc (tb_at c i)
}.

#[export] Instance same_blocks_preorder : PreOrder same_blocks.
Proof. split; [by intros c|]. intros c1 c2 c3 [] []. split; congruence. Qed.

Lemma same_upd i f c :
  (forall t, tb_pc (f t) = tb_pc t /\ tb_code (f t) = tb_code t /\ tb_exit_pc (f t) = tb_exit_pc t) ->
  same_blocks c (upd_tb i f c).
Proof.
  intros H. split; [done|..]; intros j; rewrite tb_at_upd; case_decide; subst; try done; apply H.
Qed.

Lemma same_hash_next i p c : same_blocks c (upd_tb i (set_hash_next p) c).
Proof. by apply same_upd. Qed.

Lemma same_store h s p c : same_blocks c (store h s p c).
Proof. destruct s; [done|apply same_hash_next]. Qed.

Lemma nxt_upd i p c : forall j, nxt (upd_tb i (set_hash_next p) c) j = <[i := p]> (nxt c) j.
Proof.
  intros j. unfold nxt. rewrite tb_at_upd. case_decide; subst; [by rewrite fn_lookup_insert|].
  by rewrite fn_lookup_insert_ne.
Qed.

(** ** The invariant *)

(** What the cache relies on: the array of blocks is not empty, and the code of
    a block that starts below the limit ends in the buffer. *)
Class TcgLimits (g : tcg) : Prop := {
  tl_blocks : (0 < code_gen_max_blocks g)%nat;
  tl_limit : 0 < code_gen_buffer_max_size g;
  tl_size : forall l, 0 <= tcg_gen_code g l /\
    code_gen_buffer_max_size g + tcg_gen_code g l + CODE_GEN_ALIGN - 1 <= code_gen_buffer_size g
}.

Section Inv.
Context (g : tcg) (room : Z -> nat -> bool) (end_pc : Z) (r : guest_ram).

(** The list of the hash table a block belongs to. *)
Definition bucket (c : tb_ctx) (i : nat) : Z :=
  tb_phys_hash_func (get_page_addr_code g (tb_pc (tb_at c i))).

(** [l] are the blocks of bucket [h]. *)
Definition chain (c : tb_ctx) (h : Z) (l : list nat) : Prop :=
  seg (nxt c) (tb_phys_hash c !! h) l None /\ NoDup l /\
  Forall (fun i => (i < nb_tbs c)%nat /\ bucket c i = h) l.

Definition code_ok (t : TranslationBlock) : Prop :=
  exists ch, gen_intermediate_code (room (tb_pc t)) end_pc r (tb_pc t) 0 = Ok (tb_code t, tb_exit_pc t, ch).

(** A block that lookups can find. *)
Definition live (c : tb_ctx) (i : nat) : Prop := exists l, chain c (bucket c i) l /\ i ∈ l.

(** The shape of the lists and of the buffers. *)
Record lists_ok (c : tb_ctx) : Prop := mkLists {
  lo_lists : forall h, exists l, chain c h l;
  lo_nb : (nb_tbs c <= code_gen_max_blocks g)%nat;
  lo_ptr : 0 <= code_gen_ptr c <= code_gen_buffer_size g
}.

Definition jmp_ok (c : tb_ctx) : Prop :=
  forall h i, tb_jmp_cache c !! h = Some i -> live c i /\ tb_jmp_cache_hash_func (tb_pc (tb_at c i)) = h.

Record cache_ok (c : tb_ctx) : Prop := mkCacheOk {
  ck_lists : lists_ok c;
  ck_jmp : jmp_ok c;
  ck_code : forall i, live c i -> code_ok (tb_at c i)
}.

Lemma chain_lookup c h l i : chain c h l -> i ∈ l -> (i < nb_tbs c)%nat /\ bucket c i = h.
Proof. intros (_ & _ & H) Hi. rewrite Forall_forall in H. by apply H. Qed.

Lemma chain_fun c h l l' : chain c h l -> chain c h l' -> l = l'.
Proof.
  intros (H1 & _ & _) (H2 & _ & _). destruct (seg_fun _ _ _ _ _ H1 H2) as [k E], (seg_fun _ _ _ _ _ H2 H1) as [k' E'].
  subst l. rewrite <- app_assoc in E'. apply (f_equal length) in E'. rewrite !length_app in E'.
  destruct k; [by rewrite app_nil_r|simpl in E'; lia].
Qed.

Lemma live_in c h l i : chain c h l -> i ∈ l -> live c i.
Proof using Type. intros Hc Hi. destruct (chain_lookup c h l i Hc Hi) as [_ E]. exists l. by rewrite E. Qed.

Lemma live_chain c i l : chain c (bucket c i) l -> live c i <-> i ∈ l.
Proof using Type.
  intros Hc. split; [|by apply (live_in c (bucket c i))]. intros (l' & Hl' & Hi). by rewrite (chain_fun _ _ _ _ Hc Hl').
Qed.

Lemma live_lt c i : live c i -> (i < nb_tbs c)%nat.
Proof. intros (l & Hl & Hi). by destruct (chain_lookup _ _ _ _ Hl Hi). Qed.

Lemma same_bucket c c' i : same_blocks c c' -> bucket c' i = bucket c i.
Proof. intros H. unfold bucket. by rewrite (sb_pc _ _ H). Qed.

Lemma same_code c c' i : same_blocks c c' -> code_ok (tb_at c i) -> code_ok (tb_at c' i).
Proof. intros [] [ch H]. exists ch. by rewrite sb_pc0, sb_code0, sb_exit0. Qed.

Lemma same_chain c c' h l : same_blocks c c' ->
  tb_phys_hash c' !! h = tb_phys_hash c !! h -> (forall i, i ∈ l -> nxt c' i = nxt c i) ->
  chain c h l -> chain c' h l.
Proof.
  intros Hs Hh Hn (H1 & H2 & H3). split_and!; [|done|].
  - rewrite Hh. by eapply seg_ext.
  - eapply Forall_impl; [done|]. intros i [? ?]. by rewrite (sb_nb _ _ Hs), (same_bucket c).
Qed.

(** ** Changes of one bucket *)

(** What a change of the list of bucket [h] leaves alone. *)
Record only_bucket (h : Z) (c c' : tb_ctx) : Prop := mkOnly {
  ob_same : same_blocks c c';
  ob_hash : forall h', h' <> h -> tb_phys_hash c' !! h' = tb_phys_hash c !! h';
  ob_nxt : forall i, bucket c i <> h -> nxt c' i = nxt c i;
  ob_jmp : tb_jmp_cache c' = tb_jmp_cache c;
  ob_ptr : code_gen_ptr c' = code_gen_ptr c
}.

Lemma only_bucket_other h c c' h' l : only_bucket h c c' -> h' <> h -> chain c h' l -> chain c' h' l.
Proof.
  intros [] Hne Hl. eapply same_chain; eauto. intros i Hi. apply ob_nxt0.
  destruct (chain_lookup c h' l i Hl Hi). congruence.
Qed.

Lemma only_bucket_lists h c c' l : only_bucket h c c' -> chain c' h l -> lists_ok c -> lists_ok c'.
Proof.
  intros Ho Hl []. pose proof Ho as []. split; [|by rewrite (sb_nb _ _ ob_same0)|by rewrite ob_ptr0].
  intros h'. destruct (decide (h' = h)) as [->|]; [by exists l|]. destruct (lo_lists0 h') as [l' Hl'].
  exists l'. by eapply only_bucket_other.
Qed.

Lemma only_bucket_live h c c' l l' i : only_bucket h c c' -> lists_ok c -> chain c h l -> chain c' h l' ->
  live c' i <-> if decide (bucket c i = h) then i ∈ l' else live c i.
Proof using Type.
  intros Ho Hc Hl Hl'. pose proof (same_bucket c c' i (ob_same _ _ _ Ho)) as E. case_decide as Hb.
  - apply live_chain. by rewrite E, Hb.
  - destruct (lo_lists c Hc (bucket c i)) as [k Hk]. rewrite (live_chain c i k Hk). apply live_chain. rewrite E.
    by eapply only_bucket_other.
Qed.

(** The list of a bucket in another order. *)
Lemma reorder_live h c c' l l' i : only_bucket h c c' -> lists_ok c -> chain c h l -> chain c' h l' -> l' ≡ₚ l ->
  live c' i <-> live c i.
Proof using Type.
  intros Ho Hc Hl Hl' Hp. rewrite (only_bucket_live h c c' l l') by done. case_decide as E; [|done].
  rewrite Hp. symmetry. apply live_chain. by rewrite E.
Qed.

Lemma reorder_ok h c c' l l' : only_bucket h c c' -> chain c h l -> chain c' h l' -> l' ≡ₚ l ->
  cache_ok c -> cache_ok c'.
Proof.
  intros Ho Hl Hl' Hp []. pose proof (fun i => reorder_live h c c' l l' i Ho ck_lists0 Hl Hl' Hp) as Hlv.
  pose proof (ob_same _ _ _ Ho) as Hs. split.
  - by eapply only_bucket_lists.
  - intros h' i. rewrite (ob_jmp _ _ _ Ho), Hlv, (sb_pc _ _ Hs). apply ck_jmp0.
  - intros i. rewrite Hlv. intros Hi. eapply same_code; eauto.
Qed.

(** ** Lookup *)

Lemma find_loop_ok h pc cs fl pp c l1 l2 fuel :
  seg (nxt c) (tb_phys_hash c !! h) l1 (deref h (slot_after l1) c) ->
  seg (nxt c) (deref h (slot_after l1) c) l2 None -> (length l2 < fuel)%nat ->
  exists l i, find_loop g fuel h pc cs fl pp (slot_after l1) c = Ok (slot_after (l1 ++ l), i) /\
    match i with
    | Some i => tb_matches g pc cs fl pp (tb_at c i) = true /\ exists l3, l2 = l ++ i :: l3
    | None => l = l2
    end.
Proof.
  revert l1 l2; induction fuel as [|f IH]; intros l1 l2 H1 H2 Hf; [lia|]. cbn [find_loop].
  destruct l2 as [|i l2].
  - rewrite H2. exists [], None. by rewrite app_nil_r.
  - destruct H2 as [E H2]. rewrite E. destruct (tb_matches _ _ _ _ _ _) eqn:Em.
    { exists [], (Some i). rewrite app_nil_r. split; [done|]. split; [done|]. by exists l2. }
    assert (slot_after (l1 ++ [i]) = Link i) as Es by (unfold slot_after; by rewrite last_snoc).
    destruct (IH (l1 ++ [i]) l2) as (l & o & Ho & Hm).
    + rewrite Es. apply seg_app. exists (Some i). by rewrite <- E at 1.
    + by rewrite Es.
    + simpl in Hf. lia.
    + rewrite Es in Ho. exists (i :: l), o. rewrite <- app_assoc in Ho. split; [done|].
      destruct o as [j|]; [|by subst]. destruct Hm as [? [l3 ->]]. split; [done|]. by exists l3.
Qed.

(** ** Moving a block to the head of its list *)

Lemma move_to_head_only h c l1 i l2 : chain c h (l1 ++ i :: l2) -> only_bucket h c (move_to_head h (slot_after l1) i c).
Proof.
  intros Hc. unfold move_to_head. destruct (deref _ _ _); [|by split].
  destruct (chain_lookup c h _ i Hc ltac:(set_solver)) as [_ Bi].
  set (c1 := store _ _ _ c).
  assert (same_blocks c c1) as S1 by apply same_store.
  set (c2 := upd_tb i _ c1).
  assert (same_blocks c c2) as S2 by (transitivity c1; [done|apply same_hash_next]).
  split; try (by unfold c2, c1, slot_after; destruct (last l1)).
  - destruct S2. by split.
  - intros h' Hne. cbn [tb_phys_hash set_hash]. rewrite lookup_insert_ne by done.
    unfold c2, c1, slot_after. destruct (last l1); [done|]. cbn [store set_hash tb_phys_hash upd_tb with_tbs].
    unfold put. by rewrite lookup_partial_alter_ne.
  - intros j Hj. change (nxt c2 j = nxt c j). unfold c2. rewrite nxt_upd, fn_lookup_insert_ne by congruence.
    unfold c1, slot_after. destruct l1 as [|k l1 _] using rev_ind; [done|]. rewrite last_snoc. cbn [store].
    rewrite nxt_upd, fn_lookup_insert_ne; [done|]. intros ->.
    destruct (chain_lookup c h _ j Hc ltac:(set_solver)). congruence.
Qed.

Lemma move_to_head_chain h c l1 i l2 : chain c h (l1 ++ i :: l2) ->
  chain (move_to_head h (slot_after l1) i c) h (i :: l1 ++ l2).
Proof.
  intros Hc. pose proof (move_to_head_only h c l1 i l2 Hc) as [Hs _ _ _ _].
  destruct Hc as (H1 & H2 & H3). split_and!.
  3:{ rewrite Permutation_middle.
      eapply Forall_impl; [done|]. intros j [? ?]. by rewrite (sb_nb _ _ Hs), (same_bucket c). }
  2:{ by rewrite Permutation_middle. }
  clear Hs H3. pose proof H1 as H1'. apply seg_app in H1 as (p & P1 & -> & P2).
  unfold move_to_head. rewrite (slot_after_deref _ _ _ _ P1). cbn [tb_phys_hash set_hash].
  rewrite lookup_insert_eq. split; [done|].
  destruct l1 as [|k l1 _] using rev_ind.
  - set (c' := set_hash _ _). assert (forall j, nxt c' j = nxt c j) as E.
    { intros j. change (nxt c' j) with (nxt (upd_tb i (set_hash_next (put h (nxt c i) (tb_phys_hash c) !! h)) c) j).
      rewrite nxt_upd. unfold insert, fn_insert, put. case_decide; [|done]. subst.
      by rewrite lookup_partial_alter_eq. }
    rewrite E. eapply seg_ext; [|done]. auto.
  - unfold slot_after. rewrite last_snoc. cbn [store].
    set (c1 := upd_tb k _ c). 
    assert (forall j, nxt (set_hash (<[h:=i]> (tb_phys_hash (upd_tb i (set_hash_next (tb_phys_hash c1 !! h)) c1)))
        (upd_tb i (set_hash_next (tb_phys_hash c1 !! h)) c1)) j =
        <[i := tb_phys_hash c !! h]> (<[k := nxt c i]> (nxt c)) j) as E.
    { intros j. change (nxt (upd_tb i (set_hash_next (tb_phys_hash c !! h)) c1) j =
        <[i := tb_phys_hash c !! h]> (<[k := nxt c i]> (nxt c)) j). rewrite nxt_upd.
      unfold insert, fn_insert. case_decide; [done|]. unfold c1. by rewrite nxt_upd. }
    rewrite E, fn_lookup_insert. eapply seg_ext; [intros j _; apply E|].
    rewrite <- app_assoc in H2. apply NoDup_app in H2 as (N1 & N2 & N3). 
    apply NoDup_cons in N3 as [N3 N4]. apply NoDup_cons in N4 as [N4 N5].
    apply seg_app. exists (nxt c i). split.
    + eapply seg_ext; [|apply (seg_last (nxt c) _ _ _ (Some i)); [|exact P1]; intros Hk; apply (N2 k Hk); set_solver].
      intros j Hj. rewrite fn_lookup_insert_ne; [done|]. intros ->. set_solver.
    + eapply seg_ext; [|done]. intros j Hj. rewrite !fn_lookup_insert_ne; [done|..]; intros ->; set_solver.
Qed.

(** ** A new block *)

Context `{!TcgLimits g}.

(** [c'] is [c0] with the new block [i], at the head of bucket [h] if [linked]. *)
Record new_block (linked : bool) (i : nat) (h pc : Z) (c0 c' : tb_ctx) : Prop := mkNew {
  nb_i : i = nb_tbs c0;
  nb_next : nb_tbs c' = S i;
  nb_others : forall j, j <> i -> tb_at c' j = tb_at c0 j;
  nb_pc : tb_pc (tb_at c' i) = pc;
  nb_hash : tb_phys_hash c' = if linked then <[h := i]> (tb_phys_hash c0) else tb_phys_hash c0;
  nb_link : linked = true -> nxt c' i = tb_phys_hash c0 !! h;
  nb_jmp : tb_jmp_cache c' = tb_jmp_cache c0;
  nb_first : linked = false -> first_tb c' = first_tb c0 /\ code_protected c' = code_protected c0
}.

Lemma tb_alloc_new h pc c i c' : tb_alloc g pc c = Some (i, c') ->
  new_block false i h pc c c' /\ code_gen_ptr c' = code_gen_ptr c /\
  (i < code_gen_max_blocks g)%nat /\ code_gen_ptr c < code_gen_buffer_max_size g.
Proof.
  unfold tb_alloc. destruct (_ || _) eqn:E; [done|]. apply orb_false_elim in E as [E1 E2].
  apply Nat.leb_gt in E1. apply Z.leb_gt in E2. intros [= <- <-]. split_and!; try done. split; try done.
  - intros j Hj. rewrite tb_at_upd, decide_False by done. done.
  - rewrite tb_at_upd, decide_True by done. done.
Qed.

Lemma empty_ok c : nb_tbs c = 0%nat -> tb_phys_hash c = ∅ -> tb_jmp_cache c = ∅ ->
  0 <= code_gen_ptr c <= code_gen_buffer_size g -> cache_ok c.
Proof.
  intros Hn Hh Hj Hp. split.
  - split; [|rewrite Hn; lia|done]. intros h. exists []. unfold chain. rewrite Hh. split_and!; [done|constructor|constructor].
  - intros h i. by rewrite Hj.
  - intros i Hi. apply live_lt in Hi. lia.
Qed.

Lemma tb_flush_inv c c0 : tb_flush g c = Ok c0 ->
  tb_phys_hash c0 = ∅ /\ first_tb c0 = ∅ /\ tb_jmp_cache c0 = ∅ /\ nb_tbs c0 = 0%nat /\ code_protected c0 = code_protected c.
Proof. unfold tb_flush. destruct (_ <? _); [done|]. by intros [= <-]. Qed.

Lemma cache_ok_flushed c : cache_ok c ->
  exists c', tb_flush g c = Ok c' /\ cache_ok c' /\ nb_tbs c' = 0%nat /\ code_gen_ptr c' = 0 /\
    tb_phys_hash c' = ∅ /\ forall j, tb_at c' j = tb_at c j.
Proof.
  intros [[] _ _]. unfold tb_flush. rewrite (proj2 (Z.ltb_ge _ _)) by lia. eexists. split; [done|].
  split; [|done]. apply empty_ok; [done|done|done|cbn; lia].
Qed.

Lemma alloc_or_flush_ok h pc c : cache_ok c ->
  exists c0 i c', alloc_or_flush g pc c = Ok (i, c') /\ cache_ok c0 /\ new_block false i h pc c0 c' /\
    code_gen_ptr c' = code_gen_ptr c0 /\ (i < code_gen_max_blocks g)%nat /\
    code_gen_ptr c0 < code_gen_buffer_max_size g /\
    (forall j, tb_at c0 j = tb_at c j) /\ (c0 = c \/ tb_flush g c = Ok c0).
Proof.
  intros Hc. unfold alloc_or_flush. destruct (tb_alloc g pc c) as [[i c']|] eqn:E.
  - destruct (tb_alloc_new h _ _ _ _ E) as (? & ? & ? & ?). exists c, i, c'. split_and!; auto.
  - destruct (cache_ok_flushed c Hc) as (c0 & -> & Hc0 & Hn & Hp & Hh & Ht). cbn [obind].
    destruct (tb_alloc g pc c0) as [[i c']|] eqn:E0.
    + destruct (tb_alloc_new h _ _ _ _ E0) as ([] & ? & ? & ?). exists c0, i, (set_invalidated 1 c').
      split_and!; auto. by split.
    + unfold tb_alloc in E0. rewrite Hn, Hp, (proj2 (Nat.leb_gt _ _)), (proj2 (Z.leb_gt _ _)) in E0 by apply TcgLimits0. done.
Qed.

(** Changes of the new block that keep it. *)
Lemma new_block_upd b i h pc c0 c' f : new_block b i h pc c0 c' ->
  (forall t, tb_pc (f t) = tb_pc t /\ phys_hash_next (f t) = phys_hash_next t) ->
  new_block b i h pc c0 (upd_tb i f c').
Proof.
  intros [] Hf. split; try done.
  - intros j Hj. rewrite tb_at_upd, decide_False by done. auto.
  - rewrite tb_at_upd, decide_True by done. by rewrite (proj1 (Hf _)).
  - intros Hb. unfold nxt. rewrite tb_at_upd, decide_True by done. rewrite (proj2 (Hf _)). auto.
Qed.

Lemma tb_alloc_page_new i h pc c0 c' n a : new_block true i h pc c0 c' -> new_block true i h pc c0 (tb_alloc_page i n a c').
Proof.
  intros H. unfold tb_alloc_page. set (c1 := upd_tb i _ c').
  assert (new_block true i h pc c0 c1) as [] by (apply new_block_upd; [done|]; intros t; by destruct n).
  destruct (first_tb c' !! _); by split.
Qed.

Lemma tb_alloc_page_fields i n a c :
  code_gen_ptr (tb_alloc_page i n a c) = code_gen_ptr c /\
  tb_code (tb_at (tb_alloc_page i n a c) i) = tb_code (tb_at c i) /\
  tb_exit_pc (tb_at (tb_alloc_page i n a c) i) = tb_exit_pc (tb_at c i).
Proof.
  unfold tb_alloc_page. set (c1 := upd_tb i _ c).
  assert (tb_at c1 i = set_page n a (first_tb c !! Z.shiftr a 8) (tb_at c i)) as E.
  { unfold c1. rewrite tb_at_upd, decide_True by done. done. }
  assert (tb_code (tb_at c1 i) = tb_code (tb_at c i) /\ tb_exit_pc (tb_at c1 i) = tb_exit_pc (tb_at c i)) as [? ?].
  { rewrite E. by destruct n. }
  by destruct (first_tb c !! _).
Qed.

Lemma tb_link_page_new i pc pp p2 c0 c : new_block false i (tb_phys_hash_func pp) pc c0 c ->
  new_block true i (tb_phys_hash_func pp) pc c0 (tb_link_page i pp p2 c).
Proof.
  intros [I1 I2 I3 I4 I5 _ I7]. unfold tb_link_page. set (h := tb_phys_hash_func pp) in *.
  set (c1 := upd_tb i _ c). set (c2 := set_hash _ c1).
  assert (new_block true i h pc c0 c2).
  { split; try done.
    - intros j Hj. change (tb_at c1 j = tb_at c0 j). unfold c1. rewrite tb_at_upd, decide_False by done. auto.
    - change (tb_pc (tb_at c1 i) = pc). unfold c1. rewrite tb_at_upd, decide_True by done. done.
    - cbn [tb_phys_hash c2 set_hash]. change (<[h := i]> (tb_phys_hash c) = <[h := i]> (tb_phys_hash c0)). by rewrite I5.
    - intros _. change (nxt c1 i = tb_phys_hash c0 !! h). unfold c1. by rewrite nxt_upd, fn_lookup_insert, I5. }
  destruct (negb _); [by apply tb_alloc_page_new, tb_alloc_page_new|].
  apply new_block_upd; [by apply tb_alloc_page_new|done].
Qed.

Lemma tb_link_page_fields i pp p2 c :
  code_gen_ptr (tb_link_page i pp p2 c) = code_gen_ptr c /\
  tb_code (tb_at (tb_link_page i pp p2 c) i) = tb_code (tb_at c i) /\
  tb_exit_pc (tb_at (tb_link_page i pp p2 c) i) = tb_exit_pc (tb_at c i).
Proof.
  unfold tb_link_page. set (c1 := upd_tb i _ c). set (c2 := set_hash _ c1).
  assert (tb_at c2 i = set_hash_next (tb_phys_hash c !! tb_phys_hash_func pp) (tb_at c i)) as E.
  { change (tb_at c2 i) with (tb_at c1 i). unfold c1. rewrite tb_at_upd, decide_True by done. done. }
  assert (tb_code (tb_at c2 i) = tb_code (tb_at c i) /\ tb_exit_pc (tb_at c2 i) = tb_exit_pc (tb_at c i)) as [Ec Ee].
  { by rewrite E. }
  destruct (tb_alloc_page_fields i 0 (page_of pp) c2) as (F1 & F2 & F3). set (c3 := tb_alloc_page i 0 _ c2) in *.
  destruct (negb _).
  - destruct (tb_alloc_page_fields i 1 p2 c3) as (-> & -> & ->). by rewrite F1, F2, F3, Ec, Ee.
  - rewrite tb_at_upd, decide_True by done. change (code_gen_ptr c2) with (code_gen_ptr c) in F1.
    split_and!; [done|cbn [set_page tb_code tb_exit_pc]; congruence..].
Qed.

Lemma new_block_others i pc c0 c' h h' l : new_block true i h pc c0 c' -> chain c0 h' l ->
  forall j, j ∈ l -> j <> i /\ tb_at c' j = tb_at c0 j.
Proof.
  intros [] Hl j Hj. destruct (chain_lookup c0 h' l j Hl Hj) as [? _]. assert (j <> i) by lia. auto.
Qed.

Lemma new_block_chain i pc c0 c' h l : new_block true i h pc c0 c' ->
  h = tb_phys_hash_func (get_page_addr_code g pc) -> chain c0 h l -> chain c' h (i :: l).
Proof using Type.
  intros Hb Hh Hl. pose proof (new_block_others _ _ _ _ _ _ _ Hb Hl) as Ho.
  destruct Hb, Hl as (C1 & C2 & C3). split_and!.
  - rewrite nb_hash0, lookup_insert_eq. split; [done|]. rewrite nb_link0 by done.
    eapply seg_ext; [|done]. intros j Hj. unfold nxt. by rewrite (proj2 (Ho j Hj)).
  - constructor; [|done]. intros Hi. by destruct (Ho i Hi).
  - constructor; [split; [lia|unfold bucket; by rewrite nb_pc0]|]. rewrite Forall_forall in C3 |- *. intros j Hj.
    destruct (C3 j Hj) as [? <-]. split; [lia|]. unfold bucket. by rewrite (proj2 (Ho j Hj)).
Qed.

Lemma new_block_other i pc c0 c' h h' l : new_block true i h pc c0 c' -> h' <> h -> chain c0 h' l -> chain c' h' l.
Proof using Type.
  intros Hb Hne Hl. pose proof (new_block_others _ _ _ _ _ _ _ Hb Hl) as Ho.
  destruct Hb, Hl as (C1 & C2 & C3). split_and!; [|done|].
  - rewrite nb_hash0, lookup_insert_ne by done. eapply seg_ext; [|done]. intros j Hj. unfold nxt. by rewrite (proj2 (Ho j Hj)).
  - rewrite Forall_forall in C3 |- *. intros j Hj. destruct (C3 j Hj) as [? <-].
    split; [lia|]. unfold bucket. by rewrite (proj2 (Ho j Hj)).
Qed.

Lemma new_block_live i pc c0 c' h j : new_block true i h pc c0 c' -> lists_ok c0 ->
  h = tb_phys_hash_func (get_page_addr_code g pc) -> live c' j <-> j = i \/ live c0 j.
Proof using Type.
  intros Hb Hc Hh. destruct (lo_lists c0 Hc h) as [l Hl].
  pose proof (new_block_chain _ _ _ _ _ _ Hb Hh Hl) as Hl'. split.
  - intros (k & Hk & Hj). destruct (decide (j = i)) as [->|Hne]; [by left|right].
    destruct (decide (bucket c' j = h)) as [E|E].
    + rewrite E in Hk. rewrite (chain_fun _ _ _ _ Hk Hl') in Hj. apply elem_of_cons in Hj as [?|?]; [done|]. by apply (live_in c0 h l).
    + destruct (lo_lists c0 Hc (bucket c' j)) as [k0 Hk0].
      rewrite (chain_fun _ _ _ _ Hk (new_block_other _ _ _ _ _ _ _ Hb E Hk0)) in Hj. by eapply live_in.
  - intros [->|(k & Hk & Hj)]; [apply (live_in c' h (i :: l)); [done|left]|].
    destruct (decide (bucket c0 j = h)) as [E|E].
    + rewrite E in Hk. rewrite (chain_fun _ _ _ _ Hk Hl) in Hj. apply (live_in c' h (i :: l)); [done|by right].
    + eapply live_in; [by eapply new_block_other|done].
Qed.

Lemma new_block_ok i pc c0 c' h : new_block true i h pc c0 c' -> cache_ok c0 ->
  h = tb_phys_hash_func (get_page_addr_code g pc) -> code_ok (tb_at c' i) ->
  (i < code_gen_max_blocks g)%nat -> 0 <= code_gen_ptr c' <= code_gen_buffer_size g -> cache_ok c'.
Proof.
  intros Hb [Hc Hj Hk0] Hh Hk Hi Hp. assert (forall j, live c0 j -> tb_at c' j = tb_at c0 j) as Ho.
  { intros j (l & Hl & Hjl). by apply (new_block_others _ _ _ _ _ _ _ Hb Hl). }
  pose proof (fun j => new_block_live i pc c0 c' h j Hb Hc Hh) as Hlv. pose proof Hb as []. split.
  - split; [|lia|done]. intros h'. destruct (lo_lists c0 Hc h') as [l Hl].
    destruct (decide (h' = h)) as [->|]; [exists (i :: l); by eapply new_block_chain|exists l; by eapply new_block_other].
  - intros h' j. rewrite nb_jmp0. intros [H1 H2]%Hj. rewrite Hlv, Ho by done. auto.
  - intros j [->|Hl]%Hlv; [done|]. rewrite Ho by done. auto.
Qed.

Lemma align_range p n b : 0 <= p -> 0 <= n -> p + n + CODE_GEN_ALIGN - 1 <= b ->
  0 <= Z.land (p + n + CODE_GEN_ALIGN - 1) (- CODE_GEN_ALIGN) <= b.
Proof.
  intros Hp Hn Hb. change (- CODE_GEN_ALIGN) with (Z.lnot (Z.ones 4)). rewrite <- Z.ldiff_land, Z.ldiff_ones_r by lia.
  rewrite Z.shiftl_mul_pow2, Z.shiftr_div_pow2 by lia. unfold CODE_GEN_ALIGN in *. dm.
Qed.

(** Translating a block into the cache. *)
Lemma tb_gen_code_ok pc cs fl c l dc ch : cache_ok c ->
  gen_intermediate_code (room pc) end_pc r pc 0 = Ok (l, dc, ch) ->
  let h := tb_phys_hash_func (get_page_addr_code g pc) in
  exists c0 i c', tb_gen_code g room end_pc pc cs fl r 0 c = Ok (i, c', ch) /\
    cache_ok c0 /\ cache_ok c' /\ new_block true i h pc c0 c' /\ tb_code (tb_at c' i) = l /\ tb_exit_pc (tb_at c' i) = dc /\
    (forall j, tb_at c0 j = tb_at c j) /\ (c0 = c \/ tb_flush g c = Ok c0).
Proof.
  intros Hc Hg h. unfold tb_gen_code.
  destruct (alloc_or_flush_ok h pc c Hc) as (c0 & i & c1 & -> & Hc0 & Hb1 & Hp & Hi & Hl & Ht & Hh).
  cbn [obind]. rewrite Hg. cbn [obind]. set (f := fun t => mkTB _ _ _ _ _ _ _ _ _ _ _ _ _).
  set (c2 := upd_tb i f c1). set (c3 := set_ptr _ c2). set (p2 := if negb _ then _ else _).
  assert (new_block false i h pc c0 c3) as Hb3.
  { destruct (new_block_upd false i h pc c0 c1 f Hb1) as []; [done|]. by split. }
  assert (tb_at c3 i = f (tb_at c1 i)) as E3.
  { change (tb_at c2 i = f (tb_at c1 i)). unfold c2. rewrite tb_at_upd, decide_True by done. done. }
  pose proof (tb_link_page_new i pc (get_page_addr_code g pc) p2 c0 c3 Hb3) as Hb4.
  destruct (tb_link_page_fields i (get_page_addr_code g pc) p2 c3) as (F1 & F2 & F3).
  rewrite E3 in F2, F3. exists c0, i. eexists. split; [reflexivity|]. split; [done|]. split; [|done].
  destruct (tl_size l) as [S1 S2]. eapply new_block_ok; eauto.
  - exists ch. rewrite F2, F3, (nb_pc _ _ _ _ _ _ Hb4). exact Hg.
  - rewrite F1. apply align_range; try done; change (code_gen_ptr c2) with (code_gen_ptr c1); rewrite Hp.
    + apply (lo_ptr _ (ck_lists _ Hc0)).
    + lia.
Qed.

(** ** Finding the block *)

Lemma set_invalidated_ok v c : cache_ok c -> cache_ok (set_invalidated v c).
Proof. by intros [[] ? ?]; split; [split| |]. Qed.

Lemma set_jmp_ok pc i c : live c i -> tb_pc (tb_at c i) = pc -> cache_ok c ->
  cache_ok (set_jmp_cache (<[tb_jmp_cache_hash_func pc := i]> (tb_jmp_cache c)) c).
Proof.
  intros Hi Hp [[] Hj Hk]. split; [by split| |done]. intros h' j. cbn [tb_jmp_cache set_jmp_cache].
  destruct (decide (tb_jmp_cache_hash_func pc = h')) as [<-|]; [rewrite lookup_insert_eq; intros [= <-]; split; [done|by rewrite <- Hp]|].
  rewrite lookup_insert_ne by done. apply Hj.
Qed.

(** The block at [pc], as translation makes it. *)
Definition is_block (pc : Z) (l : list tb_insn) (dc : Z) (c : tb_ctx) (i : nat) : Prop :=
  live c i /\ tb_pc (tb_at c i) = pc /\ tb_code (tb_at c i) = l /\ tb_exit_pc (tb_at c i) = dc.

Lemma code_is_block pc l dc ch c i : cache_ok c -> live c i -> tb_pc (tb_at c i) = pc ->
  gen_intermediate_code (room pc) end_pc r pc 0 = Ok (l, dc, ch) -> is_block pc l dc c i.
Proof.
  intros Hc Hi Hp Hg. destruct (ck_code _ Hc i Hi) as [ch' E]. rewrite Hp, Hg in E. injection E as -> -> ->. done.
Qed.

(** After a miss the search pointer has nothing to move, or the new block is
    at the head already. *)
Lemma move_after_gen i h pc c c0 c' l :
  chain c h l -> lists_ok c0 -> new_block true i h pc c0 c' -> h = tb_phys_hash_func (get_page_addr_code g pc) ->
  (forall j, tb_at c0 j = tb_at c j) ->
  (c0 = c \/ tb_flush g c = Ok c0) ->
  exists l0 l1, only_bucket h c' (move_to_head h (slot_after l) i c') /\ chain c' h l0 /\
    chain (move_to_head h (slot_after l) i c') h l1 /\ l1 ≡ₚ l0.
Proof.
  intros Hl Hc0 Hb Hh Ht Hor. destruct (lo_lists _ Hc0 h) as [l0 Hl0].
  pose proof (new_block_chain i pc c0 c' h l0 Hb Hh Hl0) as Hn. exists (i :: l0), (i :: l0).
  destruct l as [|j l _] using rev_ind.
  { split_and!; [by apply (move_to_head_only h c' [] i l0)|done|by apply (move_to_head_chain h c' [] i l0)|done]. }
  destruct Hl as (C1 & C2 & C3). apply seg_app in C1 as (p & C1 & -> & Cj). simpl in Cj.
  unfold move_to_head, slot_after. rewrite last_snoc. cbn [deref].
  assert (nxt c' j = None) as E; [|unfold nxt in E; rewrite E; split_and!; [by split|done..]].
  pose proof Hb as []. destruct (decide (j = i)) as [->|Hne].
  - rewrite nb_link0 by done. destruct Hor as [->|Hf]; [|apply tb_flush_inv in Hf as (-> & _); done].
    apply Forall_app in C3 as [_ C3]. apply Forall_inv in C3 as [? _]. lia.
  - unfold nxt. rewrite nb_others0, Ht by done. done.
Qed.

Lemma tb_matches_pc pc cs fl pp t : tb_matches g pc cs fl pp t = true -> tb_pc t = pc.
Proof.
  unfold tb_matches. intros H. do 4 apply andb_prop in H as [H _]. by apply Z.eqb_eq in H.
Qed.

Lemma chain_length c h l : chain c h l -> (length l <= nb_tbs c)%nat.
Proof.
  intros (_ & Hn & Hf). rewrite <- (length_seq (nb_tbs c) 0). apply NoDup_incl_length; [by apply NoDup_ListNoDup|].
  intros j Hj. apply list_elem_of_In in Hj. rewrite Forall_forall in Hf. destruct (Hf j Hj). apply in_seq. lia.
Qed.

Lemma tb_find_slow_ok pc cs fl c l dc ch : cache_ok c ->
  gen_intermediate_code (room pc) end_pc r pc 0 = Ok (l, dc, ch) ->
  exists i c' v, tb_find_slow g room end_pc pc cs fl r 0 c = Ok (i, c', v) /\ cache_ok c' /\
    is_block pc l dc c' i /\ (v = ch \/ v = 0).
Proof.
  intros Hc Hg. unfold tb_find_slow. set (c1 := set_invalidated 0 c).
  assert (cache_ok c1) as Hc1 by (by apply set_invalidated_ok). set (h := tb_phys_hash_func _).
  destruct (lo_lists _ (ck_lists _ Hc1) h) as [k Hk]. pose proof Hk as (K1 & K2 & K3).
  pose proof (chain_length _ _ _ Hk) as Hlen.
  destruct (find_loop_ok h pc cs fl (page_of (get_page_addr_code g pc)) c1 [] k (S (nb_tbs c1)))
    as (l1 & o & E & Ho); [done|done|lia|]. change (slot_after []) with Head in E. rewrite E. cbn [obind app].
  assert (forall i c2 v, cache_ok c2 -> is_block pc l dc c2 i -> v = ch \/ v = 0 -> exists i' c' v',
    Ok (i, set_jmp_cache (<[tb_jmp_cache_hash_func pc := i]> (tb_jmp_cache c2)) c2, v) = Ok (i', c', v') /\
    cache_ok c' /\ is_block pc l dc c' i' /\ (v' = ch \/ v' = 0)) as Hend.
  { intros i c2 v H2 Hi Hv. eexists _, _, _. split; [done|]. pose proof Hi as (? & ? & _). split_and!; [by apply set_jmp_ok|done|done]. }
  destruct o as [i|].
  - destruct Ho as [Hm [l3 ->]]. cbn [obind]. apply tb_matches_pc in Hm.
    pose proof (move_to_head_only h c1 l1 i l3 Hk) as Ho.
    pose proof (move_to_head_chain h c1 l1 i l3 Hk) as Hk'. set (c2 := move_to_head _ _ _ _) in *.
    assert (cache_ok c2) as Hc2 by (eapply reorder_ok; [done|exact Hk|exact Hk'| |done]; apply Permutation_middle).
    apply Hend; [done| |by right]. eapply code_is_block; eauto.
    + eapply live_in; [exact Hk'|set_solver].
    + by rewrite (sb_pc _ _ (ob_same _ _ _ Ho)).
  - subst l1. destruct (tb_gen_code_ok pc cs fl c1 l dc ch Hc1 Hg) as (c0 & i & c2 & -> & Hc0 & Hc2 & Hb & El & Ed & Ht & Hor).
    cbn [obind]. destruct (move_after_gen i h pc c1 c0 c2 k) as (m0 & m1 & Ho & Hm0 & Hm1 & Hp); try done; [apply Hc0|].
    set (c3 := move_to_head _ _ _ _) in *. assert (cache_ok c3) as Hc3 by (by eapply reorder_ok).
    apply Hend; [done| |by left]. eapply code_is_block; eauto.
    + rewrite (only_bucket_live h c2 c3 m0 m1) by (done || apply Hc2). rewrite decide_True; [rewrite Hp|].
      * apply (live_chain c2 i m0); [|apply (new_block_live i pc c0 c2 h); [done|apply Hc0|done|by left]].
        unfold bucket. by rewrite (nb_pc _ _ _ _ _ _ Hb).
      * unfold bucket. by rewrite (nb_pc _ _ _ _ _ _ Hb).
    + rewrite (sb_pc _ _ (ob_same _ _ _ Ho)). apply Hb.
Qed.

(** Code that cannot be translated is in no block: it fails when it is met. *)
Definition fails {A} (x : outcome A) : Prop := forall a, x <> Ok a.

Lemma fails_bind {A B C} (x : outcome A) (k : A -> outcome B) (k' : B -> outcome C) (k2 : A -> outcome C) :
  fails x -> obind (obind x k) k' = obind x k2.
Proof. destruct x; intros H; [by destruct (H a)|done..]. Qed.

Lemma no_block pc c i : cache_ok c -> fails (gen_intermediate_code (room pc) end_pc r pc 0) ->
  live c i -> tb_pc (tb_at c i) <> pc.
Proof. intros Hc Hf Hi <-. destruct (ck_code _ Hc i Hi) as [ch E]. by apply (Hf _ E). Qed.

Lemma tb_find_slow_fails pc cs fl c : cache_ok c -> fails (gen_intermediate_code (room pc) end_pc r pc 0) ->
  exists k, tb_find_slow g room end_pc pc cs fl r 0 c = obind (gen_intermediate_code (room pc) end_pc r pc 0) k.
Proof.
  intros Hc Hf. exists (fun _ => Undef). unfold tb_find_slow. set (c1 := set_invalidated 0 c).
  assert (cache_ok c1) as Hc1 by (by apply set_invalidated_ok). set (h := tb_phys_hash_func _).
  destruct (lo_lists _ (ck_lists _ Hc1) h) as [k Hk]. pose proof (chain_length _ _ _ Hk) as Hlen.
  destruct (find_loop_ok h pc cs fl (page_of (get_page_addr_code g pc)) c1 [] k (S (nb_tbs c1)))
    as (l1 & o & E & Ho); [done|apply Hk|lia|]. change (slot_after []) with Head in E. rewrite E. cbn [obind app].
  destruct o as [i|].
  - destruct Ho as [Hm [l3 ->]]. pose proof (live_in c1 h _ i Hk ltac:(set_solver)) as Hi.
    by destruct (no_block pc c1 i Hc1 Hf Hi (tb_matches_pc _ _ _ _ _ Hm)).
  - unfold tb_gen_code. destruct (alloc_or_flush_ok h pc c1 Hc1) as (c0 & i & c2 & -> & _). cbn [obind].
    by apply fails_bind.
Qed.
End Inv.

(** ** The CPU loop *)

Section Loop.
Context (g : tcg) `{!TcgLimits g} (room : Z -> nat -> bool) (over : list Z) (end_pc : Z).

Lemma cache_ok_init r : 0 <= code_gen_buffer_size g -> cache_ok g room end_pc r ctx_init.
Proof.
  intros Hb. apply empty_ok; [done|done|done|cbn; lia].
Qed.

Lemma tb_find_fast_ok flags m c l dc ch : cache_ok g room end_pc (ram m) c -> changed_pc m = 0 ->
  let p := env_pc (cpu m) in
  gen_intermediate_code (room p) end_pc (ram m) p 0 = Ok (l, dc, ch) ->
  exists i c' v, tb_find_fast g room end_pc flags m c = Ok (i, c', v) /\ cache_ok g room end_pc (ram m) c' /\
    is_block g p l dc c' i /\ (v = ch \/ v = 0).
Proof.
  intros Hc H0 p Hg. unfold tb_find_fast. fold p. rewrite H0.
  destruct (tb_jmp_cache c !! _) as [i|] eqn:E; [|by apply tb_find_slow_ok].
  destruct (_ || _) eqn:Eq; [by apply tb_find_slow_ok|].
  apply orb_false_elim in Eq as [Eq _]. apply orb_false_elim in Eq as [Eq _].
  apply negb_false_iff, Z.eqb_eq in Eq. exists i, c, 0. split_and!; auto.
  eapply code_is_block; eauto. by apply (ck_jmp _ _ _ _ _ Hc _ _ E).
Qed.

(** One round: the code of the block at [pc] runs; a hit leaves [changed_pc]
    as it was, a miss as the translation does. *)
Lemma cpu_exec_step_ok flags m c l dc ch : cache_ok g room end_pc (ram m) c -> changed_pc m = 0 ->
  let p := env_pc (cpu m) in
  gen_intermediate_code (room p) end_pc (ram m) p 0 = Ok (l, dc, ch) ->
  exists v c', (v = ch \/ v = 0) /\ cache_ok g room end_pc (ram m) c' /\
    cpu_exec_step g room over end_pc flags m c =
    let* m' := exec_code over l dc (set_changed_pc v m) in Ok (m', c').
Proof.
  intros Hc H0 p Hg. unfold cpu_exec_step.
  destruct (tb_find_fast_ok flags m c l dc ch Hc H0 Hg) as (i & c' & v & -> & Hc' & (Hi & Hp & Hl & Hd) & Hv).
  cbn [obind]. set (c2 := if negb _ then _ else _).
  assert (tb_at c2 i = tb_at c' i) as -> by (unfold c2; by destruct (negb _)).
  exists v, c2. rewrite Hl, Hd. split_and!; [done|unfold c2; destruct (negb _); [by apply set_invalidated_ok|done]|done].
Qed.

Lemma tb_find_fast_fails flags m c : cache_ok g room end_pc (ram m) c -> changed_pc m = 0 ->
  let p := env_pc (cpu m) in let x := gen_intermediate_code (room p) end_pc (ram m) p 0 in
  fails x -> exists k, tb_find_fast g room end_pc flags m c = obind x k.
Proof.
  intros Hc H0 p x Hf. unfold tb_find_fast. fold p. rewrite H0.
  destruct (tb_jmp_cache c !! _) as [i|] eqn:E; [|by apply tb_find_slow_fails].
  destruct (_ || _) eqn:Eq; [by apply tb_find_slow_fails|].
  apply orb_false_elim in Eq as [Eq _]. apply orb_false_elim in Eq as [Eq _].
  apply negb_false_iff, Z.eqb_eq in Eq. apply (ck_jmp _ _ _ _ _ Hc) in E as [E _].
  by destruct (no_block g room end_pc (ram m) p c i Hc Hf E).
Qed.

(** No PUSH ends exactly at the end of the program. *)
Definition no_push_end (r : guest_ram) : Prop :=
  forall p insn, disas_ppdl_insn p r = Ok (insn, end_pc) -> is_push insn = false.

Lemma gen_loop_changed f rm s k r num p l npc ch : no_push_end r ->
  gen_loop f rm end_pc s k r num p 0 = Ok (l, npc, ch) -> ch = 0.
Proof.
  intros Hn. revert num p l; induction f as [|f IH]; intros num p l H; cbn [gen_loop] in H; [done|].
  apply obind_ok in H as ([insn np] & Hd & H). destruct (Z.eqb_spec np end_pc) as [->|].
  { rewrite (Hn _ _ Hd) in H. by injection H. }
  destruct (_ && _); [|by inv_ok]. apply obind_ok in H as ([[l1 p1] c1] & Hg & H). injection H as _ -> ->. by eapply IH.
Qed.

(** The loop with its cache, forgetting the cache. *)
Definition cpu_exec_result (x : outcome (machine * tb_ctx)) : outcome machine := let* (m, _) := x in Ok m.

(** The loop with its cache runs as the loop that translates every block when
    it meets it, to every outcome. *)
Lemma cpu_exec_run n flags m c : no_push_end (ram m) -> changed_pc m = 0 -> cache_ok g room end_pc (ram m) c ->
  cpu_exec_result (cpu_exec g room over end_pc n flags m c) = run n room over end_pc m.
Proof.
  revert m c; induction n as [|n IH]; intros m c Hn H0 Hc; cbn [run cpu_exec]; [done|].
  unfold exec_tb. rewrite H0. set (p := env_pc (cpu m)).
  destruct (gen_intermediate_code (room p) end_pc (ram m) p 0) as [[[l dc] ch]| | |] eqn:Eg.
  2-4: destruct (tb_find_fast_fails (flags (S n)) m c Hc H0) as [k E]; fold p; rewrite ?Eg; [done|];
    unfold cpu_exec_step; fold p in E; rewrite E, Eg; done.
  assert (ch = 0) as -> by (by eapply gen_loop_changed).
  destruct (cpu_exec_step_ok (flags (S n)) m c l dc 0 Hc H0 Eg) as (v & c' & Hv & Hc' & ->).
  assert (v = 0) as -> by tauto. cbn [obind].
  destruct (exec_code over l dc (set_changed_pc 0 m)) as [m1| | |] eqn:E; try done. cbn [obind].
  apply exec_code_fixed in E as [F1 F2]; [|by eapply gen_loop_u8]. cbn [changed_pc ram set_changed_pc] in F1, F2.
  rewrite <- F2 in Hc', Hn. by apply IH.
Qed.
End Loop.
