(* ===== verification/TbPages.v ===== *)
(** * The blocks of a page

    Every block is linked into the lists of the one or two pages its code lies
    in ([tb_alloc_page]).  The invariant: the list of a page holds exactly the
    live blocks with code in the page, and a page with blocks is protected
    against writes.  Looking blocks up and translating them keeps it. *)

From stdpp Require Import base numbers option gmap fin_maps functions list.
From Stdlib Require Import ZArith Lia.
From S2P Require Import Prelude Words Cpu Helpers Translate TranslateSpec TbCache TbCacheSpec.

(** ** Pages *)

Lemma page_of_eq a : is_u64 a -> page_of a = a / 256 * 256.
Proof.
  intros Ha. unfold page_of, TARGET_PAGE_SIZE. change (u64 (- (256))) with (Z.shiftl (Z.ones 56) 8).
  apply Z.bits_inj'. intros n Hn. rewrite Z.land_spec.
  replace (a / 256 * 256) with (Z.shiftl (Z.shiftr a 8) 8) by (rewrite Z.shiftl_mul_pow2, Z.shiftr_div_pow2 by lia; done).
  rewrite !Z.shiftl_spec by done. destruct (Z.lt_ge_cases n 8) as [Hlt|Hge].
  - rewrite (Z.testbit_neg_r (Z.ones 56)), (Z.testbit_neg_r (Z.shiftr a 8)) by lia. apply andb_false_r.
  - rewrite Z.shiftr_spec, Z.sub_add, Z.testbit_ones_nonneg by lia.
    destruct (Z.ltb_spec (n - 8) 56); [apply andb_true_r|]. rewrite andb_false_r.
    destruct (Z.eq_dec a 0) as [->|]; [by rewrite Z.bits_0|]. unfold is_u64 in Ha.
    rewrite Z.bits_above_log2; [done|lia|]. pose proof (Z.log2_lt_pow2 a 64). lia.
Qed.

Lemma shiftr_page p : Z.shiftr (p * 256) 8 = p.
Proof. rewrite Z.shiftr_div_pow2 by lia. change (2 ^ 8) with 256. rewrite Z.div_mul; lia. Qed.

(** Code is at the same address in RAM as in the address space of the CPU. *)
Class FlatCode (g : tcg) : Prop := flat_code : forall pc, is_u64 pc -> get_page_addr_code g pc = pc.

(** [l] are the links of the list of page [p]. *)
Definition page_nxt (c : tb_ctx) (x : page_link) : option page_link := page_next x.2 (tb_at c x.1).
Definition page_path (c : tb_ctx) (p : Z) (l : list page_link) : Prop := seg (page_nxt c) (first_tb c !! p) l None.

(** Link [x] belongs to the list of page [p]. *)
Definition on_page (c : tb_ctx) (p : Z) (x : page_link) : Prop :=
  (x.2 < 2)%nat /\ page_addr x.2 (tb_at c x.1) <> -1 /\ Z.shiftr (page_addr x.2 (tb_at c x.1)) 8 = p.

(** Where the code of a block comes from. *)
Record block_pages (t : TranslationBlock) : Prop := mkBlockPages {
  bp_pc : 0 <= tb_pc t < 2 ^ 32;
  bp_size : 0 < tb_size t /\ tb_pc t + tb_size t <= tb_pc t / 256 * 256 + 288 /\ tb_exit_pc t = tb_pc t + tb_size t;
  bp_page0 : page_addr0 t = tb_pc t / 256 * 256;
  bp_page1 : page_addr1 t =
    if tb_pc t / 256 =? (tb_pc t + tb_size t - 1) / 256 then -1 else (tb_pc t / 256 + 1) * 256
}.

Section Pages.
Context (g : tcg).

Record pages_ok (c : tb_ctx) : Prop := mkPagesOk {
  pg_lists : forall p, exists l, page_path c p l /\ NoDup l /\
    forall x, x ∈ l <-> live g c x.1 /\ on_page c p x;
  pg_block : forall i, live g c i -> block_pages (tb_at c i);
  pg_prot : forall p x, first_tb c !! p = Some x -> p * 256 ∈ code_protected c
}.

Lemma page_path_fun c p l l' : page_path c p l -> page_path c p l' -> l = l'.
Proof.
  intros H1 H2. destruct (seg_fun _ _ _ _ _ H1 H2) as [k E], (seg_fun _ _ _ _ _ H2 H1) as [k' E'].
  subst l. rewrite <- app_assoc in E'. apply (f_equal length) in E'. rewrite !length_app in E'.
  destruct k; [by rewrite app_nil_r|simpl in E'; lia].
Qed.

(** ** Changes that leave the pages alone *)

Record same_pages (c c' : tb_ctx) : Prop := mkSamePages {
  sp_same : same_blocks c c';
  sp_size : forall i, tb_size (tb_at c' i) = tb_size (tb_at c i);
  sp_next : forall i n, page_next n (tb_at c' i) = page_next n (tb_at c i);
  sp_addr : forall i n, page_addr n (tb_at c' i) = page_addr n (tb_at c i);
  sp_first : first_tb c' = first_tb c;
  sp_prot : code_protected c' = code_protected c
}.

#[export] Instance same_pages_preorder : PreOrder same_pages.
Proof. split; [by intros c|]. intros c1 c2 c3 [] []. split; [by transitivity c2|congruence..]. Qed.

Lemma block_pages_ext t t' : tb_pc t' = tb_pc t -> tb_size t' = tb_size t -> tb_exit_pc t' = tb_exit_pc t ->
  page_addr 0 t' = page_addr 0 t -> page_addr 1 t' = page_addr 1 t -> block_pages t -> block_pages t'.
Proof.
  intros E1 E2 E3 E4 E5 []. unfold page_addr in *. split; rewrite ?E1, ?E2, ?E3, ?E4, ?E5; done.
Qed.

Lemma same_pages_path c c' p l : same_pages c c' -> page_path c p l -> page_path c' p l.
Proof. intros [] H. unfold page_path. rewrite sp_first0. eapply seg_ext; [|exact H]. intros. apply sp_next0. Qed.

Lemma same_pages_on c c' p x : same_pages c c' -> on_page c' p x <-> on_page c p x.
Proof. intros []. unfold on_page. by rewrite sp_addr0. Qed.

Lemma same_pages_block c c' i : same_pages c c' -> block_pages (tb_at c i) -> block_pages (tb_at c' i).
Proof. intros [[] ]. apply block_pages_ext; auto. Qed.

Lemma same_pages_ok c c' : same_pages c c' -> (forall i, live g c' i <-> live g c i) -> pages_ok c -> pages_ok c'.
Proof.
  intros Hs Hl []. split.
  - intros p. destruct (pg_lists0 p) as (l & H1 & H2 & H3). exists l. split_and!; [by eapply same_pages_path|done|].
    intros x. by rewrite H3, Hl, (same_pages_on c c').
  - intros i. rewrite Hl. intros Hi. eapply same_pages_block; eauto.
  - destruct Hs. rewrite sp_first0, sp_prot0. done.
Qed.

Lemma same_pages_hash_next i p c : same_pages c (upd_tb i (set_hash_next p) c).
Proof.
  split; [apply same_hash_next|..]; try done; intros j; intros; rewrite tb_at_upd; case_decide; subst; try done;
    by destruct n.
Qed.

Lemma same_pages_store h s p c : same_pages c (store h s p c).
Proof. destruct s; [done|apply same_pages_hash_next]. Qed.

Lemma same_pages_move h s i c : same_pages c (move_to_head h s i c).
Proof.
  unfold move_to_head. destruct (deref _ _ _); [|done]. cbv zeta.
  match goal with |- same_pages _ (set_hash _ ?c2) => transitivity c2; [|done] end.
  etransitivity; [apply same_pages_store|apply same_pages_hash_next].
Qed.

(** ** A new block *)

(** The link by which a block is in the list of page [p]. *)
Definition link_of (t : TranslationBlock) (p : Z) : option nat :=
  if p =? tb_pc t / 256 then Some 0%nat
  else if (p =? tb_pc t / 256 + 1) && negb (page_addr1 t =? -1) then Some 1%nat else None.

Lemma link_on_page c i n p : block_pages (tb_at c i) -> on_page c p (i, n) <-> link_of (tb_at c i) p = Some n.
Proof.
  intros [Hpc [Hs _] H0 H1]. unfold on_page, link_of. cbn [fst snd].
  assert (page_addr1 (tb_at c i) <> -1 -> Z.shiftr (page_addr1 (tb_at c i)) 8 = tb_pc (tb_at c i) / 256 + 1) as Hp1.
  { rewrite H1. destruct (_ =? _); [done|]. intros _. apply shiftr_page. }
  destruct n as [|[|n]]; cbn [page_addr].
  - rewrite H0, shiftr_page. split; [intros (_ & _ & <-); by rewrite Z.eqb_refl|].
    destruct (Z.eqb_spec p (tb_pc (tb_at c i) / 256)) as [->|]; [intros _; split_and!; [lia| |done]|destruct (_ && _); done].
    assert (0 <= tb_pc (tb_at c i) / 256) by dm. lia.
  - split.
    + intros (_ & Hne & <-). rewrite Hp1 by done. rewrite (proj2 (Z.eqb_neq _ _)), Z.eqb_refl, (proj2 (Z.eqb_neq _ _)) by (done || lia).
      done.
    + destruct (p =? _); [done|]. destruct (Z.eqb_spec p (tb_pc (tb_at c i) / 256 + 1)) as [->|]; [|done].
      destruct (Z.eqb_spec (page_addr1 (tb_at c i)) (-1)); [done|]. intros _. split_and!; [lia|done|auto].
  - split; [lia|]. destruct (p =? _); [done|]. by destruct (_ && _).
Qed.

(** [c'] is [c0] with the block [i] put at the head of the lists of its pages. *)
Record new_pages (i : nat) (c0 c' : tb_ctx) : Prop := mkNewPages {
  np_others : forall j, j <> i -> tb_at c' j = tb_at c0 j;
  np_block : block_pages (tb_at c' i);
  np_first : forall p, first_tb c' !! p =
    match link_of (tb_at c' i) p with Some n => Some (i, n) | None => first_tb c0 !! p end;
  np_next : forall p n, link_of (tb_at c' i) p = Some n -> page_next n (tb_at c' i) = first_tb c0 !! p;
  np_prot : forall p, p * 256 ∈ code_protected c0 \/
    (first_tb c0 !! p = None /\ link_of (tb_at c' i) p <> None) -> p * 256 ∈ code_protected c'
}.

Lemma new_pages_ok i c0 c' : new_pages i c0 c' -> ~ live g c0 i ->
  (forall j, live g c' j <-> j = i \/ live g c0 j) -> pages_ok c0 -> pages_ok c'.
Proof.
  intros [] Hi Hl []. split.
  - intros p. destruct (pg_lists0 p) as (l & H1 & H2 & H3).
    assert (forall j n, (j, n) ∈ l -> j <> i) as Hne by (intros j n [Hj _]%H3 ->; done).
    assert (seg (page_nxt c') (first_tb c0 !! p) l None) as Hseg.
    { eapply seg_ext; [|exact H1]. intros [j n] Hj. unfold page_nxt. cbn [fst]. rewrite np_others0; [done|]. by eapply Hne. }
    assert (forall x, x ∈ l <-> x.1 <> i /\ live g c0 x.1 /\ on_page c' p x) as H4.
    { intros [j n]. rewrite H3. unfold on_page. cbn [fst snd]. split.
      - intros [Hj Ho]. assert (j <> i) by (by intros ->). by rewrite np_others0.
      - intros (Hj & Hlv & Ho). by rewrite np_others0 in Ho. }
    destruct (link_of (tb_at c' i) p) as [n|] eqn:E.
    + exists ((i, n) :: l). unfold page_path. rewrite np_first0, E. split_and!.
      * split; [done|]. change (page_nxt c' (i, n)) with (page_next n (tb_at c' i)). by rewrite (np_next0 p n E).
      * constructor; [|done]. intros Hin. by apply (Hne i n).
      * intros [j m]. rewrite elem_of_cons, H4, Hl. cbn [fst]. split.
        -- intros [[= -> ->]|(? & ? & ?)]; [|auto]. split; [by left|]. by apply link_on_page.
        -- intros [[->|Hj] Ho]; [left|].
           ++ apply link_on_page in Ho; [|done]. congruence.
           ++ right. split_and!; [by intros ->|done|done].
    + exists l. unfold page_path. rewrite np_first0, E. split_and!; [done|done|].
      intros [j m]. rewrite H4, Hl. cbn [fst]. split; [intros (? & ? & ?); auto|].
      intros [[->|Hj] Ho]; [apply link_on_page in Ho; [congruence|done]|]. split_and!; [by intros ->|done|done].
  - intros j [->|Hj]%Hl; [done|]. rewrite np_others0 by (by intros ->). auto.
  - intros p x. rewrite np_first0. intros Hx. apply np_prot0. destruct (first_tb c0 !! p) eqn:E; [left; by eapply pg_prot0|right].
    split; [done|]. by destruct (link_of _ _).
Qed.

Lemma tb_alloc_page_at i n a c j : tb_at (tb_alloc_page i n a c) j =
  if decide (i = j) then set_page n a (first_tb c !! Z.shiftr a 8) (tb_at c i) else tb_at c j.
Proof. unfold tb_alloc_page. destruct (first_tb c !! _); cbv zeta; rewrite <- tb_at_upd; done. Qed.

Lemma tb_alloc_page_first i n a c : first_tb (tb_alloc_page i n a c) = <[Z.shiftr a 8 := (i, n)]> (first_tb c).
Proof. unfold tb_alloc_page. by destruct (first_tb c !! _). Qed.

Lemma tb_alloc_page_prot i n a c x : x ∈ code_protected c \/ (x = a /\ first_tb c !! Z.shiftr a 8 = None) ->
  x ∈ code_protected (tb_alloc_page i n a c).
Proof. unfold tb_alloc_page. destruct (first_tb c !! _); cbn; [intros [?|[_ ?]]; done|]. set_solver. Qed.
End Pages.

Section Translation.
Context (g : tcg) `{!FlatCode g} (room : Z -> nat -> bool) (end_pc : Z) (r : guest_ram).

(** Linking the block for one of its pages. *)
Lemma push_page i n c t p : tb_at c i = t -> let c' := tb_alloc_page i n (p * 256) c in
  tb_at c' i = set_page n (p * 256) (first_tb c !! p) t /\ first_tb c' = <[p := (i, n)]> (first_tb c) /\
  forall q, q * 256 ∈ code_protected c \/ (q = p /\ first_tb c !! q = None) -> q * 256 ∈ code_protected c'.
Proof.
  intros <- c'. unfold c'. rewrite tb_alloc_page_at, decide_True, tb_alloc_page_first, shiftr_page by done. split_and!; [done..|].
  intros q [?|[-> ?]]; apply tb_alloc_page_prot; [by left|right]. by rewrite shiftr_page.
Qed.

(** A block that lies in one page. *)
Lemma one_page i pc c0 c t : (forall j, j <> i -> tb_at (tb_link_page i pc (-1) c) j = tb_at c0 j) ->
  tb_at c i = t -> first_tb c = first_tb c0 -> code_protected c = code_protected c0 -> 0 <= pc < 2 ^ 32 ->
  tb_pc t = pc -> 0 < tb_size t -> pc + tb_size t <= pc / 256 * 256 + 288 -> tb_exit_pc t = pc + tb_size t ->
  pc / 256 = (pc + tb_size t - 1) / 256 -> new_pages i c0 (tb_link_page i pc (-1) c).
Proof.
  intros Ho Et Hf Hp Hpc Ep Hs Hs' He Hq. unfold tb_link_page in *. rewrite page_of_eq in * by (unfold is_u64; lia).
  set (c1 := upd_tb i _ c) in *. set (c2 := set_hash _ c1) in *.
  assert (tb_at c2 i = set_hash_next (tb_phys_hash c !! tb_phys_hash_func pc) t) as E2.
  { change (tb_at c2 i) with (tb_at c1 i). unfold c1. rewrite tb_at_upd, decide_True by done. by rewrite Et. }
  destruct (push_page i 0 c2 _ (pc / 256) E2) as (E3 & F3 & P3). set (c3 := tb_alloc_page i 0 _ c2) in *.
  change (first_tb c2) with (first_tb c) in *. change (code_protected c2) with (code_protected c) in *. rewrite Hf in *. rewrite Hp in *.
  cbn [negb Z.eqb Pos.eqb] in *. set (c4 := upd_tb i _ c3) in *.
  assert (tb_at c4 i = set_page 1 (-1) (page_next1 (tb_at c3 i)) (tb_at c3 i)) as E4.
  { unfold c4. rewrite tb_at_upd, decide_True by done. done. }
  assert (forall p, link_of (tb_at c4 i) p = if p =? pc / 256 then Some 0%nat else None) as Hlk.
  { intros p. unfold link_of. rewrite E4, E3. cbn. rewrite Ep, andb_false_r. done. }
  split; [done| |..]; change (first_tb c4) with (first_tb c3); change (code_protected c4) with (code_protected c3).
  - rewrite E4, E3. split; cbn; rewrite ?Ep; [done|done|done|]. by rewrite (proj2 (Z.eqb_eq _ _)).
  - intros p. rewrite Hlk, F3.
    destruct (Z.eqb_spec p (pc / 256)) as [->|]; [apply lookup_insert_eq|by apply lookup_insert_ne].
  - intros p n. rewrite Hlk. destruct (Z.eqb_spec p (pc / 256)) as [->|]; [|done]. intros [= <-]. by rewrite E4, E3.
  - intros p. rewrite Hlk. intros [?|[Hn Hl]]; apply P3; [by left|right].
    by destruct (Z.eqb_spec p (pc / 256)).
Qed.

(** A block that goes on in the next page. *)
Lemma two_pages i pc c0 c t p2 : (forall j, j <> i -> tb_at (tb_link_page i pc p2 c) j = tb_at c0 j) ->
  tb_at c i = t -> first_tb c = first_tb c0 -> code_protected c = code_protected c0 -> 0 <= pc < 2 ^ 32 ->
  tb_pc t = pc -> 0 < tb_size t -> pc + tb_size t <= pc / 256 * 256 + 288 -> tb_exit_pc t = pc + tb_size t ->
  pc / 256 <> (pc + tb_size t - 1) / 256 -> p2 = (pc / 256 + 1) * 256 -> new_pages i c0 (tb_link_page i pc p2 c).
Proof.
  intros Ho Et Hf Hp Hpc Ep Hs Hs' He Hq ->. assert (0 <= pc / 256) as H0 by dm.
  unfold tb_link_page in *. rewrite page_of_eq in * by (unfold is_u64; lia).
  set (c1 := upd_tb i _ c) in *. set (c2 := set_hash _ c1) in *.
  assert (tb_at c2 i = set_hash_next (tb_phys_hash c !! tb_phys_hash_func pc) t) as E2.
  { change (tb_at c2 i) with (tb_at c1 i). unfold c1. rewrite tb_at_upd, decide_True by done. by rewrite Et. }
  destruct (push_page i 0 c2 _ (pc / 256) E2) as (E3 & F3 & P3). set (c3 := tb_alloc_page i 0 _ c2) in *.
  change (first_tb c2) with (first_tb c) in *. change (code_protected c2) with (code_protected c) in *. rewrite Hf in *. rewrite Hp in *.
  rewrite (proj2 (Z.eqb_neq _ (-1))) in * by lia. cbn [negb] in *.
  destruct (push_page i 1 c3 _ (pc / 256 + 1) E3) as (E4 & F4 & P4). set (c4 := tb_alloc_page i 1 _ c3) in *.
  rewrite F3 in E4, F4, P4. rewrite lookup_insert_ne in E4 by lia.
  assert (forall p, link_of (tb_at c4 i) p = if p =? pc / 256 then Some 0%nat else if p =? pc / 256 + 1 then Some 1%nat else None) as Hlk.
  { intros p. unfold link_of. rewrite E4. cbn. rewrite Ep, (proj2 (Z.eqb_neq _ (-1))), andb_true_r by lia. done. }
  split; [done| |..].
  - rewrite E4. split; cbn; rewrite ?Ep; [done|done|done|]. by rewrite (proj2 (Z.eqb_neq _ _)).
  - intros p. rewrite Hlk, F4.
    destruct (Z.eqb_spec p (pc / 256)) as [->|]; [rewrite lookup_insert_ne by lia; apply lookup_insert_eq|].
    destruct (Z.eqb_spec p (pc / 256 + 1)) as [->|]; [apply lookup_insert_eq|by rewrite !lookup_insert_ne].
  - intros p n. rewrite Hlk. destruct (Z.eqb_spec p (pc / 256)) as [->|]; [intros [= <-]; by rewrite E4|].
    destruct (Z.eqb_spec p (pc / 256 + 1)) as [->|]; [|done]. intros [= <-]. by rewrite E4.
  - intros p. rewrite Hlk. intros [?|[Hn Hl]]; apply P4; [left; apply P3; by left|].
    destruct (Z.eqb_spec p (pc / 256)) as [->|Hne]; [left; apply P3; by right|right].
    destruct (Z.eqb_spec p (pc / 256 + 1)); [|done]. by rewrite lookup_insert_ne by lia.
Qed.

Context `{!TcgLimits g}.
Abbreviation cache_ok := (cache_ok g room end_pc r).
Abbreviation pages_ok := (pages_ok g).

Lemma empty_pages c : nb_tbs c = 0%nat -> first_tb c = ∅ -> pages_ok c.
Proof.
  intros Hn Hf. assert (forall i, ~ live g c i) as Hl by (intros i Hi; apply live_lt in Hi; lia). split.
  - intros p. exists []. split_and!; [unfold page_path; by rewrite Hf|constructor|]. intros x. split; [by intros ?%not_elem_of_nil|].
    intros [Hx _]. by apply Hl in Hx.
  - intros i Hi. by apply Hl in Hi.
  - intros p x. by rewrite Hf.
Qed.

Lemma tb_gen_code_pages pc cs fl c l dc ch i c' : cache_ok c -> pages_ok c -> 0 <= pc < 2 ^ 32 ->
  gen_intermediate_code (room pc) end_pc r pc 0 = Ok (l, dc, ch) ->
  tb_gen_code g room end_pc pc cs fl r 0 c = Ok (i, c', ch) -> pages_ok c'.
Proof.
  intros Hc Hp Hpc Hg E. assert (get_page_addr_code g pc = pc) as Hflat by (apply flat_code; unfold is_u64; lia).
  destruct (gen_code_local _ _ _ _ _ _ _ _ Hg Hpc) as [Hr _]. unfold page_start, TARGET_PAGE_SIZE in Hr.
  assert (0 < dc - pc <= 288) as Hsz by dm.
  assert (u16 (dc - pc) = dc - pc) as Hu by (apply u16_id; unfold is_u16; lia).
  unfold tb_gen_code in E. rewrite Hflat, Hg in E.
  destruct (alloc_or_flush_ok g room end_pc r (tb_phys_hash_func pc) pc c Hc) as (c0 & i1 & c1 & Ea & Hc0 & Hb1 & _ & _ & _ & _ & Hor).
  rewrite Ea in E. cbn [obind] in E. rewrite Hu in E. injection E as <- <-.
  assert (pages_ok c0) as Hp0.
  { destruct Hor as [->|Hf]; [done|]. apply tb_flush_inv in Hf as (_ & ? & _ & ? & _). by apply empty_pages. }
  set (f := fun t => mkTB _ _ _ _ _ _ _ _ _ _ _ _ _). set (c3 := set_ptr _ (upd_tb i1 f c1)). set (p2 := if negb _ then _ else _).
  assert (new_block false i1 (tb_phys_hash_func pc) pc c0 c3) as Hb3.
  { destruct (new_block_upd false i1 (tb_phys_hash_func pc) pc c0 c1 f Hb1) as []; [done|]. by split. }
  pose proof (tb_link_page_new i1 pc pc p2 c0 c3 Hb3) as Hb4. destruct (nb_first _ _ _ _ _ _ Hb3 eq_refl) as [Hf3 Hp3].
  assert (tb_at c3 i1 = f (tb_at c1 i1)) as E3.
  { change (tb_at (upd_tb i1 f c1) i1 = f (tb_at c1 i1)). rewrite tb_at_upd, decide_True by done. done. }
  apply (new_pages_ok g i1 c0); [|intros Hi; apply live_lt in Hi; pose proof (nb_i _ _ _ _ _ _ Hb4); lia|
    intros j; apply (new_block_live g i1 pc c0 _ (tb_phys_hash_func pc)); [done|apply Hc0|by rewrite Hflat]|done].
  assert (page_of pc = pc / 256 * 256 /\ page_of (u64 (pc + (dc - pc) - 1)) = (dc - 1) / 256 * 256) as [P1 P2].
  { rewrite u64_id by (unfold is_u64; lia). replace (pc + (dc - pc) - 1) with (dc - 1) by lia. rewrite !page_of_eq by (unfold is_u64; lia). done. }
  assert (p2 = if pc / 256 =? (dc - 1) / 256 then -1 else (pc / 256 + 1) * 256) as Ep2.
  { unfold p2. rewrite P1, P2. destruct (Z.eqb_spec (pc / 256) ((dc - 1) / 256)) as [<-|Hne]; [by rewrite Z.eqb_refl|].
    rewrite (proj2 (Z.eqb_neq _ _)) by lia. cbn [negb]. rewrite flat_code by (unfold is_u64; dm). dm. }
  assert (tb_size (f (tb_at c1 i1)) = dc - pc /\ tb_exit_pc (f (tb_at c1 i1)) = dc /\ tb_pc (f (tb_at c1 i1)) = pc) as (T1 & T2 & T3)
    by (split_and!; [done|done|apply Hb1]).
  destruct (Z.eqb_spec (pc / 256) ((dc - 1) / 256)) as [Heq|Hne].
  - rewrite Ep2. rewrite Ep2 in Hb4.
    apply (one_page i1 pc c0 c3 (f (tb_at c1 i1))); try done; rewrite ?T1, ?T2; try lia; [apply Hb4|].
    replace (pc + (dc - pc) - 1) with (dc - 1) by lia. done.
  - apply (two_pages i1 pc c0 c3 (f (tb_at c1 i1))); try done; rewrite ?T1, ?T2; try lia; [apply Hb4|].
    replace (pc + (dc - pc) - 1) with (dc - 1) by lia. done.
Qed.

Lemma tb_find_slow_pages pc cs fl c l dc ch i c' v : cache_ok c -> pages_ok c -> 0 <= pc < 2 ^ 32 ->
  gen_intermediate_code (room pc) end_pc r pc 0 = Ok (l, dc, ch) ->
  tb_find_slow g room end_pc pc cs fl r 0 c = Ok (i, c', v) -> pages_ok c'.
Proof.
  intros Hc Hp Hpc Hg. unfold tb_find_slow. set (c1 := set_invalidated 0 c).
  assert (cache_ok c1) as Hc1 by (by apply set_invalidated_ok).
  assert (pages_ok c1) as Hp1 by (by apply (same_pages_ok g c)). set (h := tb_phys_hash_func _).
  destruct (lo_lists _ _ (ck_lists _ _ _ _ _ Hc1) h) as [k Hk]. pose proof (chain_length g c1 h k Hk) as Hlen.
  destruct (find_loop_ok g h pc cs fl (page_of (get_page_addr_code g pc)) c1 [] k (S (nb_tbs c1)))
    as (l1 & o & E & Ho); [done|apply Hk|lia|]. change (slot_after []) with Head in E. rewrite E. cbn [obind app].
  assert (forall c2 l0 l1' s j, cache_ok c2 -> pages_ok c2 -> only_bucket g h c2 (move_to_head h s j c2) -> chain g c2 h l0 ->
    chain g (move_to_head h s j c2) h l1' -> l1' ≡ₚ l0 -> pages_ok (move_to_head h s j c2)) as Hmv.
  { intros c2 l0 l1' s j H2 H2' Hb Hl0 Hl1 Hpm. apply (same_pages_ok g c2); [apply same_pages_move| |done].
    intros j'. eapply reorder_live; eauto. apply H2. }
  destruct o as [j|].
  - destruct Ho as [_ [l3 ->]]. cbn [obind]. intros [= <- <- <-].
    apply (same_pages_ok g (move_to_head h (slot_after l1) j c1)); [done|done|].
    apply (Hmv c1 (l1 ++ j :: l3) (j :: l1 ++ l3)); try done;
      [by eapply move_to_head_only|by eapply move_to_head_chain|apply Permutation_middle].
  - subst l1. destruct (tb_gen_code_ok g room end_pc r pc cs fl c1 l dc ch Hc1 Hg) as (c0 & i2 & c2 & E2 & Hc0 & Hc2 & Hb & _ & _ & Ht & Hor).
    rewrite E2. cbn [obind]. intros [= <- <- <-].
    apply (same_pages_ok g (move_to_head h (slot_after k) i2 c2)); [done|done|].
    destruct (move_after_gen g room end_pc i2 h pc c1 c0 c2 k) as (m0 & m1 & Ho & Hm0 & Hm1 & Hpm); try done; [apply Hc0|].
    eapply Hmv; eauto. by eapply (tb_gen_code_pages pc cs fl c1).
Qed.
End Translation.

Section Lookup.
Context (g : tcg) `{!TcgLimits g, !FlatCode g} (room : Z -> nat -> bool) (end_pc : Z).

Lemma tb_find_fast_pages flags m c l dc ch i c' v : cache_ok g room end_pc (ram m) c -> pages_ok g c -> changed_pc m = 0 ->
  let p := env_pc (cpu m) in
  gen_intermediate_code (room p) end_pc (ram m) p 0 = Ok (l, dc, ch) ->
  tb_find_fast g room end_pc flags m c = Ok (i, c', v) -> pages_ok g c'.
Proof.
  intros Hc Hp H0 p Hg. unfold tb_find_fast. fold p. rewrite H0.
  assert (0 <= p < 2 ^ 32) as Hpc by (apply Z.mod_pos_bound; lia).
  destruct (tb_jmp_cache c !! _) as [j|]; [destruct (_ || _)|]; [by eapply tb_find_slow_pages|by intros [= <- <- <-]|
    by eapply tb_find_slow_pages].
Qed.

Lemma pages_ok_init : pages_ok g ctx_init.
Proof. by apply empty_pages. Qed.
End Lookup.
