(* ===== verification/TbInvalidate.v ===== *)
(** * Invalidation of translated blocks

    [tb_phys_invalidate] takes a block out of its hash list, out of the lists of
    the pages its code comes from, and out of the jump cache; the rest of the
    cache stays consistent.  [tb_invalidate_phys_page_range] does so for every
    block with code in a range of addresses, so that memory can be written
    without leaving stale translations behind. *)

From stdpp Require Import base numbers option gmap fin_maps functions list.
From Stdlib Require Import ZArith Lia.
From S2P Require Import Prelude Words Cpu Helpers Translate TranslateSpec TbCache TbCacheSpec TbPages.

Section Invalidate.
Context (g : tcg) `{!FlatCode g}.
Abbreviation chain := (chain g).
Abbreviation only_bucket := (only_bucket g).
Abbreviation live := (live g).
Abbreviation lists_ok := (lists_ok g).
Abbreviation pages_ok := (pages_ok g).

(** ** The hash list *)

Lemma hash_remove_walk h i c l0 l1 l2 fuel :
  seg (nxt c) (tb_phys_hash c !! h) ((l0 ++ l1) ++ i :: l2) None -> i ∉ l1 -> (length l1 < fuel)%nat ->
  tb_hash_remove fuel h (slot_after l0) i c = Ok (store h (slot_after (l0 ++ l1)) (nxt c i) c).
Proof.
  revert l0 fuel; induction l1 as [|j l1 IH]; intros l0 fuel H Hi Hf; (destruct fuel as [|f]; [simpl in Hf; lia|]);
    cbn [tb_hash_remove].
  - rewrite app_nil_r in *. apply seg_app in H as (p & P1 & -> & _).
    rewrite (slot_after_deref _ _ _ _ P1), Nat.eqb_refl. done.
  - pose proof H as H'. rewrite <- app_assoc in H. apply seg_app in H as (p & P1 & -> & _).
    rewrite (slot_after_deref _ _ _ _ P1). destruct (Nat.eqb_spec j i) as [->|]; [set_solver|].
    assert (slot_after (l0 ++ [j]) = Link j) as <- by (unfold slot_after; by rewrite last_snoc).
    replace (l0 ++ j :: l1) with ((l0 ++ [j]) ++ l1) in * by (by rewrite <- app_assoc).
    exact (IH (l0 ++ [j]) f H' ltac:(set_solver) ltac:(simpl in Hf; lia)).
Qed.

Lemma remove_only h c l1 i l2 : chain c h (l1 ++ i :: l2) -> only_bucket h c (store h (slot_after l1) (nxt c i) c).
Proof.
  intros Hc. unfold slot_after. destruct l1 as [|k l1 _] using rev_ind.
  - split; try done. intros h' Hne. cbn [store last tb_phys_hash set_hash].
    unfold put. by rewrite lookup_partial_alter_ne.
  - rewrite last_snoc. split; try done; [apply (same_store h (Link k))|].
    intros j Hj. cbn [store]. rewrite nxt_upd, fn_lookup_insert_ne; [done|]. intros ->.
    destruct (chain_lookup g c h _ j Hc ltac:(set_solver)). congruence.
Qed.

Lemma remove_chain h c l1 i l2 : chain c h (l1 ++ i :: l2) ->
  chain (store h (slot_after l1) (nxt c i) c) h (l1 ++ l2).
Proof.
  intros Hc. pose proof (remove_only h c l1 i l2 Hc) as [Hs _ _ _ _].
  destruct Hc as (H1 & H2 & H3). rewrite <- Permutation_middle in H2. apply NoDup_cons in H2 as [Ni H2]. split_and!; [|done|].
  2:{ apply Forall_app in H3 as [F1 F2]. apply Forall_cons in F2 as [_ F2].
      apply Forall_app_2; (eapply Forall_impl; [done|]; intros j [? ?]; by rewrite (sb_nb _ _ Hs), (same_bucket g c)). }
  clear Hs H3. apply seg_app in H1 as (p & P1 & -> & P2). unfold slot_after.
  destruct l1 as [|k l1 _] using rev_ind.
  - cbn [last store tb_phys_hash set_hash app]. unfold put. rewrite lookup_partial_alter_eq. exact P2.
  - rewrite last_snoc. cbn [store]. apply seg_app. exists (nxt c i). split.
    + eapply seg_ext; [intros j _; apply nxt_upd|]. apply (seg_last (nxt c) _ _ _ (Some i)); [|exact P1].
      rewrite <- app_assoc in H2. apply NoDup_app in H2 as (_ & N & _). intros Hk. apply (N k Hk). set_solver.
    + eapply seg_ext; [|exact P2]. intros j Hj. rewrite nxt_upd, fn_lookup_insert_ne; [done|]. intros ->.
      rewrite <- app_assoc in H2. apply NoDup_app in H2 as (_ & _ & N). apply NoDup_cons in N as [N _]. done.
Qed.

Lemma hash_remove_ok i c : lists_ok c -> live c i ->
  exists s v, tb_hash_remove (S (nb_tbs c)) (bucket g c i) Head i c = Ok (store (bucket g c i) s v c) /\
    let c' := store (bucket g c i) s v c in
    lists_ok c' /\ same_pages c c' /\ tb_jmp_cache c' = tb_jmp_cache c /\
    forall j, live c' j <-> live c j /\ j <> i.
Proof.
  intros Hc (l & Hl & Hi). pose proof (chain_length g _ _ _ Hl) as Hlen.
  apply list_elem_of_split in Hi as (l1 & l2 & ->). pose proof Hl as (H1 & H2 & _).
  rewrite <- Permutation_middle in H2. apply NoDup_cons in H2 as [Ni _]. rewrite length_app in Hlen. cbn [length] in Hlen.
  exists (slot_after l1), (nxt c i). split; [apply (hash_remove_walk _ i c [] l1 l2); [done|set_solver|lia]|].
  pose proof (remove_only _ c l1 i l2 Hl) as Ho. pose proof (remove_chain _ c l1 i l2 Hl) as Hl'.
  cbv zeta. split_and!; [by eapply only_bucket_lists|apply same_pages_store|apply Ho|].
  intros j. rewrite (only_bucket_live g _ c _ _ _ j Ho Hc Hl Hl'). case_decide as E.
  - rewrite (live_chain g c j (l1 ++ i :: l2)) by (by rewrite E). rewrite <- Permutation_middle, elem_of_cons.
    split; [intros Hj; split; [by right|by intros ->]|]. intros [[->|?] ?]; done.
  - split; [intros ?; split; [done|by intros ->]|by intros [? _]].
Qed.

(** ** The lists of a page *)

(** A change of page links only. *)
Record pages_only (c c' : tb_ctx) : Prop := mkPages {
  po_same : same_blocks c c';
  po_hash : tb_phys_hash c' = tb_phys_hash c;
  po_nxt : forall i, nxt c' i = nxt c i;
  po_jmp : tb_jmp_cache c' = tb_jmp_cache c;
  po_ptr : code_gen_ptr c' = code_gen_ptr c;
  po_addr : forall n i, page_addr n (tb_at c' i) = page_addr n (tb_at c i);
  po_size : forall i, tb_size (tb_at c' i) = tb_size (tb_at c i);
  po_prot : code_protected c' = code_protected c
}.

#[export] Instance pages_only_preorder : PreOrder pages_only.
Proof. split; [by intros c|]. intros c1 c2 c3 [] []. split; [by transitivity c2|congruence..]. Qed.

Lemma pages_only_chain c c' h l : pages_only c c' -> chain c h l -> chain c' h l.
Proof. intros [Hs Hh Hn _ _ _ _ _]. apply same_chain; [done|by rewrite Hh|auto]. Qed.

Lemma pages_only_live c c' i : pages_only c c' -> lists_ok c -> live c' i <-> live c i.
Proof.
  intros Hp Hc. destruct (lo_lists g c Hc (bucket g c i)) as [l Hl]. rewrite (live_chain g c i l Hl).
  apply live_chain. rewrite (same_bucket g c c') by apply Hp. by eapply pages_only_chain.
Qed.

Lemma pages_only_lists c c' : pages_only c c' -> lists_ok c -> lists_ok c'.
Proof.
  intros Hp []. split; [|by rewrite (sb_nb _ _ (po_same _ _ Hp))|by rewrite (po_ptr _ _ Hp)].
  intros h. destruct (lo_lists h) as [l Hl]. exists l. by eapply pages_only_chain.
Qed.

(** The fields a page link is not. *)
Lemma set_page_addr n v t k : page_addr k (set_page n (page_addr n t) v t) = page_addr k t.
Proof. by destruct n, k. Qed.

Lemma page_store_only p s v c : pages_only c (page_store p s v c).
Proof.
  destruct s as [[j n]|]; [|done]. cbn [page_store]. split; try done.
  - apply same_upd. intros t. by destruct n.
  - intros i. unfold nxt. rewrite tb_at_upd. case_decide; subst; [by destruct n|done].
  - intros k i. rewrite tb_at_upd. case_decide; subst; [apply set_page_addr|done].
  - intros i. rewrite tb_at_upd. case_decide; subst; [by destruct n|done].
Qed.

Lemma page_nxt_store p k v c x : (k.2 < 2)%nat -> (x.2 < 2)%nat ->
  page_nxt (page_store p (Some k) v c) x = <[k := v]> (page_nxt c) x.
Proof.
  destruct k as [j n], x as [j' n']. cbn [fst snd page_store]. intros Hn Hn'. unfold page_nxt. cbn [fst snd]. rewrite tb_at_upd.
  case_decide; subst.
  - destruct n as [|[|n]], n' as [|[|n']]; try lia; cbn [set_page page_next].
    1,4: by rewrite fn_lookup_insert. all: by rewrite fn_lookup_insert_ne.
  - rewrite fn_lookup_insert_ne by congruence. done.
Qed.

Lemma page_deref_last c p (l : list page_link) q : seg (page_nxt c) (first_tb c !! p) l q -> page_deref p (last l) c = q.
Proof.
  destruct l as [|[j n] l _] using rev_ind; [done|]. rewrite last_snoc, seg_app. intros (s & _ & _ & H). exact H.
Qed.

Lemma page_remove_walk p i n c (l0 l1 l2 : list page_link) fuel :
  page_path c p ((l0 ++ l1) ++ (i, n) :: l2) -> (forall m, (i, m) ∉ l1) -> (length l1 < fuel)%nat ->
  tb_page_remove fuel p (last l0) i c = Ok (page_store p (last (l0 ++ l1)) (page_nxt c (i, n)) c).
Proof.
  revert l0 fuel; induction l1 as [|[j m] l1 IH]; intros l0 fuel H Hi Hf; (destruct fuel as [|f]; [simpl in Hf; lia|]);
    cbn [tb_page_remove].
  - rewrite app_nil_r in *. apply seg_app in H as (q & P1 & -> & _).
    rewrite (page_deref_last _ _ _ _ P1), Nat.eqb_refl. done.
  - pose proof H as H'. rewrite <- app_assoc in H. apply seg_app in H as (q & P1 & -> & _).
    rewrite (page_deref_last _ _ _ _ P1). destruct (Nat.eqb_spec j i) as [->|]; [destruct (Hi m); left|].
    specialize (IH (l0 ++ [(j, m)]) f). rewrite last_snoc, <- (app_assoc l0) in IH. cbn [app] in IH.
    apply IH; [exact H'| |simpl in Hf; lia]. intros k Hk. apply (Hi k). by right.
Qed.

(** The list without the link, and the other lists. *)
Lemma page_store_path c p (l1 : list page_link) x l2 : page_path c p (l1 ++ x :: l2) -> NoDup (l1 ++ x :: l2) ->
  Forall (fun y => (y.2 < 2)%nat) (l1 ++ x :: l2) ->
  page_path (page_store p (last l1) (page_nxt c x) c) p (l1 ++ l2).
Proof.
  intros H Hn Hf. rewrite Forall_forall in Hf. apply seg_app in H as (q & P1 & -> & P2).
  destruct l1 as [|k l1 _] using rev_ind.
  - cbn [last page_store app]. unfold page_path. cbn [first_tb set_first_tb]. unfold put. by rewrite lookup_partial_alter_eq.
  - rewrite last_snoc. unfold page_path.
    assert (forall y, y ∈ (l1 ++ [k]) ++ l2 -> page_nxt (page_store p (Some k) (page_nxt c x) c) y = <[k := page_nxt c x]> (page_nxt c) y) as E.
    { intros y Hy. apply page_nxt_store; apply Hf; set_solver. }
    assert (first_tb (page_store p (Some k) (page_nxt c x) c) = first_tb c) as -> by (by destruct k).
    rewrite <- app_assoc in Hn. apply NoDup_app in Hn as (_ & N1 & N2). apply NoDup_cons in N2 as [N2 N3].
    apply seg_app. exists (page_nxt c x). split.
    + eapply seg_ext; [intros y Hy; apply E; set_solver|]. apply (seg_last (page_nxt c) _ _ _ (Some x)); [|exact P1].
      intros Hk. apply (N1 k Hk). set_solver.
    + eapply seg_ext; [intros y Hy; apply E; set_solver|]. eapply seg_ext; [|exact P2].
      intros y Hy. rewrite fn_lookup_insert_ne; [done|]. intros <-. set_solver.
Qed.

Lemma page_store_other c p s v p' l : p' <> p -> (forall k, s = Some k -> on_page c p k) ->
  (forall y, y ∈ l -> on_page c p' y) -> page_path c p' l -> page_path (page_store p s v c) p' l.
Proof.
  intros Hne Hs Hl H. unfold page_path. destruct s as [k|].
  - assert (first_tb (page_store p (Some k) v c) = first_tb c) as -> by (by destruct k).
    eapply seg_ext; [|exact H]. intros y Hy. destruct (Hs k eq_refl) as (K1 & _ & K2), (Hl y Hy) as (Y1 & _ & Y2).
    rewrite page_nxt_store by done. apply fn_lookup_insert_ne. intros <-. congruence.
  - cbn [page_store first_tb set_first_tb]. unfold put. by rewrite lookup_partial_alter_ne.
Qed.

Definition without (i : nat) (l : list page_link) : list page_link := filter (fun x => x.1 <> i) l.

Lemma without_nop i l : (forall n, (i, n) ∉ l) -> without i l = l.
Proof.
  unfold without. induction l as [|[j n] l IH]; intros H; [done|].
  rewrite filter_cons_True, IH; [done| |]; [intros m Hm; apply (H m); by right|]. cbn. intros ->. apply (H n). left.
Qed.

(** A block occurs once in the list of a page. *)
Lemma without_split i n (l1 l2 : list page_link) : NoDup (l1 ++ (i, n) :: l2) ->
  (forall m, (i, m) ∈ l1 ++ (i, n) :: l2 -> m = n) ->
  (forall m, (i, m) ∉ l1) /\ without i (l1 ++ (i, n) :: l2) = l1 ++ l2.
Proof.
  intros Hn Hu. rewrite <- Permutation_middle in Hn. apply NoDup_cons in Hn as [Ni _].
  assert (forall m, (i, m) ∉ l1 ++ l2) as N.
  { intros m Hm. assert (m = n) as ->; [|done]. apply Hu. apply elem_of_app in Hm as [?|?]; apply elem_of_app; [by left|right; by right]. }
  split; [intros m Hm; apply (N m), elem_of_app; by left|].
  unfold without. rewrite filter_app, filter_cons_False by (cbn; tauto). fold (without i l1) (without i l2).
  rewrite !without_nop; [done|..]; intros m Hm; apply (N m), elem_of_app; tauto.
Qed.

Lemma page_remove_ok c p i n (l : list page_link) fuel : page_path c p l -> NoDup l -> (forall x, x ∈ l -> on_page c p x) ->
  (i, n) ∈ l -> (forall m, (i, m) ∈ l -> m = n) -> (length l <= fuel)%nat ->
  exists c', tb_page_remove fuel p None i c = Ok c' /\ pages_only c c' /\ page_path c' p (without i l) /\
    forall p' l', p' <> p -> (forall x, x ∈ l' -> on_page c p' x) -> page_path c p' l' -> page_path c' p' l'.
Proof.
  intros H Hn Hl Hi Hu Hf. apply list_elem_of_split in Hi as (l1 & l2 & ->). rewrite length_app in Hf. cbn [length] in Hf.
  destruct (without_split i n l1 l2 Hn Hu) as [N1 Ew].
  exists (page_store p (last l1) (page_nxt c (i, n)) c). split_and!.
  - apply (page_remove_walk p i n c [] l1 l2); [done|done|lia].
  - apply page_store_only.
  - rewrite Ew. apply page_store_path; [done|done|]. rewrite Forall_forall. intros x Hx. apply (Hl x Hx).
  - intros p' l' Hne Hl' H'. apply page_store_other; [done| |done|done].
    intros k Hk. apply Hl. apply last_Some in Hk as [l1' ->]. set_solver.
Qed.

(** Every page has its list. *)
Definition paths_ok (c : tb_ctx) : Prop :=
  forall p, exists l, page_path c p l /\ NoDup l /\ forall x, x ∈ l -> on_page c p x.

Lemma pages_only_on c c' p x : pages_only c c' -> on_page c' p x <-> on_page c p x.
Proof. intros []. unfold on_page. by rewrite po_addr0. Qed.

Lemma page_step c i p n l fuel : paths_ok c -> page_path c p l -> (i, n) ∈ l -> (forall m, (i, m) ∈ l -> m = n) ->
  (length l <= fuel)%nat ->
  exists c', tb_page_remove fuel p None i c = Ok c' /\ pages_only c c' /\ paths_ok c' /\
    forall q k, page_path c q k -> page_path c' q (if decide (q = p) then without i k else k).
Proof.
  intros Hc Hl Hi Hu Hf. destruct (Hc p) as (l' & H1 & H2 & H3). rewrite <- (page_path_fun c p l l' Hl H1) in *.
  destruct (page_remove_ok c p i n l fuel Hl H2 H3 Hi Hu Hf) as (c' & E & Ho & Hp & Hq). exists c'.
  assert (forall q k, page_path c q k -> page_path c' q (if decide (q = p) then without i k else k)) as Hall.
  { intros q k Hk. case_decide as D; [subst q; by rewrite (page_path_fun c p k l Hk Hl)|].
    apply Hq; [done| |done]. destruct (Hc q) as (k' & K1 & _ & K3). by rewrite (page_path_fun c q k k' Hk K1). }
  split_and!; [done|done| |done]. intros q. destruct (Hc q) as (k & K1 & K2 & K3). eexists. split; [by apply Hall|].
  case_decide; split; [by apply NoDup_filter| |done|]; intros x Hx; apply (pages_only_on c c'); try done; apply K3; [|done].
  by apply list_elem_of_filter in Hx as [_ Hx].
Qed.

Lemma links_length (l : list page_link) nb : NoDup l -> (forall x, x ∈ l -> (x.1 < nb)%nat /\ (x.2 < 2)%nat) -> (length l <= 2 * nb)%nat.
Proof.
  intros Hn H. assert (length (list_prod (seq 0 nb) [0%nat; 1%nat]) = (2 * nb)%nat) as <-.
  { rewrite length_prod, length_seq. simpl. lia. }
  apply NoDup_incl_length; [by apply NoDup_ListNoDup|]. intros [j n] Hj. apply list_elem_of_In in Hj.
  destruct (H _ Hj) as [H1 H2]. cbn [fst snd] in *. apply in_prod; [apply in_seq; lia|]. simpl. lia.
Qed.

(** The address of a block as the code recomputes it. *)
Lemma block_phys t : block_pages t -> u64 (page_addr0 t + Z.land (tb_pc t) (TARGET_PAGE_SIZE - 1)) = tb_pc t.
Proof.
  intros [Hpc _ -> _]. unfold TARGET_PAGE_SIZE. change (256 - 1) with (Z.ones 8). rewrite Z.land_ones by lia.
  change (2 ^ 8) with 256. replace (tb_pc t / 256 * 256 + tb_pc t mod 256) with (tb_pc t) by dm.
  apply u64_id. unfold is_u64. lia.
Qed.

(** What an invalidation leaves of the blocks: all but their links. *)
Record same_content (c c' : tb_ctx) : Prop := mkContent {
  sc_same : same_blocks c c';
  sc_size : forall i, tb_size (tb_at c' i) = tb_size (tb_at c i);
  sc_addr : forall n i, page_addr n (tb_at c' i) = page_addr n (tb_at c i);
  sc_prot : code_protected c' = code_protected c
}.

#[export] Instance same_content_preorder : PreOrder same_content.
Proof. split; [by intros c|]. intros c1 c2 c3 [] []. split; [by transitivity c2|congruence..]. Qed.

Lemma same_pages_content c c' : same_pages c c' -> same_content c c'.
Proof. by intros []. Qed.
Lemma pages_only_content c c' : pages_only c c' -> same_content c c'.
Proof. by intros []. Qed.

Lemma invalidated_pages i c c' : same_content c c' -> (forall j, live c' j <-> live c j /\ j <> i) ->
  (forall p l, page_path c p l -> page_path c' p (without i l)) -> pages_ok c -> pages_ok c'.
Proof.
  intros [Hs Hz Ha Hp] Hl Hpath []. assert (forall p x, on_page c' p x <-> on_page c p x) as Hon.
  { intros p x. unfold on_page. by rewrite Ha. }
  split.
  - intros p. destruct (pg_lists p) as (l & H1 & H2 & H3). exists (without i l).
    split_and!; [by apply Hpath|by apply NoDup_filter|]. intros x. unfold without. rewrite list_elem_of_filter, H3, Hl, Hon. tauto.
  - intros j [Hj _]%Hl. eapply block_pages_ext; [apply Hs|done|apply Hs|done|done|auto].
  - intros p x Hx. rewrite Hp. destruct (pg_lists p) as (l & H1 & _).
    pose proof (Hpath p l H1) as H2. unfold page_path in H1, H2. rewrite Hx in H2.
    destruct l as [|y l]; [done|]. destruct H1 as [H1 _]. by eapply pg_prot.
Qed.

(** The page of a block, and its list. *)
Lemma block_list c i p n : pages_ok c -> live c i -> link_of (tb_at c i) p = Some n ->
  exists l, page_path c p l /\ (i, n) ∈ l /\ (forall m, (i, m) ∈ l -> m = n) /\ (length l <= 2 * nb_tbs c)%nat.
Proof.
  intros [] Hi Hn. pose proof (pg_block i Hi) as Hb. destruct (pg_lists p) as (l & H1 & H2 & H3). exists l. split_and!.
  - done.
  - apply H3. split; [done|]. by apply link_on_page.
  - intros m [_ Hm]%H3. apply link_on_page in Hm; [|done]. congruence.
  - apply links_length; [done|]. intros [j m] [Hj Hm]%H3. split; [by apply live_lt in Hj|apply Hm].
Qed.

Lemma pages_paths c : pages_ok c -> paths_ok c.
Proof.
  intros [] p. destruct (pg_lists p) as (l & H1 & H2 & H3). exists l. split_and!; [done|done|]. by intros x [_ ?]%H3.
Qed.

(** Taking a block out of the lists of its pages. *)
Lemma unlink_pages i c c1 : pages_ok c -> live c i -> same_pages c c1 ->
  let t := tb_at c i in
  exists c3,
    (let* c2 := tb_page_remove (2 * S (nb_tbs c)) (Z.shiftr (page_addr0 t) 8) None i c1 in
     if negb (page_addr1 t =? -1) then tb_page_remove (2 * S (nb_tbs c)) (Z.shiftr (page_addr1 t) 8) None i c2 else Ok c2)
    = Ok c3 /\ pages_only c1 c3 /\ forall p l, page_path c p l -> page_path c3 p (without i l).
Proof.
  intros Hc Hi Hs t. pose proof (pg_block _ _ Hc i Hi) as Hb. fold t in Hb.
  assert (paths_ok c1) as Hc1.
  { intros p. destruct (pages_paths c Hc p) as (l & H1 & H2 & H3). exists l. split_and!; [by eapply same_pages_path|done|].
    intros x Hx. apply (same_pages_on c c1); [done|auto]. }
  assert (link_of t (tb_pc t / 256) = Some 0%nat) as L0 by (unfold link_of; by rewrite Z.eqb_refl).
  assert (Z.shiftr (page_addr0 t) 8 = tb_pc t / 256) as -> by (rewrite (bp_page0 _ Hb); apply shiftr_page).
  destruct (block_list c i _ _ Hc Hi L0) as (l0 & P0 & I0 & U0 & N0).
  destruct (page_step c1 i _ 0 l0 (2 * S (nb_tbs c)) Hc1 (same_pages_path _ _ _ _ Hs P0) I0 U0 ltac:(lia)) as (c2 & -> & O2 & K2 & Q2).
  cbn [obind].
  assert (forall p l, page_path c p l -> page_path c2 p (if decide (p = tb_pc t / 256) then without i l else l)) as Q2'.
  { intros p l Hl. apply Q2. by eapply same_pages_path. }
  assert (forall p l, page_path c p l -> link_of t p = None -> without i l = l) as Hnone.
  { intros p l Hl Hlk. apply without_nop. intros n Hn. destruct (pg_lists _ _ Hc p) as (l' & H1 & _ & H3).
    rewrite (page_path_fun c p l l' Hl H1) in Hn. apply H3 in Hn as [_ Hn]. apply link_on_page in Hn; [|done]. fold t in Hn. congruence. }
  destruct (Z.eqb_spec (page_addr1 t) (-1)) as [E1|E1]; cbn [negb].
  - exists c2. split_and!; [done|done|]. intros p l Hl. pose proof (Q2' p l Hl) as H. case_decide as D; [done|].
    rewrite (Hnone p l Hl); [done|]. unfold link_of. by rewrite (proj2 (Z.eqb_neq _ _)), (proj2 (Z.eqb_eq _ _) E1), andb_false_r.
  - assert (link_of t (tb_pc t / 256 + 1) = Some 1%nat) as L1.
    { unfold link_of. by rewrite (proj2 (Z.eqb_neq _ _)), Z.eqb_refl, (proj2 (Z.eqb_neq _ _) E1) by lia. }
    assert (Z.shiftr (page_addr1 t) 8 = tb_pc t / 256 + 1) as ->.
    { rewrite (bp_page1 _ Hb) in *. destruct (_ =? _); [done|apply shiftr_page]. }
    destruct (block_list c i _ _ Hc Hi L1) as (l1 & P1 & I1 & U1 & N1).
    pose proof (Q2' _ _ P1) as P1'. rewrite decide_False in P1' by lia.
    destruct (page_step c2 i _ 1 l1 (2 * S (nb_tbs c)) K2 P1' I1 U1 ltac:(lia)) as (c3 & -> & O3 & _ & Q3).
    exists c3. split_and!; [done|by transitivity c2|]. intros p l Hl. pose proof (Q3 _ _ (Q2' p l Hl)) as H.
    case_decide as D1; case_decide as D2; try (exfalso; lia); try done.
    rewrite (Hnone p l Hl); [done|]. unfold link_of. by rewrite !(proj2 (Z.eqb_neq _ _)) by done.
Qed.

Lemma invalidate_live i c : lists_ok c -> jmp_ok g c -> pages_ok c -> live c i ->
  exists c', tb_phys_invalidate i (-1) c = Ok c' /\ lists_ok c' /\ jmp_ok g c' /\ pages_ok c' /\ same_content c c' /\
    (forall j, live c' j <-> live c j /\ j <> i) /\ forall p l, page_path c p l -> page_path c' p (without i l).
Proof.
  intros Hc Hj Hp Hi. pose proof (pg_block _ _ Hp i Hi) as Hb. unfold tb_phys_invalidate. rewrite (block_phys _ Hb).
  assert (tb_phys_hash_func (tb_pc (tb_at c i)) = bucket g c i) as ->.
  { unfold bucket. rewrite flat_code; [done|]. destruct (bp_pc _ Hb). unfold is_u64. lia. }
  destruct (hash_remove_ok i c Hc Hi) as (s & v & -> & Hc1 & Hs1 & Hj1 & Hl1). cbn [obind]. set (c1 := store _ s v c) in *.
  destruct (unlink_pages i c c1 Hp Hi Hs1) as (c3 & E & Ho & Hpath).
  assert ((page_addr0 (tb_at c i) =? -1) = false) as ->.
  { apply Z.eqb_neq. rewrite (bp_page0 _ Hb). destruct (bp_pc _ Hb). dm. }
  cbn [negb]. apply obind_ok in E as (c2 & E2 & E3). rewrite E2. cbn [obind].
  assert ((if negb (page_addr1 (tb_at c i) =? -1) && negb (page_addr1 (tb_at c i) =? -1)
    then tb_page_remove (2 * S (nb_tbs c)) (Z.shiftr (page_addr1 (tb_at c i)) 8) None i c2 else Ok c2) = Ok c3) as ->.
  { rewrite <- E3. by destruct (page_addr1 (tb_at c i) =? -1). }
  cbn [obind]. eexists. split; [reflexivity|].
  set (h := tb_jmp_cache_hash_func (tb_pc (tb_at c i))).
  match goal with |- context [set_counts ?a ?b ?x] => set (c4 := set_counts a b x) end.
  assert (pages_only c3 (set_jmp_cache (tb_jmp_cache c3) c4) /\ page_path c4 = page_path c3 /\
    (forall h' j, tb_jmp_cache c4 !! h' = Some j -> tb_jmp_cache c3 !! h' = Some j /\ (h' = h -> j <> i))) as (Ho4 & Hpp & Hj4).
  { unfold c4. cbn [tb_jmp_cache set_invalidated]. destruct (tb_jmp_cache c3 !! h) as [k|] eqn:Ek.
    - destruct (Nat.eqb_spec k i) as [->|Hk]; (split; [by split|split; [done|]]); cbn; intros h' j Hj'.
      + apply lookup_delete_Some in Hj' as [Hne Hj']. split; [done|]. intros ->. done.
      + split; [done|]. intros ->. congruence.
    - split; [by split|split; [done|]]. cbn. intros h' j Hj'. split; [done|]. intros ->. congruence. }
  clearbody c4. assert (forall j, live c4 j <-> live c j /\ j <> i) as Hlv.
  { intros j. change (live c4 j) with (live (set_jmp_cache (tb_jmp_cache c3) c4) j).
    rewrite (pages_only_live c3), (pages_only_live c1) by (done || by eapply pages_only_lists). apply Hl1. }
  assert (same_content c c4) as Hsc.
  { transitivity c1; [by apply same_pages_content|]. transitivity c3; [by apply pages_only_content|].
    destruct (pages_only_content _ _ Ho4) as [[] ? ? ?]. by split; [split|..]. }
  assert (lists_ok c4) as Hc4.
  { destruct (pages_only_lists c3 (set_jmp_cache (tb_jmp_cache c3) c4)); [done|by eapply pages_only_lists|]. by split. }
  split_and!; [done| | |done|done|by rewrite Hpp].
  - intros h' j Hj'. apply Hj4 in Hj' as [Hj' Hne]. rewrite (po_jmp _ _ Ho), Hj1 in Hj'. apply Hj in Hj' as [H1 H2].
    rewrite Hlv, (sb_pc _ _ (sc_same _ _ Hsc)). split; [split; [done|]|done]. intros ->. by apply Hne.
  - apply (invalidated_pages i c); [done|done|by rewrite Hpp|done].
Qed.

(** ** A range of addresses *)

Lemma block_hit_content c c' i n start end_ : same_content c c' ->
  block_hit (tb_at c' i) n start end_ = block_hit (tb_at c i) n start end_.
Proof.
  intros [[] Hz Ha _]. pose proof (Ha 0%nat i) as H0. pose proof (Ha 1%nat i) as H1. cbn [page_addr] in H0, H1.
  unfold block_hit. by rewrite sb_pc, Hz, H0, H1.
Qed.

(** A range within page [p] that meets the code of a block is seen by the test
    on the block's link in the list of the page. *)
Lemma meets_hit t start end_ a : block_pages t -> tb_pc t <= a < tb_exit_pc t -> start <= a < end_ ->
  end_ <= (start / 256 + 1) * 256 ->
  exists n, link_of t (start / 256) = Some n /\ block_hit t n start end_ = true.
Proof.
  intros Hb Ha Hr He. pose proof (block_phys t Hb) as Hph. destruct Hb as [Hpc (Hs & Hs' & Hex) H0 H1]. rewrite Hex in Ha.
  assert (a / 256 = start / 256) as Ep by dm. unfold link_of, block_hit. rewrite Hph.
  assert (u64 (tb_pc t + tb_size t) = tb_pc t + tb_size t) as -> by (apply u64_id; unfold is_u64; dm).
  destruct (Z.eqb_spec (start / 256) (tb_pc t / 256)) as [E|E].
  { exists 0%nat. split; [done|]. rewrite (proj2 (Z.leb_gt _ _)), (proj2 (Z.leb_gt _ _)) by lia. done. }
  assert (start / 256 = tb_pc t / 256 + 1 /\ (tb_pc t + tb_size t - 1) / 256 = tb_pc t / 256 + 1) as [E1 E2] by dm.
  rewrite E2, (proj2 (Z.eqb_neq _ _)) in H1 by lia. rewrite H1, E1, Z.eqb_refl, (proj2 (Z.eqb_neq _ (-1))) by dm.
  exists 1%nat. split; [done|]. unfold TARGET_PAGE_SIZE. change (256 - 1) with (Z.ones 8). rewrite Z.land_ones by lia.
  change (2 ^ 8) with 256. rewrite u64_id by (unfold is_u64; dm).
  rewrite (proj2 (Z.leb_gt _ _)), (proj2 (Z.leb_gt _ _)) by dm. done.
Qed.

Lemma seg_head {A} (f : A -> option A) p l : seg f p l None -> p = head l.
Proof. destruct l; [done|]. by intros [-> _]. Qed.

Lemma invalidate_loop_ok start end_ p l2 l1 c fuel : lists_ok c -> jmp_ok g c -> pages_ok c ->
  page_path c p (l1 ++ l2) -> (length l2 < fuel)%nat ->
  exists c', invalidate_loop fuel start end_ (head l2) c = Ok c' /\ lists_ok c' /\ jmp_ok g c' /\ pages_ok c' /\
    same_content c c' /\
    forall j, live c' j <-> live c j /\ forall n, (j, n) ∈ l2 -> block_hit (tb_at c j) n start end_ = false.
Proof.
  revert l1 c fuel; induction l2 as [|[i n] l2 IH]; intros l1 c fuel Hc Hj Hp Hl Hf; (destruct fuel as [|f]; [simpl in Hf; lia|]).
  { exists c. split_and!; try done. intros j. split; [|tauto]. intros ?. split; [done|]. intros n Hn. by apply not_elem_of_nil in Hn. }
  cbn [invalidate_loop head].
  assert (page_next n (tb_at c i) = head l2) as ->.
  { apply seg_app in Hl as (q & _ & -> & Hl). by apply seg_head in Hl. }
  destruct (pg_lists _ _ Hp p) as (l & H1 & H2 & H3). rewrite <- (page_path_fun c p _ l Hl H1) in H2, H3. clear H1 l.
  assert (live c i) as Hi by (apply (H3 (i, n)); set_solver).
  destruct (block_hit (tb_at c i) n start end_) eqn:Eh.
  - destruct (invalidate_live i c Hc Hj Hp Hi) as (c1 & -> & Hc1 & Hj1 & Hp1 & Hs1 & Hl1 & Hpath). cbn [obind].
    assert (forall m, (i, m) ∈ l1 ++ (i, n) :: l2 -> m = n) as Hu.
    { intros m [_ Hm]%H3. pose proof (proj2 (proj1 (H3 (i, n)) ltac:(set_solver))) as Hn.
      apply link_on_page in Hm, Hn; try (by apply (pg_block _ _ Hp)). congruence. }
    destruct (without_split i n l1 l2 H2 Hu) as [_ Ew].
    destruct (IH l1 c1 f Hc1 Hj1 Hp1) as (c' & -> & Hc' & Hj' & Hp' & Hs' & Hl'); [rewrite <- Ew; by apply Hpath|simpl in Hf; lia|].
    exists c'. split_and!; try done; [by transitivity c1|]. intros j. rewrite Hl', Hl1. split.
    + intros [[Hlj Hne] Hall]. split; [done|]. intros m [[= -> ->]|Hm]%elem_of_cons; [done|].
      rewrite <- (block_hit_content c c1) by done. by apply Hall.
    + intros [Hlj Hall]. split; [split; [done|]|].
      * intros ->. rewrite (Hall n ltac:(left)) in Eh. done.
      * intros m Hm. rewrite (block_hit_content c c1) by done. apply Hall. by right.
  - cbn [obind]. replace (l1 ++ (i, n) :: l2) with ((l1 ++ [(i, n)]) ++ l2) in Hl by (by rewrite <- app_assoc).
    destruct (IH (l1 ++ [(i, n)]) c f Hc Hj Hp Hl) as (c' & -> & Hc' & Hj' & Hp' & Hs' & Hl'); [simpl in Hf; lia|].
    exists c'. split_and!; try done. intros j. rewrite Hl'. split; intros [Hlj Hall]; (split; [done|]); intros m Hm.
    + apply elem_of_cons in Hm as [[= -> ->]|Hm]; [done|by apply Hall].
    + apply Hall. by right.
Qed.

Lemma page_range_ok start end_ c : lists_ok c -> jmp_ok g c -> pages_ok c ->
  exists c', tb_invalidate_phys_page_range start end_ c = Ok c' /\ lists_ok c' /\ jmp_ok g c' /\ pages_ok c' /\
    same_content c c' /\
    forall j, live c' j <-> live c j /\ forall n, link_of (tb_at c j) (Z.shiftr start 8) = Some n -> block_hit (tb_at c j) n start end_ = false.
Proof.
  intros Hc Hj Hp. unfold tb_invalidate_phys_page_range.
  destruct (pg_lists _ _ Hp (Z.shiftr start 8)) as (l & H1 & H2 & H3).
  assert (length l <= 2 * nb_tbs c)%nat as Hlen.
  { apply links_length; [done|]. intros [j m] [Hlj Hm]%H3. split; [by apply live_lt in Hlj|apply Hm]. }
  pose proof H1 as Hh. apply seg_head in Hh. rewrite Hh.
  destruct (invalidate_loop_ok start end_ (Z.shiftr start 8) l [] c (S (2 * nb_tbs c)) Hc Hj Hp H1) as (c' & E & Hc' & Hj' & Hp' & Hs & Hl); [lia|].
  exists c'. split_and!; try done. intros j. rewrite Hl. split; intros [Hlj Hall]; (split; [done|]); intros n Hn; apply Hall.
  - apply H3. split; [done|]. by apply link_on_page; [apply (pg_block _ _ Hp)|].
  - apply H3 in Hn as [_ Hn]. by apply link_on_page in Hn; [|apply (pg_block _ _ Hp)].
Qed.

(** ** Writing memory *)

Context (room : Z -> nat -> bool) (end_pc : Z).

(** [r'] is [r] but for the bytes of a range. *)
Definition written (start end_ : Z) (r r' : guest_ram) : Prop :=
  ram_size r' = ram_size r /\
  forall a, 0 <= a -> ~ (start <= a < end_) -> nth (Z.to_nat a) (ram_bytes r') 0 = nth (Z.to_nat a) (ram_bytes r) 0.

(** Code that does not meet the range is the same. *)
Lemma code_ok_written start end_ r r' t : written start end_ r r' -> block_pages t ->
  (forall a, tb_pc t <= a < tb_exit_pc t -> ~ (start <= a < end_)) ->
  code_ok room end_pc r t -> code_ok room end_pc r' t.
Proof.
  intros [Hs Hw] Hb Hm [ch Hg]. destruct (bp_pc _ Hb). exists ch. destruct (gen_code_local _ _ _ _ _ _ _ _ Hg) as [_ Hl]; [done|].
  apply Hl; [done|]. intros a Ha. apply Hw; [lia|auto].
Qed.

(** A store to memory followed by the invalidation of its range: the cache is
    consistent with the new memory. *)
Lemma write_invalidate other start len r r' c : cache_ok g room end_pc r c -> pages_ok c ->
  0 <= start -> 0 < len -> start + len <= (start / 256 + 1) * 256 -> start < 2 ^ 63 -> written start (start + len) r r' ->
  exists c', invalidate_and_set_dirty other start len c = Ok c' /\ cache_ok g room end_pc r' c' /\ pages_ok c'.
Proof.
  intros [Hc Hj Hk] Hp H0 Hl Hpg H63 Hw. unfold invalidate_and_set_dirty.
  pose proof (Z.mul_div_le start 256 ltac:(lia)) as Hd. rewrite u64_id by (unfold is_u64; lia).
  assert (Z.shiftr start 8 = start / 256) as Esh by (rewrite Z.shiftr_div_pow2 by lia; done).
  unfold cpu_physical_memory_is_clean. rewrite page_of_eq by (unfold is_u64; lia).
  destruct (bool_decide _ || _) eqn:E.
  - destruct (page_range_ok start (start + len) c Hc Hj Hp) as (c' & -> & Hc' & Hj' & Hp' & Hs & Hlv).
    exists c'. split; [reflexivity|]. split; [|exact Hp']. split; [exact Hc'|exact Hj'|]. intros i [Hi Hh]%Hlv. eapply same_code; [apply Hs|].
    eapply code_ok_written; [done|by apply (pg_block _ _ Hp)| |by apply Hk]. intros a Ha Hr.
    destruct (meets_hit (tb_at c i) start (start + len) a) as (n & Hn & Hn'); try done; [by apply (pg_block _ _ Hp)|].
    rewrite Esh in Hh. rewrite (Hh n Hn) in Hn'. done.
  - apply orb_false_elim in E as [E _]. apply bool_decide_eq_false in E. exists c.
    split; [reflexivity|]. split; [|exact Hp]. split; [exact Hc|exact Hj|]. intros i Hi. eapply code_ok_written; [done|by apply (pg_block _ _ Hp)| |by apply Hk]. intros a Ha Hr.
    destruct (meets_hit (tb_at c i) start (start + len) a) as (n & Hn & _); try done; [by apply (pg_block _ _ Hp)|].
    destruct (block_list c i _ _ Hp Hi Hn) as (l & P & I & _). destruct l as [|x l]; [by apply not_elem_of_nil in I|].
    destruct P as [P _]. apply E. by eapply (pg_prot _ _ Hp).
Qed.
End Invalidate.
