(* ===== verification/Debug.v ===== *)
(** * The debugger's access to the CPU

    The part of [exec.c] (with [vl.c] for the run state) that the debugger stub
    works on: breakpoints, watchpoints, single stepping, and the debugger's
    reads and writes of memory.  The CPU's translated code is kept consistent
    with each of them by invalidating or flushing blocks.  The machine has one
    CPU and one RAM region, at address 0. *)

From stdpp Require Import base numbers list option strings gmap.
From Stdlib Require Import ZArith Lia.
From S2P Require Import Prelude Words Bignum BignumSpec BignumHeap BignumStr Cpu Mmu GuestMem Loader Helpers Translate TbCache.

(** ** State *)

Inductive RunState :=
| RUN_STATE_DEBUG | RUN_STATE_INMIGRATE | RUN_STATE_INTERNAL_ERROR | RUN_STATE_IO_ERROR | RUN_STATE_PAUSED
| RUN_STATE_POSTMIGRATE | RUN_STATE_PRELAUNCH | RUN_STATE_FINISH_MIGRATE | RUN_STATE_RESTORE_VM
| RUN_STATE_RUNNING | RUN_STATE_SAVE_VM | RUN_STATE_SHUTDOWN | RUN_STATE_SUSPENDED | RUN_STATE_WATCHDOG
| RUN_STATE_GUEST_PANICKED.

#[export] Instance RunState_eq_dec : EqDecision RunState.
Proof. solve_decision. Defined.

Record CPUBreakpoint := mkBreak { brk_pc : Z; brk_flags : Z }.
Record CPUWatchpoint := mkWatch { wp_vaddr : Z; wp_len_mask : Z; wp_flags : Z }.

(** The fields of [CPUState] that debugging uses. *)
Record CPUState := mkCPUState {
  breakpoints : list CPUBreakpoint;
  watchpoints : list CPUWatchpoint;
  watchpoint_hit : option CPUWatchpoint;
  singlestep_enabled : Z;
  halted : bool
}.

(** The virtual machine: the CPU, its guest state and MMU, the cache of
    translated code, and [current_run_state]. *)
Record vm := mkVm {
  cs : CPUState;
  mc : machine;
  mm : mmu;
  tc : tb_ctx;
  current_run_state : RunState
}.

Definition set_breakpoints (l : list CPUBreakpoint) (v : vm) : vm :=
  mkVm (mkCPUState l (watchpoints (cs v)) (watchpoint_hit (cs v)) (singlestep_enabled (cs v)) (halted (cs v)))
    (mc v) (mm v) (tc v) (current_run_state v).
Definition set_watchpoints (l : list CPUWatchpoint) (v : vm) : vm :=
  mkVm (mkCPUState (breakpoints (cs v)) l (watchpoint_hit (cs v)) (singlestep_enabled (cs v)) (halted (cs v)))
    (mc v) (mm v) (tc v) (current_run_state v).
Definition set_watchpoint_hit (w : option CPUWatchpoint) (v : vm) : vm :=
  mkVm (mkCPUState (breakpoints (cs v)) (watchpoints (cs v)) w (singlestep_enabled (cs v)) (halted (cs v)))
    (mc v) (mm v) (tc v) (current_run_state v).
Definition set_singlestep (n : Z) (v : vm) : vm :=
  mkVm (mkCPUState (breakpoints (cs v)) (watchpoints (cs v)) (watchpoint_hit (cs v)) n (halted (cs v)))
    (mc v) (mm v) (tc v) (current_run_state v).
Definition set_mc (m : machine) (v : vm) : vm := mkVm (cs v) m (mm v) (tc v) (current_run_state v).
Definition set_tc (c : tb_ctx) (v : vm) : vm := mkVm (cs v) (mc v) (mm v) c (current_run_state v).
Definition set_run_state (s : RunState) (v : vm) : vm := mkVm (cs v) (mc v) (mm v) (tc v) s.

Definition BP_MEM_READ : Z := 0x01.
Definition BP_MEM_WRITE : Z := 0x02.
Definition BP_MEM_ACCESS : Z := Z.lor BP_MEM_READ BP_MEM_WRITE.
Definition BP_WATCHPOINT_HIT : Z := 0x08.
Definition BP_GDB : Z := 0x10.
Definition ENOENT : Z := 2.
Definition EINVAL : Z := 22.
Definition ENOSYS : Z := 38.

(** ** The run state *)

Definition runstate_transitions_def : list (RunState * RunState) :=
  [ (RUN_STATE_DEBUG, RUN_STATE_RUNNING); (RUN_STATE_DEBUG, RUN_STATE_FINISH_MIGRATE);
    (RUN_STATE_INMIGRATE, RUN_STATE_RUNNING); (RUN_STATE_INMIGRATE, RUN_STATE_PAUSED);
    (RUN_STATE_INTERNAL_ERROR, RUN_STATE_PAUSED); (RUN_STATE_INTERNAL_ERROR, RUN_STATE_FINISH_MIGRATE);
    (RUN_STATE_IO_ERROR, RUN_STATE_RUNNING); (RUN_STATE_IO_ERROR, RUN_STATE_FINISH_MIGRATE);
    (RUN_STATE_PAUSED, RUN_STATE_RUNNING); (RUN_STATE_PAUSED, RUN_STATE_FINISH_MIGRATE);
    (RUN_STATE_POSTMIGRATE, RUN_STATE_RUNNING); (RUN_STATE_POSTMIGRATE, RUN_STATE_FINISH_MIGRATE);
    (RUN_STATE_PRELAUNCH, RUN_STATE_RUNNING); (RUN_STATE_PRELAUNCH, RUN_STATE_FINISH_MIGRATE);
    (RUN_STATE_PRELAUNCH, RUN_STATE_INMIGRATE);
    (RUN_STATE_FINISH_MIGRATE, RUN_STATE_RUNNING); (RUN_STATE_FINISH_MIGRATE, RUN_STATE_POSTMIGRATE);
    (RUN_STATE_RESTORE_VM, RUN_STATE_RUNNING);
    (RUN_STATE_RUNNING, RUN_STATE_DEBUG); (RUN_STATE_RUNNING, RUN_STATE_INTERNAL_ERROR);
    (RUN_STATE_RUNNING, RUN_STATE_IO_ERROR); (RUN_STATE_RUNNING, RUN_STATE_PAUSED);
    (RUN_STATE_RUNNING, RUN_STATE_FINISH_MIGRATE); (RUN_STATE_RUNNING, RUN_STATE_RESTORE_VM);
    (RUN_STATE_RUNNING, RUN_STATE_SAVE_VM); (RUN_STATE_RUNNING, RUN_STATE_SHUTDOWN);
    (RUN_STATE_RUNNING, RUN_STATE_WATCHDOG); (RUN_STATE_RUNNING, RUN_STATE_GUEST_PANICKED);
    (RUN_STATE_SAVE_VM, RUN_STATE_RUNNING);
    (RUN_STATE_SHUTDOWN, RUN_STATE_PAUSED); (RUN_STATE_SHUTDOWN, RUN_STATE_FINISH_MIGRATE);
    (RUN_STATE_DEBUG, RUN_STATE_SUSPENDED); (RUN_STATE_RUNNING, RUN_STATE_SUSPENDED);
    (RUN_STATE_SUSPENDED, RUN_STATE_RUNNING); (RUN_STATE_SUSPENDED, RUN_STATE_FINISH_MIGRATE);
    (RUN_STATE_WATCHDOG, RUN_STATE_RUNNING); (RUN_STATE_WATCHDOG, RUN_STATE_FINISH_MIGRATE);
    (RUN_STATE_GUEST_PANICKED, RUN_STATE_RUNNING); (RUN_STATE_GUEST_PANICKED, RUN_STATE_FINISH_MIGRATE) ].

Definition runstate_check (s : RunState) (v : vm) : bool := bool_decide (current_run_state v = s).

(** An invalid transition aborts. *)
Definition runstate_set (new_state : RunState) (v : vm) : outcome vm :=
  if bool_decide ((current_run_state v, new_state) ∈ runstate_transitions_def)
  then Ok (set_run_state new_state v) else Exit ABORTED [].

Definition runstate_is_running (v : vm) : bool := runstate_check RUN_STATE_RUNNING v.
Definition runstate_needs_reset (v : vm) : bool :=
  runstate_check RUN_STATE_INTERNAL_ERROR v || runstate_check RUN_STATE_SHUTDOWN v.

(** ** Breakpoints *)

Definition cpu_get_phys_page_debug (v : vm) (addr : Z) : Z := ppdl_cpu_get_phys_page_debug (mm v) addr.

(** Nothing is done for an address outside the RAM. *)
Definition tb_invalidate_phys_addr (addr : Z) (v : vm) : outcome vm :=
  if addr <? ram_size (ram (mc v)) then
    let* c := tb_invalidate_phys_page_range addr (u64 (addr + 1)) (tc v) in Ok (set_tc c v)
  else Ok v.

Definition breakpoint_invalidate (pc : Z) (v : vm) : outcome vm :=
  let phys := cpu_get_phys_page_debug v pc in
  if phys =? u64 (-1) then Ok v
  else tb_invalidate_phys_addr (Z.lor phys (Z.land pc (TARGET_PAGE_SIZE - 1))) v.

(** Breakpoints of the debugger are kept in front. *)
Definition cpu_breakpoint_insert (pc flags : Z) (v : vm) : outcome (Z * vm) :=
  let bp := mkBreak pc flags in
  let l := breakpoints (cs v) in
  let v := set_breakpoints (if negb (Z.land flags BP_GDB =? 0) then bp :: l else l ++ [bp]) v in
  let* v := breakpoint_invalidate pc v in
  Ok (0, v).

(** The reference is the position in the list. *)
Definition cpu_breakpoint_remove_by_ref (i : nat) (v : vm) : outcome vm :=
  match breakpoints (cs v) !! i with
  | None => Undef
  | Some bp => breakpoint_invalidate (brk_pc bp) (set_breakpoints (delete i (breakpoints (cs v))) v)
  end.

Definition cpu_breakpoint_remove (pc flags : Z) (v : vm) : outcome (Z * vm) :=
  match list_find (fun bp => brk_pc bp = pc /\ brk_flags bp = flags) (breakpoints (cs v)) with
  | None => Ok (- ENOENT, v)
  | Some (i, _) => let* v := cpu_breakpoint_remove_by_ref i v in Ok (0, v)
  end.

(** [QTAILQ_FOREACH_SAFE]: [l] are the breakpoints still to be looked at, [i]
    is the position of the first of them. *)
Fixpoint breakpoint_remove_loop (mask : Z) (l : list CPUBreakpoint) (i : nat) (v : vm) : outcome vm :=
  match l with
  | [] => Ok v
  | bp :: l' =>
      if negb (Z.land (brk_flags bp) mask =? 0)
      then let* v := cpu_breakpoint_remove_by_ref i v in breakpoint_remove_loop mask l' i v
      else breakpoint_remove_loop mask l' (S i) v
  end.

Definition cpu_breakpoint_remove_all (mask : Z) (v : vm) : outcome vm :=
  breakpoint_remove_loop mask (breakpoints (cs v)) 0 v.

(** ** Watchpoints *)

(** The CPU has no large pages, and the entries of the TLB are not part of the
    model; the jump cache is. *)
Definition tlb_flush_page (addr : Z) (v : vm) : vm := set_tc (tb_flush_jmp_cache (page_of addr) (tc v)) v.

(** [len] is a power of two up to the size of a page, [addr] a multiple. *)
Definition watchpoint_invalid (addr len : Z) : bool :=
  negb (Z.land len (u64 (len - 1)) =? 0) || negb (Z.land addr (u64 (len - 1)) =? 0) || (len =? 0) ||
  (TARGET_PAGE_SIZE <? len).

Definition watch_mask (len : Z) : Z := u64 (- len).

Definition cpu_watchpoint_insert (addr len flags : Z) (v : vm) : Z * vm :=
  if watchpoint_invalid addr len then (- EINVAL, v)
  else
    let wp := mkWatch addr (watch_mask len) flags in
    let l := watchpoints (cs v) in
    let v := set_watchpoints (if negb (Z.land flags BP_GDB =? 0) then wp :: l else l ++ [wp]) v in
    (0, tlb_flush_page addr v).

Definition cpu_watchpoint_remove_by_ref (i : nat) (v : vm) : outcome vm :=
  match watchpoints (cs v) !! i with
  | None => Undef
  | Some wp => Ok (tlb_flush_page (wp_vaddr wp) (set_watchpoints (delete i (watchpoints (cs v))) v))
  end.

Definition cpu_watchpoint_remove (addr len flags : Z) (v : vm) : outcome (Z * vm) :=
  match list_find (fun wp => addr = wp_vaddr wp /\ watch_mask len = wp_len_mask wp /\
                             flags = Z.land (wp_flags wp) (Z.lnot BP_WATCHPOINT_HIT)) (watchpoints (cs v)) with
  | None => Ok (- ENOENT, v)
  | Some (i, _) => let* v := cpu_watchpoint_remove_by_ref i v in Ok (0, v)
  end.

Fixpoint watchpoint_remove_loop (mask : Z) (l : list CPUWatchpoint) (i : nat) (v : vm) : outcome vm :=
  match l with
  | [] => Ok v
  | wp :: l' =>
      if negb (Z.land (wp_flags wp) mask =? 0)
      then let* v := cpu_watchpoint_remove_by_ref i v in watchpoint_remove_loop mask l' i v
      else watchpoint_remove_loop mask l' (S i) v
  end.

Definition cpu_watchpoint_remove_all (mask : Z) (v : vm) : outcome vm :=
  watchpoint_remove_loop mask (watchpoints (cs v)) 0 v.

Section Access.
Context (g : tcg) (other : Z -> bool).

(** ** Single stepping *)

Definition cpu_single_step (enabled : Z) (v : vm) : outcome vm :=
  if singlestep_enabled (cs v) =? enabled then Ok v
  else
    let v := set_singlestep enabled v in
    let* c := tb_flush g (tc v) in
    Ok (set_tc c v).

(** ** Memory *)

(** The part of the range that is RAM is written in one piece; nothing is done
    for the rest.  The range does not reach the end of the address space. *)
Definition cpu_physical_memory_write_rom (addr : Z) (buf : list Z) (v : vm) : outcome vm :=
  let r := ram (mc v) in
  let l := Z.min (Z.of_nat (length buf)) (ram_size r - addr) in
  if 0 <? l then
    let v := set_mc (set_ram (write_rom addr buf r) (mc v)) v in
    let* c := invalidate_and_set_dirty other addr l (tc v) in
    Ok (set_tc c v)
  else Ok v.

(** Reads outside the RAM give 0. *)
Definition address_space_read (addr : Z) (l : nat) (v : vm) : list Z :=
  let r := ram (mc v) in
  map (fun i => let a := addr + Z.of_nat i in if a <? ram_size r then nth (Z.to_nat a) (ram_bytes r) 0 else 0) (seq 0 l).

(** [buf] is what is left of the buffer; the result has the buffer from there
    on.  [_addr] is computed from [addr] in every round, so that its update at
    the end of the body has no effect. *)
Fixpoint rw_debug_loop (fuel : nat) (addr : Z) (buf : list Z) (len : Z) (is_write : bool) (v : vm)
  : outcome (Z * list Z * vm) :=
  match fuel with
  | O => Undef
  | S f =>
      if 0 <? len then
        let _addr := u64 (addr * 4) in
        let page := page_of _addr in
        let phys_addr := cpu_get_phys_page_debug v page in
        if phys_addr =? u64 (-1) then Ok (-1, buf, v)
        else
          let l := i32 (u64 (page + TARGET_PAGE_SIZE - _addr)) in
          let l := if len <? l then len else l in
          let phys_addr := u64 (phys_addr + Z.land _addr (TARGET_PAGE_SIZE - 1)) in
          let n := Z.to_nat l in
          if (length buf <? n)%nat then Undef
          else
            let* (done, v) :=
              if is_write
              then (let* v := cpu_physical_memory_write_rom phys_addr (take n buf) v in Ok (take n buf, v))
              else Ok (address_space_read phys_addr n v, v) in
            let* (ret, rest, v) := rw_debug_loop f addr (drop n buf) (len - l) is_write v in
            Ok (ret, done ++ rest, v)
      else Ok (0, buf, v)
  end.

Definition cpu_memory_rw_debug (addr : Z) (buf : list Z) (len : Z) (is_write : bool) (v : vm)
  : outcome (Z * list Z * vm) :=
  rw_debug_loop (S (Z.to_nat len)) addr buf len is_write v.
End Access.
