(* ===== verification/GdbStub.v ===== *)
(** * The debugger stub

    [gdbstub.c] as built for the system emulator of this target: the receiver
    of packets, the replies, and the handler of every command.  The target
    adds the commands [f] and [F], the flag [use_cont] and the end of the
    process at [k]; it has no XML description of its registers, so that [p],
    [P] and [qXfer] are unknown commands.  Characters are their codes; a
    pointer into [line_buf] is the rest of the array from there on. *)

From stdpp Require Import base numbers list option strings gmap.
From Stdlib Require Import ZArith Lia.
From S2P Require Import Prelude Words Bignum BignumSpec BignumHeap BignumStr Cpu Mmu Gdb Loader Helpers Translate TraceFilter TbCache Debug.

(** ** State *)

Inductive RSState := RS_INACTIVE | RS_IDLE | RS_GETLINE | RS_CHKSUM1 | RS_CHKSUM2.

#[export] Instance RSState_eq_dec : EqDecision RSState.
Proof. solve_decision. Defined.

Inductive gdb_sys := GDB_SYS_UNKNOWN | GDB_SYS_ENABLED | GDB_SYS_DISABLED.

Definition MAX_PACKET_LENGTH : nat := Z.to_nat 4096.

(** [c_cpu] and [g_cpu] are always the only CPU and [current_syscall_cb] is
    never set, [query_cpu] is the CPU or NULL; [last_packet] holds the first
    [last_packet_len] bytes of the array. *)
Record GDBState := mkGDB {
  state : RSState;
  line_buf : list Z;
  line_buf_index : nat;
  line_csum : Z;
  last_packet : list Z;
  query_cpu : bool;
  signal : Z;
  client_connected : bool
}.

(** The stub with the file's globals, the machine it debugs, and what it has
    written to the connection and to the monitor. *)
Record stub := mkStub {
  gs : GDBState;
  sstep_flags : Z;
  use_cont : bool;
  gdb_syscall_mode : gdb_sys;
  sv : vm;
  sent : list Z;
  to_monitor : list Z
}.

Definition with_gs (f : GDBState -> GDBState) (s : stub) : stub :=
  mkStub (f (gs s)) (sstep_flags s) (use_cont s) (gdb_syscall_mode s) (sv s) (sent s) (to_monitor s).
Definition set_sv (v : vm) (s : stub) : stub :=
  mkStub (gs s) (sstep_flags s) (use_cont s) (gdb_syscall_mode s) v (sent s) (to_monitor s).
Definition set_sstep_flags (n : Z) (s : stub) : stub :=
  mkStub (gs s) n (use_cont s) (gdb_syscall_mode s) (sv s) (sent s) (to_monitor s).
Definition set_use_cont (b : bool) (s : stub) : stub :=
  mkStub (gs s) (sstep_flags s) b (gdb_syscall_mode s) (sv s) (sent s) (to_monitor s).
Definition set_syscall_mode (m : gdb_sys) (s : stub) : stub :=
  mkStub (gs s) (sstep_flags s) (use_cont s) m (sv s) (sent s) (to_monitor s).
Definition monitor_write (l : list Z) (s : stub) : stub :=
  mkStub (gs s) (sstep_flags s) (use_cont s) (gdb_syscall_mode s) (sv s) (sent s) (to_monitor s ++ l).

Definition set_state (x : RSState) (s : GDBState) : GDBState :=
  mkGDB x (line_buf s) (line_buf_index s) (line_csum s) (last_packet s) (query_cpu s) (signal s) (client_connected s).
Definition set_line (l : list Z) (i : nat) (s : GDBState) : GDBState :=
  mkGDB (state s) l i (line_csum s) (last_packet s) (query_cpu s) (signal s) (client_connected s).
Definition set_line_csum (n : Z) (s : GDBState) : GDBState :=
  mkGDB (state s) (line_buf s) (line_buf_index s) n (last_packet s) (query_cpu s) (signal s) (client_connected s).
Definition set_last_packet (l : list Z) (s : GDBState) : GDBState :=
  mkGDB (state s) (line_buf s) (line_buf_index s) (line_csum s) l (query_cpu s) (signal s) (client_connected s).
Definition set_query_cpu (b : bool) (s : GDBState) : GDBState :=
  mkGDB (state s) (line_buf s) (line_buf_index s) (line_csum s) (last_packet s) b (signal s) (client_connected s).
Definition set_signal (n : Z) (s : GDBState) : GDBState :=
  mkGDB (state s) (line_buf s) (line_buf_index s) (line_csum s) (last_packet s) (query_cpu s) n (client_connected s).
Definition set_connected (b : bool) (s : GDBState) : GDBState :=
  mkGDB (state s) (line_buf s) (line_buf_index s) (line_csum s) (last_packet s) (query_cpu s) (signal s) b.

(** ** C strings *)

Definition strcmp_eq (p : list Z) (s : string) : bool := bool_decide (cstr p = codes s).
Definition strncmp_eq (p : list Z) (s : string) : bool := bool_decide (take (length (codes s)) p = codes s).

(** The digits from [p] on: their value, and what follows. *)
Fixpoint scan_hex (acc : Z) (p : list Z) : Z * list Z :=
  match p with
  | c :: p' => if isxdigit c then scan_hex (acc * 16 + xval c) p' else (acc, p)
  | [] => (acc, [])
  end.

(** [strtoull(p, &p, 16)], which is [strtoul] too: spaces, a sign, an optional
    [0x], digits; the largest number on overflow.  Without a digit the value is
    0 and the pointer stays. *)
Definition strtoull (p : list Z) : Z * list Z :=
  let q := skip_space p in
  let '(neg, q) := if hd 0 q =? 45 then (true, tl q) else if hd 0 q =? 43 then (false, tl q) else (false, q) in
  let q := if (hd 0 q =? 48) && (tolower (nth 1 q 0) =? 120) && isxdigit (nth 2 q 0) then drop 2 q else q in
  if isxdigit (hd 0 q) then
    let '(v, rest) := scan_hex 0 q in
    (if 2 ^ 64 <=? v then 2 ^ 64 - 1 else if neg then u64 (- v) else v, rest)
  else (0, p).

(** The pointer goes past [c] if it is there. *)
Definition skip_char (c : Z) (p : list Z) : list Z := if hd 0 p =? c then tl p else p.

(** ** Hexadecimal *)

Definition fromhex (v : Z) : Z :=
  if (48 <=? v) && (v <=? 57) then v - 48
  else if (65 <=? v) && (v <=? 70) then v - 65 + 10
  else if (97 <=? v) && (v <=? 102) then v - 97 + 10
  else 0.

Definition tohex (v : Z) : Z := if v <? 10 then v + 48 else v - 10 + 97.

(** [buf] has room for [MAX_PACKET_LENGTH] characters. *)
Definition memtohex (mem : list Z) : outcome (list Z) :=
  if (2 * length mem <? MAX_PACKET_LENGTH)%nat
  then Ok (flat_map (fun c => [tohex (Z.shiftr c 4); tohex (Z.land c 0xf)]) mem)
  else Undef.

(** [buf] and its end are those of [line_buf]. *)
Fixpoint hextomem (buf : list Z) (len : nat) {struct len} : outcome (list Z) :=
  match len with
  | O => Ok []
  | S n =>
      match buf with
      | a :: b :: buf' =>
          let* l := hextomem buf' n in Ok (u8 (Z.lor (Z.shiftl (fromhex a) 4) (fromhex b)) :: l)
      | _ => Undef
      end
  end.

(** The array [mem_buf], which holds [stack] before, with [l] at its start. *)
Definition mem_buf_with (stack l : list Z) : outcome (list Z) :=
  if (length l <=? MAX_PACKET_LENGTH)%nat then Ok (l ++ drop (length l) stack) else Undef.

(** ** Replies *)

Definition put_buffer (l : list Z) (s : stub) : stub :=
  mkStub (gs s) (sstep_flags s) (use_cont s) (gdb_syscall_mode s) (sv s) (sent s ++ l) (to_monitor s).

(** [char] is signed. *)
Definition i8_sum (l : list Z) : Z := fold_left (fun csum c => csum + i8 c) l 0.

Definition packet (buf : list Z) : list Z :=
  let csum := i8_sum buf in
  36 :: buf ++ [35; tohex (Z.land (Z.shiftr csum 4) 0xf); tohex (Z.land csum 0xf)].

Definition put_packet_binary (buf : list Z) (s : stub) : stub :=
  put_buffer (packet buf) (with_gs (set_last_packet (packet buf)) s).

Definition put_packet (buf : list Z) (s : stub) : stub := put_packet_binary (cstr buf) s.
Definition reply (text : string) (s : stub) : stub := put_packet (codes text) s.

Section Stub.
(** [stack]: what the array [mem_buf] of a handler holds on entry. *)
Context (g : tcg) (other : Z -> bool) (stack : list Z).

(** [f] on the machine. *)
Definition on_vm (f : vm -> outcome vm) (s : stub) : outcome stub :=
  let* v := f (sv s) in Ok (set_sv v s).

(** ** Stopping and running *)

Definition stop_signal (st : RunState) : option Z :=
  match st with
  | RUN_STATE_DEBUG => Some 5
  | RUN_STATE_PAUSED => Some 2
  | RUN_STATE_SHUTDOWN => Some 3
  | RUN_STATE_IO_ERROR => Some 23
  | RUN_STATE_WATCHDOG => Some 14
  | RUN_STATE_INTERNAL_ERROR => Some 6
  | RUN_STATE_SAVE_VM | RUN_STATE_RESTORE_VM => None
  | RUN_STATE_FINISH_MIGRATE => Some 24
  | _ => Some 143
  end.

Definition stop_text (sig : Z) : list Z := codes "T" ++ fmt_x hexdig 2 sig ++ codes "thread:01;".

Definition watch_type (flags : Z) : string :=
  if Z.land flags BP_MEM_ACCESS =? BP_MEM_READ then "r"
  else if Z.land flags BP_MEM_ACCESS =? BP_MEM_ACCESS then "a" else "".

Definition gdb_vm_state_change (running : bool) (st : RunState) (s : stub) : outcome stub :=
  if running || bool_decide (state (gs s) = RS_INACTIVE) then Ok s
  else
    match (if bool_decide (st = RUN_STATE_DEBUG) then watchpoint_hit (cs (sv s)) else None) with
    | Some wp =>
        let buf := codes "T05thread:01;" ++ codes (watch_type (wp_flags wp)) ++ codes "watch:" ++
                   fmt_x hexdig 16 (wp_vaddr wp) ++ codes ";" in
        let s := put_packet buf (set_sv (set_watchpoint_hit None (sv s)) s) in
        on_vm (cpu_single_step g 0) s
    | None =>
        let* s := if bool_decide (st = RUN_STATE_DEBUG)
                  then on_vm (fun v => let* c := tb_flush g (tc v) in Ok (set_tc c v)) s else Ok s in
        match stop_signal st with
        | None => Ok s
        | Some ret => on_vm (cpu_single_step g 0) (put_packet (stop_text ret) s)
        end
    end.

(** [vm_stop], called from the main loop. *)
Definition vm_stop (st : RunState) (s : stub) : outcome stub :=
  if runstate_is_running (sv s) then
    let* s := on_vm (runstate_set st) s in
    gdb_vm_state_change false st s
  else Ok s.

(** [vm_start], no stop being requested. *)
Definition vm_start (s : stub) : outcome stub :=
  if runstate_is_running (sv s) then Ok s
  else
    let* s := on_vm (runstate_set RUN_STATE_RUNNING) s in
    gdb_vm_state_change true RUN_STATE_RUNNING s.

Definition gdb_continue (s : stub) : outcome stub :=
  if runstate_needs_reset (sv s) then Ok s else vm_start s.

(** ** Registers, breakpoints, threads *)

Definition gdb_read_register (reg : Z) (s : stub) : list Z :=
  if reg <? gdb_num_core_regs then ppdl_cpu_gdb_read_register (cpu (mc (sv s))) reg else [].

Definition gdb_write_register (mem_buf : list Z) (reg : Z) (s : stub) : Z * stub :=
  if reg <? gdb_num_core_regs then
    let '(n, c) := ppdl_cpu_gdb_write_register (cpu (mc (sv s))) mem_buf reg in
    (n, set_sv (set_mc (with_cpu (fun _ => c) (mc (sv s))) (sv s)) s)
  else (0, s).

Definition gdb_set_cpu_pc (pc : Z) (s : stub) : stub :=
  set_sv (set_mc (with_cpu (ppdl_cpu_set_pc pc) (mc (sv s))) (sv s)) s.

Definition xlat_gdb_type (type : Z) : Z :=
  if type =? 2 then Z.lor BP_GDB BP_MEM_WRITE
  else if type =? 3 then Z.lor BP_GDB BP_MEM_READ else Z.lor BP_GDB BP_MEM_ACCESS.

Definition gdb_breakpoint_insert (addr len type : Z) (v : vm) : outcome (Z * vm) :=
  if (type =? 0) || (type =? 1) then cpu_breakpoint_insert addr BP_GDB v
  else if (2 <=? type) && (type <=? 4) then Ok (cpu_watchpoint_insert addr len (xlat_gdb_type type) v)
  else Ok (- ENOSYS, v).

Definition gdb_breakpoint_remove (addr len type : Z) (v : vm) : outcome (Z * vm) :=
  if (type =? 0) || (type =? 1) then cpu_breakpoint_remove addr BP_GDB v
  else if (2 <=? type) && (type <=? 4) then cpu_watchpoint_remove addr len (xlat_gdb_type type) v
  else Ok (- ENOSYS, v).

Definition gdb_breakpoint_remove_all (v : vm) : outcome vm :=
  let* v := cpu_breakpoint_remove_all BP_GDB v in cpu_watchpoint_remove_all BP_GDB v.

(** Whether there is a CPU with the number; the only one has number 1. *)
Definition find_cpu (thread_id : Z) : bool := u32 thread_id =? 1.

Definition gdb_signal_table : list Z := [-1; -1; 2; -1; -1; 5].

(** The comparison with the size of the table is unsigned. *)
Definition gdb_signal_to_target (sig : Z) : Z :=
  if u64 sig <? 6 then nth (Z.to_nat sig) gdb_signal_table (-1) else -1.

(** ** Commands; [p] is what follows the letter *)

Definition cmd_query (s : stub) : outcome stub :=
  on_vm gdb_breakpoint_remove_all (put_packet (stop_text 5) s).

Definition cmd_pc (p : list Z) (s : stub) : stub :=
  if negb (hd 0 p =? 0) then gdb_set_cpu_pc (strtoull p).1 s else s.

Definition cmd_continue (p : list Z) (s : stub) : outcome stub :=
  gdb_continue (with_gs (set_signal 0) (cmd_pc p s)).

Definition cmd_signal (p : list Z) (s : stub) : outcome stub :=
  let sig := gdb_signal_to_target (i32 (strtoull p).1) in
  gdb_continue (with_gs (set_signal (if sig =? -1 then 0 else sig)) s).

Definition cmd_step (p : list Z) (s : stub) : outcome stub :=
  let s := cmd_pc p s in
  let* s := on_vm (cpu_single_step g (sstep_flags s)) s in
  gdb_continue s.

(** The loop over the actions of [vCont]: the action chosen (0 for none), its
    signal and thread, and [use_cont]. *)
Fixpoint vcont_loop (fuel : nat) (p : list Z) (res res_signal res_thread : Z) (cont : bool)
  : outcome (Z * Z * Z * bool) :=
  match fuel with
  | O => Undef
  | S f =>
      if hd 0 p =? 0 then Ok (res, res_signal, res_thread, cont)
      else if negb (hd 0 p =? 59) then Ok (0, res_signal, res_thread, cont)
      else
        let p := tl p in
        let action := hd 0 p in
        let p := tl p in
        if negb ((action =? 67) || (action =? 83) || (action =? 99) || (action =? 115))
        then Ok (0, res_signal, res_thread, cont)
        else
          let '(sig, p) := if (action =? 67) || (action =? 83) then strtoull p else (0, p) in
          let '(thread, p) := if hd 0 p =? 58 then strtoull (tl p) else (0, p) in
          let action := tolower action in
          if (res =? 0) || ((res =? 99) && (action =? 115))
          then vcont_loop f p action (i32 sig) (i32 thread) (action =? 99)
          else vcont_loop f p res res_signal res_thread cont
  end.

Definition cmd_vcont (p : list Z) (s : stub) : outcome stub :=
  if strncmp_eq p "Cont" then
    let p := drop 4 p in
    if hd 0 p =? 63 then Ok (reply "vCont;c;C;s;S" s)
    else
      let* (res, res_signal, res_thread, cont) := vcont_loop (S (length p)) p 0 0 0 (use_cont s) in
      let s := set_use_cont cont s in
      if res =? 0 then Ok s
      else if negb (res_thread =? -1) && negb (res_thread =? 0) && negb (find_cpu res_thread) then Ok (reply "E22" s)
      else
        let* s := if res =? 115 then on_vm (cpu_single_step g (sstep_flags s)) s else Ok s in
        gdb_continue (with_gs (set_signal res_signal) s)
  else Ok (reply "" s).

Definition cmd_detach (s : stub) : outcome stub :=
  let* s := on_vm gdb_breakpoint_remove_all s in
  let* s := gdb_continue (set_syscall_mode GDB_SYS_DISABLED s) in
  Ok (reply "OK" s).

Definition cmd_read_registers (s : stub) : outcome stub :=
  let* buf := memtohex (flat_map (fun a => gdb_read_register (Z.of_nat a) s) (seq 0 (Z.to_nat gdb_num_core_regs))) in
  Ok (put_packet buf s).

(** [len] is unsigned, it does not become negative. *)
Fixpoint write_registers_loop (n : nat) (addr : Z) (registers : list Z) (len : Z) (s : stub) : stub :=
  match n with
  | O => s
  | S n' =>
      if 0 <? len then
        let '(reg_size, s) := gdb_write_register registers addr s in
        write_registers_loop n' (addr + 1) (drop (Z.to_nat reg_size) registers) (u64 (len - reg_size)) s
      else s
  end.

Definition cmd_write_registers (p : list Z) (s : stub) : outcome stub :=
  let len := (length (cstr p) / 2)%nat in
  let* l := hextomem p len in
  let* mem_buf := mem_buf_with stack l in
  Ok (reply "OK" (write_registers_loop (Z.to_nat gdb_num_core_regs) 0 mem_buf (Z.of_nat len) s)).

(** The FIFOs of the target: there is none to read or write. *)
Definition ppdl_cpu_gdb_read_fifo (fifo : Z) : list Z := [].
Definition ppdl_cpu_gdb_write_fifo (mem_buf : list Z) (fifo data_size : Z) (s : stub) : stub := s.
Definition ppdl_cpu_gdb_info_fifo : string :=
  "34;vr0,8,32;vr1,8,32;vr2,8,32;vr3,8,32;vr4,8,32;vr5,8,32;vr6,8,32;vr7,8,32;vr8,8,32;vr9,8,32;vr10,8,32;vr11,8,32;vr12,8,32;vr13,8,32;vr14,8,32;vr15,8,32;vr16,8,32;vr17,8,32;vr18,8,32;vr19,8,32;vr20,8,32;vr21,8,32;vr22,8,32;vr23,8,32;vr24,8,32;vr25,8,32;vr26,8,32;vr27,8,32;vr28,8,32;vr29,8,32;vr30,8,32;vr31,8,32;afifo,8,32;wfifo,8,32;".

Definition cmd_read_fifo (p : list Z) (s : stub) : outcome stub :=
  if negb (hd 0 p =? 63) then
    let* buf := memtohex (ppdl_cpu_gdb_read_fifo (i32 (strtoull p).1)) in Ok (put_packet buf s)
  else Ok (reply ppdl_cpu_gdb_info_fifo s).

Definition cmd_write_fifo (p : list Z) (s : stub) : outcome stub :=
  let '(addr, p) := strtoull p in
  let p := skip_char 58 p in
  let len := (length (cstr p) / 2)%nat in
  let* l := hextomem p len in
  let* mem_buf := mem_buf_with stack l in
  Ok (ppdl_cpu_gdb_write_fifo mem_buf (i32 addr) (Z.of_nat len) s).

(** The length is not checked against the size of the buffers. *)
Definition cmd_read_memory (p : list Z) (s : stub) : outcome stub :=
  let '(addr, p) := strtoull p in
  let p := skip_char 44 p in
  let len := i32 (strtoull p).1 in
  let* (ret, mem_buf, v) := cpu_memory_rw_debug other addr stack len false (sv s) in
  let s := set_sv v s in
  if negb (ret =? 0) then Ok (reply "E14" s)
  else
    let* buf := memtohex (take (Z.to_nat len) mem_buf) in
    Ok (put_packet buf s).

Definition cmd_write_memory (p : list Z) (s : stub) : outcome stub :=
  let '(addr, p) := strtoull p in
  let p := skip_char 44 p in
  let '(len, p) := strtoull p in
  let len := i32 len in
  let p := skip_char 58 p in
  let* l := hextomem p (Z.to_nat len) in
  let* mem_buf := mem_buf_with stack l in
  let* (ret, _, v) := cpu_memory_rw_debug other addr mem_buf len true (sv s) in
  let s := set_sv v s in
  Ok (reply (if negb (ret =? 0) then "E14" else "OK") s).

(** [insert]: [Z] rather than [z]. *)
Definition cmd_breakpoint (insert : bool) (p : list Z) (s : stub) : outcome stub :=
  let '(type, p) := strtoull p in
  let p := skip_char 44 p in
  let '(addr, p) := strtoull p in
  let p := skip_char 44 p in
  let '(len, p) := strtoull p in
  let type := i32 type in
  let* (res, v) := if insert then gdb_breakpoint_insert addr len type (sv s)
                   else gdb_breakpoint_remove addr len type (sv s) in
  let s := set_sv v s in
  Ok (reply (if 0 <=? res then "OK" else if res =? - ENOSYS then "" else "E22") s).

Definition cmd_thread (p : list Z) (s : stub) : outcome stub :=
  let type := hd 0 p in
  let thread := u32 (strtoull (tl p)).1 in
  if (thread =? u32 (-1)) || (thread =? 0) then Ok (reply "OK" s)
  else if negb (find_cpu thread) then Ok (reply "E22" s)
  else if (type =? 99) || (type =? 103) then Ok (reply "OK" s) else Ok (reply "E22" s).

Definition cmd_alive (p : list Z) (s : stub) : outcome stub :=
  Ok (reply (if find_cpu (strtoull p).1 then "OK" else "E22") s).

Definition report_cpuinfo (s : stub) : stub :=
  if query_cpu (gs s) then with_gs (set_query_cpu false) (reply "m1" s) else reply "l" s.

Definition cmd_extra_info (p : list Z) (s : stub) : outcome stub :=
  if find_cpu (strtoull (drop 16 p)).1 then
    let* buf := memtohex (codes (if halted (cs (sv s)) then "CPU#0 [halted ]" else "CPU#0 [running]")) in
    Ok (put_packet buf s)
  else Ok s.

(** [hextomem] is given the number of digits, not of bytes; one half of what it
    writes is used. *)
Definition cmd_monitor (p : list Z) (s : stub) : outcome stub :=
  let len := length (cstr (drop 5 p)) in
  if Nat.odd len then Ok (reply "E01" s)
  else
    let* l := hextomem (drop 5 p) len in
    Ok (reply "OK" (monitor_write (take (len / 2) l ++ [0]) s)).

Definition cmd_general (p : list Z) (s : stub) : outcome stub :=
  if strcmp_eq p "qemu.sstepbits" then Ok (reply "ENABLE=1,NOIRQ=2,NOTIMER=4" s)
  else if strncmp_eq p "qemu.sstep" then
    let p := drop 10 p in
    if negb (hd 0 p =? 61) then Ok (put_packet (codes "0x" ++ fmt_x hexdig 0 (u32 (sstep_flags s))) s)
    else Ok (reply "OK" (set_sstep_flags (i32 (strtoull (tl p)).1) s))
  else if strcmp_eq p "C" then Ok (reply "QC1" s)
  else if strcmp_eq p "fThreadInfo" then Ok (report_cpuinfo (with_gs (set_query_cpu true) s))
  else if strcmp_eq p "sThreadInfo" then Ok (report_cpuinfo s)
  else if strncmp_eq p "ThreadExtraInfo," then cmd_extra_info p s
  else if strncmp_eq p "Rcmd," then cmd_monitor p s
  else if strncmp_eq p "Supported" then Ok (reply "PacketSize=1000" s)
  else Ok (reply "" s).

Definition gdb_handle_packet (line : list Z) (s : stub) : outcome (RSState * stub) :=
  let p := tl line in
  let* s :=
    match hd 0 line with
    | 63 (* ? *) => cmd_query s
    | 99 (* c *) => cmd_continue p s
    | 67 (* C *) => cmd_signal p s
    | 118 (* v *) => cmd_vcont p s
    | 107 (* k *) => Exit 0 (stdout (mc (sv s)))
    | 68 (* D *) => cmd_detach s
    | 115 (* s *) => cmd_step p s
    | 103 (* g *) => cmd_read_registers s
    | 71 (* G *) => cmd_write_registers p s
    | 102 (* f *) => cmd_read_fifo p s
    | 70 (* F *) => cmd_write_fifo p s
    | 109 (* m *) => cmd_read_memory p s
    | 77 (* M *) => cmd_write_memory p s
    | 90 (* Z *) => cmd_breakpoint true p s
    | 122 (* z *) => cmd_breakpoint false p s
    | 72 (* H *) => cmd_thread p s
    | 84 (* T *) => cmd_alive p s
    | 113 | 81 (* q, Q *) => cmd_general p s
    | _ => Ok (reply "" s)
    end in
  Ok (RS_IDLE, s).

(** ** Receiving *)

(** The character, when no reply is waited for. *)
Definition read_char (ch : Z) (s : stub) : outcome stub :=
  if runstate_is_running (sv s) then vm_stop RUN_STATE_PAUSED s
  else
    let d := gs s in
    match state d with
    | RS_IDLE => Ok (if ch =? 36 then with_gs (fun d => set_state RS_GETLINE (set_line (line_buf d) 0 d)) s else s)
    | RS_GETLINE =>
        if ch =? 35 then Ok (with_gs (set_state RS_CHKSUM1) s)
        else if (MAX_PACKET_LENGTH - 1 <=? line_buf_index d)%nat then Ok (with_gs (set_state RS_IDLE) s)
        else Ok (with_gs (set_line (<[line_buf_index d := ch]> (line_buf d)) (S (line_buf_index d))) s)
    | RS_CHKSUM1 =>
        Ok (with_gs (fun d => set_state RS_CHKSUM2 (set_line_csum (Z.shiftl (fromhex ch) 4)
          (set_line (<[line_buf_index d := 0]> (line_buf d)) (line_buf_index d) d))) s)
    | RS_CHKSUM2 =>
        let line_csum' := Z.lor (line_csum d) (fromhex ch) in
        let s := with_gs (set_line_csum line_csum') s in
        let csum := i8_sum (take (line_buf_index d) (line_buf d)) in
        if negb (line_csum' =? Z.land csum 0xff) then Ok (with_gs (set_state RS_IDLE) (put_buffer [45] s))
        else
          let* (st, s) := gdb_handle_packet (line_buf d) (put_buffer [43] s) in
          Ok (with_gs (set_state st) s)
    | RS_INACTIVE => Exit ABORTED []
    end.

(** While a reply waits for its acknowledgement, only [+], [-] and the start of
    a new command are looked at. *)
Definition gdb_read_byte (ch : Z) (s : stub) : outcome stub :=
  let d := gs s in
  match last_packet d with
  | [] => read_char ch s
  | pkt =>
      let s := if ch =? 45 then put_buffer pkt s else s in
      let s := if (ch =? 43) || (ch =? 36) then with_gs (set_last_packet []) s else s in
      if negb (ch =? 36) then Ok s else read_char ch s
  end.

Fixpoint gdb_chr_receive (buf : list Z) (s : stub) : outcome stub :=
  match buf with
  | [] => Ok s
  | ch :: buf' => let* s := gdb_read_byte ch s in gdb_chr_receive buf' s
  end.

(** ** Single stepping *)

(** Translation with [singlestep_enabled] set stops after one instruction, as
    it does when the operation buffer has no room for another. *)
Definition step_room (room : Z -> nat -> bool) (v : vm) : Z -> nat -> bool :=
  if singlestep_enabled (cs v) =? 0 then room else fun _ _ => false.

Definition cpu_handle_debug_exception (v : vm) : vm :=
  match watchpoint_hit (cs v) with
  | Some _ => v
  | None => set_watchpoints (map (fun wp => mkWatch (wp_vaddr wp) (wp_len_mask wp)
      (Z.land (wp_flags wp) (Z.lnot BP_WATCHPOINT_HIT))) (watchpoints (cs v))) v
  end.

(** A block executed in single-step mode ends with [EXCP_DEBUG]: the CPU loop
    is left and the main loop stops the machine. *)
Definition debug_round (room : Z -> nat -> bool) (over : list Z) (end_pc flags : Z) (s : stub) : outcome stub :=
  let v := sv s in
  let* (m, c) := cpu_exec_step g (step_room room v) over end_pc flags (mc v) (tc v) in
  vm_stop RUN_STATE_DEBUG (set_sv (cpu_handle_debug_exception (set_tc c (set_mc m v))) s).

(** ** The connection *)

(** The state is written to after it was freed when the connection closes. *)
Definition gdb_chr_event (opened : bool) (s : stub) : outcome stub :=
  if opened then
    let* s := vm_stop RUN_STATE_PAUSED s in
    Ok (with_gs (set_connected true) s)
  else Undef.

Definition gdb_state_init (st : RSState) : GDBState :=
  mkGDB st (replicate MAX_PACKET_LENGTH 0) 0 0 [] false 0 false.

(** [chr]: whether the device can be opened.  The value returned tells whether
    it is a TCP socket. *)
Definition gdbserver_start (device : option string) (chr : bool) (s : stub) : Z * stub :=
  match device with
  | None => (-1, s)
  | Some dev =>
      let none := String.eqb dev "none" in
      let tcp := String.prefix "tcp:" dev in
      if negb none && negb chr then (-1, s)
      else (if negb none && tcp then 1 else 0, with_gs (fun _ => gdb_state_init (if none then RS_INACTIVE else RS_IDLE)) s)
  end.

(** ** The monitor's output *)

Definition gdb_monitor_output (msg : list Z) (s : stub) : outcome stub :=
  let msg := take (MAX_PACKET_LENGTH / 2 - 1) msg in
  let* buf := memtohex msg in
  Ok (put_packet (79 :: buf) s).

(** [max_sz = (sizeof(last_packet) - 2) / 2]; the value returned is what is left
    at the end. *)
Fixpoint gdb_monitor_write (fuel : nat) (p : list Z) (s : stub) : outcome (nat * stub) :=
  match fuel with
  | O => Undef
  | S f =>
      let max_sz := ((MAX_PACKET_LENGTH + 4 - 2) / 2)%nat in
      if (length p <=? max_sz)%nat then let* s := gdb_monitor_output p s in Ok (length p, s)
      else
        let* s := gdb_monitor_output (take max_sz p) s in
        gdb_monitor_write f (drop max_sz p) s
  end.
End Stub.
