(* ===== verification/GdbSpec.v ===== *)
(** * Debugging sessions

    What the debugger does to the machine keeps the cache of translated code
    consistent with the memory and with the mode (running or single stepping),
    so that the program resumed is the program in memory, and the receiver of
    packets stays within its buffer. *)

From stdpp Require Import base numbers list option strings gmap.
From Stdlib Require Import ZArith Lia.
From S2P Require Import Prelude Words Bignum BignumSpec BignumHeap BignumStr Cpu Mmu Gdb GuestMem Loader Helpers Translate TraceFilter TranslateSpec TbCache TbCacheSpec TbPages TbInvalidate Debug GdbStub.

(** [P] holds of the result, if there is one. *)
Definition holds {A} (P : A -> Prop) (o : outcome A) : Prop := match o with Ok a => P a | _ => True end.

Lemma holds_bind {A B} (P : A -> Prop) (Q : B -> Prop) o f :
  holds P o -> (forall a, P a -> holds Q (f a)) -> holds Q (let* a := o in f a).
Proof. destruct o; cbn; auto. Qed.

Lemma holds_ok {A} (P : A -> Prop) o a : holds P o -> o = Ok a -> P a.
Proof. by intros ? ->. Qed.

(** ** The machine *)

Section Machine.
Context (g : tcg) `{!TcgLimits g, !FlatCode g} (room : Z -> nat -> bool) (end_pc : Z) (other : Z -> bool).

Record vm_ok (v : vm) : Prop := mkVmOk {
  vo_cache : cache_ok g (step_room room v) end_pc (ram (mc v)) (tc v);
  vo_pages : pages_ok g (tc v);
  vo_nommu : map_address_data (mm v) = get_phys_nommu;
  vo_ram : ram_size (ram (mc v)) <= 2 ^ 63
}.

(** Only the cache changes. *)
Lemma vm_ok_tc v c : vm_ok v -> cache_ok g (step_room room v) end_pc (ram (mc v)) c -> pages_ok g c -> vm_ok (set_tc c v).
Proof. intros [] Hc Hp. split; [exact Hc|exact Hp|done|done]. Qed.

(** What the invariant does not look at changes. *)
Lemma vm_ok_ext v v' : singlestep_enabled (cs v') = singlestep_enabled (cs v) -> ram (mc v') = ram (mc v) ->
  tc v' = tc v -> mm v' = mm v -> vm_ok v -> vm_ok v'.
Proof.
  intros E1 E2 E3 E4 []. split; rewrite ?E2, ?E3, ?E4; [|exact vo_pages0|exact vo_nommu0|exact vo_ram0].
  unfold step_room. rewrite E1. exact vo_cache0.
Qed.

Lemma phys_debug v addr : vm_ok v -> cpu_get_phys_page_debug v addr = addr.
Proof.
  intros [_ _ H _]. unfold cpu_get_phys_page_debug, ppdl_cpu_get_phys_page_debug, cpu_ppdl_get_phys_addr.
  cbn [Z.eqb]. unfold call_map. by rewrite H.
Qed.

Lemma range_invalidated rm r start end_ c : cache_ok g rm end_pc r c -> pages_ok g c ->
  exists c', tb_invalidate_phys_page_range start end_ c = Ok c' /\ cache_ok g rm end_pc r c' /\ pages_ok g c'.
Proof.
  intros [Hc Hj Hk] Hp. destruct (page_range_ok g start end_ c Hc Hj Hp) as (c' & E & Hc' & Hj' & Hp' & Hs & Hl).
  exists c'. split; [exact E|]. split; [|exact Hp']. split; [exact Hc'|exact Hj'|].
  intros i [Hi _]%Hl. eapply same_code; [apply Hs|]. exact (Hk i Hi).
Qed.

(** A flushed cache is consistent with any memory, in any mode. *)
Lemma flushed rm rm' r r' c : cache_ok g rm end_pc r c ->
  exists c', tb_flush g c = Ok c' /\ cache_ok g rm' end_pc r' c' /\ pages_ok g c'.
Proof.
  intros Hc. destruct (cache_ok_flushed g rm end_pc r c Hc) as (c' & E & _ & Hn & Hp & Hh & _).
  destruct (tb_flush_inv g c c' E) as (_ & Hf & Hj & _). exists c'. split; [exact E|]. split.
  - apply empty_ok; [exact Hn|exact Hh|exact Hj|]. rewrite Hp. destruct Hc as [[] _ _]. lia.
  - by apply empty_pages.
Qed.

Lemma flush_ok v : vm_ok v ->
  exists v', (let* c := tb_flush g (tc v) in Ok (set_tc c v)) = Ok v' /\ vm_ok v' /\
    exists c, v' = set_tc c v.
Proof.
  intros H. destruct (flushed _ (step_room room v) _ (ram (mc v)) _ (vo_cache v H)) as (c & -> & Hc & Hp). eexists.
  split; [reflexivity|]. split; [by apply vm_ok_tc|by exists c].
Qed.

Lemma single_step_ok n v : vm_ok v ->
  exists v', cpu_single_step g n v = Ok v' /\ vm_ok v' /\ singlestep_enabled (cs v') = n /\ mc v' = mc v /\
    current_run_state v' = current_run_state v /\ mm v' = mm v /\ watchpoint_hit (cs v') = watchpoint_hit (cs v).
Proof.
  intros H. unfold cpu_single_step. destruct (Z.eqb_spec (singlestep_enabled (cs v)) n) as [E|E]; [by exists v|].
  destruct (flushed _ (step_room room (set_singlestep n v)) _ (ram (mc v)) _ (vo_cache v H)) as (c & Ec & Hc & Hp).
  cbn [tc set_singlestep]. rewrite Ec. eexists. split; [reflexivity|]. split; [|done].
  destruct H. split; [exact Hc|exact Hp|done|done].
Qed.

Lemma jmp_cleared rm r j c : cache_ok g rm end_pc r c -> pages_ok g c -> j ⊆ tb_jmp_cache c ->
  cache_ok g rm end_pc r (set_jmp_cache j c) /\ pages_ok g (set_jmp_cache j c).
Proof.
  intros [[] Hj Hk] Hp Hs. split; [|by apply (same_pages_ok g c)].
  split; [by split| |exact Hk]. intros h i Hi. apply Hj. by eapply lookup_weaken.
Qed.

Lemma clear_jmp_page_sub i j : clear_jmp_page i j ⊆ j.
Proof. apply map_filter_subseteq. Qed.

Lemma tlb_flush_page_ok addr v : vm_ok v -> vm_ok (tlb_flush_page addr v).
Proof.
  intros H. unfold tlb_flush_page, tb_flush_jmp_cache. destruct (jmp_cleared (step_room room v) (ram (mc v))
    (clear_jmp_page (tb_jmp_cache_hash_page (page_of addr))
      (clear_jmp_page (tb_jmp_cache_hash_page (u64 (page_of addr - TARGET_PAGE_SIZE))) (tb_jmp_cache (tc v)))) (tc v)) as [? ?];
    [apply H|apply H| |by apply vm_ok_tc].
  etransitivity; apply clear_jmp_page_sub.
Qed.

(** *** Breakpoints and watchpoints *)

(** The machine as before but for the cache and the lists of breakpoints. *)
Record kept (v v' : vm) : Prop := mkKept {
  kp_mc : mc v' = mc v;
  kp_mm : mm v' = mm v;
  kp_run : current_run_state v' = current_run_state v;
  kp_step : singlestep_enabled (cs v') = singlestep_enabled (cs v);
  kp_halted : halted (cs v') = halted (cs v)
}.

#[export] Instance kept_preorder : PreOrder kept.
Proof. split; [by intros v|]. intros v1 v2 v3 [] []. split; congruence. Qed.

(** A change of the lists alone. *)
Lemma kept_ok v v' : kept v v' -> tc v' = tc v -> vm_ok v -> vm_ok v'.
Proof. intros [] Ht. apply vm_ok_ext; congruence. Qed.

Lemma breakpoint_invalidate_ok pc v : vm_ok v ->
  exists v', breakpoint_invalidate pc v = Ok v' /\ vm_ok v' /\ kept v v' /\ breakpoints (cs v') = breakpoints (cs v).
Proof.
  intros H. unfold breakpoint_invalidate, tb_invalidate_phys_addr. destruct (_ =? _); [by exists v|].
  destruct (_ <? _); [|by exists v]. set (a := Z.lor _ _).
  destruct (range_invalidated _ _ a (u64 (a + 1)) _ (vo_cache v H) (vo_pages v H)) as (c & -> & Hc & Hp).
  eexists. split; [reflexivity|]. split; [by apply vm_ok_tc|done].
Qed.

Lemma breakpoint_insert_ok pc v : vm_ok v ->
  exists v', cpu_breakpoint_insert pc BP_GDB v = Ok (0, v') /\ vm_ok v' /\ kept v v' /\
    breakpoints (cs v') = mkBreak pc BP_GDB :: breakpoints (cs v).
Proof.
  intros H. unfold cpu_breakpoint_insert. change (negb (Z.land BP_GDB BP_GDB =? 0)) with true. cbv beta iota zeta.
  destruct (breakpoint_invalidate_ok pc (set_breakpoints (mkBreak pc BP_GDB :: breakpoints (cs v)) v)) as (v' & E & Hv & Hk & Hb);
    [by apply (kept_ok v)|].
  rewrite E. eexists. split; [reflexivity|]. split; [done|]. split; [|done].
  etransitivity; [|exact Hk]. done.
Qed.

Lemma breakpoint_remove_ref_ok i v : vm_ok v -> (i < length (breakpoints (cs v)))%nat ->
  exists v', cpu_breakpoint_remove_by_ref i v = Ok v' /\ vm_ok v' /\ kept v v' /\
    breakpoints (cs v') = delete i (breakpoints (cs v)).
Proof.
  intros H Hi. unfold cpu_breakpoint_remove_by_ref. destruct (lookup_lt_is_Some_2 _ _ Hi) as [bp ->].
  destruct (breakpoint_invalidate_ok (brk_pc bp) (set_breakpoints (delete i (breakpoints (cs v))) v)) as (v' & E & Hv & Hk & Hb);
    [by apply (kept_ok v)|].
  exists v'. split; [exact E|]. split; [exact Hv|]. split; [|exact Hb]. etransitivity; [|exact Hk]. done.
Qed.

Lemma breakpoint_remove_loop_ok mask l1 l2 v : vm_ok v -> breakpoints (cs v) = l1 ++ l2 ->
  exists v', breakpoint_remove_loop mask l2 (length l1) v = Ok v' /\ vm_ok v' /\ kept v v' /\
    breakpoints (cs v') = l1 ++ filter (fun b => Z.land (brk_flags b) mask = 0) l2.
Proof.
  revert l1 v; induction l2 as [|b l2 IH]; intros l1 v Hv E; cbn [breakpoint_remove_loop]; [by exists v|].
  destruct (Z.eqb_spec (Z.land (brk_flags b) mask) 0) as [E0|E0]; cbn [negb].
  - rewrite filter_cons_True by done. destruct (IH (l1 ++ [b]) v) as (v' & E' & Hv' & Hk & Hb); [done|by rewrite <- app_assoc|].
    rewrite length_app, Nat.add_comm in E'. exists v'. split; [exact E'|]. by rewrite Hb, <- app_assoc.
  - rewrite filter_cons_False by done.
    destruct (breakpoint_remove_ref_ok (length l1) v Hv) as (v1 & -> & Hv1 & Hk1 & Hb1); [rewrite E, length_app; simpl; lia|].
    cbn [obind]. destruct (IH l1 v1 Hv1) as (v' & E' & Hv' & Hk & Hb); [by rewrite Hb1, E, delete_middle|].
    exists v'. split; [exact E'|]. split; [exact Hv'|]. split; [by transitivity v1|exact Hb].
Qed.

Lemma watchpoint_remove_ref_ok i v : vm_ok v -> (i < length (watchpoints (cs v)))%nat ->
  exists v', cpu_watchpoint_remove_by_ref i v = Ok v' /\ vm_ok v' /\ kept v v' /\
    watchpoints (cs v') = delete i (watchpoints (cs v)) /\ breakpoints (cs v') = breakpoints (cs v).
Proof.
  intros H Hi. unfold cpu_watchpoint_remove_by_ref. destruct (lookup_lt_is_Some_2 _ _ Hi) as [wp ->].
  eexists. split; [reflexivity|]. split; [|done]. apply tlb_flush_page_ok. by apply (kept_ok v).
Qed.

Lemma watchpoint_remove_loop_ok mask l1 l2 v : vm_ok v -> watchpoints (cs v) = l1 ++ l2 ->
  exists v', watchpoint_remove_loop mask l2 (length l1) v = Ok v' /\ vm_ok v' /\ kept v v' /\
    watchpoints (cs v') = l1 ++ filter (fun b => Z.land (wp_flags b) mask = 0) l2 /\ breakpoints (cs v') = breakpoints (cs v).
Proof.
  revert l1 v; induction l2 as [|b l2 IH]; intros l1 v Hv E; cbn [watchpoint_remove_loop]; [by exists v|].
  destruct (Z.eqb_spec (Z.land (wp_flags b) mask) 0) as [E0|E0]; cbn [negb].
  - rewrite filter_cons_True by done. destruct (IH (l1 ++ [b]) v) as (v' & E' & Hv' & Hk & Hb & Hb'); [done|by rewrite <- app_assoc|].
    rewrite length_app, Nat.add_comm in E'. exists v'. split; [exact E'|]. by rewrite Hb, <- app_assoc.
  - rewrite filter_cons_False by done.
    destruct (watchpoint_remove_ref_ok (length l1) v Hv) as (v1 & -> & Hv1 & Hk1 & Hb1 & Hb1'); [rewrite E, length_app; simpl; lia|].
    cbn [obind]. destruct (IH l1 v1 Hv1) as (v' & E' & Hv' & Hk & Hb & Hb'); [by rewrite Hb1, E, delete_middle|].
    exists v'. split; [exact E'|]. split; [exact Hv'|]. split; [by transitivity v1|]. split; [exact Hb|congruence].
Qed.

(** The debugger's breakpoints and watchpoints are gone, those of others stay. *)
Lemma remove_all_ok v : vm_ok v ->
  exists v', gdb_breakpoint_remove_all v = Ok v' /\ vm_ok v' /\ kept v v' /\
    breakpoints (cs v') = filter (fun b => Z.land (brk_flags b) BP_GDB = 0) (breakpoints (cs v)).
Proof.
  intros H. unfold gdb_breakpoint_remove_all, cpu_breakpoint_remove_all.
  destruct (breakpoint_remove_loop_ok BP_GDB [] (breakpoints (cs v)) v H eq_refl) as (v1 & E1 & H1 & K1 & B1).
  cbn [length] in E1. rewrite E1. cbn [obind]. unfold cpu_watchpoint_remove_all.
  destruct (watchpoint_remove_loop_ok BP_GDB [] (watchpoints (cs v1)) v1 H1 eq_refl) as (v2 & E2 & H2 & K2 & _ & B2).
  cbn [length] in E2. exists v2. split; [exact E2|]. split; [exact H2|]. split; [by transitivity v1|]. rewrite B2. exact B1.
Qed.

(** Inserting and removing never fail to return. *)
Lemma gdb_insert_ok addr len type v : vm_ok v ->
  exists n v', gdb_breakpoint_insert addr len type v = Ok (n, v') /\ vm_ok v' /\ kept v v'.
Proof.
  intros H. unfold gdb_breakpoint_insert. destruct (_ || _).
  { destruct (breakpoint_insert_ok addr v H) as (v' & E & ? & ? & _). by exists 0, v'. }
  destruct (_ && _); [|by exists (- ENOSYS), v]. unfold cpu_watchpoint_insert.
  destruct (watchpoint_invalid _ _); [by exists (- EINVAL), v|]. do 2 eexists. split; [reflexivity|]. split; [|done].
  apply tlb_flush_page_ok. by apply (kept_ok v).
Qed.

Lemma gdb_remove_ok addr len type v : vm_ok v ->
  exists n v', gdb_breakpoint_remove addr len type v = Ok (n, v') /\ vm_ok v' /\ kept v v'.
Proof.
  intros H. unfold gdb_breakpoint_remove. destruct (_ || _).
  - unfold cpu_breakpoint_remove. destruct (list_find _ _) as [[i b]|] eqn:E; [|by exists (- ENOENT), v].
    apply list_find_Some in E as (Hi & _). apply lookup_lt_Some in Hi.
    destruct (breakpoint_remove_ref_ok i v H Hi) as (v' & -> & ? & ? & _). by exists 0, v'.
  - destruct (_ && _); [|by exists (- ENOSYS), v]. unfold cpu_watchpoint_remove.
    destruct (list_find _ _) as [[i b]|] eqn:E; [|by exists (- ENOENT), v].
    apply list_find_Some in E as (Hi & _). apply lookup_lt_Some in Hi.
    destruct (watchpoint_remove_ref_ok i v H Hi) as (v' & -> & ? & ? & _). by exists 0, v'.
Qed.

(** *** Memory *)

Lemma set_ram_same m : set_ram (ram m) m = m.
Proof. by destruct m. Qed.

Lemma write_byte_out addr b r : ram_size r <= addr -> write_byte addr b r = r.
Proof. intros H. unfold write_byte. by rewrite (proj2 (Z.ltb_ge _ _) H), andb_false_r. Qed.

Lemma write_rom_out addr data r : ram_size r <= addr -> write_rom addr data r = r.
Proof.
  revert addr; induction data as [|b data IH]; intros addr H; [done|]. cbn [write_rom].
  rewrite write_byte_out by done. apply IH. lia.
Qed.

Lemma write_rom_written addr buf r : 0 <= addr ->
  written addr (addr + Z.min (Z.of_nat (length buf)) (ram_size r - addr)) r (write_rom addr buf r).
Proof.
  intros H. split; [apply write_rom_size|]. intros a Ha Hr. rewrite write_rom_at by done.
  destruct (Z.leb_spec addr (Z.of_nat (Z.to_nat a))), (Z.ltb_spec (Z.of_nat (Z.to_nat a)) (addr + Z.of_nat (length buf))),
    (Z.ltb_spec (Z.of_nat (Z.to_nat a)) (ram_size r)); cbn [andb]; try done. lia.
Qed.

(** The machine as before but for the memory and the cache. *)
Record stored (r' : guest_ram) (v v' : vm) : Prop := mkStored {
  st_mc : mc v' = set_ram r' (mc v);
  st_mm : mm v' = mm v;
  st_run : current_run_state v' = current_run_state v;
  st_cs : cs v' = cs v
}.

Lemma write_rom_ok addr buf v : vm_ok v -> 0 <= addr -> addr mod 256 + Z.of_nat (length buf) <= 256 ->
  exists v', cpu_physical_memory_write_rom other addr buf v = Ok v' /\ vm_ok v' /\
    stored (write_rom addr buf (ram (mc v))) v v'.
Proof.
  intros H Ha Hl. unfold cpu_physical_memory_write_rom. set (r := ram (mc v)). set (l := Z.min _ _).
  destruct (Z.ltb_spec 0 l) as [H0|H0].
  - destruct (write_invalidate g (step_room room v) end_pc other addr l r (write_rom addr buf r) (tc v)) as (c & E & Hc & Hp);
      [apply H|apply H|done|done|dm| |by apply write_rom_written|].
    { pose proof (vo_ram v H) as Hr. fold r in Hr. lia. }
    cbn [tc set_mc]. rewrite E. cbn [obind]. eexists. split; [reflexivity|]. split; [|done].
    destruct H. split; [exact Hc|exact Hp|done|]. cbn. by rewrite write_rom_size.
  - exists v. split; [reflexivity|]. split; [exact H|]. split; [|done..].
    assert (write_rom addr buf r = r) as ->; [|symmetry; apply set_ram_same].
    destruct buf; [done|]. apply write_rom_out. cbn [length] in l. subst r l. lia.
Qed.

(** One round: where it starts, and how much it does. *)
Definition debug_addr (addr : Z) : Z := u64 (addr * 4).
Definition debug_len (addr len : Z) : Z := Z.min len (256 - debug_addr addr mod 256).

Lemma debug_addr_page addr : let a := debug_addr addr in
  page_of a = a / 256 * 256 /\ (page_of a =? u64 (-1)) = false /\
  i32 (u64 (page_of a + TARGET_PAGE_SIZE - a)) = 256 - a mod 256 /\
  u64 (page_of a + Z.land a (TARGET_PAGE_SIZE - 1)) = a.
Proof.
  intros a. assert (is_u64 a) as Ha by (apply Z.mod_pos_bound; lia). rewrite page_of_eq by done. unfold is_u64 in Ha.
  unfold TARGET_PAGE_SIZE. change (256 - 1) with (Z.ones 8). rewrite Z.land_ones by lia. change (2 ^ 8) with 256.
  assert (a = a / 256 * 256 + a mod 256 /\ 0 <= a mod 256 < 256) as [E Hm] by dm. split_and!; [done|..].
  - apply Z.eqb_neq. change (u64 (-1)) with (72057594037927935 * 256 + 255). lia.
  - rewrite u64_id by (unfold is_u64; lia). unfold i32. rewrite Z.mod_small; lia.
  - rewrite u64_id by (unfold is_u64; lia). lia.
Qed.

(** The rounds of the loop, with the arithmetic done. *)
Lemma rw_debug_round f addr buf len w v : vm_ok v -> 0 < len ->
  let n := Z.to_nat (debug_len addr len) in
  rw_debug_loop other (S f) addr buf len w v =
  if (length buf <? n)%nat then Undef
  else
    let* (d, v) :=
      if w
      then (let* v := cpu_physical_memory_write_rom other (debug_addr addr) (take n buf) v in Ok (take n buf, v))
      else Ok (address_space_read (debug_addr addr) n v, v) in
    let* (ret, rest, v) := rw_debug_loop other f addr (drop n buf) (len - debug_len addr len) w v in
    Ok (ret, d ++ rest, v).
Proof.
  intros H Hl n. cbn [rw_debug_loop]. rewrite (proj2 (Z.ltb_lt _ _) Hl). fold (debug_addr addr). rewrite phys_debug by done.
  destruct (debug_addr_page addr) as (_ & -> & -> & ->).
  assert ((if len <? 256 - debug_addr addr mod 256 then len else 256 - debug_addr addr mod 256) = debug_len addr len) as ->; [|done].
  unfold debug_len. destruct (Z.ltb_spec len (256 - debug_addr addr mod 256)); lia.
Qed.

Lemma debug_len_bounds addr len : 0 < len -> 0 < debug_len addr len <= len /\
  debug_addr addr mod 256 + debug_len addr len <= 256.
Proof. intros H. unfold debug_len. pose proof (Z.mod_pos_bound (debug_addr addr) 256). lia. Qed.

Lemma debug_addr_pos addr : 0 <= debug_addr addr.
Proof. apply Z.mod_pos_bound. lia. Qed.

Lemma rw_debug_holds fuel addr buf len w v : vm_ok v ->
  holds (fun x => vm_ok x.2 /\ exists r', stored r' v x.2) (rw_debug_loop other fuel addr buf len w v).
Proof.
  revert buf len v; induction fuel as [|f IH]; intros buf len v H; [done|].
  assert (vm_ok v /\ exists r', stored r' v v) as Hv by (split; [done|]; exists (ram (mc v)); split; [by rewrite set_ram_same|done..]).
  destruct (Z.ltb_spec 0 len) as [Hl|Hl]; [|cbn [rw_debug_loop]; by rewrite (proj2 (Z.ltb_ge _ _) Hl)].
  rewrite rw_debug_round by done. cbv zeta. destruct (_ <? _)%nat eqn:Eb; [done|]. apply Nat.ltb_ge in Eb.
  destruct (debug_len_bounds addr len Hl) as [Hd Hd'].
  apply (holds_bind (fun x => vm_ok x.2 /\ exists r', stored r' v x.2)).
  - destruct w; [|exact Hv]. destruct (write_rom_ok (debug_addr addr) (take (Z.to_nat (debug_len addr len)) buf) v) as (v' & -> & Hv' & Hs);
      [done|apply debug_addr_pos|rewrite length_take; lia|]. split; [done|by eexists].
  - intros [d v1] (H1 & r1 & Hs1). eapply holds_bind; [by apply IH|]. intros [[ret rest] v2] (H2 & r2 & Hs2). cbn in *.
    split; [done|]. exists r2. destruct Hs1, Hs2. split; [|congruence..]. by rewrite st_mc1, st_mc0.
Qed.

(** With a round per byte the loop comes to its end, for every length the
    buffer has room for. *)
Lemma rw_debug_returns fuel addr buf len w v : vm_ok v -> (Z.to_nat len < fuel)%nat -> len <= Z.of_nat (length buf) ->
  exists buf' v', rw_debug_loop other fuel addr buf len w v = Ok (0, buf', v').
Proof.
  revert buf len v; induction fuel as [|f IH]; intros buf len v H Hf Hb; [lia|].
  destruct (Z.ltb_spec 0 len) as [Hl|Hl]; [|cbn [rw_debug_loop]; rewrite (proj2 (Z.ltb_ge _ _) Hl); eauto].
  rewrite rw_debug_round by done. cbv zeta. destruct (debug_len_bounds addr len Hl) as [Hd Hd'].
  set (n := Z.to_nat (debug_len addr len)). rewrite (proj2 (Nat.ltb_ge _ _)) by lia.
  assert (exists d v1, (if w then (let* v := cpu_physical_memory_write_rom other (debug_addr addr) (take n buf) v in Ok (take n buf, v))
    else Ok (address_space_read (debug_addr addr) n v, v)) = Ok (d, v1) /\ vm_ok v1) as (d & v1 & -> & H1).
  { destruct w; [|eauto]. destruct (write_rom_ok (debug_addr addr) (take n buf) v) as (v' & -> & Hv' & _);
      [done|apply debug_addr_pos|rewrite length_take; lia|cbn [obind]; eauto]. }
  cbn [obind]. destruct (IH (drop n buf) (len - debug_len addr len) v1) as (b' & v' & ->); [done|lia|rewrite length_drop; lia|].
  cbn [obind]. eauto.
Qed.

(** A range within one page. *)
Lemma rw_debug_write addr buf len v : vm_ok v -> 0 < len -> debug_addr addr mod 256 + len <= 256 -> len <= Z.of_nat (length buf) ->
  exists v', cpu_memory_rw_debug other addr buf len true v = Ok (0, buf, v') /\ vm_ok v' /\
    stored (write_rom (debug_addr addr) (take (Z.to_nat len) buf) (ram (mc v))) v v'.
Proof.
  intros H Hl Hp Hb. unfold cpu_memory_rw_debug. rewrite rw_debug_round by done. cbv zeta.
  assert (debug_len addr len = len) as -> by (unfold debug_len; lia). rewrite (proj2 (Nat.ltb_ge _ _)) by lia.
  destruct (write_rom_ok (debug_addr addr) (take (Z.to_nat len) buf) v) as (v' & -> & Hv' & Hs);
    [done|apply debug_addr_pos|rewrite length_take; lia|]. cbn [obind]. rewrite Z.sub_diag.
  destruct (Z.to_nat len) eqn:E; [lia|]. cbn [rw_debug_loop Z.ltb Z.compare obind]. exists v'. by rewrite take_drop.
Qed.

Lemma rw_debug_read addr buf len v : vm_ok v -> 0 < len -> debug_addr addr mod 256 + len <= 256 -> len <= Z.of_nat (length buf) ->
  cpu_memory_rw_debug other addr buf len false v =
  Ok (0, address_space_read (debug_addr addr) (Z.to_nat len) v ++ drop (Z.to_nat len) buf, v).
Proof.
  intros H Hl Hp Hb. unfold cpu_memory_rw_debug. rewrite rw_debug_round by done. cbv zeta.
  assert (debug_len addr len = len) as -> by (unfold debug_len; lia). rewrite (proj2 (Nat.ltb_ge _ _)) by lia.
  cbn [obind]. rewrite Z.sub_diag. destruct (Z.to_nat len) eqn:E; [lia|]. done.
Qed.

(** What was written is read. *)
Lemma read_written addr buf v v' : 0 <= addr -> addr + Z.of_nat (length buf) <= ram_size (ram (mc v)) ->
  stored (write_rom addr buf (ram (mc v))) v v' -> address_space_read addr (length buf) v' = buf.
Proof.
  intros Ha Hs []. unfold address_space_read. rewrite st_mc0. cbn [ram set_ram]. rewrite write_rom_size.
  apply (list_eq_same_length _ _ (length buf)); [done|by rewrite length_map, length_seq|]. intros i x y Hi Hx Hy.
  rewrite list_lookup_fmap, lookup_seq_lt in Hx by done. cbn in Hx. rewrite (proj2 (Z.ltb_lt _ _)), write_rom_at in Hx by lia.
  injection Hx as <-. rewrite Z2Nat.id, (proj2 (Z.leb_le _ _)), !(proj2 (Z.ltb_lt _ _)) by lia. cbn [andb].
  replace (Z.to_nat (addr + Z.of_nat i) - Z.to_nat addr)%nat with i by lia. by apply nth_lookup_Some.
Qed.

(** ** The stub's invariant *)

Create HintDb gdb.

(** [line_buf] is a string wherever it is read: its last cell is never set. *)
Record stub_ok (s : stub) : Prop := mkStubOk {
  so_vm : vm_ok (sv s);
  so_length : length (line_buf (gs s)) = MAX_PACKET_LENGTH;
  so_index : (line_buf_index (gs s) <= MAX_PACKET_LENGTH - 1)%nat;
  so_end : nth (MAX_PACKET_LENGTH - 1) (line_buf (gs s)) 0 = 0
}.

(** A step of a handler: the machine stays consistent and the line is not
    touched. *)
Record handled (s s' : stub) : Prop := mkHandled {
  hd_vm : vm_ok (sv s) -> vm_ok (sv s');
  hd_line : line_buf (gs s') = line_buf (gs s);
  hd_index : line_buf_index (gs s') = line_buf_index (gs s)
}.

#[export] Instance handled_preorder : PreOrder handled.
Proof. split; [by intros s|]. intros s1 s2 s3 [] []. split; [auto|congruence..]. Qed.

Lemma handled_bind s o f : holds (handled s) o -> (forall s1, holds (handled s1) (f s1)) ->
  holds (handled s) (let* s1 := o in f s1).
Proof.
  intros H Hf. eapply holds_bind; [exact H|]. intros s1 H1. specialize (Hf s1).
  destruct (f s1) as [s2| | |]; [|done..]. cbn in *. by transitivity s1.
Qed.

Lemma handled_after s s1 o : handled s s1 -> holds (handled s1) o -> holds (handled s) o.
Proof. intros H H1. destruct o as [s2| | |]; [|done..]. cbn in *. by transitivity s1. Qed.

Lemma handled_on_vm f s : (forall v, vm_ok v -> holds vm_ok (f v)) -> holds (handled s) (on_vm f s).
Proof.
  intros H. unfold on_vm. destruct (f (sv s)) as [v| | |] eqn:E; [|done..]. cbn. split; [|done..].
  intros Hv. exact (holds_ok _ _ _ (H _ Hv) E).
Qed.

Lemma handled_put buf s : handled s (put_packet buf s).
Proof. by split. Qed.
Lemma handled_signal n s : handled s (with_gs (set_signal n) s).
Proof. by split. Qed.
Lemma handled_pc p s : handled s (cmd_pc p s).
Proof. unfold cmd_pc. destruct (negb _); [|done]. split; [|done..]. apply vm_ok_ext; done. Qed.
Lemma handled_sv v s : (vm_ok (sv s) -> vm_ok v) -> handled s (set_sv v s).
Proof. by split. Qed.

Hint Resolve handled_put handled_signal handled_pc : gdb.

Lemma single_step_holds n v : vm_ok v -> holds vm_ok (cpu_single_step g n v).
Proof. intros H. destruct (single_step_ok n v H) as (v' & -> & Hv & _). exact Hv. Qed.
Lemma runstate_holds st v : vm_ok v -> holds vm_ok (runstate_set st v).
Proof. intros H. unfold runstate_set. destruct (bool_decide _); [|done]. by apply (vm_ok_ext v). Qed.
Lemma flush_holds v : vm_ok v -> holds vm_ok (let* c := tb_flush g (tc v) in Ok (set_tc c v)).
Proof. intros H. destruct (flush_ok v H) as (v' & -> & Hv & _). exact Hv. Qed.
Lemma remove_all_holds v : vm_ok v -> holds vm_ok (gdb_breakpoint_remove_all v).
Proof. intros H. destruct (remove_all_ok v H) as (v' & -> & Hv & _). exact Hv. Qed.

Hint Resolve single_step_holds runstate_holds flush_holds remove_all_holds handled_on_vm : gdb.

Lemma state_change_handled running st s : holds (handled s) (gdb_vm_state_change g running st s).
Proof.
  unfold gdb_vm_state_change. destruct (_ || _); [done|]. destruct (if bool_decide (st = RUN_STATE_DEBUG) then watchpoint_hit (cs (sv s)) else None) as [wp|].
  - eapply handled_after; [|auto with gdb]. split; [|done..]. apply vm_ok_ext; done.
  - apply handled_bind; [destruct (bool_decide _); [auto with gdb|done]|]. intros s1. destruct (stop_signal st); [|done].
    eapply handled_after; [|auto with gdb]. auto with gdb.
Qed.

Lemma vm_stop_handled st s : holds (handled s) (vm_stop g st s).
Proof. unfold vm_stop. destruct (runstate_is_running _); [|done]. apply handled_bind; [auto with gdb|]. intros. apply state_change_handled. Qed.

Lemma continue_handled s : holds (handled s) (gdb_continue g s).
Proof.
  unfold gdb_continue, vm_start. destruct (runstate_needs_reset _); [done|]. destruct (runstate_is_running _); [done|].
  apply handled_bind; [auto with gdb|]. intros. apply state_change_handled.
Qed.

Hint Resolve continue_handled : gdb.

(** *** The commands *)

Lemma step_handled p s : holds (handled s) (cmd_step g p s).
Proof.
  eapply handled_after; [apply (handled_pc p)|]. apply handled_bind; [auto with gdb|]. auto with gdb.
Qed.

Lemma vcont_handled p s : holds (handled s) (cmd_vcont g p s).
Proof.
  unfold cmd_vcont. destruct (strncmp_eq _ _); [|by split]. destruct (_ =? 63); [by split|].
  destruct (vcont_loop _ _ _ _ _ _) as [[[[res sig] th] cont]| | |]; [|done..]. cbn [obind]. destruct (res =? 0); [by split|].
  destruct (_ && _ && _); [by split|]. eapply (handled_after s (set_use_cont cont s)); [by split|].
  apply handled_bind; [destruct (res =? 115); [auto with gdb|done]|]. intros s1. eapply handled_after; [|auto with gdb]. auto with gdb.
Qed.

Lemma write_registers_handled n addr regs len s : handled s (write_registers_loop n addr regs len s).
Proof.
  revert addr regs len s; induction n as [|n IH]; intros; cbn [write_registers_loop]; [done|]. destruct (0 <? len); [|done].
  destruct (gdb_write_register _ _ _) as [sz s1] eqn:E. etransitivity; [|apply IH]. unfold gdb_write_register in E.
  destruct (_ <? _); [|by injection E as _ <-]. destruct (ppdl_cpu_gdb_write_register _ _ _) as [k c].
  injection E as _ <-. apply handled_sv. apply vm_ok_ext; done.
Qed.

Lemma rw_debug_kept addr buf len w v ret buf' v' : vm_ok v ->
  cpu_memory_rw_debug other addr buf len w v = Ok (ret, buf', v') -> vm_ok v'.
Proof. intros Hv E. pose proof (rw_debug_holds (S (Z.to_nat len)) addr buf len w v Hv) as Hh. exact (proj1 (holds_ok _ _ _ Hh E)). Qed.

Lemma read_memory_handled stack p s : holds (handled s) (cmd_read_memory other stack p s).
Proof.
  unfold cmd_read_memory. destruct (strtoull p) as [addr q].
  destruct (cpu_memory_rw_debug _ _ _ _ _ _) as [[[ret buf] v]| | |] eqn:E; [|done..]. cbn [obind].
  assert (handled s (set_sv v s)) as H.
  { apply handled_sv. intros Hv. by eapply rw_debug_kept. }
  destruct (negb _); [|destruct (memtohex _); [|done..]]; cbn [obind holds]; by etransitivity; [|apply handled_put].
Qed.

Lemma write_memory_handled stack p s : holds (handled s) (cmd_write_memory other stack p s).
Proof.
  unfold cmd_write_memory. destruct (strtoull p) as [addr q], (strtoull (skip_char 44 q)) as [len q'].
  destruct (hextomem _ _) as [l| | |]; [|done..]. cbn [obind]. destruct (mem_buf_with stack l) as [mb| | |]; [|done..]. cbn [obind].
  destruct (cpu_memory_rw_debug _ _ _ _ _ _) as [[[ret buf] v]| | |] eqn:E; [|done..]. cbn [obind].
  cbn [holds]. etransitivity; [|apply handled_put]. apply handled_sv. intros Hv. by eapply rw_debug_kept.
Qed.

Lemma breakpoint_handled ins p s : holds (handled s) (cmd_breakpoint ins p s).
Proof.
  unfold cmd_breakpoint. destruct (strtoull p) as [type p1], (strtoull (skip_char 44 p1)) as [addr p2], (strtoull (skip_char 44 p2)) as [len p3].
  match goal with |- holds _ (obind ?o _) => destruct o as [[res v]| | |] eqn:E; [|done..] end. cbn [obind holds].
  etransitivity; [|apply handled_put]. apply handled_sv. intros Hv. destruct ins.
  - destruct (gdb_insert_ok addr len (i32 type) _ Hv) as (n & v' & E' & Hv' & _). congruence.
  - destruct (gdb_remove_ok addr len (i32 type) _ Hv) as (n & v' & E' & Hv' & _). congruence.
Qed.

Lemma handled_if (b : bool) s o1 o2 : holds (handled s) o1 -> holds (handled s) o2 -> holds (handled s) (if b then o1 else o2).
Proof. by destruct b. Qed.

Lemma handled_reply s t : holds (handled s) (Ok (reply t s)).
Proof. apply handled_put. Qed.

Lemma extra_info_handled p s : holds (handled s) (cmd_extra_info p s).
Proof. apply handled_if; [|done]. destruct (memtohex _); [|done..]. apply handled_put. Qed.

Lemma monitor_handled p s : holds (handled s) (cmd_monitor p s).
Proof. apply handled_if; [apply handled_reply|]. destruct (hextomem _ _); [|done..]. by split. Qed.

Lemma report_handled s : handled s (report_cpuinfo s).
Proof. unfold report_cpuinfo. destruct (query_cpu _); by split. Qed.

Lemma general_handled p s : holds (handled s) (cmd_general p s).
Proof.
  unfold cmd_general.
  repeat first [apply extra_info_handled|apply monitor_handled|apply handled_reply|apply handled_put|apply report_handled|apply handled_if].
  - apply (handled_after s (set_sstep_flags (i32 (strtoull (tl (drop 10 p))).1) s)); [by split|apply handled_reply].
  - apply (handled_after s (with_gs (set_query_cpu true) s)); [by split|apply report_handled].
Qed.

Hint Resolve step_handled vcont_handled write_registers_handled read_memory_handled write_memory_handled breakpoint_handled
  general_handled : gdb.

Lemma handle_packet_handled stack line s : holds (fun x => handled s x.2) (gdb_handle_packet g other stack line s).
Proof.
  unfold gdb_handle_packet. apply (holds_bind (handled s)); [|by intros s1 H].
  assert (holds (handled s) (cmd_continue g (tl line) s)) as Hc by (eapply handled_after; [|apply continue_handled]; etransitivity; [apply (handled_pc (tl line))|apply handled_signal]).
  assert (holds (handled s) (cmd_query s)) as Hq by (apply (handled_after _ (put_packet (stop_text 5) s)); [apply handled_put|]; unfold cmd_query; auto with gdb).
  assert (holds (handled s) (cmd_signal g (tl line) s)) as Hs by (eapply handled_after; [|apply continue_handled]; apply handled_signal).
  assert (holds (handled s) (cmd_detach g s)) as Hd.
  { apply handled_bind; [auto with gdb|]. intros s1. apply (handled_bind s1).
    - eapply handled_after; [|apply continue_handled]. by split.
    - intros s2. apply handled_put. }
  assert (holds (handled s) (cmd_read_registers s) /\ holds (handled s) (cmd_write_registers stack (tl line) s) /\
    holds (handled s) (cmd_read_fifo (tl line) s) /\ holds (handled s) (cmd_write_fifo stack (tl line) s) /\
    holds (handled s) (cmd_thread (tl line) s) /\ holds (handled s) (cmd_alive (tl line) s)) as (H1 & H2 & H3 & H4 & H5 & H6).
  { split_and!.
    - unfold cmd_read_registers. destruct (memtohex _); [|done..]. apply handled_put.
    - unfold cmd_write_registers. destruct (hextomem _ _); [|done..]. cbn [obind]. destruct (mem_buf_with _ _); [|done..]. cbn [obind holds].
      etransitivity; [|apply handled_put]. apply write_registers_handled.
    - unfold cmd_read_fifo. destruct (negb _); [destruct (memtohex _); [|done..]|]; apply handled_put.
    - unfold cmd_write_fifo. destruct (strtoull _). destruct (hextomem _ _); [|done..]. cbn [obind]. by destruct (mem_buf_with _ _).
    - unfold cmd_thread. repeat match goal with |- context [if ?b then _ else _] => destruct b end; by split.
    - unfold cmd_alive. by split. }
  assert (holds (handled s) (Ok (reply "" s))) as Hu by (by split).
  repeat match goal with |- holds _ (match ?z with _ => _ end) => destruct z end; first [exact Hu|assumption|solve [auto with gdb]|done].
Qed.

(** ** Receiving *)

Lemma handled_ok s s' : handled s s' -> stub_ok s -> stub_ok s'.
Proof. intros [Hv Hl Hi] []. split; [auto|by rewrite Hl|by rewrite Hi|by rewrite Hl]. Qed.

Lemma read_char_ok stack ch s : stub_ok s -> holds stub_ok (read_char g other stack ch s).
Proof.
  intros H. unfold read_char. destruct (runstate_is_running _).
  { pose proof (vm_stop_handled RUN_STATE_PAUSED s) as Hs. destruct (vm_stop _ _ _); [|done..]. by eapply handled_ok. }
  destruct (state (gs s)) eqn:Es; [done|..].
  - cbn [holds]. destruct (ch =? 36); [|done]. destruct H. split; [done|done|cbn; lia|done].
  - destruct (ch =? 35); [destruct H; by split|]. destruct (Nat.leb_spec (MAX_PACKET_LENGTH - 1) (line_buf_index (gs s))) as [Hi|Hi];
      [destruct H; by split|]. destruct H. cbn [holds]. split; cbn [with_gs set_line gs line_buf line_buf_index sv].
    + done.
    + by rewrite length_insert.
    + lia.
    + rewrite nth_lookup, list_lookup_insert_ne, <- nth_lookup by lia. done.
  - destruct H. cbn [holds]. split; cbn [with_gs set_line set_line_csum set_state gs line_buf line_buf_index sv]; [done|by rewrite length_insert|done|].
    rewrite nth_lookup, list_lookup_insert. case_decide; [done|]. by rewrite <- nth_lookup.
  - destruct (negb _); [destruct H; by split|].
    match goal with |- holds _ (let* _ := gdb_handle_packet _ _ _ ?l ?s1 in _) => pose proof (handle_packet_handled stack l s1) as Hh end.
    eapply holds_bind; [exact Hh|]. intros [st s2] H2. cbn [snd] in H2.
    assert (stub_ok s2) as H2' by (eapply handled_ok; [exact H2|]; destruct H; by split). destruct H2'. by split.
Qed.

Lemma read_byte_ok stack ch s : stub_ok s -> holds stub_ok (gdb_read_byte g other stack ch s).
Proof.
  intros H. unfold gdb_read_byte. destruct (last_packet (gs s)) as [|x l]; [by apply read_char_ok|].
  match goal with |- context [with_gs (set_last_packet []) ?s1] => assert (stub_ok s1) as H1 by (destruct (_ =? 45), H; by split); set (s2 := s1) in * end.
  clearbody s2. assert (stub_ok (if (ch =? 43) || (ch =? 36) then with_gs (set_last_packet []) s2 else s2)) as H3 by (destruct (_ || _), H1; by split).
  destruct (negb _); [done|]. by apply read_char_ok.
Qed.

Lemma receive_ok stack buf s : stub_ok s -> holds stub_ok (gdb_chr_receive g other stack buf s).
Proof.
  revert s; induction buf as [|ch buf IH]; intros s H; [done|]. cbn [gdb_chr_receive].
  eapply holds_bind; [by apply read_byte_ok|]. auto.
Qed.
End Machine.

(** ** The other loops of the stub return *)

Lemma skip_space_length p : (length (skip_space p) <= length p)%nat.
Proof. induction p as [|c p IH]; cbn; [done|]. destruct (is_space c); cbn; lia. Qed.

Lemma scan_hex_length acc p : (length (scan_hex acc p).2 <= length p)%nat.
Proof. revert acc; induction p as [|c p IH]; intros acc; cbn; [done|]. destruct (isxdigit c); cbn; [|lia]. specialize (IH (acc * 16 + xval c)). lia. Qed.

Lemma tl_length (p : list Z) : length (tl p) = pred (length p).
Proof. by destruct p. Qed.

(** A number leaves no more than there was. *)
Lemma strtoull_length p : (length (strtoull p).2 <= length p)%nat.
Proof.
  unfold strtoull. pose proof (skip_space_length p) as H1. set (q := skip_space p) in *. clearbody q.
  assert (exists neg q', (if hd 0 q =? 45 then (true, tl q) else if hd 0 q =? 43 then (false, tl q) else (false, q)) = (neg, q') /\
    (length q' <= length p)%nat) as (neg & q' & -> & H2).
  { destruct (hd 0 q =? 45), (hd 0 q =? 43); eexists _, _; (split; [reflexivity|]); rewrite ?tl_length; lia. }
  assert (Nat.le (length (if (hd 0 q' =? 48) && (tolower (nth 1 q' 0) =? 120) && isxdigit (nth 2 q' 0) then drop 2 q' else q')) (length p)) as H3
    by (destruct (_ && _ && isxdigit (nth 2 q' 0)); rewrite ?length_drop; lia).
  revert H3. generalize (if (hd 0 q' =? 48) && (tolower (nth 1 q' 0) =? 120) && isxdigit (nth 2 q' 0) then drop 2 q' else q'). intros r H3.
  destruct (isxdigit _); [|done]. pose proof (scan_hex_length 0 r) as H4. destruct (scan_hex 0 r). cbn in *. lia.
Qed.

(** Every action takes a character at least, so the loop comes to its end. *)
Lemma vcont_returns fuel p res sig th cont : (length p < fuel)%nat -> exists x, vcont_loop fuel p res sig th cont = Ok x.
Proof.
  revert p res sig th cont; induction fuel as [|f IH]; intros p res sig th cont H; [lia|]. cbn [vcont_loop].
  destruct p as [|c p]; [by eexists|]. cbn [hd tl]. cbn [length] in H. destruct (c =? 0); [by eexists|]. destruct (negb _); [by eexists|].
  destruct (negb _); [by eexists|]. pose proof (tl_length p) as H0. set (q := tl p) in *. clearbody q.
  assert (exists a q1, (if (hd 0 p =? 67) || (hd 0 p =? 83) then strtoull q else (0, q)) = (a, q1) /\ (length q1 <= length q)%nat) as (a & q1 & -> & H1).
  { pose proof (strtoull_length q). destruct ((hd 0 p =? 67) || (hd 0 p =? 83)); [destruct (strtoull q)|]; eauto. }
  assert (exists b q2, (if hd 0 q1 =? 58 then strtoull (tl q1) else (0, q1)) = (b, q2) /\ (length q2 <= length q1)%nat) as (b & q2 & -> & H2).
  { pose proof (strtoull_length (tl q1)) as Hs. rewrite tl_length in Hs. destruct (hd 0 q1 =? 58); [destruct (strtoull (tl q1)); cbn in Hs|]; eexists _, _; (split; [reflexivity|lia]). }
  destruct (_ || _); apply IH; lia.
Qed.

(** The monitor's output is sent however long it is. *)
Lemma monitor_output_returns msg s : exists s', gdb_monitor_output msg s = Ok s'.
Proof.
  unfold gdb_monitor_output, memtohex. rewrite (proj2 (Nat.ltb_lt _ _)); [by eexists|].
  rewrite length_take. change (MAX_PACKET_LENGTH / 2 - 1)%nat with (Z.to_nat 2047). unfold MAX_PACKET_LENGTH. lia.
Qed.

Lemma monitor_write_returns fuel p s : (length p < fuel)%nat -> exists x, gdb_monitor_write fuel p s = Ok x.
Proof.
  revert p s; induction fuel as [|f IH]; intros p s H; [lia|]. cbn [gdb_monitor_write]. cbv zeta.
  change ((MAX_PACKET_LENGTH + 4 - 2) / 2)%nat with (Z.to_nat 2049).
  destruct (Nat.leb_spec (length p) (Z.to_nat 2049)) as [Hle|Hgt].
  - destruct (monitor_output_returns p s) as (s' & ->). by eexists.
  - destruct (monitor_output_returns (take (Z.to_nat 2049) p) s) as (s' & ->). cbn [obind]. apply IH. rewrite length_drop. lia.
Qed.
