(* ===== verification/GdbFrame.v ===== *)
(** * Packets

    The receiver takes a text framed with its checksum to the handler and
    refuses any other checksum; what the stub sends is framed as it expects.
    Memory written by the debugger is the memory it reads back and the memory
    the program runs in; a single step executes one instruction. *)

From stdpp Require Import base numbers list option strings gmap.
From Stdlib Require Import ZArith Lia.
From S2P Require Import Prelude Words Bignum BignumSpec BignumHeap BignumStr Cpu Mmu Gdb GuestMem Loader Helpers Translate TraceFilter TranslateSpec Evm EvmSpec RunSpec TbCache TbCacheSpec TbPages TbInvalidate Debug GdbStub GdbSpec.

Section Packets.
Context (g : tcg) `{!TcgLimits g, !FlatCode g} (room : Z -> nat -> bool) (end_pc : Z) (other : Z -> bool).
Abbreviation vm_ok := (vm_ok g room end_pc).
Abbreviation stub_ok := (stub_ok g room end_pc).

(** ** Framing *)

(** The receiver waits for a command. *)
Definition idle (s : stub) : Prop := state (gs s) = RS_IDLE /\ runstate_is_running (sv s) = false.

(** [line_buf] with a line in it: what was behind it is still there. *)
Definition line_of (t buf : list Z) : list Z := t ++ 0 :: drop (S (length t)) buf.

(** The state in which the handler is called, or not. *)
Definition received (t : list Z) (csum : Z) (s : stub) : stub :=
  with_gs (fun d => mkGDB RS_CHKSUM2 (line_of t (line_buf d)) (length t) csum [] (query_cpu d) (signal d) (client_connected d)) s.

(** One more character of a line. *)
Lemma typed_char (buf t : list Z) i c : (i < length buf)%nat ->
  take (S i) (<[i := c]> buf) ++ t ++ drop (S i + length t) (<[i := c]> buf) = take i buf ++ c :: t ++ drop (S (i + length t)) buf.
Proof.
  intros Hi. rewrite insert_take_drop by done. assert (length (take i buf ++ [c]) = S i) as Hl by (rewrite length_app, length_take; simpl; lia).
  replace (take i buf ++ c :: drop (S i) buf) with ((take i buf ++ [c]) ++ drop (S i) buf) by (by rewrite <- app_assoc).
  rewrite take_app_length', drop_app_add', drop_drop by done. by rewrite <- app_assoc.
Qed.

Lemma gdb_ext d d' : state d = state d' -> line_buf d = line_buf d' -> line_buf_index d = line_buf_index d' ->
  line_csum d = line_csum d' -> last_packet d = last_packet d' -> query_cpu d = query_cpu d' -> signal d = signal d' ->
  client_connected d = client_connected d' -> d = d'.
Proof. destruct d, d'; cbn; intros; by subst. Qed.

Lemma receive_text stack t rest : forall i s, state (gs s) = RS_GETLINE -> last_packet (gs s) = [] ->
  runstate_is_running (sv s) = false -> line_buf_index (gs s) = i -> length (line_buf (gs s)) = MAX_PACKET_LENGTH ->
  (i + length t <= MAX_PACKET_LENGTH - 1)%nat -> 35 ∉ t ->
  gdb_chr_receive g other stack (t ++ rest) s =
  gdb_chr_receive g other stack rest
    (with_gs (set_line (take i (line_buf (gs s)) ++ t ++ drop (i + length t) (line_buf (gs s))) (i + length t)) s).
Proof.
  induction t as [|c t IH]; intros i s Hs Hl Hr Hi Hb Hlen Ht.
  - cbn [app length]. rewrite Nat.add_0_r, take_drop, <- Hi. f_equal. by destruct s as [[] ? ? ? ? ? ?].
  - cbn [app gdb_chr_receive]. cbn [length] in Hlen. unfold gdb_read_byte, read_char. rewrite Hl, Hr, Hs.
    assert (c <> 35) as Hc by (intros ->; apply Ht; left). rewrite (proj2 (Z.eqb_neq c 35) Hc), Hi.
    rewrite (proj2 (Nat.leb_gt _ _)) by lia. cbn [obind].
    rewrite (IH (S i)); try done; [|cbn; by rewrite length_insert|lia|intros Hc'; apply Ht; by right].
    f_equal. unfold with_gs. cbn [gs sv sent use_cont sstep_flags gdb_syscall_mode to_monitor]. f_equal. unfold set_line. cbn.
    rewrite typed_char by (rewrite Hb; lia). by rewrite <- plus_n_Sm.
Qed.

(** The receiver takes a framed text to the comparison of its checksum. *)
Lemma receive_frame stack t h1 h2 s : stub_ok s -> idle s -> (length t <= MAX_PACKET_LENGTH - 1)%nat -> 35 ∉ t ->
  let csum := Z.lor (Z.shiftl (fromhex h1) 4) (fromhex h2) in
  let s1 := received t csum s in
  gdb_chr_receive g other stack (36 :: t ++ [35; h1; h2]) s =
  if csum =? Z.land (i8_sum t) 0xff then
    let* (st, s2) := gdb_handle_packet g other stack (line_of t (line_buf (gs s))) (put_buffer [43] s1) in
    Ok (with_gs (set_state st) s2)
  else Ok (with_gs (set_state RS_IDLE) (put_buffer [45] s1)).
Proof.
  intros H [Hi Hr] Hl Ht csum s1. destruct H as [_ Hb _ _].
  set (s0 := with_gs (fun d => set_state RS_GETLINE (set_line (line_buf d) 0 (set_last_packet [] d))) s).
  assert (gdb_read_byte g other stack 36 s = Ok s0) as E0.
  { clear -Hi Hr. destruct s as [[st lb li lc [|x lp] qc sg cc] fl uc sm v se mo]; cbn [gs sv state] in Hi, Hr; subst st;
      unfold gdb_read_byte, read_char; cbn [gs sv state last_packet with_gs set_last_packet Z.eqb Pos.eqb negb orb]; by rewrite Hr. }
  cbn [gdb_chr_receive]. rewrite E0. cbn [obind]. rewrite (receive_text stack t [35; h1; h2] 0) by done.
  cbn [take app Nat.add]. change (line_buf (gs s0)) with (line_buf (gs s)).
  set (s2 := with_gs _ s0). cbn [gdb_chr_receive].
  assert (gdb_read_byte g other stack 35 s2 = Ok (with_gs (set_state RS_CHKSUM1) s2)) as ->.
  { unfold gdb_read_byte, read_char, s2, s0. cbn [gs with_gs last_packet set_line set_state set_last_packet sv state]. by rewrite Hr. }
  cbn [obind]. set (s3 := with_gs _ s2).
  assert (gdb_read_byte g other stack h1 s3 = Ok (received t (Z.shiftl (fromhex h1) 4) s)) as ->.
  { unfold gdb_read_byte, read_char, s3, s2, s0. cbn [gs with_gs last_packet set_line set_state set_last_packet sv state]. rewrite Hr.
    f_equal. unfold received, with_gs. f_equal. apply gdb_ext; try reflexivity.
    change (<[length t := 0]> (t ++ drop (length t) (line_buf (gs s))) = line_of t (line_buf (gs s))). rewrite insert_app_r_alt by done. unfold line_of. f_equal. rewrite Nat.sub_diag.
    destruct (lookup_lt_is_Some_2 (line_buf (gs s)) (length t)) as [x Hx]; [rewrite Hb; unfold MAX_PACKET_LENGTH in *; lia|].
    by rewrite (drop_S _ x (length t) Hx). }
  cbn [obind]. set (s4 := received t _ s). unfold gdb_read_byte, read_char.
  change (last_packet (gs s4)) with (@nil Z). change (sv s4) with (sv s). change (state (gs s4)) with RS_CHKSUM2. rewrite Hr. cbv iota zeta.
  change (take (line_buf_index (gs s4)) (line_buf (gs s4))) with (take (length t) (t ++ 0 :: drop (S (length t)) (line_buf (gs s)))).
  rewrite take_app_length. change (line_csum (gs s4)) with (Z.shiftl (fromhex h1) 4). fold csum.
  change (with_gs (set_line_csum csum) s4) with s1. change (line_buf (gs s4)) with (line_of t (line_buf (gs s))).
  destruct (csum =? Z.land (i8_sum t) 255); cbn [negb]; [|done]. by destruct (gdb_handle_packet _ _ _ _ _) as [[st s5]| | |].
Qed.

Lemma tohex_fromhex n : 0 <= n < 16 -> fromhex (tohex n) = n.
Proof.
  revert n. refine (range16 (fun n => fromhex (tohex n) = n) _). intros k Hk. simpl in Hk. by repeat destruct Hk as [<-|Hk].
Qed.

(** The checksum the stub sends is the one it expects. *)
Lemma checksum_digits n :
  Z.lor (Z.shiftl (fromhex (tohex (Z.land (Z.shiftr n 4) 0xf))) 4) (fromhex (tohex (Z.land n 0xf))) = Z.land n 0xff.
Proof.
  change 0xf with (Z.ones 4). change 0xff with (Z.ones 8). rewrite !tohex_fromhex by (rewrite Z.land_ones by lia; apply Z.mod_pos_bound; lia).
  apply Z.bits_inj'. intros i Hi. rewrite Z.lor_spec, !Z.land_spec, Z.shiftl_spec, Z.land_spec by lia.
  destruct (Z.lt_ge_cases i 4).
  - rewrite !(Z.testbit_neg_r _ (i - 4)), !Z.ones_spec_low by lia. done.
  - rewrite Z.shiftr_spec, Z.sub_add, (Z.ones_spec_high 4 i), andb_false_r, orb_false_r by lia. f_equal.
    rewrite !Z.testbit_ones_nonneg by lia. destruct (Z.ltb_spec (i - 4) 4), (Z.ltb_spec i 8); lia.
Qed.

(** A packet as the stub itself would send it is accepted. *)
Lemma receive_packet stack t s : stub_ok s -> idle s -> (length t <= MAX_PACKET_LENGTH - 1)%nat -> 35 ∉ t ->
  gdb_chr_receive g other stack (packet t) s =
  let* (st, s2) := gdb_handle_packet g other stack (line_of t (line_buf (gs s)))
                     (put_buffer [43] (received t (Z.land (i8_sum t) 0xff) s)) in
  Ok (with_gs (set_state st) s2).
Proof. intros H Hi Hl Ht. unfold packet. rewrite receive_frame by done. cbv zeta. by rewrite checksum_digits, Z.eqb_refl. Qed.

(** ** Numbers and data in commands *)

Definition number (n : Z) : list Z := fmt_x hexdig 0 n.
Definition hex_of (mem : list Z) : list Z := flat_map (fun c => [tohex (Z.shiftr c 4); tohex (Z.land c 0xf)]) mem.

Lemma number_digits n : number n = hex_digits 16 hexdig n.
Proof. done. Qed.

Lemma scan_number f n rest : 0 <= n < 16 ^ Z.of_nat (S f) ->
  scan_hex 0 (hex_digits f hexdig n ++ rest) = scan_hex n rest.
Proof.
  revert n rest; induction f as [|f IH]; intros n rest Hn; cbn [hex_digits].
  - change (16 ^ Z.of_nat 1) with 16 in Hn. rewrite Z.mod_small by lia. destruct (hexdig_good n) as [H1 H2]; [lia|].
    cbn [app scan_hex]. by rewrite H1, H2.
  - rewrite Nat2Z.inj_succ, Z.pow_succ_r in Hn by lia. destruct (Z.ltb_spec n 16).
    + destruct (hexdig_good n) as [H1 H2]; [lia|]. cbn [app scan_hex]. by rewrite H1, H2.
    + rewrite <- app_assoc, IH by (split; [dm|]; apply Z.div_lt_upper_bound; lia). cbn [app scan_hex].
      destruct (hexdig_good (n mod 16)) as [H1 H2]; [dm|]. rewrite H1, H2. f_equal. dm.
Qed.

Lemma hex_digits_xdigit f n : 0 <= n -> Forall (fun c => isxdigit c = true) (hex_digits f hexdig n).
Proof.
  revert n; induction f as [|f IH]; intros n Hn; cbn [hex_digits].
  - constructor; [apply hexdig_good; dm|constructor].
  - destruct (Z.ltb_spec n 16); [constructor; [apply hexdig_good; lia|constructor]|].
    apply Forall_app_2; [apply IH; dm|]. constructor; [apply hexdig_good; dm|constructor].
Qed.

Lemma hex_digits_cons f n : exists d l, hex_digits f hexdig n = d :: l.
Proof.
  revert n; induction f as [|f IH]; intros n; cbn [hex_digits]; [by eexists _, _|]. destruct (_ <? _); [by eexists _, _|].
  destruct (IH (n / 16)) as (d & l & ->). by eexists _, _.
Qed.

Lemma isxdigit_range c : isxdigit c = true -> 48 <= c <= 57 \/ 65 <= c <= 70 \/ 97 <= c <= 102.
Proof. unfold isxdigit, isdigit. lia. Qed.

(** A number is read back, up to what ends it. *)
Lemma strtoull_number n c rest : is_u64 n -> isxdigit c = false -> tolower c <> 120 ->
  strtoull (number n ++ c :: rest) = (n, c :: rest).
Proof.
  intros Hn Hc Hx. unfold is_u64 in Hn. rewrite number_digits. unfold strtoull.
  set (ds := hex_digits 16 hexdig n). assert (scan_hex 0 (ds ++ c :: rest) = (n, c :: rest)) as Escan.
  { unfold ds. rewrite scan_number by (change (16 ^ Z.of_nat 17) with (2 ^ 68); lia). cbn [scan_hex]. by rewrite Hc. }
  pose proof (hex_digits_xdigit 16 n ltac:(lia)) as Hd. fold ds in Hd. destruct (hex_digits_cons 16 n) as (d & l & E). fold ds in E.
  clearbody ds. subst ds. cbn [app] in *. apply Forall_cons in Hd as [Hd Hl]. pose proof (isxdigit_range d Hd) as Hr.
  assert (skip_space (d :: l ++ c :: rest) = d :: l ++ c :: rest) as ->.
  { cbn [skip_space]. unfold is_space. rewrite (proj2 (Z.eqb_neq d 32)) by lia. cbn [orb].
    destruct (Z.leb_spec 9 d), (Z.leb_spec d 13); try done. lia. }
  cbn [hd]. rewrite (proj2 (Z.eqb_neq d 45)), (proj2 (Z.eqb_neq d 43)) by lia.
  assert ((tolower (nth 1 (d :: l ++ c :: rest) 0) =? 120) = false) as ->.
  { apply Z.eqb_neq. destruct l as [|d' l]; cbn [app nth]; [done|]. apply Forall_cons in Hl as [Hd' _].
    pose proof (isxdigit_range d' Hd'). unfold tolower. destruct (_ && _) eqn:Et; lia. }
  rewrite andb_false_r. cbn [andb hd]. rewrite Hd, Escan. by rewrite (proj2 (Z.leb_gt _ _)) by lia.
Qed.

Lemma hextomem_hex data rest : Forall is_u8 data -> hextomem (hex_of data ++ rest) (length data) = Ok data.
Proof.
  induction 1 as [|b data Hb H IH]; [done|]. cbn [hex_of flat_map app length hextomem]. fold (hex_of data). rewrite IH. cbn [obind].
  do 2 f_equal. unfold is_u8 in Hb. assert (0 <= Z.shiftr b 4 < 16) as H4 by (rewrite Z.shiftr_div_pow2 by lia; change (2 ^ 4) with 16; dm).
  assert (0 <= Z.land b 0xf < 16) as H0 by (change 0xf with (Z.ones 4); rewrite Z.land_ones by lia; apply Z.mod_pos_bound; lia).
  rewrite !tohex_fromhex by done.
  assert (Z.lor (Z.shiftl (Z.shiftr b 4) 4) (Z.land b 15) = b) as ->; [|apply u8_id; exact Hb].
  change 15 with (Z.ones 4). apply Z.bits_inj'. intros i Hi. rewrite Z.lor_spec, Z.land_spec, Z.shiftl_spec by lia.
  destruct (Z.lt_ge_cases i 4); [by rewrite Z.testbit_neg_r, Z.ones_spec_low, andb_true_r by lia|].
  by rewrite Z.shiftr_spec, Z.sub_add, (Z.ones_spec_high 4 i), andb_false_r, orb_false_r by lia.
Qed.

Lemma cstr_app t rest : Forall (fun c => c <> 0) t -> cstr (t ++ 0 :: rest) = t.
Proof. induction 1 as [|c t Hc H IH]; [done|]. cbn [app cstr]. by rewrite (proj2 (Z.eqb_neq _ _) Hc), IH. Qed.
Lemma cstr_all t : Forall (fun c => c <> 0) t -> cstr t = t.
Proof. induction 1 as [|c t Hc H IH]; [done|]. cbn [cstr]. by rewrite (proj2 (Z.eqb_neq _ _) Hc), IH. Qed.

Lemma tohex_range n : 0 <= n < 16 -> 48 <= tohex n <= 102.
Proof. intros H. unfold tohex. destruct (Z.ltb_spec n 10); lia. Qed.

Lemma hex_of_range data : Forall is_u8 data -> Forall (fun c => 48 <= c <= 102) (hex_of data).
Proof.
  induction 1 as [|b data Hb H IH]; [constructor|]. cbn [hex_of flat_map app]. unfold is_u8 in Hb.
  constructor; [|constructor; [|exact IH]]; apply tohex_range.
  - rewrite Z.shiftr_div_pow2 by lia. change (2 ^ 4) with 16. dm.
  - change 0xf with (Z.ones 4). rewrite Z.land_ones by lia. apply Z.mod_pos_bound. lia.
Qed.

Lemma number_range n : 0 <= n -> Forall (fun c => 48 <= c <= 102) (number n).
Proof.
  intros Hn. eapply Forall_impl; [by apply (hex_digits_xdigit 16)|]. intros c Hc%isxdigit_range. lia.
Qed.

Lemma hex_of_length data : length (hex_of data) = (2 * length data)%nat.
Proof. induction data as [|b data IH]; [done|]. cbn [hex_of flat_map app length]. fold (hex_of data). rewrite IH. lia. Qed.

Lemma number_length n : (length (number n) <= 17)%nat.
Proof.
  rewrite number_digits. assert (forall f, (length (hex_digits f hexdig n) <= S f)%nat) as H; [|apply H].
  intros f. revert n. induction f as [|f IH]; intros m; cbn [hex_digits length]; [lia|]. destruct (_ <? _); [cbn; lia|].
  rewrite length_app. specialize (IH (m / 16)). cbn [length]. lia.
Qed.

(** ** Memory round trip *)

(** [M addr,len:data] and [m addr,len] *)
Definition write_text (addr : Z) (data : list Z) : list Z :=
  77 :: number addr ++ 44 :: number (Z.of_nat (length data)) ++ 58 :: hex_of data.
Definition read_text (addr len : Z) : list Z := 109 :: number addr ++ 44 :: number len.

(** A range in RAM, within one page. *)
Record in_page (addr : Z) (len : nat) (s : stub) : Prop := mkInPage {
  ip_addr : is_u64 addr;
  ip_len : (0 < len)%nat;
  ip_page : debug_addr addr mod 256 + Z.of_nat len <= 256;
  ip_ram : debug_addr addr + Z.of_nat len <= ram_size (ram (mc (sv s)))
}.

Lemma in_page_small addr len s : in_page addr len s -> (len <= 256)%nat.
Proof. intros []. pose proof (Z.mod_pos_bound (debug_addr addr) 256). lia. Qed.

Lemma i32_small n : (n <= 256)%nat -> i32 (Z.of_nat n) = Z.of_nat n.
Proof. intros. unfold i32. rewrite Z.mod_small; lia. Qed.

Lemma skip_here c p : skip_char c (c :: p) = p.
Proof. unfold skip_char. cbn [hd]. by rewrite Z.eqb_refl. Qed.

Lemma write_command stack addr data rest s : length stack = MAX_PACKET_LENGTH -> vm_ok (sv s) -> Forall is_u8 data ->
  in_page addr (length data) s ->
  exists v', cmd_write_memory other stack (number addr ++ 44 :: number (Z.of_nat (length data)) ++ 58 :: hex_of data ++ rest) s =
    Ok (reply "OK" (set_sv v' s)) /\ vm_ok v' /\ stored (write_rom (debug_addr addr) data (ram (mc (sv s)))) (sv s) v'.
Proof.
  intros Hst Hv Hd Hp. pose proof (in_page_small _ _ _ Hp) as H256. destruct Hp. unfold cmd_write_memory.
  rewrite strtoull_number by done. rewrite skip_here.
  rewrite strtoull_number by (done || unfold is_u64; lia). rewrite skip_here.
  rewrite i32_small, Nat2Z.id, hextomem_hex by done. cbn [obind]. unfold mem_buf_with.
  rewrite (proj2 (Nat.leb_le _ _)) by (unfold MAX_PACKET_LENGTH; lia). cbn [obind].
  destruct (rw_debug_write g room end_pc other addr (data ++ drop (length data) stack) (Z.of_nat (length data)) (sv s)) as (v' & -> & Hv' & Hs);
    [done|lia|done|rewrite length_app; lia|].
  rewrite Nat2Z.id, take_app_length in Hs. cbn [obind]. by exists v'.
Qed.

Lemma read_command stack addr len rest s : length stack = MAX_PACKET_LENGTH -> vm_ok (sv s) -> in_page addr len s ->
  cmd_read_memory other stack (number addr ++ 44 :: number (Z.of_nat len) ++ 0 :: rest) s =
  Ok (put_packet (hex_of (address_space_read (debug_addr addr) len (sv s))) s).
Proof.
  intros Hst Hv Hp. pose proof (in_page_small _ _ _ Hp) as H256. destruct Hp. unfold cmd_read_memory.
  rewrite strtoull_number by done. rewrite skip_here.
  rewrite strtoull_number by (done || unfold is_u64; lia). cbn [fst].
  rewrite i32_small, (rw_debug_read g room end_pc) by (done || lia || (rewrite Hst; unfold MAX_PACKET_LENGTH; lia)). cbn [obind negb Z.eqb]. rewrite Nat2Z.id.
  assert (length (address_space_read (debug_addr addr) len (sv s)) = len) as El by (unfold address_space_read; by rewrite length_map, length_seq).
  rewrite take_app_le, take_ge by lia. unfold memtohex. rewrite (proj2 (Nat.ltb_lt _ _)) by (rewrite El; unfold MAX_PACKET_LENGTH; lia).
  cbn [obind]. by destruct s.
Qed.

(** Text that the receiver takes as it is. *)
Lemma text_plain t : Forall (fun c => c = 44 \/ c = 58 \/ 48 <= c <= 109) t -> 35 ∉ t.
Proof. intros H Hi. rewrite Forall_forall in H. specialize (H _ Hi). lia. Qed.

Lemma plain_hex l : Forall (fun c => 48 <= c <= 102) l -> Forall (fun c => c = 44 \/ c = 58 \/ 48 <= c <= 109) l.
Proof. intros H. eapply Forall_impl; [exact H|]. intros c Hc. cbn in Hc. lia. Qed.
Lemma hex_nonzero l : Forall (fun c => 48 <= c <= 102) l -> Forall (fun c => c <> 0) l.
Proof. intros H. eapply Forall_impl; [exact H|]. intros c Hc. cbn in Hc. lia. Qed.

Lemma write_text_ok addr data : 0 <= addr -> Forall is_u8 data -> (length data <= 256)%nat ->
  (length (write_text addr data) <= MAX_PACKET_LENGTH - 1)%nat /\ 35 ∉ write_text addr data.
Proof.
  intros Ha Hd Hl. split.
  - unfold write_text. cbn [length]. rewrite !length_app. cbn [length]. rewrite length_app. cbn [length]. rewrite hex_of_length.
    pose proof (number_length addr). pose proof (number_length (Z.of_nat (length data))). unfold MAX_PACKET_LENGTH. lia.
  - apply text_plain. unfold write_text. constructor; [lia|]. apply Forall_app_2; [by apply plain_hex, number_range|].
    constructor; [lia|]. apply Forall_app_2; [apply plain_hex, number_range; lia|].
    constructor; [lia|]. by apply plain_hex, hex_of_range.
Qed.

Lemma read_text_ok addr len : 0 <= addr -> 0 <= len ->
  (length (read_text addr len) <= MAX_PACKET_LENGTH - 1)%nat /\ 35 ∉ read_text addr len.
Proof.
  intros Ha Hl. split.
  - unfold read_text. cbn [length]. rewrite !length_app. cbn [length]. pose proof (number_length addr). pose proof (number_length len).
    unfold MAX_PACKET_LENGTH. lia.
  - apply text_plain. unfold read_text. constructor; [lia|]. apply Forall_app_2; [by apply plain_hex, number_range|].
    constructor; [lia|]. by apply plain_hex, number_range.
Qed.

(** The handler of the two commands. *)
Lemma handle_write stack addr data buf s :
  gdb_handle_packet g other stack (line_of (write_text addr data) buf) s =
  let* s := cmd_write_memory other stack (number addr ++ 44 :: number (Z.of_nat (length data)) ++ 58 :: hex_of data ++
              0 :: drop (S (length (write_text addr data))) buf) s in Ok (RS_IDLE, s).
Proof.
  unfold gdb_handle_packet, line_of. set (k := drop _ _).
  assert (tl (write_text addr data ++ 0 :: k) = number addr ++ 44 :: number (Z.of_nat (length data)) ++ 58 :: hex_of data ++ 0 :: k) as ->; [|done].
  unfold write_text. cbn [app tl]. rewrite <- app_assoc. cbn [app]. by rewrite <- app_assoc.
Qed.

Lemma handle_read stack addr len buf s :
  gdb_handle_packet g other stack (line_of (read_text addr len) buf) s =
  let* s := cmd_read_memory other stack (number addr ++ 44 :: number len ++ 0 :: drop (S (length (read_text addr len))) buf) s in
  Ok (RS_IDLE, s).
Proof.
  unfold gdb_handle_packet, line_of. set (k := drop _ _).
  assert (tl (read_text addr len ++ 0 :: k) = number addr ++ 44 :: number len ++ 0 :: k) as ->; [|done].
  unfold read_text. cbn [app tl]. by rewrite <- app_assoc.
Qed.

Lemma write_packet stack addr data s : length stack = MAX_PACKET_LENGTH -> stub_ok s -> idle s -> Forall is_u8 data ->
  in_page addr (length data) s ->
  exists s', gdb_chr_receive g other stack (packet (write_text addr data)) s = Ok s' /\ stub_ok s' /\ idle s' /\
    sent s' = sent s ++ [43] ++ packet (codes "OK") /\ last_packet (gs s') = packet (codes "OK") /\
    stored (write_rom (debug_addr addr) data (ram (mc (sv s)))) (sv s) (sv s').
Proof.
  intros Hst H Hi Hd Hp. destruct (write_text_ok addr data (proj1 (ip_addr _ _ _ Hp)) Hd (in_page_small _ _ _ Hp)) as [Hl Ht].
  pose proof (receive_ok g room end_pc other stack (packet (write_text addr data)) s H) as Hok. rewrite receive_packet in Hok |- * by done.
  set (s1 := put_buffer [43] _) in *. rewrite handle_write in Hok |- *.
  destruct (write_command stack addr data (0 :: drop (S (length (write_text addr data))) (line_buf (gs s))) s1 Hst) as (v' & E & Hv' & Hs);
    [apply H|done|by destruct Hp|].
  rewrite E in Hok |- *. cbn [obind] in Hok |- *. eexists. split; [reflexivity|]. split; [exact Hok|].
  split; [split; [done|]; unfold runstate_is_running, runstate_check;
    cbn [reply put_packet put_packet_binary put_buffer sv with_gs set_sv]; rewrite (st_run _ _ _ Hs); apply Hi|].
  split; [|split; [done|exact Hs]]. cbn [reply put_packet put_packet_binary put_buffer sent with_gs set_sv s1]. by rewrite <- app_assoc.
Qed.

Lemma read_packet stack addr len s : length stack = MAX_PACKET_LENGTH -> stub_ok s -> idle s -> in_page addr len s ->
  Forall is_u8 (address_space_read (debug_addr addr) len (sv s)) -> last_packet (gs s) <> [] ->
  exists s', gdb_chr_receive g other stack (43 :: packet (read_text addr (Z.of_nat len))) s = Ok s' /\ stub_ok s' /\ idle s' /\
    sent s' = sent s ++ [43] ++ packet (hex_of (address_space_read (debug_addr addr) len (sv s))) /\ sv s' = sv s.
Proof.
  intros Hst H Hi Hp Hu Hlast. destruct (read_text_ok addr (Z.of_nat len) (proj1 (ip_addr _ _ _ Hp)) ltac:(lia)) as [Hl Ht].
  set (s0 := with_gs (set_last_packet []) s).
  assert (gdb_read_byte g other stack 43 s = Ok s0) as E0 by (unfold gdb_read_byte; by destruct (last_packet (gs s))).
  cbn [gdb_chr_receive]. rewrite E0. cbn [obind].
  assert (stub_ok s0) as H0 by (destruct H; by split).
  pose proof (receive_ok g room end_pc other stack (packet (read_text addr (Z.of_nat len))) s0 H0) as Hok.
  rewrite receive_packet in Hok |- * by done.
  set (s1 := put_buffer [43] _) in *. rewrite handle_read, read_command in Hok |- *; [|done|apply H|by destruct Hp|done|apply H|by destruct Hp].
  cbn [obind] in Hok |- *. eexists. split; [reflexivity|]. split; [exact Hok|]. split; [split; [done|apply Hi]|]. split; [|done].
  unfold put_packet. change (sv s1) with (sv s).
  rewrite cstr_all by (by apply hex_nonzero, hex_of_range).
  cbn [put_packet_binary put_buffer sent with_gs set_sv s1]. by rewrite <- app_assoc.
Qed.

(** ** Single stepping *)

(** Translation in single-step mode gives blocks of one instruction. *)
Lemma gen_single e r p c l npc ch : gen_intermediate_code (fun _ => false) e r p c = Ok (l, npc, ch) -> exists i, l = [i].
Proof.
  unfold gen_intermediate_code. generalize 256%nat. intros f. cbn [gen_loop]. intros H. apply obind_ok in H as ([insn np] & _ & H).
  destruct (np =? e); [inv_ok; by eexists|]. cbn [andb] in H. inv_ok. by eexists.
Qed.

(** The step command leaves the machine running in single-step mode. *)
Lemma step_packet stack s : stub_ok s -> idle s ->
  current_run_state (sv s) = RUN_STATE_PAUSED \/ current_run_state (sv s) = RUN_STATE_DEBUG ->
  exists s', gdb_chr_receive g other stack (packet [115]) s = Ok s' /\ stub_ok s' /\ mc (sv s') = mc (sv s) /\
    current_run_state (sv s') = RUN_STATE_RUNNING /\ singlestep_enabled (cs (sv s')) = sstep_flags s /\
    watchpoint_hit (cs (sv s')) = watchpoint_hit (cs (sv s)) /\ sent s' = sent s ++ [43] /\ state (gs s') = RS_IDLE.
Proof.
  intros H Hi Hrun. pose proof (receive_ok g room end_pc other stack (packet [115]) s H) as Hok.
  rewrite receive_packet in Hok |- *; [|done|done|unfold MAX_PACKET_LENGTH; cbn [length]; lia|set_solver..|
    done|done|unfold MAX_PACKET_LENGTH; cbn [length]; lia|set_solver].
  set (s1 := put_buffer [43] _) in *. unfold gdb_handle_packet in Hok |- *. cbn [line_of app hd tl] in Hok |- *.
  unfold cmd_step, cmd_pc in Hok |- *. cbn [hd Z.eqb negb] in Hok |- *. unfold on_vm in Hok |- *.
  change (sv s1) with (sv s) in Hok |- *. change (sstep_flags s1) with (sstep_flags s) in Hok |- *.
  destruct (single_step_ok g room end_pc (sstep_flags s) (sv s) (so_vm _ _ _ _ H)) as (v & E & Hv & Hs & Hm & Hr & _ & Hw).
  rewrite E in Hok |- *. cbn [obind] in Hok |- *. unfold gdb_continue, vm_start, runstate_needs_reset, runstate_is_running, runstate_check in Hok |- *.
  cbn [sv set_sv] in Hok |- *. rewrite Hr in Hok |- *. unfold on_vm, runstate_set in Hok |- *. cbn [sv set_sv] in Hok |- *. rewrite Hr in Hok |- *.
  destruct Hrun as [Hrun|Hrun]; rewrite Hrun in Hok |- *; cbn in Hok |- *; eexists; (split; [reflexivity|]); split; [exact Hok|done|exact Hok|done].
Qed.

Lemma vm_stop_debug s : vm_ok (sv s) -> current_run_state (sv s) = RUN_STATE_RUNNING -> state (gs s) <> RS_INACTIVE ->
  watchpoint_hit (cs (sv s)) = None ->
  exists v, vm_stop g RUN_STATE_DEBUG s = Ok (set_sv v (put_packet (stop_text 5) s)) /\ vm_ok v /\ mc v = mc (sv s) /\
    current_run_state v = RUN_STATE_DEBUG /\ singlestep_enabled (cs v) = 0.
Proof.
  intros Hv Hr Hs Hw. unfold vm_stop, runstate_is_running, runstate_check. rewrite Hr. cbn [bool_decide decide_rel RunState_eq_dec].
  unfold on_vm, runstate_set. rewrite Hr. rewrite !bool_decide_true by (done || (vm_compute; set_solver)). cbn [obind].
  unfold gdb_vm_state_change. cbn [gs set_sv sv]. rewrite (bool_decide_false _ Hs). cbn [orb]. rewrite bool_decide_true by done.
  cbn [cs set_run_state]. rewrite Hw. unfold on_vm. cbn [sv set_sv].
  assert (vm_ok (set_run_state RUN_STATE_DEBUG (sv s))) as Hv1 by (by apply (vm_ok_ext g room end_pc (sv s))).
  destruct (flush_ok g room end_pc _ Hv1) as (v2 & -> & Hv2 & c & ->). cbn [obind stop_signal].
  change (sv (put_packet (stop_text 5) (set_sv (set_tc c (set_run_state RUN_STATE_DEBUG (sv s))) (set_sv (set_run_state RUN_STATE_DEBUG (sv s)) s))))
    with (set_tc c (set_run_state RUN_STATE_DEBUG (sv s))).
  destruct (single_step_ok g room end_pc 0 _ Hv2) as (v & -> & Hv3 & Hs3 & Hm3 & Hr3 & _ & _). cbn [obind].
  exists v. split_and!; [done|done|by rewrite Hm3|by rewrite Hr3|done].
Qed.

Lemma step_pages rm over flags m c l dc ch m' c' : cache_ok g rm end_pc (ram m) c -> pages_ok g c -> changed_pc m = 0 ->
  gen_intermediate_code (rm (env_pc (cpu m))) end_pc (ram m) (env_pc (cpu m)) 0 = Ok (l, dc, ch) ->
  cpu_exec_step g rm over end_pc flags m c = Ok (m', c') -> pages_ok g c'.
Proof.
  intros Hc Hp H0 Hg H. unfold cpu_exec_step in H. apply obind_ok in H as ([[i c1] v] & E & H). apply obind_ok in H as (m1 & _ & H).
  injection H as _ <-. pose proof (tb_find_fast_pages g rm end_pc flags m c l dc ch i c1 v Hc Hp H0 Hg E) as Hp1.
  destruct (negb _); [|exact Hp1]. by apply (same_pages_ok g c1).
Qed.

(** A round in single-step mode, when the instruction goes through. *)
Lemma debug_round_ok over flags s l npc ch : stub_ok s -> current_run_state (sv s) = RUN_STATE_RUNNING ->
  singlestep_enabled (cs (sv s)) <> 0 -> watchpoint_hit (cs (sv s)) = None -> state (gs s) <> RS_INACTIVE ->
  let m := mc (sv s) in
  changed_pc m = 0 -> gen_intermediate_code (fun _ => false) end_pc (ram m) (env_pc (cpu m)) 0 = Ok (l, npc, ch) ->
  exists v, (v = ch \/ v = 0) /\
  match exec_code over l npc (set_changed_pc v m) with
  | Ok m' => exists s', debug_round g room over end_pc flags s = Ok s' /\ stub_ok s' /\ mc (sv s') = m' /\
      current_run_state (sv s') = RUN_STATE_DEBUG /\ singlestep_enabled (cs (sv s')) = 0 /\
      sent s' = sent s ++ packet (stop_text 5) /\ state (gs s') = state (gs s)
  | Exit c o => debug_round g room over end_pc flags s = Exit c o
  | _ => True
  end.
Proof.
  intros H Hr Hs Hw Hst m H0 Hg. pose proof (so_vm _ _ _ _ H) as Hv. pose proof (vo_cache _ _ _ _ Hv) as Hc. fold m in Hc.
  assert (step_room room (sv s) = fun _ _ => false) as Esr by (unfold step_room; by rewrite (proj2 (Z.eqb_neq _ _) Hs)).
  rewrite Esr in Hc. destruct (cpu_exec_step_ok g (fun _ _ => false) over end_pc flags m (tc (sv s)) l npc ch Hc H0 Hg) as (v & c' & Hvv & Hc' & E).
  exists v. split; [exact Hvv|]. unfold debug_round. rewrite Esr. fold m. rewrite E.
  destruct (exec_code over l npc (set_changed_pc v m)) as [m'|co o| |] eqn:Ee; [|done..]. cbn [obind] in E |- *.
  pose proof (exec_code_fixed over _ _ _ _ (gen_loop_u8 _ _ _ _ _ _ _ _ _ _ _ _ Hg) Ee) as [_ Fr]. cbn [ram set_changed_pc] in Fr.
  pose proof (step_pages _ _ _ _ _ _ _ _ _ _ Hc (vo_pages _ _ _ _ Hv) H0 Hg E) as Hp'.
  set (v1 := cpu_handle_debug_exception _).
  assert (singlestep_enabled (cs v1) = singlestep_enabled (cs (sv s)) /\ mc v1 = m' /\ tc v1 = c' /\ mm v1 = mm (sv s) /\
    current_run_state v1 = current_run_state (sv s) /\ watchpoint_hit (cs v1) = None) as (E1 & E2 & E3 & E4 & E5 & E6).
  { unfold v1, cpu_handle_debug_exception. cbn [cs set_tc set_mc]. rewrite Hw. done. }
  clearbody v1. assert (vm_ok v1) as Hv1.
  { split; rewrite ?E2, ?E3, ?E4; [|exact Hp'|apply Hv|rewrite Fr; apply Hv]. unfold step_room. rewrite E1, (proj2 (Z.eqb_neq _ _) Hs), Fr. exact Hc'. }
  destruct (vm_stop_debug (set_sv v1 s) Hv1) as (v2 & -> & Hv2 & Hm2 & Hr2 & Hs2); [cbn; by rewrite E5|done|done|].
  eexists. split; [reflexivity|]. split; [destruct H; by split|]. cbn [sv set_sv] in *. by rewrite Hm2, E2.
Qed.
End Packets.

(** ** One step of the abstract machine *)

(** A block of one instruction, with any value of [changed_pc]. *)
Lemma single_refines env code over m x r : let e := Z.of_nat (length code) in
  models env code m x -> is_pc_const_changed (cpu m) = 0 -> jump_free (ram m) -> e + TARGET_PAGE_SIZE <= ram_size (ram m) ->
  estep env code x = Some r ->
  exists l npc ch, gen_intermediate_code (fun _ => false) e (ram m) (env_pc (cpu m)) 0 = Ok (l, npc, ch) /\
  forall v, match r with
            | Next x' => exists m', exec_code over l npc (set_changed_pc v m) = Ok m' /\ models env code m' x'
            | Halt c o => exec_code over l npc (set_changed_pc v m) = Exit c o
            end.
Proof.
  intros e Hm Hf Hj Hram Hstep. assert (e_pc x < e) as Hpc.
  { unfold estep in Hstep. destruct (code !! Z.to_nat (e_pc x)) eqn:El; [|done]. apply lookup_lt_Some in El. unfold e.
    destruct (mo_pc _ _ _ _ Hm). lia. }
  destruct (models_pc_range env code m x Hm Hpc) as [_ R]. destruct (mo_pc _ _ _ _ Hm) as [Hp _].
  destruct (mo_code _ _ _ _ Hm) as (Ecode & Hu & _ & _). rewrite <- Ecode in Hu.
  assert (env_pc (cpu m) = pc (cpu m)) as -> by (unfold env_pc; apply u32_id; unfold is_u32; lia).
  destruct (gen_intermediate_code_total (fun _ => false) e (ram m) (pc (cpu m)) 0) as (l & npc & ch & Hg & _).
  { lia. } { rewrite Hp. unfold page_start, TARGET_PAGE_SIZE in *. dm. }
  exists l, npc, ch. split; [done|]. intros v. destruct (gen_loop_jump_free _ _ _ _ _ _ _ _ _ _ _ _ Hj Hu Hg) as [Hl _].
  rewrite (exec_code_seq (fun _ => false) over e m l npc ch v) by (first [done | rewrite Hp; lia]).
  destruct (gen_single _ _ _ _ _ _ _ Hg) as [i ->].
  assert (repeats_last e npc [i] = false) as ->.
  { unfold repeats_last, has_push, last_push. cbn. destruct (npc =? e), (is_push (ti_insn i)); done. }
  cbn [length seq_run]. assert (models env code (set_changed_pc v m) x) as Hm0 by (by apply models_changed).
  destruct r as [x'|c o].
  - destruct (step_refines env code over _ _ _ Hm0 Hstep) as (m1 & E & Hm1). rewrite E. cbn [obind].
    eexists. split; [reflexivity|]. apply models_tb_exit; [done|].
    pose proof (page_bounds _ R) as [B1 B2]. rewrite <- Hp in B1, B2.
    destruct (gen_loop_next over _ _ _ _ _ _ _ _ _ _ _ (set_changed_pc v m) m1 Hg) as (N1 & _ & _); try done.
    cbn [length seq_run]. by rewrite E.
  - by rewrite (halt_refines env code over _ _ _ _ Hm0 Hstep).
Qed.
