(* ===== verification/Board.v ===== *)
(** * The board: from an image file to a running program

    [ppdl_init] of [hw/ppdl/ppdl.c], the CPU's realisation and reset of
    [target-ppdl/cpu.c], and the start of [vl.c]: the machine is initialised,
    the images are checked, and a system reset runs the registered handlers,
    the CPU's and then the loader's. *)

From stdpp Require Import base numbers list option strings gmap.
From Stdlib Require Import ZArith Lia.
From S2P Require Import Prelude Words Bignum BignumSpec BignumHeap BignumStr Cpu Arithm ArithmSpec Storage GuestMem Loader Elf Uboot ElfSpec Helpers HelpersSpec MemSpec PushSpec Keccak KeccakSpec Translate TranslateSpec Evm EvmSpec RunSpec TbCache TbCacheSpec.

(** The machine, the loader's state and the globals [elf_entry] and
    [syminfos]. *)
Record board := mkBoard { bm : machine; ldr : loader; elf_entry : Z; syminfos : list syminfo }.

Definition KERNEL_LOAD_ADDR : Z := 0.
Definition ELF_MACHINE : Z := EM_PPDL.

(** [cpu_reset]: [ppdl_cpu_reset] clears nothing ([tlb] is the first field of
    the state) and runs [RESET]. *)
Definition cpu_reset (gas : Z) (b : board) : outcome board :=
  let* m := RESET (elf_entry b) gas (end_pc (ldr b)) (bm b) in
  Ok (mkBoard m (ldr b) (elf_entry b) (syminfos b)).

Definition main_cpu_reset := cpu_reset.
Definition ppdl_cpu_realizefn := cpu_reset.

Section Board.

Context (h : host).

(** The debugger and the ELF files of this target count in words. *)
Definition translate_kaddr (addr : Z) : Z := u64 (addr * 4).

(** The image: as ELF, as U-Boot image, as plain image, in this order.  [entry]
    is [None] while it is unset. *)
Definition load_kernel (f : option image) (load_addr ramsize : Z) (b : board) : outcome board :=
  let* r := load_elf h f (Some translate_kaddr) false ELF_MACHINE true (ldr b) (syminfos b) in
  let* (kernel_size, entry, s, out) :=
    if er_ret r <? 0 then
      let* u := load_uimage h f (er_loader r) in
      Ok (ui_ret u, match ui_ep u with Some e => Some e | None => er_entry r end, ui_loader u, ui_out u)
    else Ok (er_ret r, er_entry r, er_loader r, []) in
  let m := print out (bm b) in
  let* (kernel_size, entry, s) :=
    if kernel_size <? 0 then
      let* (size, s) := of_abort (load_image_targphys f load_addr (u64 (ramsize - load_addr)) s) in
      Ok (size, Some load_addr, s)
    else Ok (kernel_size, entry, s) in
  if kernel_size <? 0 then exit 1 m
  else match entry with Some e => Ok (mkBoard m s e (er_syms r)) | None => Undef end.

(** [ppdl_init] with one CPU; [kernel] is [None] without [-kernel]. *)
Definition ppdl_init (kernel : option (option image)) (load_addr gas ramsize : Z) : outcome board :=
  let b := mkBoard (power_on (mkRam [] ramsize)) loader_init 0 [] in
  let* b := ppdl_cpu_realizefn gas b in
  let* b := main_cpu_reset gas b in
  match kernel with
  | None => Ok b
  | Some f => load_kernel f load_addr ramsize b
  end.

(** The handlers in the order they were registered. *)
Definition qemu_system_reset (gas : Z) (b : board) : outcome board :=
  let* b := main_cpu_reset gas b in
  let '(l, r) := rom_reset (roms (ldr b)) (ram (bm b)) in
  Ok (mkBoard (set_ram r (bm b)) (mkLoader l (roms_loaded (ldr b)) (end_pc (ldr b))) (elf_entry b) (syminfos b)).

Definition start (kernel : option (option image)) (load_addr gas ramsize : Z) : outcome board :=
  let* b := ppdl_init kernel load_addr gas ramsize in
  match rom_load_all (ldr b) with
  | None => exit 1 (bm b)
  | Some s => qemu_system_reset gas (mkBoard (bm b) (rom_load_done s) (elf_entry b) (syminfos b))
  end.

(** The whole run of an image: [n] rounds of the CPU loop, the cache of blocks
    empty at first. *)
Definition run_image (g : tcg) (flags : nat -> Z) (room : Z -> nat -> bool) (over : list Z)
    (kernel : option (option image)) (load_addr gas ramsize : Z) (n : nat) : outcome (machine * tb_ctx) :=
  let* b := start kernel load_addr gas ramsize in
  cpu_exec g room over (end_pc (ldr b)) n flags (bm b) ctx_init.
End Board.

(** [-gas]: [v] is what [strtol] gives for the argument; zero stands for the
    largest value. *)
Definition GAS_DEFAULT_VALUE : Z := 0xFFFFFFFFFFFFFFFF.
Definition option_gas (v : Z) : Z := if u64 v =? 0 then GAS_DEFAULT_VALUE else u64 v.

(** ** Reset, again and again *)

(** What [RESET] leaves, whatever was there before. *)
Definition reset_cpu (entry gas size : Z) (c : CPUPPDLState) : CPUPPDLState :=
  set_counter 1024 (set_data_bus (replicate 1024 0) (set_log_ptr 0 (set_sp (u64 (0 - 1)) (set_elfSize size
    (set_gas_available [swap_loop 8 0 gas 0; 0; 0; 0] (set_GasLimit gas (set_env_pc entry c))))))).

Lemma RESET_eq entry gas size m : length (data_bus (cpu m)) = 1024%nat ->
  RESET entry gas size m =
  let c := reset_cpu entry gas size (cpu m) in
  Ok (initialize (set_envSaved (saveState (envSaved m) c) (with_cpu (fun _ => c) m))).
Proof.
  intros Hl. cbv zeta. pose (k := fun c => Ok (A:=machine) (initialize (set_envSaved (saveState (envSaved m) c) (with_cpu (fun _ => c) m)))).
  transitivity (obind (clear_bus 1025 (set_counter 0 (set_log_ptr 0 (set_sp (u64 (0 - 1)) (set_elfSize size
    (set_gas_available [swap_loop 8 0 gas 0; 0; 0; 0] (set_GasLimit gas (set_env_pc entry (cpu m))))))))) k); [reflexivity|].
  rewrite (clear_bus_ok 1025 0); [|cbn [counter set_counter]; reflexivity|lia|lia|exact Hl|by rewrite take_0].
  change (k (set_counter 1024 (set_data_bus (replicate 1024 0) (set_counter 0 (set_log_ptr 0 (set_sp (u64 (0 - 1)) (set_elfSize size
    (set_gas_available [swap_loop 8 0 gas 0; 0; 0; 0] (set_GasLimit gas (set_env_pc entry (cpu m)))))))))) =
    k (reset_cpu entry gas size (cpu m))). apply (f_equal k).
  unfold reset_cpu. generalize (replicate 1024 0) (swap_loop 8 0 gas 0) (u64 (0 - 1)) (set_env_pc entry (cpu m)). reflexivity.
Qed.

Lemma reset_cpu_twice e g s e' g' s' c : pc c / 2 ^ 32 = 0 ->
  reset_cpu e' g' s' (reset_cpu e g s c) = reset_cpu e' g' s' c.
Proof.
  intros Hp. unfold reset_cpu. generalize (replicate 1024 0) (swap_loop 8 0 g 0) (swap_loop 8 0 g' 0).
  intros zeros gas gas'. unfold set_env_pc.
  match goal with |- context [pc ?x / _] => assert (pc x = pc c / 2 ^ 32 * 2 ^ 32 + u32 e) as -> by reflexivity end.
  rewrite Hp. pose proof (u32_range e) as H. unfold is_u32 in H. rewrite (Z.div_small (0 * 2 ^ 32 + u32 e)) by lia.
  generalize (0 * 2 ^ 32 + u32 e') (0 * 2 ^ 32 + u32 e) (u64 (0 - 1)). reflexivity.
Qed.

(** A machine that went through one reset after power-on or several differs
    in the copy kept for the tracer only. *)
Definition rebooted (r : guest_ram) (entry gas size : Z) (m : machine) : Prop :=
  exists saved, m = mkMachine (reset_cpu entry gas size zero_cpu) heap_init
    (Some [mkStorage (u32 (-1)) [0; 0; 0; 0]]) r saved 0 [].

Lemma reset_power_on r e g s : exists m, RESET e g s (power_on r) = Ok m /\ rebooted r e g s m.
Proof. rewrite RESET_eq by done. eexists. split; [done|]. by eexists. Qed.

Lemma reset_rebooted r e g s e' g' s' m : rebooted r e g s m ->
  exists m', RESET e' g' s' m = Ok m' /\ rebooted r e' g' s' m'.
Proof.
  intros [saved ->]. rewrite RESET_eq by done. eexists. split; [done|].
  cbn [cpu]. rewrite reset_cpu_twice by done. by eexists.
Qed.

Lemma rebooted_models code gas entry r m : rebooted r entry gas (Z.of_nat (length code)) m ->
  is_u64 gas -> ram_bytes r = code -> Forall is_u8 code -> is_u32 entry ->
  Z.of_nat (length code) + 33 <= ram_size r -> Z.of_nat (length code) + 33 < 2 ^ 32 ->
  models (boot_env gas (Z.of_nat (length code))) code m (einit entry gas) /\
  changed_pc m = 0 /\ is_pc_const_changed (cpu m) = 0 /\ ram m = r.
Proof.
  intros [saved ->] Hg Hc Hu He H1 H2.
  destruct (reset_models code gas entry r Hg Hc Hu He H1 H2) as (m' & E & Hm & _).
  rewrite RESET_eq in E by done. injection E as <-. split; [|done]. destruct Hm. by split.
Qed.

(** ** A program text is loaded *)

Lemma print_nil m : print [] m = m.
Proof. unfold print. rewrite app_nil_r. by destruct m. Qed.

Lemma write_rom_append acc data rs : Z.of_nat (length acc + length data) <= rs ->
  write_rom (Z.of_nat (length acc)) data (mkRam acc rs) = mkRam (acc ++ data) rs.
Proof.
  revert acc; induction data as [|b data IH]; intros acc Hl; [by rewrite app_nil_r|]. cbn [write_rom length] in *.
  unfold write_byte. cbn [ram_size ram_bytes].
  rewrite (proj2 (Z.leb_le _ _)), (proj2 (Z.ltb_lt _ _)) by lia. cbn [andb]. rewrite Nat2Z.id.
  replace (S (length acc) - length acc)%nat with 1%nat by lia. cbn [replicate].
  rewrite (list_insert_middle acc []).
  replace (Z.of_nat (length acc) + 1) with (Z.of_nat (length (acc ++ [b]))) by (rewrite length_app; simpl; lia).
  rewrite IH by (rewrite length_app; simpl; lia). by rewrite <- app_assoc.
Qed.

(** The start once the image is loaded: the CPU is reset three times, the images
    are checked and copied into the empty memory. *)
Lemma start_loaded h f la gas ramsize s e y l' :
  (forall m, load_kernel h f la ramsize (mkBoard m loader_init 0 []) = Ok (mkBoard m s e y)) -> rom_load_loop 0 (roms s) = Some l' ->
  exists b, start h (Some f) la gas ramsize = Ok b /\ end_pc (ldr b) = end_pc s /\ syminfos b = y /\
    rebooted (rom_reset l' (mkRam [] ramsize)).2 e gas (end_pc s) (bm b).
Proof.
  intros Hk Hl. unfold start, ppdl_init, ppdl_cpu_realizefn, main_cpu_reset, cpu_reset. cbn [elf_entry bm ldr syminfos].
  destruct (reset_power_on (mkRam [] ramsize) 0 gas (end_pc loader_init)) as (m1 & -> & Hm1). cbn [obind elf_entry bm ldr syminfos].
  destruct (reset_rebooted _ _ _ _ 0 gas (end_pc loader_init) m1 Hm1) as (m2 & -> & Hm2). cbn [obind elf_entry bm ldr syminfos].
  rewrite Hk. cbn [obind elf_entry bm ldr syminfos]. unfold rom_load_all. rewrite Hl.
  unfold qemu_system_reset, main_cpu_reset, cpu_reset. cbn [elf_entry bm ldr syminfos rom_load_done end_pc].
  destruct (reset_rebooted _ _ _ _ e gas (end_pc s) m2 Hm2) as (m3 & -> & Hm3). cbn [obind elf_entry bm ldr syminfos roms].
  destruct Hm3 as [saved ->]. cbn [ram rom_load_done roms]. destruct (rom_reset l' (mkRam [] ramsize)) as [l2 r2].
  eexists. split; [reflexivity|]. split; [done|]. split; [done|]. by eexists.
Qed.

Section Text.
Context (h : host).
Context (text : list Z) (Hhex : Forall is_hex text) (Hlen : (4 <= length text)%nat).
Let f : image := mkImage text (Z.of_nat (length text)).

Lemma text_head : exists c t, text = c :: t /\ is_hex c.
Proof. destruct text as [|c t]; [simpl in Hlen; lia|]. exists c, t. split; [done|]. by inversion Hhex. Qed.

Lemma readable_text : readable f = text.
Proof. unfold readable. cbn [read_rc contents f]. by rewrite Nat2Z.id, firstn_all. Qed.

Lemma read_text n : 0 <= n <= MAX_RW_COUNT ->
  read n (mkFile f 0) = (Some (take (Z.to_nat n) text), mkFile f (Z.of_nat (length (take (Z.to_nat n) text)))).
Proof.
  intros Hn. unfold read. cbn [fd_image fd_pos f read_rc]. rewrite (proj2 (Z.ltb_ge _ 0)) by lia.
  fold f. rewrite readable_text, Z.min_l by lia. done.
Qed.

Lemma load_elf_text tr be em lsb s y :
  exists k, load_elf h (Some f) tr be em lsb s y = Ok (mkElf k None 0 0 s y) /\ k < 0.
Proof.
  unfold load_elf, read_exactly. rewrite read_text by (unfold MAX_RW_COUNT; lia). destruct (_ =? 16); [|by eexists].
  destruct text_head as (c & t & -> & Hc). change (Z.to_nat 16) with 16%nat. cbn [take nth].
  replace (c =? 0x7f) with false by (unfold is_hex in Hc; lia). eexists. by split; [reflexivity|].
Qed.

Lemma load_uimage_text s : load_uimage h (Some f) s = Ok (mkUimage (-1) None None None s []).
Proof.
  unfold load_uimage, load_uboot_image. rewrite read_text by (unfold MAX_RW_COUNT; lia).
  destruct text_head as (c & t & E & Hc).
  rewrite E. destruct t as [|c1 [|c2 [|c3 t]]]; rewrite E in Hlen; simpl in Hlen; try lia.
  change (Z.to_nat 64) with 64%nat. cbn [take length Nat.ltb Nat.leb]. rewrite E in Hhex.
  repeat (apply Forall_cons in Hhex as [? Hhex]). clear Hhex. unfold is_hex in *.
  set (b := c :: c1 :: c2 :: c3 :: _). assert (ih_magic (bswap_uboot_header (uboot_header_of b)) = le_val [c3; c2; c1; c]) as ->.
  { change (bswap 4 (le_val [c; c1; c2; c3]) = le_val [c3; c2; c1; c]). unfold bswap.
    change 4%nat with (length [c; c1; c2; c3]) at 1. rewrite le_bytes_val; [done|]. repeat constructor; unfold is_u8; lia. }
  replace (le_val [c3; c2; c1; c] =? IH_MAGIC) with false; [done|]. symmetry. apply Z.eqb_neq.
  unfold IH_MAGIC. cbn [le_val]. lia.
Qed.

Lemma load_image_text addr max s : Z.of_nat (length text) <= MAX_RW_COUNT -> Z.of_nat (length text) <= max -> max < 2 ^ 64 -> roms_loaded s = false ->
  roms s = [] ->
  load_image_targphys (Some f) addr max s =
  Some (Z.of_nat (length text),
    mkLoader [mkRom addr (Z.of_nat (length text)) (Z.of_nat (length (hex_pairs text))) (Some (hex_pairs text)) false false false]
      false (Z.of_nat (length (hex_pairs text)))).
Proof.
  intros Hi Hm H64 Hl Hr. unfold MAX_RW_COUNT in Hi. unfold load_image_targphys. cbn [get_image_size].
  change (image_size f) with (Z.of_nat (length text)). rewrite i32_id by lia.
  rewrite u64_id by (unfold is_u64; lia). rewrite (proj2 (Z.ltb_ge _ _)), (proj2 (Z.ltb_lt _ _)) by lia.
  unfold rom_add_file. change (image_size f) with (Z.of_nat (length text)). cbn [read_rc contents f].
  rewrite (proj2 (Z.ltb_ge _ _)) by (unfold INT_MAX; lia). cbv zeta. rewrite i32_id by lia.
  rewrite Nat2Z.id, firstn_all, Nat.sub_diag. cbn [replicate]. rewrite app_nil_r, hex_loop_ok.
  assert (Z.of_nat (length text) / 2 = Z.of_nat (length (hex_pairs text))) as ->.
  { rewrite length_hex_pairs. by rewrite Nat2Z.inj_div. }
  rewrite Z.quot_div_nonneg by lia. rewrite length_hex_pairs, Nat2Z.inj_div, Z.eqb_refl.
  unfold rom_insert. cbn [roms_loaded]. rewrite Hl, Hr. rewrite g_data_some; [done|].
  rewrite length_hex_pairs. pose proof (Nat.Div0.div_le_mono 4 (length text) 2 Hlen) as H2. change (4 / 2)%nat with 2%nat in H2. lia.
Qed.

(** The machine that starts is one that was reset with the decoded program in
    its memory. *)
Lemma start_text gas ramsize :
  Z.of_nat (length text) <= MAX_RW_COUNT -> Z.of_nat (length text) <= ramsize -> ramsize < 2 ^ 64 ->
  exists b, start h (Some (Some f)) KERNEL_LOAD_ADDR gas ramsize = Ok b /\
  end_pc (ldr b) = Z.of_nat (length (hex_pairs text)) /\
  rebooted (mkRam (hex_pairs text) ramsize) 0 gas (Z.of_nat (length (hex_pairs text))) (bm b).
Proof.
  intros Hi Hs H64. edestruct (start_loaded h (Some f) KERNEL_LOAD_ADDR gas ramsize) as (b & E & He & _ & Hb).
  - intros m. unfold load_kernel. cbn [ldr syminfos bm].
    destruct (load_elf_text (Some translate_kaddr) false ELF_MACHINE true loader_init []) as (k & -> & Hk).
    cbn [obind er_ret er_loader er_syms]. rewrite (proj2 (Z.ltb_lt _ _)) by done. rewrite load_uimage_text.
    cbn [obind ui_ret ui_ep ui_loader ui_out]. rewrite print_nil. change (-1 <? 0) with true.
    rewrite load_image_text; unfold KERNEL_LOAD_ADDR; rewrite ?Z.sub_0_r, ?u64_id; try (unfold is_u64; lia); [|done|done].
    cbn [of_abort obind]. rewrite (proj2 (Z.ltb_ge _ _)) by lia. reflexivity.
  - reflexivity.
  - exists b. split; [exact E|]. split; [exact He|]. cbn [rom_reset end_pc] in Hb. unfold rom_reset_one in Hb.
    cbn [fw_file rom_data rom_mr rom_addr datasize snd] in Hb. rewrite Nat2Z.id, firstn_all in Hb.
    pose proof (write_rom_append [] (hex_pairs text) ramsize) as Ew. change (Z.of_nat (length [])) with 0 in Ew. rewrite Ew in Hb; [exact Hb|].
    pose proof (length_hex_pairs_le text). cbn [length]. lia.
Qed.

(** The size of a longer text is negative in an [int], and the start fails. *)
Lemma start_text_too_large gas ramsize : 2 ^ 31 <= Z.of_nat (length text) < 2 ^ 32 ->
  exists o, start h (Some (Some f)) KERNEL_LOAD_ADDR gas ramsize = Exit 1 o.
Proof.
  intros Hi. assert (i32 (Z.of_nat (length text)) < 0) as Hs by (unfold i32; Z.to_euclidean_division_equations; lia).
  unfold start, ppdl_init, ppdl_cpu_realizefn, main_cpu_reset, cpu_reset. cbn [elf_entry bm ldr syminfos].
  destruct (reset_power_on (mkRam [] ramsize) 0 gas (end_pc loader_init)) as (m1 & -> & Hm1). cbn [obind elf_entry bm ldr syminfos].
  destruct (reset_rebooted _ _ _ _ 0 gas (end_pc loader_init) m1 Hm1) as (m2 & -> & Hm2). cbn [obind elf_entry bm ldr syminfos].
  unfold load_kernel. cbn [ldr syminfos bm].
  destruct (load_elf_text (Some translate_kaddr) false ELF_MACHINE true loader_init []) as (k & -> & Hk).
  cbn [obind er_ret er_loader er_syms]. rewrite (proj2 (Z.ltb_lt _ _)) by done. rewrite load_uimage_text.
  cbn [obind ui_ret ui_ep ui_loader ui_out]. change (-1 <? 0) with true. unfold load_image_targphys.
  cbn [get_image_size]. change (image_size f) with (Z.of_nat (length text)).
  rewrite (proj2 (Z.ltb_ge 0 _)) by lia. destruct (_ <? u64 _); cbn [of_abort obind]; [by eexists|].
  rewrite (proj2 (Z.ltb_lt _ 0)) by done. by eexists.
Qed.
End Text.

(** ** An ELF file is loaded *)

(** What is in memory: the segments at four times their addresses, as far as
    there is memory, and zeros elsewhere. *)
Record segments_in (f : image) (segs : list elf_phdr) (r : guest_ram) : Prop := {
  si_data ph (j : nat) : ph ∈ segs -> (j < length (segment_bytes f ph))%nat -> translate_kaddr (p_paddr ph) + Z.of_nat j < ram_size r ->
    nth (Z.to_nat (translate_kaddr (p_paddr ph)) + j) (ram_bytes r) 0 = nth j (segment_bytes f ph) 0;
  si_zero i : (forall ph, ph ∈ segs -> ~ (translate_kaddr (p_paddr ph) <= Z.of_nat i < translate_kaddr (p_paddr ph) + p_filesz ph)) ->
    nth i (ram_bytes r) 0 = 0
}.

Lemma rom_reset_size l r : ram_size (rom_reset l r).2 = ram_size r.
Proof.
  revert r; induction l as [|rom l IH]; intros r; [done|]. cbn [rom_reset].
  assert (ram_size (rom_reset_one rom r).2 = ram_size r) as E.
  { unfold rom_reset_one. destruct (fw_file rom); [done|]. destruct (rom_data rom); [|done]. cbn [snd].
    destruct (rom_mr rom); [done|]. apply write_rom_size. }
  destruct (rom_reset_one rom r) as [x r1]. specialize (IH r1). destruct (rom_reset l r1) as [y r2]. cbn [snd] in *. congruence.
Qed.

Lemma segments_loaded f segs l l' ramsize : Forall (segment_ok f translate_kaddr) segs ->
  l ≡ₚ map (segment_rom f translate_kaddr) segs -> rom_load_loop 0 l = Some l' ->
  segments_in f segs (rom_reset l' (mkRam [] ramsize)).2.
Proof.
  intros Hs Hp Hl. assert (Forall rom_ok l) as Hok.
  { rewrite Hp. apply Forall_forall. intros rom (ph & -> & Hin)%list_elem_of_fmap. rewrite Forall_forall in Hs.
    by apply (segment_rom_ok f translate_kaddr ph), Hs. }
  split.
  - intros ph j Hin Hj Hr. rewrite rom_reset_size in Hr.
    pose proof (rom_reset_loaded l l' 0 (mkRam [] ramsize) (segment_rom f translate_kaddr ph) j Hl Hok) as E.
    cbn [rom_addr rom_data segment_rom] in E. rewrite !g_data_bytes in E. apply E; [|done|done].
    rewrite Hp. apply list_elem_of_fmap. by exists ph.
  - intros i Hi. destruct (rom_reset_elsewhere l l' 0 (mkRam [] ramsize) i Hl Hok) as [-> _]; [|by destruct i].
    intros rom. rewrite Hp. intros (ph & -> & Hin)%list_elem_of_fmap. unfold rom_holds. cbn [rom_addr rom_data segment_rom].
    rewrite g_data_bytes, (segment_length f translate_kaddr) by (rewrite Forall_forall in Hs; by apply Hs). by apply Hi.
Qed.

Lemma start_elf h `{!HostLaws h} f c ehdr phs la gas ramsize :
  readable_file h f -> elf_file f translate_kaddr c ehdr phs ->
  exists b r, start h (Some (Some f)) la gas ramsize = Ok b /\ end_pc (ldr b) = 0 /\ ram_size r = ramsize /\
    segments_in f (filter loadable phs) r /\ rebooted r (elf_sword c (e_entry ehdr)) gas 0 (bm b).
Proof.
  intros Hf Ha. destruct (load_elf_ok h f translate_kaddr c ehdr phs true loader_init [] Hf Ha eq_refl) as (r & Er & [R1 R2 R3 R4 R5 R6]).
  pose proof (ef_segments _ _ _ _ _ Ha) as Hs. pose proof (memory_size_pos _ _ _ Hs) as Hpos.
  cbn [roms loader_init] in R3, R4. rewrite app_nil_r in R3. specialize (R4 ltac:(constructor)).
  assert (Forall (fun rom => rom_ok rom /\ 0 < romsize rom) (roms (er_loader r))) as Hok.
  { rewrite R3. apply Forall_forall. intros rom (ph & -> & Hin)%list_elem_of_fmap. rewrite Forall_forall in Hs.
    by apply (segment_rom_ok f translate_kaddr ph), Hs. }
  destruct (rom_load_apart (roms (er_loader r)) 0) as (l' & El).
  - done.
  - by eapply Forall_impl; [exact Hok|intros ? []].
  - by eapply Forall_impl; [exact Hok|intros ? []].
  - eapply pairs_perm; [|symmetry; exact R3|exact (ef_apart _ _ _ _ _ Ha)]. unfold disjoint_roms. tauto.
  - eapply Forall_impl; [exact Hok|]. by intros ? [[] _].
  - destruct (start_loaded h (Some f) la gas ramsize (er_loader r) (elf_sword c (e_entry ehdr)) (er_syms r) l') as (b & E & He & _ & Hb).
    + intros m. unfold load_kernel, ELF_MACHINE. cbn [ldr syminfos bm]. rewrite Er. cbn [obind]. rewrite R1, (proj2 (Z.ltb_ge _ _)) by done.
      cbn [obind]. rewrite print_nil, (proj2 (Z.ltb_ge _ _)), R2 by done. cbn [obind]. by rewrite (proj2 (Z.ltb_ge _ _)) by done.
    + exact El.
    + exists b, (rom_reset l' (mkRam [] ramsize)).2. rewrite R6 in He, Hb. split; [exact E|]. split; [exact He|].
      split; [apply rom_reset_size|]. split; [by eapply segments_loaded|exact Hb].
Qed.

(** ** The run of a program text *)

(** The CPU loop and its cache run a program as the abstract machine does; a
    block may be translated when it is met or found in the cache. *)
Lemma cpu_exec_refines g `{!TcgLimits g} env code over room n N flags m s t c o :
  let e := Z.of_nat (length code) in
  models env code m s -> changed_pc m = 0 -> is_pc_const_changed (cpu m) = 0 ->
  jump_free (ram m) -> e + TARGET_PAGE_SIZE <= ram_size (ram m) ->
  cache_ok g room e (ram m) t ->
  erun env code n s = Some (Halt c o) -> (n <= N)%nat ->
  cpu_exec g room over e N flags m t = Exit c o.
Proof.
  intros e. revert N m s t; induction n as [n IH] using lt_wf_ind; intros N m s t Hm Hc Hf Hj Hr Ht Hrun HN.
  destruct n as [|n]; [done|]. destruct N as [|N]; [lia|]. cbn [cpu_exec].
  destruct (code_refines env code over room (S n) m s c o Hm Hf Hj Hr Hrun ltac:(lia)) as (Hp & l & npc & ch & Hg & H).
  assert (env_pc (cpu m) = pc (cpu m)) as Ep by (by apply u32_id).
  destruct (cpu_exec_step_ok g room over e (flags (S N)) m t l npc ch Ht Hc) as (v & t' & Hv & Ht' & ->).
  { by rewrite Ep. }
  destruct (H v) as [->|(-> & k & m' & s' & -> & Hm' & Hc' & Hf' & Er & Hrun' & Hk)]; [done|]. cbn [obind].
  apply (IH k Hk N m' s' t'); rewrite ?Er; try done; [|lia]. rewrite Hc'. tauto.
Qed.

Lemma run_image_refines g `{!TcgLimits g} h flags room over text gas ramsize n c o :
  let code := hex_pairs text in
  let size := Z.of_nat (length code) in
  let f := mkImage text (Z.of_nat (length text)) in
  Forall is_hex text -> (4 <= length text)%nat -> is_u64 gas ->
  Forall (fun b => b <> JUMP) code -> Z.of_nat (length text) <= MAX_RW_COUNT ->
  Z.of_nat (length text) + TARGET_PAGE_SIZE <= ramsize -> ramsize < 2 ^ 32 ->
  erun (boot_env gas size) code n (einit 0 gas) = Some (Halt c o) ->
  run_image h g flags room over (Some (Some f)) KERNEL_LOAD_ADDR gas ramsize n = Exit c o.
Proof.
  intros code size f Hhex Hlen Hg Hj Hi Hr H32 Hrun. unfold run_image, TARGET_PAGE_SIZE in *. unfold f.
  destruct (start_text h text Hhex Hlen gas ramsize) as (b & -> & He & Hb); [done|lia|lia|].
  cbn [obind]. rewrite He.
  assert (Z.of_nat (length code) <= Z.of_nat (length text)) as Hle.
  { pose proof (length_hex_pairs_le text). unfold code. lia. }
  destruct (rebooted_models code gas 0 (mkRam code ramsize) (bm b) Hb Hg eq_refl (hex_pairs_u8 _))
    as (Hm & H1 & H2 & H3); try done; cbn [ram_size]; try lia.
  apply (cpu_exec_refines g _ code over room n n flags (bm b) (einit 0 gas) ctx_init c o Hm H1 H2); rewrite ?H3; try done.
  - cbn. unfold TARGET_PAGE_SIZE. lia.
  - apply cache_ok_init. pose proof (tl_limit (g := g)). pose proof (tl_size (g := g) []).
    unfold CODE_GEN_ALIGN in *. lia.
Qed.
