(* ===== verification/NumberTheorems.v ===== *)
(** * Properties of the numbers and of the helpers around them

    The statements about [v_bignum.c], the register conversions, the hash
    function, the bit fields, the debugger's registers, address translation,
    guest memory and the tracer, each with an instance. *)

From stdpp Require Import base numbers list option strings.
From Stdlib Require Import ZArith Lia.
From S2P Require Import Prelude Words Bignum BignumSpec BignumHeap BignumMod BignumModSpec BignumStr Cpu Arithm ArithmSpec Storage Bitfield Gdb Mmu GuestMem Helpers HelpersSpec MemSpec PushSpec Keccak KeccakSpec Translate Disas TraceFilter TraceFilterSpec Trace TranslateSpec Evm EvmSpec RunSpec.

(** ** Bignums *)

(** C27: dividing a number by a non-zero one of at most its size, with room
    for two temporaries on the heap, leaves exactly the quotient in [x], gives
    the heap back as it was below and above the temporaries, and stores the
    remainder, without the top bit of the digits, in [remainder]. *)
Theorem division_exact h x y rem :
  heap_wf h -> wf x -> wf y -> x <> [] -> (length y <= length x)%nat -> 0 < val y ->
  Z.of_nat (length x) < 2 ^ 16 -> length rem = length x ->
  heap_pos h + 2 * (Z.of_nat (length x) + 1) <= HEAP_SIZE ->
  exists h' q r, v_bignum_div h x y (Some rem) = Ok (h', q, Some r) /\
  val q = val x / val y /\ val r = (val x mod val y) mod (weight (length x) / 2) /\
  length q = length x /\ length r = length x /\ heap_pos h' = heap_pos h /\
  frame (heap_pos h) (heap_pos h + 2 * (Z.of_nat (length x) + 1)) h h'.
Proof.
  intros. destruct (div_spec h x y (Some rem)) as (h' & q & w & E & Hp & Hf & Hw & Hl & Hv & Hww & Hlw & Hr); auto.
  exists h', q, w. split; [|split_and!; done]. rewrite E. cbn [option_map].
  by rewrite set_bignum_same_length by lia.
Qed.

Lemma division_exact_witness :
  exists h' q r, v_bignum_div heap_init [100; 0; 1] [7; 0; 0] (Some [0; 0; 0]) = Ok (h', q, Some r) /\
  val q = val [100; 0; 1] / val [7; 0; 0] /\
  val r = (val [100; 0; 1] mod val [7; 0; 0]) mod (weight (length [100; 0; 1]) / 2) /\
  length q = length [100; 0; 1] /\ length r = length [100; 0; 1] /\ heap_pos h' = heap_pos heap_init /\
  frame 0 8 heap_init h'.
Proof.
  apply (division_exact heap_init [100; 0; 1] [7; 0; 0] [0; 0; 0]);
    [apply heap_wf_init|by repeat constructor|by repeat constructor|done|simpl; lia|by vm_compute|by vm_compute|done|by vm_compute].
Defined.

(** C28: addition and subtraction are exact modulo the weight of the result's
    digits, whatever the length of the second operand; so is multiplication as
    long as the digits of both factors and one more fit the 2048 cells of its
    local array (beyond that the array overflows); and on numbers of the same
    length the comparisons are those of the numbers they denote.  The [int]
    product of two digits is taken to wrap around. *)
Theorem modular_arithmetic x y :
  wf x -> wf y -> x <> [] ->
  val (v_bignum_add x y) = (val x + val y) mod weight (length x) /\
  val (v_bignum_sub x y) = (val x - val y) mod weight (length x) /\
  ((length x + length y + 1 <= 2048)%nat ->
   exists p, v_bignum_mul x y = Ok p /\ length p = length x /\ val p = (val x * val y) mod weight (length x)) /\
  ((2048 < length x + length y + 1)%nat -> v_bignum_mul x y = Undef) /\
  (length x = length y ->
   v_bignum_gt x y = (val y <? val x) /\ v_bignum_gte x y = (val y <=? val x) /\
   v_bignum_eq x y = (val x =? val y)).
Proof.
  intros Hx Hy Hn. split; [by apply val_add|]. split; [by apply val_sub|]. split; [|split; [apply mul_undef|]].
  { intros Hl. exists (mul_digits x y). split; [by apply mul_ok|]. split; [by apply length_mul|by apply val_mul]. }
  intros Hl. split_and!; [apply gt_le_length|apply gte_ge_length|apply eq_same_length]; auto; lia.
Qed.

Lemma modular_arithmetic_witness :
  val (v_bignum_add [65535; 65535] [1; 2]) = (val [65535; 65535] + val [1; 2]) mod weight 2 /\
  val (v_bignum_sub [65535; 65535] [1; 2]) = (val [65535; 65535] - val [1; 2]) mod weight 2 /\
  (exists p, v_bignum_mul [65535; 65535] [1; 2] = Ok p /\ length p = 2%nat /\
    val p = (val [65535; 65535] * val [1; 2]) mod weight 2) /\
  (length [65535; 65535] = length [1; 2] ->
   v_bignum_gt [65535; 65535] [1; 2] = (val [1; 2] <? val [65535; 65535]) /\
   v_bignum_gte [65535; 65535] [1; 2] = (val [1; 2] <=? val [65535; 65535]) /\
   v_bignum_eq [65535; 65535] [1; 2] = (val [65535; 65535] =? val [1; 2])).
Proof.
  destruct (modular_arithmetic [65535; 65535] [1; 2]) as (H1 & H2 & H3 & _ & H4); [by repeat constructor|by repeat constructor|done|].
  split; [exact H1|]. split; [exact H2|]. split; [|exact H4]. apply H3. cbn [length]. lia.
Defined.

(** C29: Barrett reduction.  [v_bignum_reduce_begin] computes the reciprocal of
    the modulus, and [v_bignum_reduce] with it leaves the exact remainder of any
    number below the square of the modulus' size, in at most two subtractions,
    giving its temporaries back. *)
Theorem barrett_reduction fuel h x m :
  heap_wf h -> (3 <= fuel)%nat -> wf x -> wf m -> 0 < val m ->
  let k := used_digits m in let X := Z.of_nat (length x) in
  Z.of_nat (length m) <= 2 * k + 1 -> Z.of_nat (length m) <= X -> val x < weight (2 * Z.to_nat k) ->
  X + 2 * k + 2 < 2 ^ 16 -> heap_pos h + 3 * X + 6 * k + 24 <= HEAP_SIZE ->
  exists mu h1 h2 r, v_bignum_reduce_begin h m = Ok (heap_pos h, mu, h1) /\
  val mu = weight (2 * Z.to_nat k) / val m /\
  v_bignum_reduce fuel h1 x m mu = Ok (h2, r) /\ val r = val x mod val m /\ length r = length x /\
  heap_pos h2 = heap_pos h1.
Proof.
  intros Hh Hf Hx Hm Hm0 k X Hl HlX Hxk Hbig Hroom.
  destruct (used_digits_spec m Hm Hm0) as [Hk _]. fold k in Hk.
  destruct (reduce_begin_spec h m Hh Hm Hm0 Hl ltac:(fold k; lia) ltac:(fold k; lia))
    as (mu & h1 & E & Wmu & Lmu & Vmu & P1 & _ & F1). fold k in Lmu, Vmu, P1.
  replace (Z.to_nat (2 * k)) with (2 * Z.to_nat k)%nat in Vmu by lia.
  destruct (reduce_spec x m mu Hx Hm Wmu Hm0 ltac:(lia) Hxk Vmu Lmu ltac:(fold k; lia) fuel h1 (proj1 F1) Hf)
    as (h2 & r & E2 & _ & Lr & Vr & P2 & _); [fold k; lia|].
  exists mu, h1, h2, r. by split_and!.
Qed.

Lemma barrett_reduction_witness :
  exists mu h1 h2 r, v_bignum_reduce_begin heap_init [7; 3] = Ok (heap_pos heap_init, mu, h1) /\
  val mu = weight (2 * Z.to_nat (used_digits [7; 3])) / val [7; 3] /\
  v_bignum_reduce 3 h1 [5; 6; 7; 8] [7; 3] mu = Ok (h2, r) /\ val r = val [5; 6; 7; 8] mod val [7; 3] /\
  length r = length [5; 6; 7; 8] /\ heap_pos h2 = heap_pos h1.
Proof.
  apply (barrett_reduction 3 heap_init [5; 6; 7; 8] [7; 3]);
    [apply heap_wf_init|lia|by repeat constructor|by repeat constructor|by vm_compute..].
Defined.

(** C30: modular powers.  [v_bignum_pow_mod] computes the power of a reduced base
    to a positive exponent, by squaring with Barrett reduction, and gives its
    temporaries back. *)
Theorem modular_power fuel h x y n :
  heap_wf h -> (3 <= fuel)%nat -> wf x -> wf y -> wf n -> 0 <= val x < val n -> 0 < val y ->
  let X := Z.of_nat (length x) in let k := used_digits n in
  Z.of_nat (length n) <= 2 * X -> Z.of_nat (length n) <= 2 * k + 1 -> k <= X -> X <= 128 ->
  heap_pos h + 8 * X + 6 * k + 30 <= HEAP_SIZE ->
  exists h' r, v_bignum_pow_mod fuel h x y n = Ok (h', r) /\ wf r /\ length r = length x /\
    val r = val x ^ val y mod val n /\ heap_pos h' = heap_pos h /\
    frame (heap_pos h) (heap_pos h + 8 * X + 6 * k + 30) h h'.
Proof. apply pow_mod_spec. Qed.

Lemma modular_power_witness :
  exists h' r, v_bignum_pow_mod 3 heap_init [5; 1] [13] [7; 3] = Ok (h', r) /\ wf r /\ length r = length [5; 1] /\
    val r = val [5; 1] ^ val [13] mod val [7; 3] /\ heap_pos h' = heap_pos heap_init /\
    frame (heap_pos heap_init) (heap_pos heap_init + 8 * 2 + 6 * used_digits [7; 3] + 30) heap_init h'.
Proof.
  apply (modular_power 3 heap_init [5; 1] [13] [7; 3]);
    [apply heap_wf_init|lia|by repeat constructor|by repeat constructor|by repeat constructor|by vm_compute..].
Defined.

(** C31: a register loaded into a 256-bit number and written back is the same
    register; on the way the number has the register's value. *)
Theorem register_roundtrip reg m :
  bn_inv (bn m) -> reg_wf reg -> heap_pos (bn m) + 65 <= HEAP_SIZE ->
  exists x m', load_reg reg m = Ok (x, m') /\ val x = reg_val reg /\ v_bignum_bignum_to_reg x = Ok reg.
Proof.
  intros Hb Hr Hroom. destruct (load_reg_ok reg m Hb Hr Hroom) as (x & h & E & (Hx & Hl & Hv) & _).
  do 2 eexists. split; [exact E|]. split; [done|]. rewrite bignum_to_reg_ok, Hv by done.
  by rewrite reg_of_val.
Qed.

(** [MOD] and its kin drop bit 255 of the remainder: 2^255 modulo
    2^255 + 1, both of sixteen digits, comes out as zero. *)
Lemma mod_top_bit_lost :
  let x := replicate 15 0 ++ [32768] in
  let y := [1] ++ replicate 14 0 ++ [32768] in
  val x mod val y = 2 ^ 255 /\ exists h, v_bignum_mod heap_init x y = Ok (h, replicate 16 0).
Proof. cbn zeta. split; [by vm_compute|]. eexists. vm_compute. reflexivity. Qed.

(** Registers loaded into bignums are never released: with less than 65
    cells left the next load, hence the next charge of gas, dereferences NULL.
    From an empty heap 32 loads fit. *)
Lemma heap_exhausted m v :
  HEAP_SIZE < heap_pos (bn m) + 64 -> heap_pos (bn m) <= HEAP_SIZE -> UseGas v m = Undef.
Proof.
  intros H Hp. unfold UseGas, load_reg, v_bignum_reg_to_bignum, alloc, bignum_alloc.
  rewrite (u32_id (heap_pos (bn m) + 64)) by (unfold is_u32, HEAP_SIZE in *; lia).
  rewrite (proj2 (Z.ltb_lt _ _)) by lia. done.
Qed.

Lemma register_roundtrip_witness :
  exists x m', load_reg [1; 2; 3; 4] (power_on (mkRam [] 0)) = Ok (x, m') /\ val x = reg_val [1; 2; 3; 4] /\
  v_bignum_bignum_to_reg x = Ok [1; 2; 3; 4].
Proof.
  apply (register_roundtrip [1; 2; 3; 4] (power_on (mkRam [] 0)));
    [apply bn_inv_init|split; [done|by repeat constructor]|by vm_compute].
Defined.

(** ** The hash function *)

(** C32: the permutation of [Keccak.c] (its unrolled theta, rho-pi and chi and
    its tables) is Keccak-f[1600] as the standard defines it, with the round
    constants of the shift register and the rotation offsets of the walk; and
    the digest of a message of any length is the sponge of that permutation with
    rate 136 and Keccak padding, whatever lies in memory after the lanes, which
    the digest loop reads. *)
Theorem keccak_matches_reference a over msg :
  length a = 25%nat -> Forall is_u64 a -> Forall is_u8 msg ->
  keccakf_lanes a = ref_keccakf a /\ keccak256 over msg = Ok (ref_keccak256 msg).
Proof. intros Hl Hu Hm. split; [by apply keccakf_ref|by apply keccak256_ref]. Qed.

Lemma keccak_matches_reference_witness :
  keccakf_lanes (replicate 25 1) = ref_keccakf (replicate 25 1) /\
  keccak256 [] [97; 98; 99] = Ok (ref_keccak256 [97; 98; 99]).
Proof. apply (keccak_matches_reference (replicate 25 1) [] [97; 98; 99]); [done|by repeat constructor|by repeat constructor]. Defined.

(** ** Debugger registers *)

(** C33: the debugger's registers.  A write of a register up to the announced
    number looks at the first four bytes of the buffer only, whatever the size of
    the register: afterwards a register of 1 or 4 bytes reads back as written,
    and a 64-bit register, which the debugger writes with 8 bytes, reads back
    with its upper four bytes zero ([ldl_p] into a [uint32_t]).  No other
    register the debugger can read changes, and above the announced number a
    write does nothing. *)
Theorem gdb_registers c buf reg reg' :
  cpu_sized c -> 0 <= reg -> 0 <= reg' -> Forall is_u8 buf -> (4 <= length buf)%nat ->
  (reg <= gdb_num_core_regs ->
   let '(n, c') := ppdl_cpu_gdb_write_register c buf reg in
   n = Z.of_nat (reg_size reg) /\
   ppdl_cpu_gdb_read_register c' reg = take (reg_size reg) (take 4 buf ++ [0; 0; 0; 0])) /\
  (reg' <> reg -> ppdl_cpu_gdb_read_register (ppdl_cpu_gdb_write_register c buf reg).2 reg' =
                  ppdl_cpu_gdb_read_register c reg') /\
  (gdb_num_core_regs < reg -> ppdl_cpu_gdb_write_register c buf reg = (0, c)).
Proof.
  intros Hc Hr Hr' Hb Hl. split_and!.
  - intros Hn. by apply gdb_write_read.
  - intros. by apply gdb_write_frame.
  - intros H. unfold ppdl_cpu_gdb_write_register. by rewrite (proj2 (Z.ltb_lt _ _)).
Qed.

Lemma gdb_registers_witness :
  (1 <= gdb_num_core_regs ->
   let '(n, c') := ppdl_cpu_gdb_write_register zero_cpu [1; 2; 3; 4; 5; 6; 7; 8] 1 in
   n = 8 /\ ppdl_cpu_gdb_read_register c' 1 = [1; 2; 3; 4; 0; 0; 0; 0]) /\
  (14 <> 1 -> ppdl_cpu_gdb_read_register (ppdl_cpu_gdb_write_register zero_cpu [1; 2; 3; 4; 5; 6; 7; 8] 1).2 14 =
               ppdl_cpu_gdb_read_register zero_cpu 14) /\
  (gdb_num_core_regs < 1 -> ppdl_cpu_gdb_write_register zero_cpu [1; 2; 3; 4; 5; 6; 7; 8] 1 = (0, zero_cpu)).
Proof.
  apply (gdb_registers zero_cpu [1; 2; 3; 4; 5; 6; 7; 8] 1 14);
    [split_and!; reflexivity|by vm_compute|by vm_compute|by repeat constructor|cbn [length]; lia].
Defined.

(** ** Address translation *)

(** After initialisation every access, of any kind and to any address, is
    mapped to itself with every right, and never faults. *)
Theorem mmu_identity s address rw : is_u64 address ->
  tlb_fill (cpu_ppdl_mmu_init s) address rw = Ok (Some (mkPage (page_mask address) (page_mask address) 7)) /\
  ppdl_cpu_get_phys_page_debug (cpu_ppdl_mmu_init s) address = address.
Proof. apply mmu_init_identity. Qed.

Lemma mmu_identity_witness :
  let s := mkMmu [] [] get_phys_tlb get_phys_tlb 0 0 0 in
  tlb_fill (cpu_ppdl_mmu_init s) 4660 2 = Ok (Some (mkPage (page_mask 4660) (page_mask 4660) 7)) /\
  ppdl_cpu_get_phys_page_debug (cpu_ppdl_mmu_init s) 4660 = 4660.
Proof. apply (mmu_identity (mkMmu [] [] get_phys_tlb get_phys_tlb 0 0 0) 4660 2). by vm_compute. Defined.

(** C35: through the TLB a data access succeeds only if the entry of its page
    is valid, carries the page's number and grants the right for the kind of
    access in the current mode; the result is the entry's page with the
    address's offset.  An access that does not translate leaves the CPU loop
    with a TLB miss when the entry does not match or is not valid, and with a
    page fault when it does not grant the right; the kind is that of the
    access. *)
Theorem mmu_rights s address rw :
  0 <= address -> Forall (fun e => is_u32 (tr e)) (dtlb s) ->
  (forall physical prot, cpu_ppdl_get_phys_data s address rw = TLBRET_MATCH physical prot ->
    let e := entry_at (dtlb s) (i32 (address / 256)) in
    let '(re, we) := if has (mmu_sr s) SR_SM then (SRE, SWE) else (URE, UWE) in
    mr e / 256 = (address / 256) mod 2 ^ 32 /\ has (mr e) 1 = true /\
    physical = tr e / 256 * 256 + address mod 256 /\ (if has rw 1 then has (tr e) we else has (tr e) re) = true) /\
  (forall err, cpu_ppdl_get_phys_addr s address rw = err -> (forall p q, err <> TLBRET_MATCH p q) ->
    tlb_fill s address rw = Raise
      (match err with
       | TLBRET_BADADDR => if rw =? 2 then EXCP_IPF else EXCP_DPF
       | _ => if rw =? 2 then EXCP_ITLBMISS else EXCP_DTLBMISS
       end)).
Proof.
  intros Ha Ht. split.
  - intros physical prot H. apply get_phys_data_inv in H. cbn zeta in *. set (e := entry_at _ _) in *.
    assert (is_u32 (tr e)) as He.
    { unfold e, entry_at. rewrite nth_lookup. destruct (dtlb s !! _) eqn:E; [by eapply Forall_lookup_1 in Ht|by vm_compute]. }
    rewrite <- phys_of_split by done. exact H.
  - intros err E Hne. unfold tlb_fill, ppdl_cpu_handle_mmu_fault. rewrite E.
    destruct err; [reflexivity..|]. by destruct (Hne physical prot).
Qed.

Lemma mmu_rights_witness :
  let s := mkMmu (replicate 64 (mkEntry 0 0)) (replicate 64 (mkEntry 1 (4096 + 64))) get_phys_tlb get_phys_tlb 0 0 0 in
  (exists p, cpu_ppdl_get_phys_data s 5 0 = TLBRET_MATCH p 1 /\ p = 4096 + 5) /\
  tlb_fill s 0 2 = Raise EXCP_ITLBMISS.
Proof.
  set (s := mkMmu (replicate 64 (mkEntry 0 0)) (replicate 64 (mkEntry 1 (4096 + 64))) get_phys_tlb get_phys_tlb 0 0 0).
  split.
  - exists 4101. assert (cpu_ppdl_get_phys_data s 5 0 = TLBRET_MATCH 4101 1) as E by reflexivity.
    split; [exact E|]. destruct (mmu_rights s 5 0) as [H _]; [by vm_compute|by repeat constructor|].
    destruct (H 4101 1 E) as (_ & _ & Hp & _). exact Hp.
  - destruct (mmu_rights s 0 2) as [_ H]; [by vm_compute|by repeat constructor|].
    refine (H TLBRET_INVALID eq_refl _). intros p q. discriminate.
Defined.

(** ** Bit fields *)

(** A field set from a value reads back as the value's low bits, every
    other bit of the word is kept, and the result is a word. *)
Theorem bitfield_set_get start end_ dst v :
  0 <= start <= end_ -> end_ < 64 -> is_u64 dst -> is_u64 v ->
  exists r, set_bitfield dst start end_ v = Ok r /\ is_u64 r /\
  get_bitfield r start end_ = Ok (v mod 2 ^ (end_ - start + 1)) /\
  forall i, 0 <= i -> i < start \/ end_ < i -> Z.testbit r i = Z.testbit dst i.
Proof.
  intros Hr He Hd Hv. destruct (set_bitfield_spec start end_ Hr He dst v Hd Hv) as (r & E & Hu & Hb).
  destruct (get_set_bitfield start end_ Hr He dst v Hd Hv) as (r' & E' & Hg).
  rewrite E in E'. injection E' as <-. exists r. split_and!; [done..|].
  intros i Hi Ho. rewrite Hb by done. by replace ((start <=? i) && (i <=? end_)) with false by lia.
Qed.

Lemma bitfield_set_get_witness :
  exists r, set_bitfield 255 4 11 5 = Ok r /\ is_u64 r /\ get_bitfield r 4 11 = Ok (5 mod 2 ^ (11 - 4 + 1)) /\
  forall i, 0 <= i -> i < 4 \/ 11 < i -> Z.testbit r i = Z.testbit 255 i.
Proof. apply bitfield_set_get; by vm_compute. Defined.

(** ** Guest memory *)

(** C38: outside the device window a stored 64-bit word is loaded back, and no
    byte outside the eight is changed; inside the window a store changes no
    memory and a load gives zero.  The window is the word addresses
    ([addr >> 2]) strictly between 0x10000000 and 0x1FFFFFFF: both ends, which
    the comment in the source counts to the memory of devices, are outside it
    and behave as memory. *)
Theorem guest_memory_roundtrip addr data m m' :
  is_u64 data -> 0 <= addr -> helper_mem_st64 (fun _ => false) addr data m = Ok m' ->
  (device_window (Z.shiftr addr 2) = true <-> 0x10000000 < Z.shiftr addr 2 < 0x1FFFFFFF) /\
  (device_window (Z.shiftr addr 2) = false ->
     helper_mem_ld64 (fun _ => false) addr m' = Ok (data, m') /\
     forall i, (i < Z.to_nat addr \/ Z.to_nat addr + 8 <= i)%nat ->
       nth i (ram_bytes (ram m')) 0 = nth i (ram_bytes (ram m)) 0) /\
  (device_window (Z.shiftr addr 2) = true ->
     ram m' = ram m /\ exists m'', helper_mem_ld64 (fun _ => false) addr m' = Ok (0, m'')).
Proof.
  intros Hd Ha H. split; [unfold device_window, START_DEVICES, END_DEVICES; lia|].
  unfold helper_mem_st64 in H. unfold helper_mem_ld64.
  destruct (device_window (Z.shiftr addr 2)); (split; [intros Hw|intros Hw]); try done.
  - injection H as <-. split; [done|]. eexists. reflexivity.
  - apply obind_ok in H as (r & E & H). injection H as <-. cbn [ram set_ram].
    rewrite (ram_load_store 8 addr data (ram m) r) by (done || (unfold is_u64 in Hd; lia)). cbn [obind].
    rewrite Z.mod_small by done. split; [done|]. intros i Hi. rewrite (store_byte _ _ _ _ _ _ Ha E).
    destruct Hi as [Hi|Hi]; [by rewrite (proj2 (Nat.leb_gt _ _)) by lia|].
    rewrite (proj2 (Nat.ltb_ge _ _)) by lia. by rewrite andb_false_r.
Qed.

Lemma guest_memory_roundtrip_witness :
  exists m', helper_mem_st64 (fun _ => false) 16 77 (power_on (mkRam [1; 2; 3] 64)) = Ok m' /\
  helper_mem_ld64 (fun _ => false) 16 m' = Ok (77, m').
Proof.
  eexists. split; [vm_compute; reflexivity|].
  apply (guest_memory_roundtrip 16 77 (power_on (mkRam [1; 2; 3] 64)));
    [by vm_compute|by vm_compute|vm_compute; reflexivity|by vm_compute].
Defined.

(** ** The tracer *)

(** C39: with [-regtrace all], something is printed exactly when saving the
    state changes what was saved, and nothing is printed right after saving. *)
Theorem trace_reports_changes cfg i0 b c :
  qemu_str_to_trace_list (codes "all") = Ok (selected cfg) -> use_regtracer cfg = true ->
  traced_sizes b -> traced_sizes c ->
  (compareState cfg i0 b c = [] <-> saveState b c = b) /\ compareState cfg i0 (saveState b c) c = [].
Proof.
  intros Hp Hreg Hb Hc. pose proof (fun name i => masked_all cfg name i Hp) as Hall. clear Hp.
  split; [exact (compareState_nil cfg i0 Hall Hreg b c Hb Hc)|].
  apply (proj2 (compareState_nil cfg i0 Hall Hreg (saveState b c) c Hc Hc)). apply saveState_idem.
Qed.

Lemma trace_reports_changes_witness :
  let cfg := mkCfg false true false 0 (map Z.of_nat all_regs) in
  (compareState cfg 0 zero_cpu (set_sp 3 zero_cpu) = [] <-> saveState zero_cpu (set_sp 3 zero_cpu) = zero_cpu) /\
  compareState cfg 0 (saveState zero_cpu (set_sp 3 zero_cpu)) (set_sp 3 zero_cpu) = [].
Proof.
  apply (trace_reports_changes (mkCfg false true false 0 (map Z.of_nat all_regs)) 0 zero_cpu (set_sp 3 zero_cpu));
    [exact parse_all|reflexivity|split_and!; reflexivity|split_and!; reflexivity].
Defined.
