(* ===== verification/MachineTheorems.v ===== *)
(** * Properties of instructions, translation blocks and programs

    The statements about [functions.c], [func_helper.c], [translate.c] and
    [translate_insn.h], each with an instance, most of them on a state reached
    by running a small program from reset. *)

From stdpp Require Import base numbers list option strings gmap.
From Stdlib Require Import ZArith Lia.
From S2P Require Import Prelude Words Bignum BignumSpec BignumHeap BignumStr Cpu Arithm ArithmSpec Storage Helpers HelpersSpec MemSpec PushSpec Keccak KeccakSpec Translate TranslateSpec Evm EvmSpec RunSpec.

(** ** States reached from reset *)

Definition ram_of (code : list Z) : guest_ram := mkRam code 4096.
Definition env_of (code : list Z) : Z -> option (Z * option Z) := boot_env 100000 (Z.of_nat (length code)).

(** A machine that has run [n] instructions of [code]. *)
Lemma reached code n s :
  Forall is_u8 code -> (length code <= 256)%nat ->
  erun (env_of code) code n (einit 0 100000) = Some (Next s) ->
  exists m, models (env_of code) code m s.
Proof.
  intros Hu Hl H.
  destruct (reset_models code 100000 0 (ram_of code) ltac:(by vm_compute) eq_refl Hu ltac:(by vm_compute)
    ltac:(cbn; lia) ltac:(cbn; lia)) as (m & _ & Hm & _ & _ & _).
  destruct (run_refines _ code [] n m _ _ Hm H) as (m' & _ & Hm'). by exists m'.
Qed.

Ltac bytes := repeat constructor; by vm_compute.

(** PUSH 3, PUSH 4, PUSH 5 *)
Definition three_words : list Z := [0x60; 3; 0x60; 4; 0x60; 5].
(** PUSH 3, PUSH 4, ADD, PUSH 0, MSTORE, PUSH 32, PUSH 0, RETURN *)
Definition sum_program : list Z := [0x60; 3; 0x60; 4; 0x01; 0x60; 0; 0x52; 0x60; 32; 0x60; 0; 0xf3].

Lemma three_words_ready k : 0 <= k <= 29 -> exists m, ready k m [3; 4; 5].
Proof.
  intros Hk.
  eassert (erun (env_of three_words) three_words 3 (einit 0 100000) = Some (Next _)) as E
    by (vm_compute; reflexivity).
  destruct (reached three_words 3 _ ltac:(bytes) ltac:(simpl; lia) E) as (m & Hm).
  exists m. eapply models_ready; [exact Hm|cbn; lia|done].
Qed.

(** ** Programs *)

(** C2: one instruction of the translated code implements one step of the
    abstract machine: from related states, a step to [s'] is an execution to a
    state related to [s'], and a step that ends the run is an exit with the
    same code and output. *)
Theorem instruction_step env code over m s r :
  models env code m s -> estep env code s = Some r ->
  match r with
  | Next s' => exists m', seq_step over m = Ok m' /\ models env code m' s'
  | Halt c o => seq_step over m = Exit c o
  end.
Proof. intros Hm H. destruct r; [by eapply step_refines|by eapply halt_refines]. Qed.

Lemma instruction_step_witness :
  exists m m', seq_step [] m = Ok m' /\ e_stack (einit 0 100000) = [] /\
    stack_is (cpu m') [3].
Proof.
  destruct (reached three_words 0 (einit 0 100000)) as (m & Hm); [bytes|simpl; lia|reflexivity|].
  eassert (estep (env_of three_words) three_words (einit 0 100000) = Some (Next _)) as E
    by (vm_compute; reflexivity).
  destruct (instruction_step _ _ [] m _ _ Hm E) as (m' & E' & Hm').
  exists m, m'. split; [exact E'|]. split; [reflexivity|]. exact (mo_stack _ _ _ _ Hm').
Defined.

(** ** Translation blocks *)

(** C13: executing a translation block without JUMP is executing its
    instructions in sequence; the run then goes on behind the block, except that
    a block which ends the program with an instruction other than PUSH after a
    PUSH leaves [pc] at its last instruction, to be executed again. *)
Theorem block_execution room over e m l npc ch :
  0 <= pc (cpu m) < 2 ^ 32 -> changed_pc m = 0 -> is_pc_const_changed (cpu m) = 0 ->
  gen_intermediate_code (room (pc (cpu m))) e (ram m) (pc (cpu m)) 0 = Ok (l, npc, ch) -> no_jump l ->
  exec_tb room over e m =
  let* m' := seq_run over (length l) (set_changed_pc ch m) in
  Ok (tb_exit (if repeats_last e npc l then npc - 1 else npc) m').
Proof. apply exec_tb_seq. Qed.

Lemma block_execution_witness :
  let m := power_on (ram_of [0x60; 1; 0x60; 2; 0x01]) in
  exec_tb (fun _ _ => true) [] 5 m =
  let* m' := seq_run [] 3 (set_changed_pc 0 m) in Ok (tb_exit (5 - 1) m').
Proof.
  apply (block_execution (fun _ _ => true) [] 5 (power_on (ram_of [0x60; 1; 0x60; 2; 0x01]))
    [mkInsn 0x60 false; mkInsn 0x60 false; mkInsn 0x01 false] 5 0);
    [by vm_compute|reflexivity|reflexivity|vm_compute; reflexivity|repeat constructor; discriminate].
Defined.

(** C25: translation of a block always ends, within the fuel of one round per
    byte of a page, when the page is in memory; the block ends after its first
    address and at most 33 bytes into the next page. *)
Theorem translation_terminates room e r p c :
  0 <= p < 2 ^ 32 -> page_start p + TARGET_PAGE_SIZE <= ram_size r ->
  exists l npc ch, gen_intermediate_code room e r p c = Ok (l, npc, ch) /\
    p < npc < page_start p + TARGET_PAGE_SIZE + 33.
Proof. apply gen_intermediate_code_total. Qed.

Lemma translation_terminates_witness :
  exists l npc ch, gen_intermediate_code (fun _ => true) 13 (ram_of sum_program) 0 0 = Ok (l, npc, ch) /\
    0 < npc < page_start 0 + TARGET_PAGE_SIZE + 33.
Proof. apply (translation_terminates (fun _ => true) 13 (ram_of sum_program) 0 0); by vm_compute. Defined.

(** C26: every instruction except JUMP leaves [pc] alone, apart from PUSH,
    which moves it past its immediate and sets [is_pc_const_changed]; none
    changes the guest's memory or [changed_pc]. *)
Theorem instruction_flow over m m' insn npc :
  disas_ppdl_insn (pc (cpu m)) (ram m) = Ok (insn, npc) -> 0 <= pc (cpu m) < 2 ^ 33 -> insn <> JUMP ->
  genBlock_Main over insn m = Ok m' ->
  pc (cpu m') = (if is_push insn then npc else pc (cpu m)) /\
  is_pc_const_changed (cpu m') = (if is_push insn then 1 else is_pc_const_changed (cpu m)) /\
  changed_pc m' = changed_pc m /\ ram m' = ram m.
Proof. apply exec_flow. Qed.

Lemma instruction_flow_witness :
  exists m m', genBlock_Main [] 0x5b m = Ok m' /\ pc (cpu m') = pc (cpu m).
Proof.
  set (m := power_on (ram_of [0x5b])).
  assert (disas_ppdl_insn (pc (cpu m)) (ram m) = Ok (0x5b, 1)) as Hd by (vm_compute; reflexivity).
  assert (0 <= pc (cpu m) < 2 ^ 33) as Hp by (by vm_compute).
  assert (0x5b <> JUMP) as Hj by discriminate.
  destruct (UseGas_ok 1 m) as (h & E & _);
    [apply bn_inv_init|split; [reflexivity|bytes]|by vm_compute|by vm_compute|].
  exists m, (charged 1 h m). split; [exact E|].
  destruct (instruction_flow [] m (charged 1 h m) 0x5b 1 Hd Hp Hj E) as [H _]. exact H.
Defined.

(** JUMP does not leave its block: of PUSH 5, JUMP, PUSH 1, JUMPDEST,
    PUSH 2 the PUSH that is jumped over is executed too, and both read their
    immediate at the [pc] JUMP has set, not behind their opcode: the stack ends
    as 2, 0 where a jump to JUMPDEST gives the single word 2. *)
Lemma jump_falls_through :
  let code := [0x60; 5; 0x56; 0x60; 1; 0x5b; 0x60; 2] in
  match (let* m := RESET 0 100000 8 (power_on (ram_of code)) in exec_tb (fun _ _ => true) [] 8 m) with
  | Ok m => sp (cpu m) = 2 * 4 - 1 /\ stack_words 2 (stack_arr (cpu m)) = [2; 0]
  | _ => False
  end.
Proof. vm_compute. split; reflexivity. Qed.

(** STATICCALL (0xfa), REVERT (0xfd) and SUICIDE (0xff), caught by the
    group 0xf0 first, do nothing at all, like every opcode of the groups that
    has no entry. *)
Lemma system_opcodes_ignored over insn m :
  0xf5 <= insn <= 0xff \/ 0x21 <= insn <= 0x2f \/ 0xa8 <= insn <= 0xef -> genBlock_Main over insn m = Ok m.
Proof.
  intros H. rewrite genBlock_Main_row by (unfold is_u8; lia). unfold row_effect.
  assert (insn / 16 = 15 \/ insn / 16 = 2 \/ insn / 16 = 10 \/ insn / 16 = 11 \/ insn / 16 = 12 \/ insn / 16 = 13 \/
    insn / 16 = 14) as Hh by dm.
  destruct Hh as [E|[E|[E|[E|[E|[E|E]]]]]]; rewrite E; try reflexivity.
  - assert (5 <= insn mod 16 < 16) as Hr by dm. unfold SystemOps. revert Hr. generalize (insn mod 16). clear.
    intros o Ho. by_opcode o ltac:(idtac; (lia || reflexivity)).
  - by rewrite (proj2 (Z.eqb_neq insn 32)) by dm.
  - by rewrite (proj2 (Z.ltb_ge _ _)) by dm.
Qed.

(** ** Arithmetic and comparison *)



(** C15: the comparisons and bit operations.  LT, GT, SLT, SGT, EQ, AND, OR, XOR
    and BYTE replace the two words on top of the stack, ISZERO and NOT the one,
    by the word [compare_result], and charge 3.  The result is the one of the
    EVM's document (emulator/docs/evm.pdf), except that SLT and SGT, which are
    signed there, compare unsigned words (so the result is the document's when
    the operands have the same sign), and that the index of BYTE is taken modulo
    256 (so the result is the document's when the index is below 256); an
    instance of each departure is given. *)
Theorem comparison opcode m rest a b :
  (0 <= opcode <= 4 \/ 6 <= opcode <= 8 \/ opcode = 10 -> ready 3 m (rest ++ [b; a]) ->
   exists m', DoCompare opcode m = Ok m' /\
   stack_is (cpu m') (rest ++ [compare_result opcode a b]) /\ effect 3 3 m m') /\
  (opcode = 5 \/ opcode = 9 -> ready 2 m (rest ++ [a]) ->
   exists m', DoCompare opcode m = Ok m' /\
   stack_is (cpu m') (rest ++ [compare_result opcode a 0]) /\ effect 3 2 m m') /\
  (0 <= opcode <= 10 -> 0 <= a < W -> 0 <= b < W -> compare_agrees opcode a b ->
   compare_result opcode a b = evm_compare opcode a b) /\
  Forall (fun '(o, a, b) => compare_result o a b <> evm_compare o a b) [(2, W - 1, 0); (3, 0, W - 1); (10, 256, W - 1)].
Proof.
  split; [apply DoCompare_binary|]. split; [apply DoCompare_unary|]. split; [apply compare_result_evm|exact compare_departures].
Qed.

Lemma comparison_witness : exists m m1 m2, DoCompare 1 m = Ok m1 /\ stack_is (cpu m1) [3; 1] /\
  DoCompare 9 m = Ok m2 /\ stack_is (cpu m2) [3; 4; W - 1 - 5] /\ compare_result 2 5 4 = evm_compare 2 5 4.
Proof.
  destruct (three_words_ready 3) as (m & Hm); [lia|].
  assert (ready 2 m ([3; 4] ++ [5])) as Hm2 by (destruct Hm; split; [done..|lia]).
  destruct (proj1 (comparison 1 m [3] 5 4) ltac:(lia) Hm) as (m1 & E1 & H1 & _).
  destruct (comparison 9 m [3; 4] 5 0) as (_ & Hun & _). destruct (Hun ltac:(lia) Hm2) as (m2 & E2 & H2 & _).
  exists m, m1, m2. split; [exact E1|]. split; [exact H1|]. split; [exact E2|]. split; [exact H2|].
  destruct (comparison 2 m [3] 5 4) as (_ & _ & Hv & _). apply Hv; [lia|by vm_compute|by vm_compute|].
  split; intros _; by vm_compute.
Defined.

(** C16: charging gas takes the amount from the counter; when there is less,
    the counter becomes zero and a message is printed, and the run goes on.
    Nothing else of the CPU changes. *)
Theorem gas_charge v m :
  bn_inv (bn m) -> reg_wf (gas_available (cpu m)) -> is_u64 v -> heap_pos (bn m) + 65 <= HEAP_SIZE ->
  exists m', UseGas v m = Ok m' /\
  gas_of (cpu m') = Z.max 0 (gas_of (cpu m) - v) /\
  cpu m' = set_gas_available (gas_available (cpu m')) (cpu m) /\
  stdout m' = stdout m ++ (if gas_of (cpu m) <? v then out_of_gas else []) /\
  bn_clean (bn m') /\ heap_pos (bn m') = heap_pos (bn m) + 65.
Proof.
  intros Hb Hg Hv Hroom. destruct (UseGas_ok v m Hb Hg Hv Hroom) as (h & E & Hc & Hp).
  exists (charged v h m). split; [exact E|]. pose proof (reg_val_256 _ Hg) as Hr.
  unfold charged, gas_left, gas_of in *. unfold is_u64 in Hv.
  destruct (Z.ltb_spec (reg_val (gas_available (cpu m))) v);
    cbn [cpu print with_cpu set_bn gas_available set_gas_available stdout bn]; rewrite reg_val_of by lia;
    (split_and!; [lia|by destruct m as [[]]|by rewrite ?app_nil_r|done|done]).
Qed.

Lemma gas_charge_witness :
  exists m m', UseGas 7 m = Ok m' /\ gas_of (cpu m') = Z.max 0 (gas_of (cpu m) - 7).
Proof.
  destruct (three_words_ready 1) as (m & [_ Hg Hb Hr]); [lia|].
  destruct (gas_charge 7 m Hb Hg ltac:(split; [discriminate|reflexivity]) ltac:(lia)) as (m' & E & H & _).
  exists m, m'. split; [exact E|exact H].
Defined.

(** ** The stack *)

(** C17: PUSH of [cnt] bytes pushes the number the bytes after the opcode spell,
    most significant first; for 8, 16 and 24 bytes the top word is not fully
    written, and the statement leaves these out. *)
Theorem push_immediate (cnt : nat) m ws :
  stack_is (cpu m) ws -> (4 * S (length ws) <= STACK_CELLS)%nat ->
  (1 <= cnt <= 32)%nat -> (cnt mod 8 <> 0 \/ cnt = 32)%nat -> code_in_ram m (Z.of_nat cnt) ->
  exists arr, PushInst (Z.of_nat cnt) m = Ok (push_to arr (S (length ws)) m) /\
  stack_is (cpu (push_to arr (S (length ws)) m)) (ws ++ [be_val (immediate m cnt)]).
Proof. apply PushInst_ok. Qed.

Lemma stack_of_three : exists m, stack_is (cpu m) [3; 4; 5] /\ ready 20 m [3; 4; 5].
Proof.
  destruct (three_words_ready 20) as (m & Hm); [lia|]. exists m. split; [apply Hm|done].
Qed.

Lemma push_immediate_witness :
  exists arr, let m := with_cpu (set_sp (u64 (-1))) (power_on (ram_of [0x61; 1; 2])) in
  PushInst 2 m = Ok (push_to arr 1 m) /\ stack_is (cpu (push_to arr 1 m)) [258].
Proof.
  apply (push_immediate 2 (with_cpu (set_sp (u64 (-1))) (power_on (ram_of [0x61; 1; 2]))) []).
  - split_and!; try reflexivity; [by apply Forall_replicate|simpl; lia].
  - unfold STACK_CELLS; simpl; lia.
  - lia.
  - left. discriminate.
  - split; [bytes|]. split; reflexivity.
Defined.

(** C18: DUP copies the [k]-th word from the top; SWAP exchanges the top word
    with the one [k + 1] below it. *)
Theorem dup_swap k m ws :
  stack_is (cpu m) ws -> (k < 16)%nat ->
  ((k < length ws)%nat -> (4 * S (length ws) <= STACK_CELLS)%nat -> forall w, ws !! (length ws - S k)%nat = Some w ->
    exists arr, DupOp (Z.of_nat k) m = Ok (push_to arr (S (length ws)) m) /\
    stack_is (cpu (push_to arr (S (length ws)) m)) (ws ++ [w])) /\
  ((S k < length ws)%nat -> forall t w, ws !! (length ws - 1)%nat = Some t -> ws !! (length ws - S (S k))%nat = Some w ->
    exists arr, SwapOp (Z.of_nat k) m = Ok (with_cpu (set_stack_arr arr) m) /\
    stack_is (set_stack_arr arr (cpu m))
      (<[(length ws - 1)%nat := w]> (<[(length ws - S (S k))%nat := t]> ws))).
Proof. intros. split; intros; [by apply DupOp_ok|by apply SwapOp_ok]. Qed.

Lemma dup_swap_witness : exists m m1 m2, DupOp 1 m = Ok m1 /\ stack_is (cpu m1) [3; 4; 5; 4] /\
  SwapOp 1 m = Ok m2 /\ stack_is (cpu m2) [5; 4; 3].
Proof.
  destruct stack_of_three as (m & Hm & _). destruct (dup_swap 1 m [3; 4; 5] Hm ltac:(lia)) as [Hd Hs].
  destruct (Hd ltac:(simpl; lia) ltac:(unfold STACK_CELLS; simpl; lia) 4 eq_refl) as (arr1 & E1 & S1).
  destruct (Hs ltac:(simpl; lia) 5 3 eq_refl eq_refl) as (arr2 & E2 & S2).
  eexists m, _, _. split; [exact E1|]. split; [exact S1|]. split; [exact E2|exact S2].
Defined.

(** ** Memory, storage, hash and result *)

(** C20: MSTORE of a word and MLOAD from the same address give the word back,
    memory outside its 32 bytes is unchanged, and the memory size covers them. *)
Theorem mstore_mload (addr : nat) m rest w :
  stack_is (cpu m) (rest ++ [w]) -> 0 <= w < W -> length (data_bus (cpu m)) = 1024%nat ->
  Forall is_u8 (data_bus (cpu m)) -> (addr + 32 <= 1024)%nat ->
  exists m1 m2, MStoreInst (Z.of_nat addr) m = Ok m1 /\ MloadInst (Z.of_nat addr) m1 = Ok m2 /\
  stack_is (cpu m1) rest /\ stack_is (cpu m2) (rest ++ [w]) /\
  data_bus (cpu m1) = take addr (data_bus (cpu m)) ++ be32 w ++ drop (addr + 32) (data_bus (cpu m)) /\
  Z.of_nat addr + 32 <= mem_size (cpu m1).
Proof.
  intros Hs Hw Hl Hu Ha. pose proof (MStoreInst_ok addr m rest w Hs Hl Ha) as E. cbn zeta in E.
  destruct (be32_bytes w) as [Hbl Hbu]. set (m1 := with_cpu _ m) in E.
  assert (stack_is (cpu m1) rest) as Hs1.
  { change (stack_is (set_sp (u64 (4 * Z.of_nat (length rest) - 1)) (cpu m)) rest). by eapply stack_pop. }
  assert (data_bus (cpu m1) = splice addr (be32 w) (data_bus (cpu m))) as Eb by reflexivity.
  assert (length (data_bus (cpu m1)) = 1024%nat) as Hl1 by (rewrite Eb, length_splice_at; lia).
  assert (Forall is_u8 (data_bus (cpu m1))) as Hu1 by (rewrite Eb; by apply splice_bytes).
  assert (4 * S (length rest) <= STACK_CELLS)%nat as Hroom.
  { destruct Hs as (_ & _ & Hn & _ & _). rewrite length_app in Hn. simpl in Hn. lia. }
  destruct (MloadInst_ok addr m1 rest Hs1 Hroom Hl1 Hu1 Ha) as (arr & E2 & Hs2).
  rewrite Eb in Hs2. rewrite <- Hbl in Hs2 at 1. rewrite take_drop_splice, be_val_be32 in Hs2 by (done || lia).
  eexists m1, _. split_and!; [exact E|exact E2|done|exact Hs2| |].
  - rewrite Eb. unfold splice. by rewrite Hbl.
  - change (Z.of_nat addr + 32 <= Z.max (mem_size (cpu m)) (Z.of_nat addr + 32)). lia.
Qed.

Lemma mstore_mload_witness :
  exists m m1 m2, MStoreInst 64 m = Ok m1 /\ MloadInst 64 m1 = Ok m2 /\ stack_is (cpu m2) [3; 4; 5].
Proof.
  eassert (erun (env_of three_words) three_words 3 (einit 0 100000) = Some (Next _)) as E
    by (vm_compute; reflexivity).
  destruct (reached three_words 3 _ ltac:(bytes) ltac:(simpl; lia) E) as (m & [_ Hs _ _ (Hb & Hl & Hu) _ _ _ _ _ _]).
  cbn [e_stack e_mem rev app] in *.
  destruct (mstore_mload 64 m [3; 4] 5 Hs) as (m1 & m2 & E1 & E2 & _ & H2 & _).
  - split; [discriminate|reflexivity].
  - rewrite Hb. reflexivity.
  - rewrite Hb. exact Hu.
  - lia.
  - exists m, m1, m2. split; [exact E1|]. split; [exact E2|exact H2].
Defined.

(** C21: the storage is a map: SSTORE updates it at the key, and SLOAD of a key
    pushes what the map holds, in particular the word just stored. *)
Theorem storage_map_refined k m rest w s :
  stack_is (cpu m) (rest ++ [w]) -> mainStorage m = Some s -> storage_wf s -> is_u32 k -> k <> EMPTY ->
  exists s' m1 m2, SaveToStorage k m = Ok m1 /\ mainStorage m1 = Some s' /\
  storage_map s' = <[k := w]> (storage_map s) /\ storage_wf s' /\ stack_is (cpu m1) rest /\
  LoadFromStorage k m1 = Ok m2 /\ stack_is (cpu m2) (rest ++ [w]) /\ mainStorage m2 = Some s'.
Proof.
  intros Hs Em Hwf Hk Hne. pose proof (u32_id k Hk) as Ek.
  destruct (SaveToStorage_ok k m rest w s Hs Em ltac:(by rewrite Ek) Hwf) as (s' & E & Hmap & Hwf').
  rewrite Ek in Hmap. set (m1 := set_storage _ _) in E.
  assert (stack_is (cpu m1) rest) as Hs1 by (eapply stack_pop; exact Hs).
  assert (4 * S (length rest) <= STACK_CELLS)%nat as Hroom.
  { destruct Hs as (_ & _ & Hn & _ & _). rewrite length_app in Hn. simpl in Hn. lia. }
  destruct (LoadFromStorage_ok k m1 rest s' w Hs1 Hroom eq_refl Hwf') as (arr & E2 & Hs2);
    [by rewrite Ek|by rewrite Ek, Hmap, lookup_insert_eq|].
  eexists s', m1, _. split_and!; [exact E|done|done|done|done|exact E2|exact Hs2|done].
Qed.

Lemma storage_map_refined_witness :
  exists m m1 m2, SaveToStorage 9 m = Ok m1 /\ LoadFromStorage 9 m1 = Ok m2 /\ stack_is (cpu m2) [3; 4; 5].
Proof.
  eassert (erun (env_of three_words) three_words 3 (einit 0 100000) = Some (Next _)) as E
    by (vm_compute; reflexivity).
  destruct (reached three_words 3 _ ltac:(bytes) ltac:(simpl; lia) E) as (m & [_ Hs _ _ _ _ (st & Em & Hwf & _) _ _ _ _]).
  cbn [e_stack rev app] in *.
  destruct (storage_map_refined 9 m [3; 4] 5 st Hs Em Hwf) as (s' & m1 & m2 & E1 & _ & _ & _ & _ & E2 & H2 & _).
  - split; [discriminate|reflexivity].
  - discriminate.
  - exists m, m1, m2. split; [exact E1|]. split; [exact E2|exact H2].
Defined.

(** C22: the end of a run prints, in hexadecimal, the bytes of memory the two
    top words give as offset and size, and exits with code 0; when the low word
    of the gas counter is zero it prints a message instead and exits with -1,
    even if the counter is not zero. *)
Theorem stop_outcome m :
  reg_wf (gas_available (cpu m)) ->
  (gas_of (cpu m) mod 2 ^ 64 = 0 ->
    StopExec m = Exit (-1) (stdout m ++ [10] ++ codes "gas limit error" ++ [10])) /\
  (forall rest offs size, gas_of (cpu m) mod 2 ^ 64 <> 0 ->
    stack_is (cpu m) (rest ++ [size; offs]) -> length (data_bus (cpu m)) = 1024%nat ->
    offs mod 2 ^ 64 + size mod 2 ^ 64 <= 1024 ->
    StopExec m = Exit 0 (stdout m ++ codes "0x" ++
      hex_bytes (take (Z.to_nat (size mod 2 ^ 64)) (drop (Z.to_nat (offs mod 2 ^ 64)) (data_bus (cpu m)))) ++ [10])).
Proof.
  intros Hg. unfold StopExec, helper_error_message. split; [intros; by rewrite result_message_no_gas|].
  intros rest offs size. intros. by rewrite (result_message_ok m rest offs size).
Qed.

Lemma stop_outcome_witness :
  StopExec (with_cpu (set_gas_available [0; 1; 0; 0]) (power_on (ram_of []))) =
    Exit (-1) ([] ++ [10] ++ codes "gas limit error" ++ [10]) /\
  exists m, StopExec m = Exit 0 (stdout m ++ codes "0x" ++
    hex_bytes (take (Z.to_nat (4 mod 2 ^ 64)) (drop (Z.to_nat (5 mod 2 ^ 64)) (data_bus (cpu m)))) ++ [10]).
Proof.
  split.
  { destruct (stop_outcome (with_cpu (set_gas_available [0; 1; 0; 0]) (power_on (ram_of [])))) as [H _];
      [split; [reflexivity|bytes]|]. apply H. vm_compute. reflexivity. }
  eassert (erun (env_of three_words) three_words 3 (einit 0 100000) = Some (Next _)) as E
    by (vm_compute; reflexivity).
  destruct (reached three_words 3 _ ltac:(bytes) ltac:(simpl; lia) E) as (m & [_ Hs [Hg Hge] _ (Hb & Hl & _) _ _ _ _ _ _]).
  cbn [e_stack e_gas e_mem rev app] in *. exists m. destruct (stop_outcome m Hg) as [_ H].
  apply (H [3] 5 4); [rewrite Hge; discriminate|exact Hs|rewrite Hb; reflexivity|discriminate].
Defined.

(** C24: SHA3 of at most 255 bytes pushes the Keccak-256 digest of a range of
    memory, as one big-endian word.  The start and the length are the two top
    words folded by [eaddr], as the code reads them: only the low 64 bits of a
    word count, and byte [k] of them is or-ed in at bit [k] instead of [8 * k].  So a word below 256
    stands for itself, and the digest is the one of the EVM's document then; but
    256 is read as 2, against the document (emulator/docs/evm.pdf). *)
Theorem sha3_pushes_digest env code over m s a b st :
  models env code m s -> e_stack s = a :: b :: st ->
  eaddr b <= 255 -> eaddr a + eaddr b <= 1024 ->
  (exists m', KeccakAlgStub over m = Ok m' /\
   stack_is (cpu m') (rev st ++ [be_val (ref_keccak256 (emem (eaddr a) (eaddr b) s))])) /\
  (forall w, 0 <= w < 256 -> eaddr w = w) /\ eaddr 256 = 2.
Proof.
  intros Hm Es Hb Hab. split; [|split; [exact eaddr_byte|reflexivity]].
  assert (length st < STACK_WORDS)%nat as Hst.
  { destruct (mo_stack _ _ _ _ Hm) as (_ & _ & Hn & _ & _). rewrite Es, length_rev in Hn.
    unfold STACK_CELLS, STACK_WORDS in *. simpl in Hn. lia. }
  assert (esha3 s = Some (put_stack (be_val (ref_keccak256 (emem (eaddr a) (eaddr b) s)) :: st) (put_stack st s))) as He.
  { unfold esha3. rewrite Es, (proj2 (Z.leb_le _ _) Hb), (proj2 (Z.leb_le _ _) Hab). cbn [andb].
    unfold epush. cbn [e_stack put_stack]. rewrite (proj2 (Nat.ltb_lt _ _) Hst). reflexivity. }
  destruct (sha3_refines env code over s _ He m Hm) as (m' & E & Hm').
  exists m'. split; [exact E|]. exact (mo_stack _ _ _ _ Hm').
Qed.

Lemma sha3_pushes_digest_witness :
  exists m m', KeccakAlgStub [] m = Ok m' /\
  stack_is (cpu m') [3; be_val (ref_keccak256 (replicate 4 0))].
Proof.
  eassert (erun (env_of three_words) three_words 3 (einit 0 100000) = Some (Next _)) as E
    by (vm_compute; reflexivity).
  destruct (reached three_words 3 _ ltac:(bytes) ltac:(simpl; lia) E) as (m & Hm).
  destruct (sha3_pushes_digest _ _ [] m _ 5 4 [3] Hm eq_refl) as ((m' & E' & Hs) & _); [discriminate|discriminate|].
  exists m, m'. split; [exact E'|exact Hs].
Defined.

(** Addresses above 255 are folded: byte [k] of an address is shifted by
    [k] instead of [8 * k], so that address [256 * b] is taken for [2 * b]. *)
Lemma address_folded m rest b :
  stack_is (cpu m) (rest ++ [256 * b]) -> 0 <= b < 256 ->
  exists m', GetSingleBlockFromStack m = Ok (2 * b, m').
Proof.
  intros Hs Hb. destruct (GetSingleBlock_ok m rest (256 * b) Hs) as [E _]. eexists.
  rewrite E. do 2 f_equal. rewrite Z.mod_small by lia. unfold block_value.
  assert (le_bytes 8 (256 * b) = [0; b; 0; 0; 0; 0; 0; 0]) as ->.
  { cbn [le_bytes]. rewrite (Z.mul_comm 256), Z.mod_mul, Z.div_mul, (Z.mod_small b), (Z.div_small b) by lia. done. }
  cbn [seq fold_left nth Z.of_nat]. rewrite !Z.shiftl_0_l, !Z.lor_0_r, Z.shiftl_mul_pow2 by lia.
  rewrite ?Z.lor_0_l. simpl. lia.
Qed.
