(* ===== verification/SystemTheorems.v ===== *)
(** * Properties of the whole system

    From the image given on the command line to the end of the run: the loader
    ([hw/core/loader.c]), the board ([hw/ppdl/ppdl.c]), the CPU loop with its
    cache of translated blocks ([cpu-exec.c], [translate-all.c]), and the trace
    options ([qemu-trace.c], [include/qemu/trace.h]). *)

From stdpp Require Import base numbers list option strings gmap.
From Stdlib Require Import ZArith Lia.
From S2P Require Import Prelude Words Bignum BignumSpec BignumHeap BignumStr Cpu Arithm ArithmSpec Storage Loader Elf ElfSpec Helpers HelpersSpec MemSpec PushSpec Keccak KeccakSpec Translate TraceFilter TraceFilterSpec TranslateSpec Typing Bounds Evm EvmSpec RunSpec TbCache TbCacheSpec TbPages TbInvalidate Board.

(** ** Examples *)

(** A code generator that needs 64 bytes per block, and the identity for the
    guest's address translation. *)
Definition small_tcg : tcg := mkTcg 1024 (2 ^ 25) (2 ^ 24) (fun _ => 64) (fun p => p).

#[export] Instance small_tcg_limits : TcgLimits small_tcg.
Proof. split; [simpl; lia|done|]. intros l. by vm_compute. Qed.

(** PUSH 3, PUSH 4, ADD, PUSH 0, MSTORE, PUSH 32, PUSH 0, RETURN *)
Definition adder : list Z := [0x60; 3; 0x60; 4; 0x01; 0x60; 0; 0x52; 0x60; 32; 0x60; 0; 0xf3].

(** The file an image comes from: two hexadecimal digits per byte. *)
Definition image_of (up : bool) (code : list Z) : image :=
  mkImage (hex_text up code) (Z.of_nat (length (hex_text up code))).

Lemma hex_text_is_hex up code : Forall is_u8 code -> Forall is_hex (hex_text up code).
Proof.
  intros H. induction H as [|b l Hb H IH]; [constructor|]. unfold hex_text. cbn [flat_map app].
  assert (forall n, 0 <= n < 16 -> is_hex ((if up then HEXDIG else hexdig) n)) as Hd.
  { intros n Hn. unfold is_hex, HEXDIG, hexdig. destruct up, (Z.ltb_spec n 10); lia. }
  unfold is_u8 in Hb. repeat (apply Forall_cons_2; [apply Hd; dm|]). exact IH.
Qed.

Lemma length_hex_text up code : length (hex_text up code) = (2 * length code)%nat.
Proof. induction code as [|b l IH]; [done|]. unfold hex_text in *. cbn [flat_map app length]. lia. Qed.

(** ** Programs *)

(** C1: an image of hexadecimal text, in either case, is loaded, the machine is
    reset and the CPU loop runs it, with its cache of translated blocks and
    whatever division into blocks the operation buffer asks for: a program
    without JUMP that the abstract machine runs to its end in [n] steps ends
    with the same exit code and the same output.  The text has at most
    0x7ffff000 bytes, what one [read] can give (its size has to fit an [int]).  The flags with which blocks
    are looked up, which the code leaves unset, do not matter. *)
Theorem program_correct g `{!TcgLimits g} h flags room over up code gas ramsize n c o :
  let size := Z.of_nat (length code) in
  Forall is_u8 code -> (2 <= length code)%nat -> is_u64 gas -> Forall (fun b => b <> JUMP) code ->
  2 * size <= MAX_RW_COUNT -> 2 * size + TARGET_PAGE_SIZE <= ramsize -> ramsize < 2 ^ 32 ->
  erun (boot_env gas size) code n (einit 0 gas) = Some (Halt c o) ->
  run_image h g flags room over (Some (Some (image_of up code))) KERNEL_LOAD_ADDR gas ramsize n
  = Exit c o.
Proof.
  intros size Hu Hl Hg Hj Hi Hr H32 Hrun. pose proof (hex_pairs_text up code Hu) as Ep.
  pose proof (length_hex_text up code) as Elen. unfold size in Hi, Hr.
  apply run_image_refines; rewrite ?Ep; try done; [by apply hex_text_is_hex|rewrite Elen; lia..].
Qed.

Lemma program_correct_witness :
  run_image small_host small_tcg Z.of_nat (fun _ _ => true) []
    (Some (Some (image_of true adder))) KERNEL_LOAD_ADDR 100000 4096 8 =
  Exit 0 (codes "0x0000000000000000000000000000000000000000000000000000000000000007" ++ [10]).
Proof.
  apply (program_correct small_tcg small_host Z.of_nat (fun _ _ => true) [] true adder 100000 4096 8).
  - repeat constructor; by vm_compute.
  - simpl; lia.
  - by vm_compute.
  - repeat constructor; discriminate.
  - by vm_compute.
  - by vm_compute.
  - by vm_compute.
  - vm_compute. reflexivity.
Defined.

(** C3: the CPU loop with its cache of translated blocks (the jump cache, the
    hash table with its move to front, the flush when the buffer is full) has
    the outcome of translating every block anew when it is met: the same state,
    exit, exception or undefined behaviour, from every consistent cache and for
    every sequence of lookup flags, when no PUSH ends exactly at the end of the
    program. *)
Theorem cache_transparent g `{!TcgLimits g} room over e n flags m c :
  no_push_end e (ram m) -> changed_pc m = 0 -> cache_ok g room e (ram m) c ->
  cpu_exec_result (cpu_exec g room over e n flags m c) = run n room over e m.
Proof. by apply cpu_exec_run. Qed.

(** JUMPDEST alone. *)
Definition one_insn : guest_ram := mkRam [0x5b] 4096.
Lemma one_insn_end : no_push_end 1 one_insn.
Proof.
  intros p insn H. unfold disas_ppdl_insn, ram_byte in H. destruct (_ && _) eqn:E in H; [|discriminate H].
  cbn [obind] in H. injection H as Hi Hn. pose proof (shift_pc_range insn) as Hs. rewrite Hi in Hn.
  cbn [ram_size one_insn] in E. rewrite u64_id in Hn by (unfold is_u64; lia).
  assert (p = 0) as -> by lia. by rewrite <- Hi.
Qed.

Lemma cache_transparent_witness :
  cpu_exec_result (cpu_exec small_tcg (fun _ _ => true) [] 1 5 Z.of_nat (power_on one_insn) ctx_init) =
  run 5 (fun _ _ => true) [] 1 (power_on one_insn).
Proof.
  apply (cache_transparent small_tcg (fun _ _ => true) [] 1 5 Z.of_nat (power_on one_insn) ctx_init);
    [exact one_insn_end|reflexivity|apply cache_ok_init; by vm_compute].
Defined.

(** C4: looking a block up, by whatever way, keeps the cache consistent (every
    hash list a duplicate-free list of live blocks of its bucket, every jump
    cache entry live, every block the translation of the memory at its address,
    the number of blocks and the code within their buffers) and gives the block
    whose code is the translation at [pc]. *)
Theorem lookup_finds_translation g `{!TcgLimits g} room e flags m c l dc ch :
  let p := env_pc (cpu m) in
  cache_ok g room e (ram m) c -> changed_pc m = 0 ->
  gen_intermediate_code (room p) e (ram m) p 0 = Ok (l, dc, ch) ->
  exists i c' v, tb_find_fast g room e flags m c = Ok (i, c', v) /\ cache_ok g room e (ram m) c' /\
    is_block g p l dc c' i /\ (v = ch \/ v = 0).
Proof. intros p Hc H0 Hg. by apply tb_find_fast_ok. Qed.

Lemma lookup_finds_translation_witness :
  exists i c' v, tb_find_fast small_tcg (fun _ _ => true) 1 7 (power_on one_insn) ctx_init = Ok (i, c', v) /\
    cache_ok small_tcg (fun _ _ => true) 1 one_insn c' /\ is_block small_tcg 0 [mkInsn 0x5b false] 1 c' i /\ (v = 0 \/ v = 0).
Proof.
  apply (lookup_finds_translation small_tcg (fun _ _ => true) 1 7 (power_on one_insn) ctx_init [mkInsn 0x5b false] 1 0);
    [apply cache_ok_init; by vm_compute|reflexivity|reflexivity].
Defined.

(** C40: every live block of a consistent cache can be invalidated: the walks
    through its hash list and the lists of the one or two pages of its code end
    and find it, afterwards exactly the other blocks are live (no lookup, by
    jump cache or hash list, finds it again), and the cache stays consistent. *)
Theorem block_invalidated g `{!FlatCode g} room e r i c :
  cache_ok g room e r c -> pages_ok g c -> live g c i ->
  exists c', tb_phys_invalidate i (-1) c = Ok c' /\ cache_ok g room e r c' /\ pages_ok g c' /\
  (forall j, live g c' j <-> live g c j /\ j <> i) /\
  forall h, tb_jmp_cache c' !! h <> Some i.
Proof.
  intros [Hc Hj Hk] Hp Hi. destruct (invalidate_live g i c Hc Hj Hp Hi) as (c' & E & Hc' & Hj' & Hp' & Hs & Hl & _).
  exists c'. split; [exact E|]. split; [|split; [exact Hp'|split; [exact Hl|]]].
  - split; [exact Hc'|exact Hj'|]. intros j [Hlj _]%Hl. eapply same_code; [apply Hs|]. exact (Hk j Hlj).
  - intros h Hh. destruct (Hj' h i Hh) as [[_ Hne]%Hl _]. by apply Hne.
Qed.

#[export] Instance small_tcg_flat : FlatCode small_tcg.
Proof. by intros pc _. Qed.

(** The cache after the first block of [one_insn]. *)
Definition one_block : tb_ctx :=
  match tb_find_fast small_tcg (fun _ _ => true) 1 7 (power_on one_insn) ctx_init with
  | Ok (_, c, _) => c
  | _ => ctx_init
  end.

Lemma one_block_ok : cache_ok small_tcg (fun _ _ => true) 1 one_insn one_block /\ pages_ok small_tcg one_block /\
  live small_tcg one_block 0.
Proof.
  destruct (tb_find_fast_ok small_tcg (fun _ _ => true) 1 7 (power_on one_insn) ctx_init [mkInsn 0x5b false] 1 0)
    as (i & c & v & E & Hc & _); [apply cache_ok_init; by vm_compute|reflexivity|reflexivity|].
  unfold one_block. rewrite E. split; [exact Hc|]. split.
  - apply (tb_find_fast_pages small_tcg (fun _ _ => true) 1 7 (power_on one_insn) ctx_init [mkInsn 0x5b false] 1 0 i c v);
      [apply cache_ok_init; by vm_compute|apply pages_ok_init|reflexivity|reflexivity|exact E].
  - assert (one_block = c) as <- by (unfold one_block; by rewrite E).
    exists [0%nat]. split; [|apply list_elem_of_here].
    split; [by vm_compute|]. split; [apply NoDup_singleton|]. apply Forall_singleton. vm_compute. split; [lia|done].
Qed.

Lemma block_invalidated_witness :
  exists c', tb_phys_invalidate 0 (-1) one_block = Ok c' /\ ~ live small_tcg c' 0 /\ tb_jmp_cache c' !! 0 <> Some 0%nat.
Proof.
  destruct one_block_ok as (Hc & Hp & Hl).
  destruct (block_invalidated small_tcg (fun _ _ => true) 1 one_insn 0 one_block Hc Hp Hl) as (c' & E & _ & _ & Hv & Hj).
  exists c'. split; [exact E|]. split; [|apply Hj]. intros H. apply Hv in H as [_ H]. by apply H.
Defined.

(** ** Types, bounds and the end of runs *)

Lemma zero_words n : words n (replicate n 0).
Proof. split; [apply length_replicate|by apply Forall_replicate]. Qed.

Lemma heap_init_at : heap_at 0 heap_init.
Proof. split; [|done]. unfold heap_init, HEAP_SIZE. cbn [cells]. rewrite length_replicate. lia. Qed.

Lemma power_on_typed G r : G 0 -> typed_with G (power_on r).
Proof.
  intros H0. split; try done; [exact (zero_words 2048)|exact (zero_words 1024)|exact (zero_words 4)| |constructor].
  split; [exact (zero_words 1024)|]. split; [exact (zero_words 1024)|]. split_and!; try done.
  repeat (apply Forall_cons_2; [done|]). constructor.
Qed.

Lemma reset_state entry gas size r m : RESET entry gas size (power_on r) = Ok m ->
  typed_with (fun _ => True) m /\ at_pos 0 m /\ is_pc_const_changed (cpu m) = 0 /\ ram m = r.
Proof.
  intros H. split.
  - exact (typed_RESET _ entry gas size (power_on r) m (power_on_typed _ r I) I I H).
  - destruct (reset_power_on r entry gas size) as (m' & E & saved & Em). rewrite E in H. apply Ok_inj in H as <-.
    clear E. subst m'. split; [exact heap_init_at|split; reflexivity].
Qed.


(** C6: the position of the bignum heap counts the registers loaded by the
    instructions executed since reset, 65 cells each; as none is given back, a
    run loads at most 32 registers. *)
Theorem registers_bounded entry gas size r room over e n m ls m' :
  RESET entry gas size (power_on r) = Ok m -> executes room over e n m ls m' ->
  heap_pos (bn m') = 65 * total ls /\ total ls <= 32.
Proof.
  intros H Hx. apply reset_state in H as (_ & Hp & _).
  pose proof (executes_pos _ _ _ _ _ _ _ _ Hx Hp) as (_ & -> & _).
  pose proof (executes_bound _ _ _ _ _ _ _ _ Hx Hp). unfold HEAP_SIZE in *. lia.
Qed.

(** C7: every run ends, whatever the program does, jumps included: from reset
    the emulator executes at most 33 blocks per byte of memory before the
    program exits, an exception is raised or behaviour is undefined. *)
Theorem every_run_ends entry gas size r room over e n m :
  RESET entry gas size (power_on r) = Ok m -> 0 <= ram_size r -> ram_size r + 32 < 2 ^ 32 ->
  33 * ram_size r < Z.of_nat n ->
  (exists c o, run n room over e m = Exit c o) \/ (exists k, run n room over e m = Raise k) \/
  run n room over e m = Undef.
Proof.
  intros H H0 Hr Hn. apply reset_state in H as (Ht & Hp & Hf & Em). rewrite <- Em in *.
  destruct (run n room over e m) as [m'| | |] eqn:E; eauto.
  destruct (run_length _ _ _ _ _ _ _ Hp Ht Hr Hf E); subst; lia.
Qed.

Definition loop_ram : guest_ram := mkRam [0x60; 0; 0x56] 4096.

(** One block of PUSH 0, JUMP. *)
Lemma loop_block : exists m m', RESET 0 100000 3 (power_on loop_ram) = Ok m /\ run 1 (fun _ _ => true) [] 3 m = Ok m'.
Proof.
  assert (match (let* m := RESET 0 100000 3 (power_on loop_ram) in run 1 (fun _ _ => true) [] 3 m) with
    | Ok _ => true | _ => false end = true) as H by (by vm_compute).
  destruct (RESET 0 100000 3 (power_on loop_ram)) as [m| | |] eqn:E; [|discriminate H..]. cbn [obind] in H.
  destruct (run 1 (fun _ _ => true) [] 3 m) as [m'| | |] eqn:E1; [|discriminate H..]. exists m, m'. split; [reflexivity|exact E1].
Qed.


Lemma registers_bounded_witness : exists m m' ls, RESET 0 100000 3 (power_on loop_ram) = Ok m /\
  executes (fun _ _ => true) [] 3 1 m ls m' /\ heap_pos (bn m') = 65 * total ls /\ total ls <= 32.
Proof.
  destruct loop_block as (m & m' & E & E1). apply run_executes in E1 as (ls & Hx). exists m, m', ls.
  split; [exact E|]. split; [exact Hx|].
  exact (registers_bounded 0 100000 3 loop_ram (fun _ _ => true) [] 3 1 m ls m' E Hx).
Defined.

Lemma every_run_ends_witness : exists m, RESET 0 100000 3 (power_on loop_ram) = Ok m /\
  let n := Z.to_nat (33 * 4096 + 1) in
  ((exists c o, run n (fun _ _ => true) [] 3 m = Exit c o) \/ (exists k, run n (fun _ _ => true) [] 3 m = Raise k) \/
  run n (fun _ _ => true) [] 3 m = Undef).
Proof.
  destruct loop_block as (m & _ & E & _). exists m. split; [exact E|]. cbv zeta.
  apply (every_run_ends 0 100000 3 loop_ram (fun _ _ => true) [] 3 (Z.to_nat (33 * 4096 + 1)) m E);
    [by vm_compute|by vm_compute|rewrite Z2Nat.id by lia; cbn [ram_size loop_ram]; lia].
Defined.

(** C8: a block that ends with JUMP.  When a PUSH comes before the JUMP in the
    same block, the run goes on one byte behind the popped address (at it, when
    the JUMP ends the program); without a PUSH the jump is lost and the run
    goes on behind the JUMP. *)
Theorem jump_taken room over e m l add npc ch m' :
  0 <= pc (cpu m) < 2 ^ 32 -> changed_pc m = 0 -> is_pc_const_changed (cpu m) = 0 ->
  gen_intermediate_code (room (pc (cpu m))) e (ram m) (pc (cpu m)) 0 = Ok (l ++ [mkInsn JUMP add], npc, ch) ->
  no_jump l -> exec_tb room over e m = Ok m' ->
  exists m1 addr m2, run_insns over l (set_changed_pc ch m) = Ok m1 /\ GetSingleBlockFromStack m1 = Ok (addr, m2) /\
  pc (cpu m') = if has_push l then (if add then u64 (addr + 1) else addr) else npc.
Proof.
  intros Hp Hc Hf Hg Hj H. rewrite (exec_tb_code room over e m _ npc ch) in H by done.
  apply gen_loop_u8, Forall_app in Hg as [Hu _]. by apply block_jump with (1 := Hu).
Qed.

Lemma jump_taken_witness : exists m m' m1 addr m2,
  run_insns [] [mkInsn 0x60 false] (set_changed_pc 0 m) = Ok m1 /\ GetSingleBlockFromStack m1 = Ok (addr, m2) /\
  pc (cpu m') = addr.
Proof.
  destruct loop_block as (m & m' & E & E1). cbn [run] in E1. apply obind_ok in E1 as (m2 & E1 & _).
  destruct (reset_power_on loop_ram 0 100000 3) as (m0 & E0 & saved & Em). rewrite E in E0. apply Ok_inj in E0. subst m0.
  exists m, m2. refine (jump_taken (fun _ _ => true) [] 3 m [mkInsn 0x60 false] false 3 0 m2 _ _ _ _ _ E1); clear E E1.
  - rewrite Em. by vm_compute.
  - by rewrite Em.
  - by rewrite Em.
  - rewrite Em. vm_compute. reflexivity.
  - repeat constructor. discriminate.
Defined.

(** ** The loader *)

(** C9: the file of a program, two hexadecimal digits per byte in either case,
    ends up in memory as the program: when the machine starts, memory holds its
    bytes from address 0 and zeros behind them, the end of the program is its
    length, and the CPU has been reset to run from address 0 with an empty
    stack.  The text has at most 0x7ffff000 bytes, what one [read] can give; a
    text of 2 to 4 GiB, whose size is negative in an [int], is refused, and the
    start ends with exit code 1. *)
Theorem image_loaded h up code gas ramsize :
  let size := Z.of_nat (length code) in
  Forall is_u8 code -> (2 <= length code)%nat -> 2 * size <= ramsize -> ramsize < 2 ^ 64 ->
  (2 * size <= MAX_RW_COUNT ->
    exists b, start h (Some (Some (image_of up code))) KERNEL_LOAD_ADDR gas ramsize = Ok b /\
    ram (bm b) = mkRam code ramsize /\ end_pc (ldr b) = size /\
    pc (cpu (bm b)) = 0 /\ sp (cpu (bm b)) = 2 ^ 64 - 1 /\ elfSize (cpu (bm b)) = size /\
    GasLimit (cpu (bm b)) = gas) /\
  (2 ^ 31 <= 2 * size < 2 ^ 32 ->
    exists o, start h (Some (Some (image_of up code))) KERNEL_LOAD_ADDR gas ramsize = Exit 1 o).
Proof.
  intros size Hu Hl Hr H64. unfold size in *. split; intros Hi;
    [|apply start_text_too_large; rewrite ?length_hex_text; [by apply hex_text_is_hex|lia..]].
  pose proof (hex_pairs_text up code Hu) as Ep. pose proof (length_hex_text up code) as El.
  destruct (start_text h (hex_text up code) (hex_text_is_hex up code Hu)
    ltac:(lia) gas ramsize ltac:(lia) ltac:(lia) H64) as (b & E & He & Hb).
  rewrite Ep in He, Hb. exists b. split; [exact E|]. destruct Hb as (saved & ->). split_and!; try done.
Qed.

Lemma image_loaded_witness :
  exists b, start small_host (Some (Some (image_of false adder))) KERNEL_LOAD_ADDR 100000 4096 = Ok b /\
  ram (bm b) = mkRam adder 4096 /\ end_pc (ldr b) = Z.of_nat (length adder) /\
  pc (cpu (bm b)) = 0 /\ sp (cpu (bm b)) = 2 ^ 64 - 1 /\ elfSize (cpu (bm b)) = Z.of_nat (length adder) /\
  GasLimit (cpu (bm b)) = 100000.
Proof.
  apply (image_loaded small_host false adder 100000 4096);
    [repeat constructor; by vm_compute|simpl; lia|by vm_compute|by vm_compute|by vm_compute].
Defined.

(** C10: every image the loader accepted is in memory after the reset, byte for
    byte, wherever memory reaches: no other image has overwritten it. *)
Theorem images_intact l l' addr r rom (j : nat) :
  rom_load_loop addr l = Some l' -> Forall rom_ok l -> rom ∈ l -> (j < length (default [] (rom_data rom)))%nat ->
  rom_addr rom + Z.of_nat j < ram_size r ->
  nth (Z.to_nat (rom_addr rom) + j) (ram_bytes (rom_reset l' r).2) 0 = nth j (default [] (rom_data rom)) 0.
Proof. apply rom_reset_loaded. Qed.

Definition rom_at (addr : Z) (data : list Z) : Rom :=
  mkRom addr (Z.of_nat (length data)) (Z.of_nat (length data)) (Some data) false false false.

Lemma images_intact_witness : exists l', rom_load_loop 0 [rom_at 4 [1; 2]; rom_at 6 [7; 8; 9]] = Some l' /\
  nth (Z.to_nat 4 + 1) (ram_bytes (rom_reset l' (mkRam [] 4096)).2) 0 = 2.
Proof.
  eexists. split; [reflexivity|].
  apply (images_intact [rom_at 4 [1; 2]; rom_at 6 [7; 8; 9]] _ 0 (mkRam [] 4096) (rom_at 4 [1; 2]) 1).
  - reflexivity.
  - repeat apply Forall_cons_2; try apply Forall_nil_2; (split_and!; try done; by eexists).
  - apply list_elem_of_here.
  - simpl; lia.
  - by vm_compute.
Defined.

(** ** Trace options *)

(** C11: [-regtrace] with a list of register names (fewer than the list can
    hold) selects exactly the registers named: the tracer shows a register if
    and only if its name is in the list.  [-memtrace] with one address or one
    range of addresses of the RAM, written in hexadecimal, either traces exactly
    those addresses or is refused with a message, for every contents of the
    stack behind the unterminated copy in [addrmatch]; it is accepted when a NUL
    is behind each copy.  Other contents can have a valid address refused: five
    more characters do it for 0x1000. *)
Theorem trace_filters_exact stack ks ns reg idx a b :
  named ks ns -> ns <> [] -> (length ks < REGTRACE_LIST_LEN)%nat -> 0 <= a <= b -> b <= RAM_MAX_ADDR ->
  (exists l, qemu_str_to_trace_list (join ns) = Ok l /\
    (qemu_reg_mask false l reg idx = true <-> reg_name reg idx ∈ ns)) /\
  traces stack (addr_text a) (fun addr => addr =? a) /\
  traces stack (addr_text a ++ DASH :: addr_text b) (fun addr => (a <=? addr) && (addr <=? b)) /\
  qemu_str_to_memtrace_list (fun _ => codes "abcde") (codes "0x1000") mem_list_init = Exit (-1) (INVALID ++ mem_usage).
Proof.
  intros Hn Hne Hl Ha Hb. split; [|split; [apply mem_single; lia|split; [by apply mem_range|exact address_refused]]].
  exists (map Z.of_nat ks). split; [|by apply reg_mask_named].
  unfold qemu_str_to_trace_list. rewrite (trace_list_loop_ok ks ns [] _ Hn Hne); [done|lia|done].
Qed.

Lemma trace_filters_exact_witness :
  (exists l, qemu_str_to_trace_list (codes "sp,gas_available3") = Ok l /\
    (qemu_reg_mask false l "gas_available" 3 = true <-> reg_name "gas_available" 3 ∈ [codes "sp"; codes "gas_available3"])) /\
  traces (fun _ => []) (codes "0x1000") (fun addr => addr =? 4096) /\
  traces (fun _ => []) (codes "0x1000-0x1fff") (fun addr => (4096 <=? addr) && (addr <=? 8191)) /\
  qemu_str_to_memtrace_list (fun _ => codes "abcde") (codes "0x1000") mem_list_init = Exit (-1) (INVALID ++ mem_usage).
Proof.
  apply (trace_filters_exact (fun _ => []) [8%nat; 12%nat] [codes "sp"; codes "gas_available3"] "gas_available" 3 4096 8191).
  - repeat apply Forall2_cons_2; [vm_compute; reflexivity|vm_compute; reflexivity|apply Forall2_nil_2].
  - discriminate.
  - apply Nat.ltb_lt. vm_compute. reflexivity.
  - lia.
  - by vm_compute.
Defined.
