(* ===== verification/DebugTheorems.v ===== *)
(** * Properties of debugging

    The statements about the debugger stub ([gdbstub.c]) and the debugger's
    access to the CPU ([exec.c], [translate-all.c]): a session as a sequence of
    bytes received, from the machine stopped to the machine running on. *)

From stdpp Require Import base numbers list option strings gmap.
From Stdlib Require Import ZArith Lia.
From S2P Require Import Prelude Words Bignum BignumSpec BignumHeap BignumStr Cpu Arithm ArithmSpec Mmu Gdb GuestMem Loader Helpers HelpersSpec Translate TraceFilter TranslateSpec Evm EvmSpec RunSpec TbCache TbCacheSpec TbPages TbInvalidate Debug GdbStub GdbSpec GdbFrame MachineTheorems SystemTheorems.

(** A machine stopped under the debugger, nothing translated yet. *)
Definition debugged (m : machine) : stub :=
  mkStub (gdb_state_init RS_IDLE) 7 false GDB_SYS_UNKNOWN
    (mkVm (mkCPUState [] [] None 0 false) m (cpu_ppdl_mmu_init (mkMmu [] [] get_phys_nommu get_phys_nommu 0 0 0)) ctx_init
       RUN_STATE_PAUSED) [] [].

Lemma debugged_ok room e m : ram_size (ram m) <= 2 ^ 63 -> stub_ok small_tcg room e (debugged m) /\ idle (debugged m).
Proof.
  intros Hr. split; [|done]. split; [|by vm_compute|apply Nat.le_0_l|by vm_compute].
  split; [apply cache_ok_init; by vm_compute|apply pages_ok_init|reflexivity|exact Hr].
Qed.

(** The stack of the host, all zeros. *)
Definition zero_stack : list Z := replicate MAX_PACKET_LENGTH 0.

(** C12: the debugger's step command executes one instruction.  From a stopped
    machine that models a state of the abstract machine, the packet [s] is
    acknowledged and the CPU loop runs, through its cache, exactly one step of
    the abstract machine; the machine stops again with single stepping off and
    reports the trap.  A step that ends the program ends the process with its
    code and output. *)
Theorem debugger_step g `{!TcgLimits g, !FlatCode g} env code room over other stack flags s x r :
  let e := Z.of_nat (length code) in let m := mc (sv s) in
  stub_ok g room e s -> idle s ->
  current_run_state (sv s) = RUN_STATE_PAUSED \/ current_run_state (sv s) = RUN_STATE_DEBUG ->
  sstep_flags s <> 0 -> watchpoint_hit (cs (sv s)) = None ->
  models env code m x -> is_pc_const_changed (cpu m) = 0 -> changed_pc m = 0 ->
  jump_free (ram m) -> e + TARGET_PAGE_SIZE <= ram_size (ram m) -> estep env code x = Some r ->
  exists s1, gdb_chr_receive g other stack (packet (codes "s")) s = Ok s1 /\
  match r with
  | Next x' => exists s2, debug_round g room over e flags s1 = Ok s2 /\ models env code (mc (sv s2)) x' /\
      stub_ok g room e s2 /\ idle s2 /\ singlestep_enabled (cs (sv s2)) = 0 /\
      sent s2 = sent s ++ codes "+" ++ packet (codes "T05thread:01;")
  | Halt c o => debug_round g room over e flags s1 = Exit c o
  end.
Proof.
  intros e m Hs Hi Hr Hf Hw Hm Hflag H0 Hj Hram Hstep.
  destruct (step_packet g room e other stack s Hs Hi Hr) as (s1 & E1 & Hs1 & Hm1 & Hr1 & Hf1 & Hw1 & Hsent & Hst).
  exists s1. split; [exact E1|]. fold m in Hm1.
  destruct (single_refines env code over m x r Hm Hflag Hj Hram Hstep) as (l & npc & ch & Hg & Hx). fold e in Hg.
  destruct (debug_round_ok g room e other over flags s1 l npc ch) as (v & _ & Hd); try done; rewrite ?Hm1, ?Hf1, ?Hw1, ?Hst; try done.
  rewrite Hm1 in Hd. specialize (Hx v). destruct r as [x'|c o].
  - destruct Hx as (m' & Em & Hx). rewrite Em in Hd. destruct Hd as (s2 & E2 & Hs2 & Hm2 & Hr2 & Hf2 & Hsent2 & Hst2).
    exists s2. split; [exact E2|]. split; [by rewrite Hm2|]. split; [exact Hs2|]. split.
    + split; [by rewrite Hst2|]. unfold runstate_is_running, runstate_check. by rewrite Hr2.
    + split; [exact Hf2|]. rewrite Hsent2, Hsent, <- app_assoc. done.
  - rewrite Hx in Hd. exact Hd.
Qed.

Lemma debugger_step_witness : exists m s1 s2,
  gdb_chr_receive small_tcg (fun _ => false) zero_stack (codes "$s#73") (debugged m) = Ok s1 /\
  debug_round small_tcg (fun _ _ => true) [] 6 7 s1 = Ok s2 /\ stack_is (cpu (mc (sv s2))) [3] /\
  sent s2 = codes "+$T05thread:01;#07".
Proof.
  destruct (reset_models three_words 100000 0 (ram_of three_words) ltac:(by vm_compute) eq_refl ltac:(bytes)
    ltac:(by vm_compute) ltac:(cbn; lia) ltac:(cbn; lia)) as (m & _ & Hm & H0 & Hf & Hr).
  destruct (debugged_ok (fun _ _ => true) 6 m) as [Hok Hi]; [rewrite Hr; by vm_compute|].
  eassert (estep (env_of three_words) three_words (einit 0 100000) = Some (Next _)) as E by (vm_compute; reflexivity).
  assert (jump_free (ram m)) as Hj by (rewrite Hr; repeat constructor; discriminate).
  assert (6 + TARGET_PAGE_SIZE <= ram_size (ram m)) as Hram by (rewrite Hr; by vm_compute).
  destruct (debugger_step small_tcg (env_of three_words) three_words (fun _ _ => true) [] (fun _ => false) zero_stack 7 (debugged m) _ _
    Hok Hi (or_introl eq_refl) ltac:(discriminate) eq_refl Hm Hf H0 Hj Hram E) as (s1 & E1 & s2 & E2 & Hm2 & _ & _ & _ & Hsent).
  exists m, s1, s2. split; [exact E1|]. split; [exact E2|]. split; [exact (mo_stack _ _ _ _ Hm2)|exact Hsent].
Defined.

(** C19: whatever the debugger sends, to a stopped or a running machine, as
    long as the stub returns, its buffer stays within bounds and terminated and
    the translated code stays consistent: with the memory after the debugger's
    writes, and with the mode (normal or single-step).  So the CPU loop that
    goes on runs the program now in memory, as if nothing had been translated
    before. *)
Theorem session_consistent g `{!TcgLimits g, !FlatCode g} room e other stack buf s s' :
  stub_ok g room e s -> gdb_chr_receive g other stack buf s = Ok s' ->
  let v := sv s' in
  stub_ok g room e s' /\
  forall n over flags, no_push_end e (ram (mc v)) -> changed_pc (mc v) = 0 ->
    cpu_exec_result (cpu_exec g (step_room room v) over e n flags (mc v) (tc v)) = run n (step_room room v) over e (mc v).
Proof.
  intros Hs E v. pose proof (holds_ok _ _ _ (receive_ok g room e other stack buf s Hs) E) as Hs'. split; [exact Hs'|].
  intros n over flags Hn H0. pose proof (vo_cache _ _ _ _ (so_vm _ _ _ _ Hs')) as Hc. by apply cpu_exec_run.
Qed.

(** The machine of [one_insn], stopped after its block was translated. *)
Definition translated : stub :=
  let s := debugged (power_on one_insn) in set_sv (set_tc one_block (sv s)) s.

Lemma translated_ok : stub_ok small_tcg (fun _ _ => true) 1 translated.
Proof.
  destruct one_block_ok as (Hc & Hp & _). destruct (debugged_ok (fun _ _ => true) 1 (power_on one_insn)) as [[[] ] _]; [by vm_compute|].
  split; [|done..]. split; [exact Hc|exact Hp|done|done].
Qed.

(** A single instruction other than PUSH. *)
Lemma byte_end b p insn : u8 (i8 b) = b -> is_push b = false -> disas_ppdl_insn p (mkRam [b] 4096) = Ok (insn, 1) -> is_push insn = false.
Proof.
  intros Hb Hi H. unfold disas_ppdl_insn, ram_byte in H. destruct (_ && _) eqn:E in H; [|discriminate H].
  cbn [obind] in H. injection H as H1 Hn. pose proof (shift_pc_range insn) as Hs. rewrite H1 in Hn.
  cbn [ram_size] in E. rewrite u64_id in Hn by (unfold is_u64; lia).
  assert (p = 0) as -> by lia. cbn in H1. change (u8 (i8 b) = insn) in H1. by rewrite <- H1, Hb.
Qed.

(** [M0,1:58], which replaces the instruction. *)
Definition patch : list Z := packet (write_text 0 [0x58]).

Definition patched : stub :=
  match gdb_chr_receive small_tcg (fun _ => false) zero_stack patch translated with Ok s => s | _ => translated end.

Lemma patched_ok : gdb_chr_receive small_tcg (fun _ => false) zero_stack patch translated = Ok patched /\
  mc (sv patched) = power_on (mkRam [0x58] 4096) /\ tb_jmp_cache (tc (sv patched)) !! 0 = None.
Proof.
  destruct (write_packet small_tcg (fun _ _ => true) 1 (fun _ => false) zero_stack 0 [0x58] translated) as (s' & E & _ & _ & _ & _ & Hs).
  - apply length_replicate.
  - apply translated_ok.
  - done.
  - bytes.
  - split; [by vm_compute|simpl; lia|by vm_compute|by vm_compute].
  - assert (patched = s') as Ep by (unfold patched, patch; by rewrite E). rewrite Ep. split; [exact E|]. split; [exact (st_mc _ _ _ Hs)|].
    rewrite <- Ep. by vm_compute.
Qed.

Lemma session_consistent_witness :
  gdb_chr_receive small_tcg (fun _ => false) zero_stack patch translated = Ok patched /\
  tb_jmp_cache (tc (sv translated)) !! 0 = Some 0%nat /\ tb_jmp_cache (tc (sv patched)) !! 0 = None /\
  cpu_exec_result (cpu_exec small_tcg (step_room (fun _ _ => true) (sv patched)) [] 1 1 Z.of_nat (mc (sv patched)) (tc (sv patched))) =
  run 1 (step_room (fun _ _ => true) (sv patched)) [] 1 (mc (sv patched)).
Proof.
  destruct patched_ok as (E & Em & Ej). split; [exact E|]. split; [by vm_compute|]. split; [exact Ej|].
  destruct (session_consistent small_tcg (fun _ _ => true) 1 (fun _ => false) zero_stack patch translated _ translated_ok E) as [_ H].
  apply (H 1%nat [] Z.of_nat); [|by rewrite Em]. rewrite Em.
  intros p insn Hd. by apply (byte_end 0x58 p).
Defined.

(** C23: memory written by the debugger is memory read back.  The packet
    [M addr,len:data], for a range of RAM within one page, is acknowledged and
    answered [OK]; the bytes are then at four times the address given (the
    debugger counts in words) and no other byte has changed; the packet
    [m addr,len] is answered with the same digits. *)
Theorem memory_written_read g `{!TcgLimits g, !FlatCode g} room e other stack addr data s :
  length stack = MAX_PACKET_LENGTH -> stub_ok g room e s -> idle s -> Forall is_u8 data -> in_page addr (length data) s ->
  let a := debug_addr addr in let r := ram (mc (sv s)) in
  exists s1 s2, gdb_chr_receive g other stack (packet (write_text addr data)) s = Ok s1 /\
  gdb_chr_receive g other stack (codes "+" ++ packet (read_text addr (Z.of_nat (length data)))) s1 = Ok s2 /\
  sent s2 = sent s ++ codes "+" ++ packet (codes "OK") ++ codes "+" ++ packet (hex_of data) /\
  stub_ok g room e s2 /\ idle s2 /\
  forall i, nth i (ram_bytes (ram (mc (sv s2)))) 0 =
    if (a <=? Z.of_nat i) && (Z.of_nat i <? a + Z.of_nat (length data)) then nth (i - Z.to_nat a) data 0
    else nth i (ram_bytes r) 0.
Proof.
  intros Hst Hs Hi Hd Hp a r. destruct (write_packet g room e other stack addr data s Hst Hs Hi Hd Hp) as (s1 & E1 & Hs1 & Hi1 & T1 & L1 & W).
  pose proof Hp as [Ha Hl Hpg Hr]. fold a r in W, Hr, Hpg. pose proof (debug_addr_pos addr) as Ha0. fold a in Ha0.
  assert (address_space_read a (length data) (sv s1) = data) as Er by (by apply (read_written a data (sv s))).
  assert (ram_size (ram (mc (sv s1))) = ram_size r) as Esz by (rewrite (st_mc _ _ _ W); apply write_rom_size).
  assert (in_page addr (length data) s1) as Hp1 by (split; [done|done|done|rewrite Esz; exact Hr]).
  destruct (read_packet g room e other stack addr (length data) s1 Hst Hs1 Hi1 Hp1) as (s2 & E2 & Hs2 & Hi2 & T2 & V2);
    [fold a; by rewrite Er|rewrite L1; by vm_compute|]. fold a in T2. rewrite Er, T1 in T2.
  exists s1, s2. split; [exact E1|]. split; [exact E2|]. split; [rewrite T2, <- !app_assoc; done|]. split; [exact Hs2|]. split; [exact Hi2|].
  intros i. rewrite V2, (st_mc _ _ _ W). cbn [ram set_ram]. rewrite write_rom_at by done.
  destruct (Z.leb_spec a (Z.of_nat i)), (Z.ltb_spec (Z.of_nat i) (a + Z.of_nat (length data))), (Z.ltb_spec (Z.of_nat i) (ram_size r));
    cbn [andb]; try done. lia.
Qed.

Lemma memory_written_read_witness : exists s1 s2,
  gdb_chr_receive small_tcg (fun _ => false) zero_stack (codes "$M3f,4:deadbeef#a0") translated = Ok s1 /\
  gdb_chr_receive small_tcg (fun _ => false) zero_stack (codes "+$m3f,4#66") s1 = Ok s2 /\
  sent s2 = codes "+$OK#9a+$deadbeef#20" /\ nth 252 (ram_bytes (ram (mc (sv s2)))) 0 = 0xde.
Proof.
  destruct (memory_written_read small_tcg (fun _ _ => true) 1 (fun _ => false) zero_stack 0x3f [0xde; 0xad; 0xbe; 0xef] translated)
    as (s1 & s2 & E1 & E2 & T & _ & _ & H).
  - apply length_replicate.
  - apply translated_ok.
  - done.
  - bytes.
  - split; [by vm_compute|simpl; lia|by vm_compute|by vm_compute].
  - exists s1, s2. split; [exact E1|]. split; [exact E2|]. split; [exact T|]. rewrite H. reflexivity.
Defined.

(** C36: framing.  The receiver of a stopped machine that waits for a command
    takes any text without [#] that fits its buffer: framed as the stub frames
    its own packets it is acknowledged and handled, as a string in the buffer;
    with any other checksum a minus is sent and the receiver waits for a command
    again.  Then the buffer holds the text, its index and checksum are those of
    the refused packet, a reply kept for retransmission is dropped, and all the
    rest is as before: the machine, the single-step flags, the system call
    state, the thread query, the signal, the connection, the monitor's output. *)
Theorem packet_framing g `{!TcgLimits g, !FlatCode g} room e other stack t s :
  stub_ok g room e s -> idle s -> (length t <= MAX_PACKET_LENGTH - 1)%nat -> 35 ∉ t ->
  gdb_chr_receive g other stack (packet t) s =
    (let* (st, s2) := gdb_handle_packet g other stack (line_of t (line_buf (gs s)))
                        (put_buffer (codes "+") (received t (Z.land (i8_sum t) 0xff) s)) in
     Ok (with_gs (set_state st) s2)) /\
  forall h1 h2, let csum := Z.lor (Z.shiftl (fromhex h1) 4) (fromhex h2) in
    csum <> Z.land (i8_sum t) 0xff ->
    gdb_chr_receive g other stack (codes "$" ++ t ++ codes "#" ++ [h1; h2]) s =
      Ok (mkStub
        (mkGDB RS_IDLE (line_of t (line_buf (gs s))) (length t) csum [] (query_cpu (gs s)) (signal (gs s))
          (client_connected (gs s)))
        (sstep_flags s) (use_cont s) (gdb_syscall_mode s) (sv s) (sent s ++ codes "-") (to_monitor s)).
Proof.
  intros Hs Hi Hl Ht. split; [by apply (receive_packet g room e)|]. intros h1 h2 csum Hne.
  pose proof (receive_frame g room e other stack t h1 h2 s Hs Hi Hl Ht) as E. cbv zeta in E.
  fold csum in E. rewrite (proj2 (Z.eqb_neq _ _) Hne) in E. exact E.
Qed.

Lemma packet_framing_witness :
  gdb_chr_receive small_tcg (fun _ => false) zero_stack (codes "$T1#85") translated =
    Ok (with_gs (set_state RS_IDLE) (reply "OK" (put_buffer (codes "+") (received (codes "T1") 0x85 translated)))) /\
  exists s', gdb_chr_receive small_tcg (fun _ => false) zero_stack (codes "$T1#00") translated = Ok s' /\
    sent s' = codes "-" /\ sv s' = sv translated /\ sstep_flags s' = sstep_flags translated.
Proof.
  destruct (packet_framing small_tcg (fun _ _ => true) 1 (fun _ => false) zero_stack (codes "T1") translated) as [H1 H2].
  - apply translated_ok.
  - done.
  - unfold MAX_PACKET_LENGTH. simpl length. lia.
  - intros H. repeat (apply elem_of_cons in H as [H|H]; [discriminate H|]). by apply not_elem_of_nil in H.
  - split; [exact H1|]. eexists. split; [apply (H2 48 48); by vm_compute|]. by split_and!.
Defined.

(** ** Where the code departs from what it means to do *)

(** A write that goes on in the next page puts its second part over its first. *)
Lemma page_crossing_overwrites :
  match cpu_memory_rw_debug (fun _ => false) 0x3f [1; 2; 3; 4; 5; 6; 7; 8] 8 true (sv translated) with
  | Ok (_, _, v) => address_space_read 252 8 v
  | _ => []
  end = [5; 6; 7; 8; 0; 0; 0; 0].
Proof. vm_compute. reflexivity. Qed.

(** [G00] has one byte for the four of the first register: [len] passes below
    zero, and every register is written with what is on the stack. *)
Lemma short_packet_writes_all :
  match cmd_write_registers (replicate MAX_PACKET_LENGTH 7) [48; 48; 0] translated with
  | Ok s => (pc (cpu (mc (sv s))), cur_addr (cpu (mc (sv s))), nth 138 (data_bus (cpu (mc (sv s)))) 0)
  | _ => (0, 0, 0)
  end = (0x07070700, 0x07070707, 0x07070707).
Proof. vm_compute. reflexivity. Qed.

(** Of 2050 bytes the monitor writes, 2048 are sent. *)
Lemma monitor_output_cut :
  match gdb_monitor_write 3 (replicate 2050 65) translated with
  | Ok (_, s) => length (sent s)
  | _ => 0%nat
  end = (2 * 2048 + 2 * 5)%nat.
Proof. vm_compute. reflexivity. Qed.
