(* ===== verification/LoaderTheorems.v ===== *)
(** * Properties of the loaders of binary images

    The statements about ELF files and U-Boot images ([elf_ops.h],
    [hw/core/loader.c]) from the file to the machine that starts, and about the
    table of symbols that [disas.c] searches. *)

From stdpp Require Import base numbers list option strings gmap sorting.
From Stdlib Require Import ZArith Lia Sorted.
From S2P Require Import Prelude Words Bignum BignumSpec BignumHeap BignumStr Cpu Arithm GuestMem Loader Elf Uboot ElfSpec Helpers RunSpec Board.

(** ** ELF files *)

(** The low half of the entry is that of the header, in both classes. *)
Lemma entry_low c z : c = elf32 \/ c = elf64 -> u32 (elf_sword c z) = u32 z.
Proof.
  unfold u32, elf_sword, u64. intros [-> | ->]; cbn [SZ elf32 elf64].
  - change (2 ^ (8 * Z.of_nat 4)) with (2 ^ 32). dm.
  - change (2 ^ (8 * Z.of_nat 8)) with (2 ^ 64). dm.
Qed.

(** C34: an ELF file of this target, of either class, is loaded.  If its
    segments lie in the file and do not overlap in memory, the machine starts:
    each segment is in memory at four times its physical address, as far as
    memory reaches, and zeros are elsewhere; the CPU has been reset to the entry
    point with an empty stack.  The end of the program stays unset. *)
Theorem elf_image_loaded h `{!HostLaws h} f c ehdr phs la gas ramsize :
  readable_file h f -> elf_file f translate_kaddr c ehdr phs ->
  exists b, start h (Some (Some f)) la gas ramsize = Ok b /\
  segments_in f (filter loadable phs) (ram (bm b)) /\ ram_size (ram (bm b)) = ramsize /\
  pc (cpu (bm b)) = u32 (e_entry ehdr) /\ sp (cpu (bm b)) = 2 ^ 64 - 1 /\ GasLimit (cpu (bm b)) = gas /\
  end_pc (ldr b) = 0 /\ elfSize (cpu (bm b)) = 0.
Proof.
  intros Hf Ha. destruct (start_elf h f c ehdr phs la gas ramsize Hf Ha) as (b & r & E & He & Hr & Hs & saved & Em).
  exists b. rewrite Em. split; [exact E|]. split; [exact Hs|]. split; [exact Hr|]. split.
  - transitivity (u32 (elf_sword c (e_entry ehdr))); [reflexivity|]. apply entry_low. exact (ef_class _ _ _ _ _ Ha).
  - by split_and!.
Qed.

(** A 32-bit file: a segment of four bytes at word 4 with room for eight, a
    table of three symbols (a function, a variable, a function without a size)
    and their names. *)
Definition small_symbol (name value size info : Z) : list Z :=
  le_bytes 4 name ++ le_bytes 4 value ++ le_bytes 4 size ++ [info; 0] ++ le_bytes 2 1.

Definition small_section (type off size link : Z) : list Z :=
  le_bytes 4 0 ++ le_bytes 4 type ++ le_bytes 4 0 ++ le_bytes 4 0 ++ le_bytes 4 off ++ le_bytes 4 size ++ le_bytes 4 link ++
  le_bytes 4 0 ++ le_bytes 4 0 ++ le_bytes 4 0.

Definition small_elf_bytes : list Z :=
  [0x7f; 69; 76; 70; 1; 1; 1] ++ replicate 9 0 ++
  le_bytes 2 2 ++ le_bytes 2 EM_PPDL ++ le_bytes 4 1 ++ le_bytes 4 16 ++ le_bytes 4 52 ++ le_bytes 4 88 ++ le_bytes 4 0 ++
  le_bytes 2 52 ++ le_bytes 2 32 ++ le_bytes 2 1 ++ le_bytes 2 40 ++ le_bytes 2 2 ++ le_bytes 2 1 ++
  le_bytes 4 PT_LOAD ++ le_bytes 4 84 ++ le_bytes 4 4 ++ le_bytes 4 4 ++ le_bytes 4 4 ++ le_bytes 4 8 ++ le_bytes 4 5 ++ le_bytes 4 1 ++
  [0x60; 1; 0; 0] ++
  small_section SHT_SYMTAB 168 48 1 ++ small_section 3 216 11 0 ++
  small_symbol 6 20 4 2 ++ small_symbol 1 16 2 1 ++ small_symbol 1 16 0 2 ++
  [0] ++ codes "main" ++ [0] ++ codes "tail" ++ [0].

Definition small_elf : image := mkImage small_elf_bytes 227.

Definition small_ehdr : elfhdr := Eval vm_compute in ehdr_of elf32 (bytes_at small_elf 0 52).
Definition small_phdr : elf_phdr := Eval vm_compute in phdr_of elf32 (bytes_at small_elf 52 32).

Lemma small_readable : readable_file small_host small_elf.
Proof. split; [by vm_compute|by vm_compute|done]. Qed.

Lemma small_elf_file : elf_file small_elf translate_kaddr elf32 small_ehdr [small_phdr].
Proof.
  split; [by left|by vm_compute|by vm_compute|by vm_compute|by vm_compute| |by vm_compute|by vm_compute|by vm_compute|..].
  - split; [by vm_compute|]. split; [by vm_compute|].
    assert (section_table small_elf elf32 false small_ehdr =
      [mkShdr 0 2 0 0 168 48 1 0 0 0; mkShdr 0 3 0 0 216 11 0 0 0 0]) as -> by (by vm_compute).
    intros s [-> | ->%list_elem_of_singleton]%elem_of_cons; by vm_compute.
  - change (filter loadable [small_phdr]) with [small_phdr]. constructor; [|constructor].
    split; [right; by vm_compute|by vm_compute|by vm_compute|by vm_compute|by vm_compute].
  - change (filter loadable [small_phdr]) with [small_phdr]. repeat constructor.
  - by vm_compute.
Qed.

Lemma elf_image_loaded_witness : exists b,
  start small_host (Some (Some small_elf)) KERNEL_LOAD_ADDR 100000 4096 = Ok b /\
  pc (cpu (bm b)) = 16 /\ nth 16 (ram_bytes (ram (bm b))) 0 = 0x60 /\ nth 20 (ram_bytes (ram (bm b))) 0 = 0.
Proof.
  destruct (elf_image_loaded small_host small_elf elf32 small_ehdr [small_phdr] KERNEL_LOAD_ADDR 100000 4096 small_readable small_elf_file)
    as (b & E & [Hd Hz] & Hr & Hp & _). exists b. split; [exact E|]. split; [exact Hp|]. split.
  - pose proof (Hd small_phdr 0%nat ltac:(by left) ltac:(vm_compute; lia) ltac:(rewrite Hr; by vm_compute)) as H0.
    replace (Z.to_nat (translate_kaddr (p_paddr small_phdr)) + 0)%nat with 16%nat in H0 by (by vm_compute). rewrite H0. by vm_compute.
  - apply Hz. intros ph ->%list_elem_of_singleton. change (p_filesz small_phdr) with 4.
    change (translate_kaddr (p_paddr small_phdr)) with 16. lia.
Defined.

(** ** Symbols *)

(** C37: the symbols of a file.  If the tables of symbols and names lie in the
    file, and no two functions of it overlap, the loader adds a table in which
    every address is found that lies in a function: its name is given if it is
    not empty, a function without a size going on to the next one.  For other
    addresses the tables loaded before are searched. *)
Theorem symbol_found h `{!HostLaws h} f c must_swab lsb ehdr symtab strtab p y :
  readable_file h f -> c = elf32 \/ c = elf64 -> has_symbols f c must_swab ehdr symtab strtab ->
  let fs := functions c must_swab lsb (symbols_in f c symtab) in
  let names := bytes_at f (sh_offset strtab) (sh_size strtab) in
  apart c fs ->
  exists fd info, load_symbols h c must_swab lsb ehdr (mkFile f p) y = Ok (0, fd, info :: y) /\
  forall a, (forall s name, s ∈ fs -> covers fs s a -> name_of names s = Ok name -> hd 0 name <> 0 ->
               lookup_symbol (info :: y) a = Ok name) /\
            ((forall s, s ∈ fs -> ~ covers fs s a) -> lookup_symbol (info :: y) a = lookup_symbol y a).
Proof.
  intros Hf Hc Hs fs names Ha. destruct (class_sizes c Hc) as (Hc1 & Hc2 & _).
  destruct (load_symbols_ok h f Hf c must_swab lsb (conj Hc1 Hc2) ehdr symtab strtab p y Hs) as (t & fd & E & Ht & Hsort).
  exists fd, (mkSyminfo c (fix_sizes c t) names). split; [exact E|]. intros a. unfold lookup_symbol. cbn [lookup_symbol_loop]. split.
  - intros s name Hin Hcov En Hn. rewrite (lookup_found c t fs s a names Ht Hsort Ha Hin Hcov), En. cbn [obind].
    by rewrite (proj2 (Z.eqb_neq _ _) Hn).
  - intros Hno. by rewrite (lookup_none c t fs a names Ht Hsort Ha Hno).
Qed.

Definition small_symtab : elf_shdr := mkShdr 0 2 0 0 168 48 1 0 0 0.
Definition small_strtab : elf_shdr := mkShdr 0 3 0 0 216 11 0 0 0 0.

Lemma symbol_found_witness : exists fd info,
  load_symbols small_host elf32 false true small_ehdr (mkFile small_elf 52) [] = Ok (0, fd, [info]) /\
  lookup_symbol [info] 18 = Ok (codes "main" ++ [0] ++ codes "tail" ++ [0]) /\ lookup_symbol [info] 21 = Ok (codes "tail" ++ [0]) /\
  lookup_symbol [info] 24 = Ok [0].
Proof.
  destruct (symbol_found small_host small_elf elf32 false true small_ehdr small_symtab small_strtab 52 []) as (fd & info & E & H).
  - apply small_readable.
  - by left.
  - split; by vm_compute.
  - split; [repeat constructor; by vm_compute|]. vm_compute functions. constructor; [|constructor; constructor].
    constructor; [|constructor]. right. cbn. unfold before. cbn. lia.
  - exists fd, info. split; [exact E|]. set (fs := functions elf32 false true (symbols_in small_elf elf32 small_symtab)) in H.
    assert (fs = [mkSym 6 20 4 2 0 1; mkSym 1 16 0 2 0 1]) as Ef by (by vm_compute). rewrite Ef in H. split_and!.
    + apply (proj1 (H 18) (mkSym 1 16 0 2 0 1)); [right; by left| |done|done].
      split; [by vm_compute|]. split; [intros s' [-> | ->%list_elem_of_singleton]%elem_of_cons; cbn; lia|].
      eexists. split; [by left|done].
    + apply (proj1 (H 21) (mkSym 6 20 4 2 0 1)); [by left| |done|done].
      split; [by vm_compute|]. split; [intros s' [-> | ->%list_elem_of_singleton]%elem_of_cons; cbn; lia|done].
    + apply (proj2 (H 24)). intros s [-> | ->%list_elem_of_singleton]%elem_of_cons (H1 & H2 & H3); [cbn in H3; lia|].
      destruct H3 as (s' & [-> | ->%list_elem_of_singleton]%elem_of_cons & H3); cbn in H3; lia.
Defined.

(** ** U-Boot images *)

(** A kernel that is not compressed. *)
Record uboot_kernel (f : image) (u : uboot_image_header) : Prop := {
  uk_header : in_file f 0 64;
  uk_fields : u = bswap_uboot_header (uboot_header_of (bytes_at f 0 64));
  uk_magic : bytes_at f 0 4 = [0x27; 0x05; 0x19; 0x56];
  uk_type : ih_type u = IH_TYPE_KERNEL;
  uk_comp : ih_comp u = IH_COMP_NONE;
  uk_data : in_file f 64 (ih_size u);
  uk_load : 0 <= ih_load u /\ ih_load u + ih_size u < 2 ^ 64
}.

Lemma bytes_at_head f n : in_file f 0 n -> 4 <= n -> take 4 (bytes_at f 0 n) = bytes_at f 0 4.
Proof. intros _ Hn. unfold bytes_at. rewrite take_take. f_equal. lia. Qed.

Lemma load_elf_uboot h f u tr l y : readable_file h f -> uboot_kernel f u ->
  load_elf h (Some f) tr false EM_PPDL true l y = Ok (mkElf ELF_LOAD_NOT_ELF None 0 0 l y).
Proof.
  intros Hf []. assert (in_file f 0 16) as H16 by (destruct uk_header0 as (_ & _ & ?); unfold in_file; lia).
  unfold load_elf. rewrite (read_exactly_in h f Hf) by done.
  pose proof (bytes_at_head f 16 H16 ltac:(lia)) as E. rewrite uk_magic0 in E.
  destruct (bytes_at f 0 16) as [|b0 l0]; [discriminate E|]. injection E as -> _. reflexivity.
Qed.

Lemma load_uimage_kernel h f u l : readable_file h f -> uboot_kernel f u -> roms_loaded l = false ->
  load_uimage h (Some f) l = Ok (mkUimage (ih_size u) (Some (ih_ep u)) (Some (ih_load u)) (Some (ih_os u =? IH_OS_LINUX))
    (mkLoader (insert_before (mkRom (ih_load u) (ih_size u) (ih_size u) (g_data (bytes_at f 64 (ih_size u))) false false false) (roms l))
       false (end_pc l)) []).
Proof.
  intros Hf [] Hl. pose proof (rf_size _ _ Hf) as Hz. unfold MAX_RW_COUNT in Hz. pose proof uk_data0 as (_ & Hs & He).
  unfold load_uimage, load_uboot_image. pose proof (read_exactly_in h f Hf 0 64 uk_header0) as Er. unfold read_exactly in Er.
  destruct (read 64 (mkFile f 0)) as [[b|] fd]; [|discriminate Er]. destruct (_ =? 64) eqn:E64; [|discriminate Er].
  injection Er as -> ->. apply Z.eqb_eq in E64.
  assert (length (bytes_at f 0 64) = 64%nat) as -> by lia. change (64 <? 4)%nat with false. change (64 <? 64)%nat with false. cbv iota zeta.
  rewrite <- uk_fields0. assert (ih_magic u = IH_MAGIC) as ->.
  { rewrite uk_fields0. pose proof (bytes_at_head f 64 uk_header0 ltac:(lia)) as E. rewrite uk_magic0 in E.
    destruct (bytes_at f 0 64) as [|b0 [|b1 [|b2 [|b3 l0]]]]; try discriminate E. injection E as -> -> -> ->. by vm_compute. }
  rewrite Z.eqb_refl, uk_type0. change (negb true) with false. change (negb (IH_TYPE_KERNEL =? IH_TYPE_KERNEL)) with false. cbv iota.
  unfold image_target. rewrite uk_type0, uk_comp0. cbn [obind Z.eqb IH_TYPE_KERNEL IH_COMP_NONE Pos.eqb].
  unfold image_data. rewrite (rf_malloc _ _ Hf) by lia. cbn [negb Z.add]. rewrite (read_exactly_in h f Hf) by done. cbn [fst obind].
  unfold rom_add_blob, rom_insert. rewrite Hl, bytes_at_length by done. cbn [of_abort obind]. by rewrite i32_id by lia.
Qed.

(** A kernel in a U-Boot image is in memory at its load address when the
    machine starts, and the CPU runs from its entry point. *)
Theorem uimage_loaded h f u la gas ramsize : readable_file h f -> uboot_kernel f u ->
  exists b, start h (Some (Some f)) la gas ramsize = Ok b /\ pc (cpu (bm b)) = u32 (ih_ep u) /\
  forall j : nat, Z.of_nat j < ih_size u -> ih_load u + Z.of_nat j < ramsize ->
    nth (Z.to_nat (ih_load u) + j) (ram_bytes (ram (bm b))) 0 = nth j (bytes_at f 64 (ih_size u)) 0.
Proof.
  intros Hf Hk. pose proof Hk as []. pose proof uk_data0 as (_ & Hs & _). pose proof (bytes_at_length f 64 (ih_size u) uk_data0) as Hl.
  set (rom := mkRom (ih_load u) (ih_size u) (ih_size u) (g_data (bytes_at f 64 (ih_size u))) false false false).
  assert (rom_ok rom) as Hok by (repeat split; cbn [rom rom_addr romsize datasize rom_data]; rewrite ?g_data_bytes; try lia; tauto).
  destruct (rom_load_apart [rom] 0) as (l' & El); [by repeat constructor|by constructor|by repeat constructor|by repeat constructor| |].
  { constructor; [cbn; lia|constructor]. }
  destruct (start_loaded h (Some f) la gas ramsize (mkLoader [rom] false 0) (ih_ep u) [] l') as (b & E & _ & _ & saved & Em).
  - intros m. unfold load_kernel. cbn [ldr syminfos bm]. rewrite (load_elf_uboot h f u) by done. cbn [obind er_ret er_loader er_syms er_entry].
    change (ELF_LOAD_NOT_ELF <? 0) with true. cbv iota. rewrite (load_uimage_kernel h f u) by done. cbn [obind ui_ret ui_ep ui_loader ui_out].
    rewrite print_nil, (proj2 (Z.ltb_ge _ _)) by lia. cbn [obind]. by rewrite (proj2 (Z.ltb_ge _ _)) by lia.
  - exact El.
  - exists b. rewrite Em. split; [exact E|]. split; [reflexivity|]. intros j Hj Hr. cbn [ram].
    pose proof (rom_reset_loaded [rom] l' 0 (mkRam [] ramsize) rom j El) as Hd. cbn [rom_addr rom_data rom] in Hd. rewrite !g_data_bytes in Hd.
    apply Hd; [by constructor|by left|lia|exact Hr].
Qed.

Definition small_uimage : image :=
  mkImage ([0x27; 0x05; 0x19; 0x56] ++ replicate 8 0 ++ rev (le_bytes 4 2) ++ rev (le_bytes 4 8) ++ rev (le_bytes 4 8) ++ replicate 4 0 ++
    [5; 0; 2; 0] ++ replicate 32 0 ++ [0x60; 7]) 66.

Lemma uimage_loaded_witness : exists b,
  start small_host (Some (Some small_uimage)) KERNEL_LOAD_ADDR 100000 4096 = Ok b /\ pc (cpu (bm b)) = 8 /\
  nth 9 (ram_bytes (ram (bm b))) 0 = 7.
Proof.
  destruct (uimage_loaded small_host small_uimage (bswap_uboot_header (uboot_header_of (bytes_at small_uimage 0 64))) KERNEL_LOAD_ADDR 100000 4096)
    as (b & E & Hp & Hd).
  - split; [by vm_compute|by vm_compute|done].
  - split; by vm_compute.
  - exists b. split; [exact E|]. split; [rewrite Hp; by vm_compute|].
    assert (ih_load (bswap_uboot_header (uboot_header_of (bytes_at small_uimage 0 64))) = 8) as El by (by vm_compute).
    assert (ih_size (bswap_uboot_header (uboot_header_of (bytes_at small_uimage 0 64))) = 2) as Es by (by vm_compute).
    rewrite El, Es in Hd. specialize (Hd 1%nat ltac:(lia) ltac:(lia)). change (Z.to_nat 8 + 1)%nat with 9%nat in Hd. rewrite Hd. by vm_compute.
Defined.
